(* ===== verification/_CoqProject ===== *)
-Q . S2P
Prelude.v
KMath.v
Chain.v
Pmm.v
PmmSpec.v
PmmLemmas.v
PmmState.v
PmmProofs.v
PmmInit.v
PmmProps.v
PmmRuns.v
Vmm.v
VmmProofs.v
VmmPmm.v
CString.v
Klist.v
Kmap.v
KmapProofs.v
Printf.v
PrintfProofs.v
Layout.v
Tty.v
Gdt.v
Interrupts.v
Kmm.v
KmmLists.v
KmmPages.v
KmmSpec.v
KmmProofs.v
KmmPmm.v
KmmProps.v
KmmRuns.v
Heap.v
Keyboard.v
Mmu.v
Boot.v
Reserve.v
Machine.v
Supply.v
MachineRun.v
Timer.v
Task.v
TaskProofs.v
TaskBoot.v
Sync.v
SyncProofs.v
SyncProps.v
PrintTasks.v
PrintTasksProofs.v
Vbe.v
Multiboot.v
GuiTerminal.v
Kernel.v
KernelBoot.v
KernelText.v
Console.v
ConsoleProofs.v
Dispatch.v
KernelRun.v
LoaderData.v
KernelPrinting.v
KernelReports.v
