(* ===== verification/Prelude.v ===== *)
(** * Verification of the Chao-s-OS kernel

    A model of the C code of the kernel under src/kernel and of its library under
    src/libc, and the theorems that make it correct, from the frame allocator up to
    a text on the screen.

    ** The program and its parts

    The boot loader enters the kernel with paging off.  [kernel_main_init]
    (kernel/kernel/kernel.c) turns paging on over provisional tables and has vmm.c
    build the linear mapping of the first 896 MiB at [PAGE_OFFSET]; [kernel_main]
    then drops the provisional mapping and starts, in this order, segment
    descriptors (gdt.c), interrupt descriptors and controllers (idt.c, interrupt.c),
    the VGA text terminal (tty.c), the frame allocator (pmm.c), [kmalloc] (kmm.c),
    the timer (timer.c), tasks and scheduler (task.c, schedule.c with list.h and
    map.c), the frame buffer (vbe.c), font and graphical terminal (psf.c,
    terminal.c) and the keyboard (keyboard.c).  It then waits for interrupts: the
    clock calls the timers, one of which copies the back buffer to the screen and
    one of which runs the scheduler; the keyboard stores what is typed.  [printf]
    draws on the graphical terminal under a mutex (sync.h).

    ** Files and code

    Words of the machine are [Z] with their wrap-around written out ([u8], [u16],
    [u32], [s32] below); structures are records, arrays and memory are finite maps
    from indices or addresses, of which what was never written reads as 0; a pointer
    is its address, 0 being null.  A function of the source is a definition of the
    same name on the state of its file, and [option] where it may fail, not
    terminate or put its caller to sleep.

    - Prelude: integers, C loops, arrays, tactics.  KMath: kernel/math.c.  Chain:
      doubly linked lists of indices.
    - Pmm: pmm.c, the buddy system, on the zone descriptor and the frame table.
      PmmSpec states its invariant (a tiling of the zone by free and handed-out
      blocks that the free lists enumerate), PmmLemmas, PmmState and PmmProofs
      prove it kept, PmmInit is the initialisation, PmmProps has the theorems,
      PmmRuns the runs outside their hypotheses.
    - Vmm: vmm.c.  VmmProofs has its theorems against the interface of a page
      source, which VmmPmm implements by pmm.c.  Mmu is the translation by the
      hardware ([walk]), and relates it to the entries that vmm.c writes.
    - Kmm: kmm.c, managers of slices in eight classes.  KmmSpec states the
      interface to the frame allocator ([FrameSourceLaws]) and the invariant with
      its set of live blocks; KmmLists, KmmPages, KmmProofs and KmmProps prove it,
      KmmPmm implements the interface, KmmRuns has runs outside it.  Heap is the
      interface of [kmalloc] for small clients.
    - Reserve, Supply, Machine, MachineRun: heap and page tables over one frame
      allocator, the [machine]; each sees the frames of the other as reserved.
    - CString: libc's string functions.  Klist: klib/list.h.  Kmap, KmapProofs:
      klib/map.c.  Printf, PrintfProofs: stdio/printf.c, against the interface of
      what it prints to ([Sink], [SinkLaws]).
    - Gdt, Interrupts: gdt.c, idt.c and interrupt.c, with the readings of the
      processor and of the two interrupt controllers.  Keyboard: keyboard.c.
      Timer: timer.c.
    - Task, TaskProofs, TaskBoot: task.c, schedule.c and the context switch.  Sync,
      SyncProofs, SyncProps: sync.h and klib/queue.h, with the interleavings of
      tasks and ticks as a step relation.  PrintTasks, PrintTasksProofs: [printf] as
      its steps, taken by several tasks in any interleaving.
    - Layout: text on a scrolling screen, shared by Tty (tty.c) and GuiTerminal
      (terminal.c, psf.c).  Vbe: vbe.c.  Multiboot: the packed structures of
      multiboot.h and vbe.h in memory, and the walk over the memory map.
    - Boot: [kernel_main_init] and the switch of directories.  Kernel: the state of
      everything and [kernel_main].  KernelBoot: its run.  KernelText: text on the
      running kernel.  Console: [putchar], [print], [printf] on the terminal,
      [abort] and the reports of interrupt.c and pmm.c; ConsoleProofs, what they
      print.  Dispatch: interrupts of the running kernel; KernelRun and
      KernelReports, what they lead to.  LoaderData: what the loader left stays
      readable behind its pointer, so that the other files take it as [loader].
      KernelPrinting: the tasks of PrintTasks on the kernel's terminal.

    ** What the theorems show

    The kernel as a whole: it starts ([kernel_main_boots]) into a state in which
    everything allocated lies apart and is mapped, interrupts reach their handlers
    and the terminal is ready; from there what is written, printed or reported
    appears on the terminal and, sixteen ticks later, in the screen memory, while
    scheduler and keyboard go on ([text_reaches_screen], [printf_shows],
    [memory_map_shows], [fault_reaches_screen]); the data of the boot loader is read
    as it was laid out, at every time ([loader_data_stays]).  Memory: [kmalloc] and [map] on the
    shared allocator never hand out overlapping memory ([memory_shared]); the buddy
    system, the slice allocator and the page tables keep their invariants and do
    what they promise on every branch.  Tasks: round robin, creation and exit, the
    ticks of the timers, mutual exclusion in every reachable interleaving, waiting
    in order, whole pieces of text from tasks that print at once
    ([tasks_print_whole]), a queue that is first in, first out between calls that
    nothing interrupts.  Data: the hash table refines a finite
    map; the string functions, the number formats, the descriptors and the keyboard
    have round trips or reference definitions; the two terminals show the end of the
    text as it is laid out.

    Interfaces join the parts: [FrameSource] (kmm.c to pmm.c), [PageSource] (vmm.c to
    pmm.c), [Heap] (clients of [kmalloc]), [Paging] (vbe.c to vmm.c), [Sink]
    (printf.c to the terminal).  A theorem against an interface holds for the kernel
    because the instance for the code behind it is proved to keep its laws.

    ** Bounds and fuel

    Loops without a structural measure take fuel, and termination is proved: 32 turns
    for [power_of_2]; 11 digits of a word; the length of the format for [printf];
    the number of managers and 2 for [kmalloc], which the number of frames bounds in
    [heap_fuel]; the number of timers for a tick (two in the running kernel); 10
    probes at least in the hash table, whose [fuel] theorems state what they need of
    its capacity; loops over the zone run over its pages, the walk over the memory map
    over its entries.  [kernel_main_boots] needs a
    usable region with 18 blocks of 4 MiB behind the kernel that ends inside the
    linear mapping, a graphics mode of 32 bits per pixel without padding and of whole
    pages up to 4 MiB, and a font of at most the size of the screen.

    ** Conditions

    A theorem states what the code needs in order to be right, and a lemma next to it
    (under Outside the contract, or in a Runs file) what the code does without it:
    frames run out ([exhausted_requests], [map_no_page]), fewer than 1024 frames
    ([small_zone_overrun]), stale predecessors in the free lists
    ([stale_predecessor_double_allocation]), slices of a linked page released while
    the page is partly full, or blocks above 2048 bytes (KmmRuns), a crowded hash
    table ([probes_miss_free_slots], [tombstone_brings_back_old_value],
    [find_diverges_after_deletions]), the first timer unregistered, a task that
    sleeps while it is [_next_task] ([sleeping_next_task]), ticks inside the calls of
    the queue ([queue_gives_stale], [producers_overwrite]), [%c]
    ([char_prints_last_string_again]), lines of the screen with padding
    ([padded_roll]), more than 512 characters typed ([buffer_overrun]).

    ** What is not modelled

    Assembly (boot.S, the interrupt stubs and the context switch, of which the effect
    on the saved registers is modelled) and port accesses, which are recorded in
    order or are arguments; [_init], which calls no constructor; the idle loop.
    [kernel_main] runs without interrupts, also after its [sti], where the program
    can already be interrupted by ticks while it sets up the rest.  The frame table is
    a store apart from the frames it describes, so the writes of pmm.c to
    [pages[frames_number]] cannot reach the first frame as they can in the program
    ([sentinel_in_first_frame]).  [memcpy] is the loop as written: the [restrict] of
    its parameters is a condition of its theorem, and the one call on overlapping
    regions (terminal.c:82) follows the order of the loop.  In
    the composed kernel an interrupt is one step between two others: a handler that
    enables interrupts, as [printf] does by releasing its lock, could itself be
    interrupted.  Tasks that are interrupted while they print are the subject of
    PrintTasks, where a conversion and the drawing of a character are one step.  What the tasks
    compute is arbitrary and only shows in their registers.  The processor is taken
    to execute memory accesses in order; there is one of it. *)

From stdpp Require Export base tactics numbers option list gmap.
From Stdlib Require Export ZArith Lia.

#[global] Open Scope Z_scope.

(** ** Machine integers

    A [uintN_t] is a [Z] kept in range by an explicit reduction; [s32] is the
    two's complement reading of a 32-bit word as a C [int]. *)

Definition u8 (x : Z) : Z := x mod 256.
Definition u16 (x : Z) : Z := x mod 65536.
Definition u32 (x : Z) : Z := x mod 4294967296.
Definition s32 (x : Z) : Z :=
  let y := u32 x in if y <? 2147483648 then y else y - 4294967296.

Definition in_u8 (x : Z) : Prop := 0 <= x < 256.
Definition in_u16 (x : Z) : Prop := 0 <= x < 65536.
Definition in_u32 (x : Z) : Prop := 0 <= x < 4294967296.

(** ** C loops

    [for_loop n i body s] is [for (k = i; k < i + n; ++k) s = body(k, s)].
    [while fuel cond body s] is [while (cond(s)) s = body(s)], and [None] when
    [fuel] turns of the loop are not enough; [while_o] is the same for a body
    that may itself not terminate. *)

Fixpoint for_loop {S : Type} (n : nat) (i : Z) (body : Z -> S -> S) (s : S) : S :=
  match n with
  | O => s
  | Datatypes.S n' => for_loop n' (i + 1) body (body i s)
  end.

Fixpoint while_o {S : Type} (fuel : nat) (cond : S -> bool) (body : S -> option S) (s : S)
  : option S :=
  if cond s then
    match fuel with
    | O => None
    | Datatypes.S f => s' ← body s; while_o f cond body s'
    end
  else Some s.

Definition while {S : Type} (fuel : nat) (cond : S -> bool) (body : S -> S) (s : S)
  : option S := while_o fuel cond (fun s => Some (body s)) s.

(** [1 << n] on a 32-bit word. *)
Definition bit (n : Z) : Z := u32 (Z.shiftl 1 n).

(** Memory is zeroed: a word that has never been written reads as 0. *)
#[export] Instance zero_word : Inhabited Z | 0 := populate 0.

(** Read-modify-write of an array element; what has never been written reads as
    the inhabitant of the element type. *)
Definition upd {A : Type} `{Inhabited A} (i : Z) (f : A -> A) (m : gmap Z A) : gmap Z A :=
  <[i := f (m !!! i)]> m.

(** ** Tactics *)

(** Turn the boolean tests of the code into propositions. *)
Ltac reflect_bools :=
  repeat match goal with
  | H : _ && _ = true |- _ => apply andb_prop in H; destruct H
  | H : _ && _ = false |- _ => apply andb_false_iff in H
  | H : _ || _ = true |- _ => apply orb_true_iff in H
  | H : _ || _ = false |- _ => apply orb_false_iff in H; destruct H
  | H : negb _ = true |- _ => apply negb_true_iff in H
  | H : negb _ = false |- _ => apply negb_false_iff in H
  | H : (_ =? _) = true |- _ => apply Z.eqb_eq in H
  | H : (_ =? _) = false |- _ => apply Z.eqb_neq in H
  | H : (_ <? _) = true |- _ => apply Z.ltb_lt in H
  | H : (_ <? _) = false |- _ => apply Z.ltb_ge in H
  | H : (_ <=? _) = true |- _ => apply Z.leb_le in H
  | H : (_ <=? _) = false |- _ => apply Z.leb_gt in H
  end.

(** Case analysis on the boolean comparisons of the goal. *)
Ltac case_bools :=
  repeat match goal with
  | |- context [?x =? ?y] => destruct (Z.eqb_spec x y)
  | |- context [?x <? ?y] => destruct (Z.ltb_spec x y)
  | |- context [?x <=? ?y] => destruct (Z.leb_spec x y)
  end.

(** ** Integer lemmas *)

Lemma u8_small x : in_u8 x -> u8 x = x.
Proof. intros; apply Z.mod_small; auto. Qed.

Lemma u16_small x : in_u16 x -> u16 x = x.
Proof. intros; apply Z.mod_small; auto. Qed.

Lemma u32_small x : in_u32 x -> u32 x = x.
Proof. intros; apply Z.mod_small; auto. Qed.

Lemma u8_range x : in_u8 (u8 x).
Proof. apply Z.mod_pos_bound; lia. Qed.

Lemma u16_range x : in_u16 (u16 x).
Proof. apply Z.mod_pos_bound; lia. Qed.

Lemma u32_range x : in_u32 (u32 x).
Proof. apply Z.mod_pos_bound; lia. Qed.

Create HintDb word.
Create Rewrite HintDb word.
#[export] Hint Resolve u8_range u16_range u32_range : word.
#[export] Hint Rewrite u8_small u16_small u32_small using (unfold in_u8, in_u16, in_u32 in *; lia) : word.

(** Simplify the reductions whose argument is in range. *)
Ltac word_simpl := autorewrite with word in *.

Lemma testbit_small x n k : 0 <= x < 2 ^ n -> n <= k -> Z.testbit x k = false.
Proof.
  intros Hx Hk. destruct (Z.eq_dec x 0) as [->|]; [apply Z.bits_0|].
  assert (0 <= n) by (destruct (Z.lt_ge_cases n 0); [rewrite Z.pow_neg_r in Hx|]; lia).
  apply Z.bits_above_log2; [lia|].
  apply Z.log2_lt_pow2; [lia|]. eapply Z.lt_le_trans; [apply Hx|].
  apply Z.pow_le_mono_r; lia.
Qed.

Lemma pow2_pos n : 0 <= n -> 0 < 2 ^ n.
Proof. intros; apply Z.pow_pos_nonneg; lia. Qed.
#[export] Hint Resolve pow2_pos : word.

Lemma pow2_S n : 0 <= n -> 2 ^ (n + 1) = 2 * 2 ^ n.
Proof. intros; rewrite Z.pow_add_r by lia; lia. Qed.

(** Masking out the low twelve bits: the page number of an address. *)
Lemma land_page_mask x : in_u32 x -> Z.land x 4294963200 = x - x mod 4096.
Proof.
  intros Hx. change 4294963200 with (Z.ldiff (Z.ones 32) (Z.ones 12)).
  assert (Z.land x (Z.ldiff (Z.ones 32) (Z.ones 12)) = Z.ldiff x (Z.ones 12)) as ->.
  { apply Z.bits_inj'; intros k Hk.
    rewrite Z.land_spec, !Z.ldiff_spec.
    destruct (Z.lt_ge_cases k 32).
    - rewrite (Z.ones_spec_low 32) by lia. reflexivity.
    - rewrite (testbit_small x 32 k) by (unfold in_u32 in Hx; lia). reflexivity. }
  rewrite Z.ldiff_ones_r, Z.shiftr_div_pow2, Z.shiftl_mul_pow2 by lia.
  change (2 ^ 12) with 4096. pose proof (Z.div_mod x 4096). lia.
Qed.

(** Toggling bit [k] of a number aligned on [2 ^ k] moves to its buddy. *)
Lemma lxor_pow2_even i k :
  0 <= k -> (2 * 2 ^ k | i) -> Z.lxor i (2 ^ k) = i + 2 ^ k.
Proof.
  intros Hk [q ->].
  assert (Z.land (q * (2 * 2 ^ k)) (2 ^ k) = 0) as Hl.
  { apply Z.bits_inj'; intros n Hn. rewrite Z.land_spec, Z.bits_0, Z.pow2_bits_eqb by lia.
    destruct (Z.eqb_spec k n) as [<-|]; [|apply andb_false_r].
    replace (q * (2 * 2 ^ k)) with (q * 2 ^ (k + 1)) by (rewrite pow2_S by lia; lia).
    rewrite Z.mul_pow2_bits_low by lia. reflexivity. }
  rewrite Z.add_nocarry_lxor; auto.
Qed.

Lemma lxor_pow2_odd i k :
  0 <= k -> (2 * 2 ^ k | i - 2 ^ k) -> Z.lxor i (2 ^ k) = i - 2 ^ k.
Proof.
  intros Hk Hd.
  pose proof (lxor_pow2_even _ _ Hk Hd) as E.
  replace (i - 2 ^ k + 2 ^ k) with i in E by lia.
  rewrite <- E at 1. rewrite Z.lxor_assoc, Z.lxor_nilpotent, Z.lxor_0_r. reflexivity.
Qed.

(** A multiple of [2 ^ k] is even or odd as a multiple. *)
Lemma aligned_cases i k :
  0 <= k -> (2 ^ k | i) -> (2 * 2 ^ k | i) \/ (2 * 2 ^ k | i - 2 ^ k).
Proof.
  intros Hk [q ->]. pose proof (Z.div_mod q 2 ltac:(lia)) as Hq.
  pose proof (Z.mod_pos_bound q 2 ltac:(lia)).
  destruct (Z.eq_dec (q mod 2) 0).
  - left. exists (q / 2). rewrite Hq at 1. rewrite e. ring.
  - right. exists (q / 2). rewrite Hq at 1. replace (q mod 2) with 1 by lia. ring.
Qed.

(** Two multiples of [2 ^ k] are equal or at least [2 ^ k] apart. *)
Lemma aligned_apart i j k :
  0 <= k -> (2 ^ k | i) -> (2 ^ k | j) -> i < j -> i + 2 ^ k <= j.
Proof.
  intros Hk [a ->] [b ->] Hlt. pose proof (pow2_pos k Hk).
  apply Z.mul_lt_mono_pos_r in Hlt; [|lia]. nia.
Qed.

Lemma divide_pow2_le i a b : 0 <= a <= b -> (2 ^ b | i) -> (2 ^ a | i).
Proof.
  intros Hab Hd. eapply Z.divide_trans; [|exact Hd].
  exists (2 ^ (b - a)). rewrite <- Z.pow_add_r by lia. f_equal; lia.
Qed.

Lemma bit_pow2 n : 0 <= n < 32 -> bit n = 2 ^ n.
Proof.
  intros Hn. unfold bit. rewrite Z.shiftl_1_l. apply u32_small.
  split; [apply Z.pow_nonneg; lia|]. change 4294967296 with (2 ^ 32).
  apply Z.pow_lt_mono_r; lia.
Qed.

(** ** Loop rules *)

Section loops.
Context {S : Type}.
Implicit Types (s : S) (Inv : S -> Prop).

Lemma for_loop_ind (P : Z -> S -> Prop) n i body s :
    P i s ->
    (forall k s, i <= k < i + Z.of_nat n -> P k s -> P (k + 1) (body k s)) ->
    P (i + Z.of_nat n) (for_loop n i body s).
Proof.
    revert i s. induction n as [|n IH]; intros i s H0 Hstep; simpl.
    - replace (i + Z.of_nat 0) with i by lia. exact H0.
    - replace (i + Z.of_nat (Datatypes.S n)) with (i + 1 + Z.of_nat n) by lia.
      apply IH; [apply Hstep; [lia|exact H0]|].
      intros k s' Hk. apply Hstep. lia.
  Qed.

Lemma for_loop_S_r n i body s :
    for_loop (Datatypes.S n) i body s = body (i + Z.of_nat n) (for_loop n i body s).
Proof.
    revert i s. induction n as [|n IH]; intros i s; simpl.
    - f_equal. lia.
    - simpl in IH. rewrite IH. f_equal. lia.
  Qed.

Lemma for_loop_ext n i body1 body2 s :
  (forall k s, i <= k < i + Z.of_nat n -> body1 k s = body2 k s) ->
  for_loop n i body1 s = for_loop n i body2 s.
Proof.
  revert i s. induction n as [|n IH]; intros i s Hb; simpl; [reflexivity|].
  rewrite Hb by lia. apply IH. intros k s' Hk. apply Hb. lia.
Qed.

(** The same with an invariant. *)
Lemma for_loop_same Inv n i body1 body2 s :
  Inv s -> (forall k s, i <= k < i + Z.of_nat n -> Inv s -> body1 k s = body2 k s /\ Inv (body2 k s)) ->
  for_loop n i body1 s = for_loop n i body2 s /\ Inv (for_loop n i body2 s).
Proof.
  revert i s. induction n as [|n IH]; intros i s Hs Hb; simpl; [auto|].
  destruct (Hb i s ltac:(lia) Hs) as [-> Hi]. apply IH; [exact Hi|]. intros k s' Hk. apply Hb. lia.
Qed.

Lemma while_o_total Inv (mu : S -> Z) fuel cond body s :
  Inv s ->
  (forall s, Inv s -> cond s = true ->
     exists s', body s = Some s' /\ Inv s' /\ mu s' < mu s) ->
  (forall s, Inv s -> 0 <= mu s) ->
  mu s <= Z.of_nat fuel ->
  exists s', while_o fuel cond body s = Some s' /\ Inv s' /\ cond s' = false.
Proof.
  intros Hs Hstep Hpos. revert s Hs. induction fuel as [|f IH]; intros s Hs Hmu.
  - simpl. destruct (cond s) eqn:E; [|eauto].
    destruct (Hstep s Hs E) as (s' & _ & Hi & Hlt). specialize (Hpos s' Hi). lia.
  - simpl. destruct (cond s) eqn:E; [|eauto].
    destruct (Hstep s Hs E) as (s' & -> & Hi & Hlt). simpl. apply IH; [exact Hi|lia].
Qed.

Lemma while_total Inv (mu : S -> Z) fuel cond body s :
  Inv s ->
  (forall s, Inv s -> cond s = true -> Inv (body s) /\ mu (body s) < mu s) ->
  (forall s, Inv s -> 0 <= mu s) ->
  mu s <= Z.of_nat fuel ->
  exists s', while fuel cond body s = Some s' /\ Inv s' /\ cond s' = false.
Proof. intros Hs Hstep. apply while_o_total; [exact Hs|]. intros s' Hi Hc. eauto. Qed.

Lemma while_o_diverges Inv fuel cond body s :
  Inv s -> (forall s, Inv s -> cond s = true /\ forall s', body s = Some s' -> Inv s') ->
  while_o fuel cond body s = None.
Proof.
  intros Hs Hstep. revert s Hs. induction fuel as [|f IH]; intros s Hs; simpl;
    destruct (Hstep s Hs) as [-> Hi]; auto.
  destruct (body s) as [s'|] eqn:E; simpl; auto.
Qed.

Lemma while_diverges Inv fuel cond body s :
  Inv s -> (forall s, Inv s -> cond s = true /\ Inv (body s)) ->
  while fuel cond body s = None.
Proof.
  intros Hs Hstep. apply (while_o_diverges Inv); [exact Hs|].
  intros s1 H1. destruct (Hstep s1 H1). split; [assumption|congruence].
Qed.

Lemma while_o_false fuel cond body s :
  cond s = false -> while_o fuel cond body s = Some s.
Proof. destruct fuel; simpl; intros ->; reflexivity. Qed.

Lemma while_false fuel cond body s :
  cond s = false -> while fuel cond body s = Some s.
Proof. apply while_o_false. Qed.

Lemma while_true fuel cond body s :
  cond s = true -> while (Datatypes.S fuel) cond body s = while fuel cond body (body s).
Proof. unfold while. simpl. intros ->. reflexivity. Qed.

Lemma while_o_mono f1 f2 cond body s s' :
  while_o f1 cond body s = Some s' -> (f1 <= f2)%nat -> while_o f2 cond body s = Some s'.
Proof.
  revert f2 s. induction f1 as [|f1 IH]; intros f2 s H Hle; simpl in H.
  - destruct (cond s) eqn:E; [discriminate|]. simplify_eq. apply while_o_false; auto.
  - destruct f2 as [|f2]; [lia|]. simpl. destruct (cond s); auto.
    destruct (body s) as [s1|]; simpl in *; [|discriminate]. apply IH; [exact H|lia].
Qed.

(** Partial correctness, when the loop is known to have stopped. *)
Lemma while_o_inv Inv fuel cond body s s' :
  while_o fuel cond body s = Some s' -> Inv s ->
  (forall s s', Inv s -> cond s = true -> body s = Some s' -> Inv s') ->
  Inv s' /\ cond s' = false.
Proof.
  intros H Hs Hstep. revert s H Hs. induction fuel as [|f IH]; intros s H Hs; simpl in H;
    destruct (cond s) eqn:E; simplify_eq; auto.
  destruct (body s) as [s1|] eqn:Eb; simpl in H; [|discriminate]. eauto.
Qed.
End loops.

(** ** Array lemmas *)

Section arrays.
Context {A : Type} `{Inhabited A}.
Implicit Types m : gmap Z A.

Lemma upd_eq i f m : upd i f m !!! i = f (m !!! i).
Proof. apply lookup_total_insert_eq. Qed.

Lemma upd_ne i j f m : i <> j -> upd i f m !!! j = m !!! j.
Proof. apply lookup_total_insert_ne. Qed.

Lemma upd_lookup i j f m :
    upd i f m !!! j = if decide (i = j) then f (m !!! j) else m !!! j.
Proof. case_decide; subst; [apply upd_eq|apply upd_ne; auto]. Qed.
End arrays.
