(* ===== verification/KMath.v ===== *)
(** * kernel/kernel/math.c: powers of two on 32-bit words

    [is_power_of_2], [next_power_of_2] and [power_of_2], used by the frame
    allocator to turn a page count into a buddy level. *)

From S2P Require Import Prelude.

Definition is_power_of_2 (n : Z) : Z :=
  if (Z.land (u32 (n - 1)) n =? 0) && negb (n =? 0) then 1 else 0.

(** The five [n |= n >> k] statements. *)
Definition smear (n k : Z) : Z := Z.lor n (Z.shiftr n k).

Definition next_power_of_2 (n : Z) : Z :=
  if negb (is_power_of_2 n =? 0) then n
  else
    let n := smear n 1 in
    let n := smear n 2 in
    let n := smear n 4 in
    let n := smear n 8 in
    let n := smear n 16 in
    u32 (n + 1).

(** The loop runs at most 31 times on a non-zero word; on zero it does not
    stop, and the result is [None] whatever the fuel. *)
Definition power_of_2_fuel (fuel : nat) (n : Z) : option Z :=
  snd <$> while fuel
    (fun '(n, _) => negb (negb (Z.land n 1 =? 0)))
    (fun '(n, i) => (Z.shiftr n 1, i + 1)) (n, 0).

Definition power_of_2 (n : Z) : option Z := power_of_2_fuel 32 n.

(** ** Lemmas *)

Lemma land_pred_pow2 k : 0 <= k -> Z.land (2 ^ k - 1) (2 ^ k) = 0.
Proof.
  intros Hk. rewrite Z.land_comm. change (2 ^ k - 1) with (Z.pred (2 ^ k)).
  rewrite <- Z.ones_equiv, Z.land_ones, Z.mod_same; auto with word.
  pose proof (pow2_pos k Hk); lia.
Qed.

(** [n & (n-1)] clears the lowest set bit: it is zero only on powers of two. *)
Lemma land_pred_zero n : 0 < n -> Z.land (n - 1) n = 0 -> n = 2 ^ Z.log2 n.
Proof.
  intros Hn Hz. pose proof (Z.log2_spec n Hn) as [Hlo Hhi].
  destruct (Z.eq_dec n (2 ^ Z.log2 n)) as [|Hne]; [assumption|exfalso].
  assert (Z.log2 (n - 1) = Z.log2 n) as Hl.
  { apply Z.log2_unique; [apply Z.log2_nonneg|lia]. }
  pose proof (Z.log2_nonneg n) as Hnn.
  assert (0 < 2 ^ Z.log2 n) by auto with word.
  assert (Z.testbit (Z.land (n - 1) n) (Z.log2 n) = true) as Hb.
  { rewrite Z.land_spec, <- Hl, Z.bit_log2, Hl, Z.bit_log2 by lia. reflexivity. }
  rewrite Hz, Z.bits_0 in Hb. discriminate.
Qed.

Lemma is_power_of_2_pow k : 0 <= k < 32 -> is_power_of_2 (2 ^ k) = 1.
Proof.
  intros Hk. unfold is_power_of_2.
  assert (0 < 2 ^ k) by (apply pow2_pos; lia).
  assert (2 ^ k < 2 ^ 32) by (apply Z.pow_lt_mono_r; lia).
  change (2 ^ 32) with 4294967296 in *.
  rewrite u32_small, land_pred_pow2 by (unfold in_u32; lia). simpl.
  destruct (Z.eqb_spec (2 ^ k) 0); [lia|reflexivity].
Qed.

Lemma is_power_of_2_true n :
  in_u32 n -> is_power_of_2 n <> 0 -> exists k, 0 <= k < 32 /\ n = 2 ^ k.
Proof.
  unfold is_power_of_2, in_u32. intros Hn.
  destruct (_ && _) eqn:E; [|lia]. intros _. reflect_bools.
  rewrite u32_small in * by (unfold in_u32; lia).
  exists (Z.log2 n). split; [|apply land_pred_zero; lia].
  split; [apply Z.log2_nonneg|]. apply Z.log2_lt_pow2; lia.
Qed.

(** After smearing over a window of [w], bit [i] is set when some bit of the
    window [i, i+w) was. *)
Definition smeared (n m w : Z) : Prop :=
  forall i, 0 <= i ->
    Z.testbit m i = true <-> exists j, i <= j < i + w /\ Z.testbit n j = true.

Lemma smear_step n m w : 0 < w -> smeared n m w -> smeared n (smear m w) (2 * w).
Proof.
  intros Hw Hs i Hi. unfold smear.
  rewrite Z.lor_spec, Z.shiftr_spec, orb_true_iff, (Hs i), (Hs (i + w)) by lia.
  split.
  - intros [(j & ? & ?)|(j & ? & ?)]; exists j; split; auto; lia.
  - intros (j & ? & ?). destruct (Z.lt_ge_cases j (i + w)); [left|right]; exists j; split; auto; lia.
Qed.

Lemma smear_all n :
  0 < n < 2 ^ 32 ->
  smear (smear (smear (smear (smear n 1) 2) 4) 8) 16 = Z.ones (Z.log2 n + 1).
Proof.
  intros Hn.
  assert (smeared n n 1) as H1.
  { intros i Hi. split; [intros; exists i; split; auto; lia|].
    intros (j & ? & Hj). replace i with j by lia. exact Hj. }
  do 5 (apply smear_step in H1; [|lia]). simpl Z.mul in H1.
  apply Z.bits_inj'. intros i Hi. specialize (H1 i Hi).
  assert (Z.log2 n < 32) by (apply Z.log2_lt_pow2; lia).
  pose proof (Z.log2_nonneg n).
  destruct (Z.lt_ge_cases i (Z.log2 n + 1)).
  - rewrite Z.ones_spec_low by lia. apply H1. exists (Z.log2 n).
    split; [lia|apply Z.bit_log2; lia].
  - rewrite Z.ones_spec_high by lia. apply not_true_is_false. intros Hb.
    apply H1 in Hb as (j & ? & Hj). rewrite Z.bits_above_log2 in Hj by lia. discriminate.
Qed.

Lemma next_power_of_2_pow k : 0 <= k < 32 -> next_power_of_2 (2 ^ k) = 2 ^ k.
Proof. intros Hk. unfold next_power_of_2. rewrite is_power_of_2_pow by lia. reflexivity. Qed.

Lemma next_power_of_2_other n :
  0 < n < 2 ^ 32 -> is_power_of_2 n = 0 -> next_power_of_2 n = u32 (2 ^ (Z.log2 n + 1)).
Proof.
  intros Hn Hp. unfold next_power_of_2. rewrite Hp. cbn [negb Z.eqb].
  rewrite smear_all by lia. rewrite Z.ones_equiv. f_equal. lia.
Qed.

(** The result of [next_power_of_2] on the page counts the allocator accepts:
    the least power of two that is at least [n]. *)
Lemma next_power_of_2_log2_up n :
  0 < n <= 2 ^ 31 -> next_power_of_2 n = 2 ^ Z.log2_up n.
Proof.
  intros Hn. assert (in_u32 n) as Hr by (unfold in_u32; lia).
  destruct (Z.eq_dec (is_power_of_2 n) 0) as [E|E].
  - rewrite next_power_of_2_other by lia.
    assert (n <> 2 ^ Z.log2 n) as Hnp.
    { intros Heq. rewrite Heq, is_power_of_2_pow in E; [lia|].
      split; [apply Z.log2_nonneg|]. apply Z.log2_lt_pow2; lia. }
    assert (Z.log2_up n = Z.log2 n + 1) as ->.
    { pose proof (Z.log2_spec n ltac:(lia)). pose proof (Z.log2_nonneg n).
      apply Z.log2_up_unique; [lia|].
      replace (Z.pred (Z.log2 n + 1)) with (Z.log2 n) by lia.
      unfold Z.succ in *. lia. }
    apply u32_small. split; [apply Z.pow_nonneg; lia|].
    change 4294967296 with (2 ^ 32). apply Z.pow_lt_mono_r; [lia|lia|].
    pose proof (Z.log2_nonneg n).
    assert (Z.log2 n < 31); [|lia].
    apply Z.log2_lt_pow2; [lia|].
    destruct (Z.eq_dec n (2 ^ 31)) as [->|]; [|lia].
    exfalso; apply Hnp. reflexivity.
  - apply is_power_of_2_true in E as (k & Hk & ->); [|exact Hr].
    rewrite next_power_of_2_pow, Z.log2_up_pow2 by lia. reflexivity.
Qed.

Lemma land_1_shift k : 0 < k -> Z.land (2 ^ k) 1 = 0.
Proof.
  intros Hk. change 1 with (Z.ones 1). rewrite Z.land_ones by lia.
  replace k with (k - 1 + 1) by lia. rewrite pow2_S by lia.
  rewrite Z.mul_comm. apply Z.mod_mul. lia.
Qed.

Lemma power_of_2_loop k i fuel :
  0 <= k < Z.of_nat fuel ->
  while fuel (fun '(n, _) => negb (negb (Z.land n 1 =? 0)))
    (fun '(n, i) => (Z.shiftr n 1, i + 1)) (2 ^ k, i) = Some (1, i + k).
Proof.
  revert k i. induction fuel as [|f IH]; intros k i Hk; [lia|].
  destruct (Z.eq_dec k 0) as [->|].
  - rewrite while_false; [|reflexivity]. do 2 f_equal; lia.
  - rewrite while_true by (rewrite land_1_shift by lia; reflexivity).
    replace (Z.shiftr (2 ^ k) 1) with (2 ^ (k - 1)).
    + rewrite IH by lia. do 2 f_equal; lia.
    + rewrite Z.shiftr_div_pow2 by lia. change (2 ^ 1) with 2.
      replace (2 ^ k) with (2 ^ (k - 1) * 2); [rewrite Z.div_mul; lia|].
      replace k with (k - 1 + 1) at 2 by lia. rewrite pow2_S by lia. lia.
Qed.

Lemma power_of_2_pow k : 0 <= k < 32 -> power_of_2 (2 ^ k) = Some k.
Proof.
  intros Hk. unfold power_of_2, power_of_2_fuel. rewrite power_of_2_loop by lia. reflexivity.
Qed.

(** ** Properties *)

(** [next_power_of_2] rounds a page count up to the least power of two,
    and [power_of_2] of the result is its exponent, for every count up to
    [2 ^ 31]; so the buddy level of a request is the ceiling of its base-2
    logarithm. *)
Theorem next_power_of_2_least n :
  0 < n <= 2 ^ 31 ->
  n <= next_power_of_2 n /\
  (forall k, 0 <= k -> n <= 2 ^ k -> next_power_of_2 n <= 2 ^ k) /\
  power_of_2 (next_power_of_2 n) = Some (Z.log2_up n).
Proof.
  intros Hn. rewrite next_power_of_2_log2_up by lia.
  pose proof (Z.log2_up_nonneg n). split; [|split].
  - destruct (Z.eq_dec n 1) as [->|]; [reflexivity|]. apply Z.log2_up_spec; lia.
  - intros k Hk Hle. apply Z.pow_le_mono_r; [lia|]. apply Z.log2_up_le_pow2; lia.
  - apply power_of_2_pow. split; [lia|].
    assert (Z.log2_up n <= 31); [|lia]. apply Z.log2_up_le_pow2; lia.
Qed.

Lemma next_power_of_2_least_witness :
  0 < 5 <= 2 ^ 31 /\ 5 <= next_power_of_2 5 /\ power_of_2 (next_power_of_2 5) = Some 3.
Proof.
  assert (0 < 5 <= 2 ^ 31) as H by lia.
  destruct (next_power_of_2_least 5 H) as (H1 & _ & H3).
  exact (conj H (conj H1 H3)).
Defined.

(** Above [2 ^ 31] the rounding wraps to zero, and the exponent loop then never
    stops. *)
Lemma next_power_of_2_wraps n : 2 ^ 31 < n < 2 ^ 32 -> next_power_of_2 n = 0.
Proof.
  intros Hn. assert (Z.log2 n = 31) as Hl by (apply Z.log2_unique; lia).
  rewrite next_power_of_2_other; [rewrite Hl; reflexivity|lia|].
  destruct (Z.eq_dec (is_power_of_2 n) 0) as [|E]; [assumption|].
  apply is_power_of_2_true in E as (k & Hk & ->); [|unfold in_u32; lia].
  rewrite Z.log2_pow2 in Hl by lia. subst. lia.
Qed.

Lemma power_of_2_zero_diverges fuel : power_of_2_fuel fuel 0 = None.
Proof.
  unfold power_of_2_fuel.
  rewrite (while_diverges (fun '(n, _) => n = 0)); auto.
  intros [n i] ->. split; reflexivity.
Qed.
