(* ===== verification/Chain.v ===== *)
(** * Doubly linked lists of indices

    The free lists of frames and the allocator lists of a slice manager are both
    doubly linked through an array, with an index past its end as the null link.
    A chain is stated on the two link fields as functions of the index. *)

From S2P Require Import Prelude.

(** ** The lists *)

(** [dchain nx pv z p h xs]: following [nx] from [h] visits [xs] and ends at the
    sentinel [z]; each element's [pv] is the element before it, [p] for the
    first one. *)
Fixpoint dchain (nx pv : Z -> Z) (z p h : Z) (xs : list Z) : Prop :=
  match xs with
  | [] => h = z
  | x :: xs' => h = x /\ pv x = p /\ dchain nx pv z x (nx x) xs'
  end.

(** The same, with nothing said about the [pv] of the first element. *)
Definition wchain (nx pv : Z -> Z) (z h : Z) (xs : list Z) : Prop :=
  match xs with
  | [] => h = z
  | x :: xs' => h = x /\ dchain nx pv z x (nx x) xs'
  end.

(** ** Chains *)

Section chains.
Context (z : Z).
Implicit Types nx pv : Z -> Z.

Lemma dchain_ext nx pv nx' pv' p h xs :
  dchain nx pv z p h xs -> (forall x, x ∈ xs -> nx' x = nx x /\ pv' x = pv x) ->
  dchain nx' pv' z p h xs.
Proof.
  revert p h. induction xs as [|x xs IH]; simpl; intros p h; [auto|].
  intros (-> & Hp & Hc) He. destruct (He x) as [-> ->]; [left|].
  split; [reflexivity|]. split; [exact Hp|]. apply IH; [exact Hc|].
  intros y Hy. apply He. right. exact Hy.
Qed.

Lemma wchain_ext nx pv nx' pv' h xs :
  wchain nx pv z h xs -> (forall x, x ∈ xs -> nx' x = nx x /\ pv' x = pv x) ->
  wchain nx' pv' z h xs.
Proof.
  destruct xs as [|x xs]; simpl; [auto|]. intros (-> & Hc) He.
  destruct (He x) as [-> _]; [left|]. split; [reflexivity|].
  eapply dchain_ext; [exact Hc|]. intros y Hy. apply He. right. exact Hy.
Qed.

Lemma dchain_wchain nx pv p h xs : dchain nx pv z p h xs -> wchain nx pv z h xs.
Proof. destruct xs; simpl; [auto|]. intros (? & _ & ?). auto. Qed.

Lemma wchain_dchain nx pv p h xs :
  wchain nx pv z h xs -> z ∉ xs -> (h <> z -> pv h = p) -> dchain nx pv z p h xs.
Proof.
  destruct xs as [|x xs]; simpl; [auto|]. intros (-> & Hc) Hz Hp.
  split; [reflexivity|]. split; [apply Hp; set_solver|exact Hc].
Qed.

Lemma wchain_nil nx pv h : wchain nx pv z h [] <-> h = z.
Proof. reflexivity. Qed.

(** The head is the sentinel exactly when the list is empty. *)
Lemma wchain_head nx pv h xs : wchain nx pv z h xs -> z ∉ xs -> (h = z <-> xs = []).
Proof.
  destruct xs as [|x xs]; simpl; [intuition|]. intros (-> & _) Hz.
  split; [intros ->; set_solver|discriminate].
Qed.

(** Where the predecessor link of an element of a chain points. *)
Lemma dchain_pv nx pv p h b xs ys :
  dchain nx pv z p h (xs ++ b :: ys) ->
  (xs = [] /\ pv b = p) \/ (xs <> [] /\ pv b ∈ xs).
Proof.
  revert p h. induction xs as [|x xs IH]; simpl; intros p h (-> & Hp & Hc); [auto|].
  right. split; [discriminate|].
  destruct (IH _ _ Hc) as [[-> ->]|[_ Hin]]; [left|right; exact Hin].
Qed.

Lemma dchain_nx nx pv p h b xs ys :
  dchain nx pv z p h (xs ++ b :: ys) -> nx b = z \/ nx b ∈ ys.
Proof.
  revert p h. induction xs as [|x xs IH]; simpl; intros p h Hc.
  - destruct Hc as (_ & _ & Hc). destruct ys; simpl in Hc; [auto|].
    destruct Hc as (-> & _). right. left.
  - destruct Hc as (_ & _ & Hc). eauto.
Qed.

(** Unlinking [b]: its successor gets its predecessor, and its predecessor, or
    the head of the list when it has none, gets its successor. *)
Lemma dchain_unlink nx pv nx' pv' p h b xs ys :
  dchain nx pv z p h (xs ++ b :: ys) -> NoDup (xs ++ b :: ys) ->
  z ∉ xs ++ b :: ys -> p ∉ xs ++ b :: ys ->
  (forall x, x ∈ xs ++ ys -> nx' x = if decide (x = pv b) then nx b else nx x) ->
  (forall x, x ∈ xs ++ ys -> pv' x = if decide (x = nx b) then pv b else pv x) ->
  dchain nx' pv' z p (match xs with [] => nx b | _ => h end) (xs ++ ys).
Proof.
  revert p h. induction xs as [|x xs IH]; cbn [app dchain]; intros p h Hc Hnd Hz Hp Hnx Hpv.
  - destruct Hc as (-> & Ep & Hc). apply NoDup_cons in Hnd as [Hb Hnd].
    destruct ys as [|y ys]; cbn [dchain] in *; [exact Hc|].
    destruct Hc as (Ey & Epy & Hc). split; [exact Ey|]. split.
    { rewrite Hpv by left. rewrite decide_True by auto. exact Ep. }
    assert (forall v, v ∈ y :: ys -> nx' v = nx v) as Hn.
    { intros v Hv. rewrite Hnx by exact Hv. apply decide_False.
      intros E. apply Hp. rewrite <- Ep, <- E. right. exact Hv. }
    rewrite Hn by left. apply NoDup_cons in Hnd as [Hy _].
    eapply dchain_ext; [exact Hc|]. intros v Hv. split; [apply Hn; right; exact Hv|].
    rewrite Hpv by (right; exact Hv). apply decide_False.
    intros E. apply Hy. rewrite <- Ey, <- E. exact Hv.
  - destruct Hc as (-> & Ep & Hc). apply NoDup_cons in Hnd as [Hx Hnd].
    split; [reflexivity|]. split.
    { rewrite Hpv by left. rewrite decide_False; [exact Ep|].
      intros Ex. destruct (dchain_nx _ _ _ _ _ _ _ Hc) as [E|E].
      - apply Hz. rewrite <- E, <- Ex. left.
      - apply Hx. rewrite Ex. apply elem_of_app. right. right. exact E. }
    assert (nx' x = match xs with [] => nx b | _ => nx x end) as ->.
    { rewrite Hnx by left. destruct (dchain_pv _ _ _ _ _ _ _ Hc) as [[-> E]|[Hne E]].
      - apply decide_True. congruence.
      - rewrite decide_False; [destruct xs; congruence|].
        intros Ex. apply Hx. rewrite Ex. apply elem_of_app. left. exact E. }
    apply IH; auto; [intros Hin; apply Hz; right; exact Hin| |]; intros v Hv; [apply Hnx|apply Hpv]; right; exact Hv.
Qed.

(** Pushing [b] in front. *)
Lemma wchain_push nx pv nx' pv' h b xs :
  wchain nx pv z h xs -> b ∉ xs -> NoDup xs -> nx' b = h ->
  (forall x, x ∈ xs -> nx' x = nx x) ->
  (forall x, x ∈ xs -> pv' x = if decide (x = h) then b else pv x) ->
  wchain nx' pv' z b (b :: xs).
Proof.
  intros Hc Hb Hnd En Hnx Hpv. simpl. split; [reflexivity|]. rewrite En.
  destruct xs as [|x xs]; simpl in *; [exact Hc|]. destruct Hc as (-> & Hc).
  split; [reflexivity|]. split.
  - rewrite Hpv by left. apply decide_True; reflexivity.
  - rewrite Hnx by left. eapply dchain_ext; [exact Hc|]. intros y Hy. split.
    + apply Hnx. right. exact Hy.
    + rewrite Hpv by (right; exact Hy). apply decide_False. intros ->.
      apply NoDup_cons in Hnd as [? _]. auto.
Qed.

Lemma dchain_push nx pv nx' pv' p h b xs :
  dchain nx pv z p h xs -> b ∉ xs -> NoDup xs -> nx' b = h -> pv' b = p ->
  (forall x, x ∈ xs -> nx' x = nx x) ->
  (forall x, x ∈ xs -> pv' x = if decide (x = h) then b else pv x) ->
  dchain nx' pv' z p b (b :: xs).
Proof.
  intros Hc Hb Hnd En Ep Hnx Hpv.
  destruct (wchain_push nx pv nx' pv' h b xs (dchain_wchain _ _ _ _ _ Hc) Hb Hnd En Hnx Hpv) as [_ Hw].
  simpl. auto.
Qed.

Lemma dchain_head nx pv p h xs : dchain nx pv z p h xs -> z ∉ xs -> (h = z <-> xs = []).
Proof. intros Hc. apply (wchain_head nx pv). apply (dchain_wchain _ _ _ _ _ Hc). Qed.

(** Moving [k] from one chain to the front of another. *)
Lemma dchain_move nx pv nx' pv' hA A1 k A2 hB B :
  dchain nx pv z z hA (A1 ++ k :: A2) -> dchain nx pv z z hB B ->
  NoDup ((A1 ++ k :: A2) ++ B) -> z ∉ (A1 ++ k :: A2) ++ B ->
  (forall x, x <> z ->
     nx' x = if decide (x = k) then hB else if decide (x = pv k) then nx k else nx x) ->
  (forall x, x <> z ->
     pv' x = if decide (x = k) then z else if decide (x = hB) then k
             else if decide (x = nx k) then pv k else pv x) ->
  dchain nx' pv' z z (match A1 with [] => nx k | _ => hA end) (A1 ++ A2)
  /\ dchain nx' pv' z z k (k :: B)
  /\ (forall h C, dchain nx pv z z h C -> z ∉ C -> (forall x, x ∈ C -> x ∉ (A1 ++ k :: A2) ++ B) ->
        dchain nx' pv' z z h C).
Proof.
  intros HA HB Hnd Hz Hnx Hpv.
  apply NoDup_app in Hnd as (HndA & Hd & HndB). rewrite not_elem_of_app in Hz. destruct Hz as [HzA HzB].
  assert (hB = z \/ hB ∈ B) as HhB.
  { destruct B; simpl in HB; [auto|]. destruct HB as (-> & _). right. left. }
  assert (pv k = z \/ pv k ∈ A1) as Hpk
    by (destruct (dchain_pv _ _ _ _ _ _ _ HA) as [[_ ?]|[_ ?]]; auto).
  pose proof (dchain_nx _ _ _ _ _ _ _ HA) as Hnk.
  assert (forall x, x ∈ A1 ++ A2 -> x ∈ A1 ++ k :: A2) as Hsub by set_solver.
  assert (k ∉ A1 ++ A2) as Hk.
  { intros Hin. apply NoDup_app in HndA as (_ & H1 & H2). apply NoDup_cons in H2 as [H2 _].
    apply elem_of_app in Hin as [Hin|Hin]; [apply (H1 k Hin); left|contradiction]. }
  assert (k ∈ A1 ++ k :: A2) as HkA by set_solver.
  split; [|split].
  - apply (dchain_unlink nx pv); try assumption; intros x Hx; assert (x <> z) by (intros ->; auto);
      assert (x <> k) by (intros ->; contradiction).
    + rewrite Hnx by assumption. rewrite (decide_False (P := x = k)) by assumption. reflexivity.
    + rewrite Hpv by assumption. rewrite (decide_False (P := x = k)) by assumption.
      rewrite (decide_False (P := x = hB)); [reflexivity|].
      intros ->. destruct HhB as [E|E]; [contradiction|]. exact (Hd hB (Hsub _ Hx) E).
  - apply (dchain_push nx pv _ _ _ hB); try assumption.
    + intros E. exact (Hd k HkA E).
    + rewrite Hnx by (intros ->; auto). apply decide_True. reflexivity.
    + rewrite Hpv by (intros ->; auto). apply decide_True. reflexivity.
    + intros x Hx. assert (x ∉ A1 ++ k :: A2) as HxA by (intros E; exact (Hd x E Hx)).
      rewrite Hnx by (intros ->; auto). rewrite !decide_False; [reflexivity| |set_solver].
      intros ->. destruct Hpk as [E|E]; [rewrite E in Hx; contradiction|set_solver].
    + intros x Hx. assert (x ∉ A1 ++ k :: A2) as HxA by (intros E; exact (Hd x E Hx)).
      rewrite Hpv by (intros ->; auto). rewrite (decide_False (P := x = k)) by set_solver.
      case_decide; [reflexivity|]. apply decide_False. intros ->.
      destruct Hnk as [E|E]; [rewrite E in Hx; contradiction|set_solver].
  - intros h C HC HzC Hdis. eapply dchain_ext; [exact HC|]. intros x Hx.
    specialize (Hdis x Hx). rewrite not_elem_of_app in Hdis. destruct Hdis as [HxA HxB].
    assert (x <> z) by (intros ->; contradiction).
    rewrite Hnx, Hpv by assumption. rewrite !(decide_False (P := x = k)) by set_solver.
    rewrite (decide_False (P := x = hB)) by (intros ->; destruct HhB; congruence).
    rewrite (decide_False (P := x = pv k)) by (intros ->; destruct Hpk; [congruence|set_solver]).
    rewrite (decide_False (P := x = nx k)) by (intros ->; destruct Hnk; [congruence|set_solver]).
    auto.
Qed.
End chains.

(** ** Singly linked lists *)

(** Following [next] from [a] visits [xs], up to the null pointer. *)
Fixpoint slist (next : Z -> Z) (a : Z) (xs : list Z) : Prop :=
  match xs with
  | [] => a = 0
  | x :: xs => a = x /\ x <> 0 /\ slist next (next x) xs
  end.

Lemma slist_ext next next' a xs :
  (forall x, x ∈ xs -> next' x = next x) -> slist next a xs -> slist next' a xs.
Proof.
  revert a. induction xs as [|x xs IH]; intros a Hn; simpl; [auto|].
  intros (-> & Hx & Hs). split; [reflexivity|]. split; [exact Hx|].
  rewrite (Hn x) by apply list_elem_of_here. apply IH; [|exact Hs].
  intros y Hy. apply Hn. right. exact Hy.
Qed.

Lemma slist_nonzero next a xs x : slist next a xs -> x ∈ xs -> x <> 0.
Proof.
  revert a. induction xs as [|y xs IH]; intros a; simpl.
  - intros _ Hx. apply elem_of_nil in Hx. contradiction.
  - intros (_ & Hy & Hs) Hx. apply elem_of_cons in Hx as [->|Hx]; [exact Hy|apply (IH _ Hs Hx)].
Qed.
