(* ===== verification/Pmm.v ===== *)
(** * kernel/kernel/pmm.c: the physical frame allocator (buddy system)

    State: [normal_mem], the zone descriptor with its eleven free lists, and
    [pages], the frame table that follows the kernel image in memory.  The
    table is indexed like the C array, so an index at or past [frames_number]
    denotes the memory behind the table, which the code does touch.  The table
    is a store of its own, apart from the words and bytes of the frames: the
    writes to [pages[frames_number]] (lines 141 and 192) stay in it here, while
    in the program they can lie in the first frame of the zone
    ([PmmRuns.sentinel_in_first_frame]).  A [page_frame_t*] is kept as the physical address the code returns, and
    [frame_of] is the array index of such a pointer.

    This file holds the definitions; [PmmSpec] states the allocator's invariant
    and contract, [PmmProofs] proves them. *)

From S2P Require Import Prelude KMath.

Definition BUDDY_MAXLEVEL : Z := 11.
Definition PAGE_FRAME_SIZE : Z := 4096.
Definition PAGE_FRAME_BLOCK_HEAD : Z := 2.
Definition PAGE_FRAME_ALLOCATED : Z := 1.
Definition ALIGN_MASK : Z := 0xFFFFF000.
Definition ALIGN_MASK_HELPER : Z := 0xFFF.
Definition PAGE_OFFSET : Z := 0xC0000000.

(** [sizeof(page_frame_t)]: the struct is packed. *)
Definition SIZEOF_PAGE_FRAME : Z := 22.

Record page_frame_t := PageFrame {
  pf_flags : Z;
  pf_level : Z;
  pf_physic_addr : Z;
  pf_index : Z;
  pf_prev_frame : Z;
  pf_next_frame : Z;
  pf_allocator : Z
}.

#[export] Instance page_frame_inhabited : Inhabited page_frame_t :=
  populate (PageFrame 0 0 0 0 0 0 0).

Record normal_mem_t := NormalMem {
  nm_base : Z;
  nm_length : Z;
  nm_frames_number : Z;
  nm_free_lists : gmap Z Z;
  nm_frames : Z
}.

Record pmm := Pmm {
  normal_mem : normal_mem_t;
  pages : gmap Z page_frame_t
}.

(** ** Field reads and writes *)

Definition page (s : pmm) (i : Z) : page_frame_t := pages s !!! i.
Definition free_list (s : pmm) (l : Z) : Z := nm_free_lists (normal_mem s) !!! l.
Definition frames_number (s : pmm) : Z := nm_frames_number (normal_mem s).

Definition set_flags (v : Z) (p : page_frame_t) : page_frame_t :=
  PageFrame v (pf_level p) (pf_physic_addr p) (pf_index p) (pf_prev_frame p)
    (pf_next_frame p) (pf_allocator p).
Definition set_level (v : Z) (p : page_frame_t) : page_frame_t :=
  PageFrame (pf_flags p) v (pf_physic_addr p) (pf_index p) (pf_prev_frame p)
    (pf_next_frame p) (pf_allocator p).
Definition set_prev (v : Z) (p : page_frame_t) : page_frame_t :=
  PageFrame (pf_flags p) (pf_level p) (pf_physic_addr p) (pf_index p) v
    (pf_next_frame p) (pf_allocator p).
Definition set_next (v : Z) (p : page_frame_t) : page_frame_t :=
  PageFrame (pf_flags p) (pf_level p) (pf_physic_addr p) (pf_index p) (pf_prev_frame p)
    v (pf_allocator p).

Definition upd_page (i : Z) (f : page_frame_t -> page_frame_t) (s : pmm) : pmm :=
  Pmm (normal_mem s) (upd i f (pages s)).

Definition set_free_list (l v : Z) (s : pmm) : pmm :=
  let n := normal_mem s in
  Pmm (NormalMem (nm_base n) (nm_length n) (nm_frames_number n)
         (<[l := v]> (nm_free_lists n)) (nm_frames n)) (pages s).

(** [&pages[i]] as a physical address, and the index of such a pointer. *)
Definition frame_ptr (s : pmm) (i : Z) : Z :=
  u32 (nm_frames (normal_mem s) + SIZEOF_PAGE_FRAME * i).
Definition frame_of (s : pmm) (p : Z) : Z :=
  u32 (p - nm_frames (normal_mem s)) / SIZEOF_PAGE_FRAME.

(** ** Allocation: [buddy_system_get_frame_page_block] *)

(** The search for a non-empty free list, at [lvl] or above. *)
Definition find_level (s : pmm) (lvl : Z) : option Z :=
  while 11
    (fun cl => (cl <? BUDDY_MAXLEVEL) && (free_list s cl =? frames_number s))
    (fun cl => cl + 1) lvl.

(** One turn of the splitting loop: the upper half of the block in hand becomes
    a free block one level down. *)
Definition split_step (page_index : Z) '((s, cl) : pmm * Z) : pmm * Z :=
  let cl := cl - 1 in
  let right := Z.lxor page_index (bit cl) in
  let s := upd_page right (set_level (u8 cl)) s in
  let s := upd_page (free_list s cl) (set_prev right) s in
  let s := upd_page right (set_next (free_list s cl)) s in
  let s := upd_page right (set_flags PAGE_FRAME_BLOCK_HEAD) s in
  let s := set_free_list cl right s in
  (s, cl).

Definition split_loop (page_index lvl : Z) (s : pmm) (cl : Z) : option (pmm * Z) :=
  while 11 (fun '(_, cl) => lvl <? cl) (split_step page_index) (s, cl).

(** The last writes, which mark the block as handed out. *)
Definition mark_allocated (page_index lvl : Z) (s : pmm) : pmm :=
  let s := upd_page page_index
             (set_flags (PAGE_FRAME_ALLOCATED + PAGE_FRAME_BLOCK_HEAD)) s in
  let s := upd_page page_index (set_level (u8 lvl)) s in
  let s := upd_page page_index (set_prev (frames_number s)) s in
  upd_page page_index (set_next (frames_number s)) s.

Definition buddy_system_get_frame_page_block (lvl : Z) (s : pmm) : option (Z * pmm) :=
  cl ← find_level s lvl;
  if BUDDY_MAXLEVEL <=? cl then Some (0, s)
  else
    let page_index := free_list s cl in
    let s := set_free_list cl (pf_next_frame (page s page_index)) s in
    '(s, _) ← split_loop page_index lvl s cl;
    let s := mark_allocated page_index lvl s in
    Some (frame_ptr s page_index, s).

Definition frame_alloc (frame_page_number : Z) (s : pmm) : option (Z * pmm) :=
  lvl ← power_of_2 (next_power_of_2 frame_page_number);
  buddy_system_get_frame_page_block lvl s.

Definition physic_alloc (byte_size : Z) (s : pmm) : option (Z * pmm) :=
  let frame_page_number :=
    byte_size / PAGE_FRAME_SIZE
    + (if 0 <? byte_size mod PAGE_FRAME_SIZE then 1 else 0) in
  '(ret_page, s) ← frame_alloc frame_page_number s;
  if ret_page =? 0 then Some (0, s)
  else Some (pf_physic_addr (page s (frame_of s ret_page)), s).

(** ** Release: [buddy_system_free_frame_page_block] *)

(** The block in hand, its buddy and its level, while merging. *)
Record merge_st := MergeSt {
  mg_s : pmm;
  mg_page_index : Z;
  mg_buddy_index : Z;
  mg_level : Z
}.

Definition merge_cond (m : merge_st) : bool :=
  (mg_level m <? BUDDY_MAXLEVEL - 1)
  && (mg_level m =? pf_level (page (mg_s m) (mg_buddy_index m)))
  && (pf_flags (page (mg_s m) (mg_buddy_index m)) =? PAGE_FRAME_BLOCK_HEAD).

(** Take the free block [b] out of the list of its level. *)
Definition unlink (lvl b : Z) (s : pmm) : pmm :=
  let prev := pf_prev_frame (page s b) in
  let next := pf_next_frame (page s b) in
  let s := if prev =? frames_number s then set_free_list lvl next s
           else upd_page prev (set_next next) s in
  if next <? frames_number s then upd_page next (set_prev prev) s else s.

Definition merge_step (m : merge_st) : merge_st :=
  let s := unlink (mg_level m) (mg_buddy_index m) (mg_s m) in
  let '(page_index, buddy_index) :=
    if mg_buddy_index m <? mg_page_index m
    then (mg_buddy_index m, mg_page_index m)
    else (mg_page_index m, mg_buddy_index m) in
  let s := upd_page buddy_index (set_flags PAGE_FRAME_ALLOCATED) s in
  let s := upd_page buddy_index (set_level 0) s in
  let lvl := mg_level m + 1 in
  let s := upd_page page_index (set_level (u8 lvl)) s in
  MergeSt s page_index (Z.lxor page_index (bit lvl)) lvl.

(** Put the block at the front of the free list of its level. *)
Definition push_free (i lvl : Z) (s : pmm) : pmm :=
  let s := upd_page i (set_flags PAGE_FRAME_BLOCK_HEAD) s in
  let s := upd_page i (set_level (u8 lvl)) s in
  let tmp := free_list s lvl in
  let s := upd_page i (set_next (free_list s lvl)) s in
  let s := if tmp <? frames_number s then upd_page tmp (set_prev i) s else s in
  let s := upd_page i (set_prev (frames_number s)) s in
  set_free_list lvl i s.

Definition buddy_system_free_frame_page_block (page_index : Z) (s : pmm)
  : option (Z * pmm) :=
  if (frames_number s <=? page_index)
     || (Z.land (pf_flags (page s page_index)) PAGE_FRAME_BLOCK_HEAD =? 0)
     || (Z.land (pf_flags (page s page_index)) PAGE_FRAME_BLOCK_HEAD =? 0)
  then Some (0, s)
  else
    let lvl := pf_level (page s page_index) in
    m ← while 11 merge_cond merge_step
          (MergeSt s page_index (Z.lxor page_index (bit lvl)) lvl);
    Some (1, push_free (mg_page_index m) (mg_level m) (mg_s m)).

Definition physic_free (physic_addr : Z) (s : pmm) : option (Z * pmm) :=
  if physic_addr =? 0 then Some (0, s)
  else
    let page_index := u32 (physic_addr - nm_base (normal_mem s)) / PAGE_FRAME_SIZE in
    buddy_system_free_frame_page_block page_index s.

Definition frame_free (ptr : Z) (s : pmm) : option (Z * pmm) :=
  if ptr =? 0 then Some (0, s)
  else buddy_system_free_frame_page_block (pf_index (page s (frame_of s ptr))) s.

(** ** Initialisation: [init_normal_mem_zone] *)

Record mmap_entry_t := MmapEntry {
  base_addr_low : Z;
  base_addr_high : Z;
  length_low : Z;
  length_high : Z;
  mmap_type : Z
}.

(** The loop that fills the frame table. *)
Definition init_frames (frames_number mem_base : Z) (pg : gmap Z page_frame_t)
  : gmap Z page_frame_t :=
  for_loop (Z.to_nat frames_number) 0
    (fun i pg =>
       <[i := PageFrame (Z.lor 0 PAGE_FRAME_ALLOCATED) 0
                (u32 (mem_base + i * PAGE_FRAME_SIZE)) i frames_number frames_number 0]> pg)
    pg.

(** The loop that cuts the zone into blocks: block size and level shrink when
    the rest of the zone is too short, then the block is put on its list. *)
Record carve_st := CarveSt {
  cv_s : pmm;
  cv_i : Z;
  cv_size : Z;
  cv_level : Z
}.

Definition shrink (frames_number i : Z) : Z * Z -> option (Z * Z) :=
  while 11 (fun '(size, _) => u32 (frames_number - size) <? i)
    (fun '(size, lvl) => (size / 2, lvl - 1)).

Definition carve_step (frames_number : Z) (c : carve_st) : option carve_st :=
  let i := cv_i c in
  '(size, lvl) ← shrink frames_number i (cv_size c, cv_level c);
  let s := upd_page i (set_flags (Z.lor 0 PAGE_FRAME_BLOCK_HEAD)) (cv_s c) in
  let s := upd_page i (set_level (u8 lvl)) s in
  let tmp := free_list s lvl in
  let s := upd_page i (set_next tmp) s in
  let s := upd_page tmp (set_prev i) s in
  let s := set_free_list lvl i s in
  Some (CarveSt s (i + size) size lvl).

Definition carve (s : pmm) : option pmm :=
  cv_s <$> while_o (Z.to_nat (frames_number s))
    (fun c => cv_i c <? frames_number s)
    (carve_step (frames_number s))
    (CarveSt s 0 (bit (BUDDY_MAXLEVEL - 1)) (BUDDY_MAXLEVEL - 1)).

(** The body of the loop over the memory map, for the entry it selects;
    [kernel_end_phys] is [(uint32_t)kernel_end - PAGE_OFFSET]. *)
Definition init_zone (kernel_end_phys : Z) (e : mmap_entry_t) (s : pmm) : option pmm :=
  let base_addr := base_addr_high e in
  let base_addr := u32 (u32 (Z.shiftl base_addr 16) + base_addr_low e) in
  let length := length_high e in
  let length := u32 (u32 (Z.shiftl length 16) + length_low e) in
  let end_addr := u32 (base_addr + length) in
  let base_addr := kernel_end_phys in
  let length := u32 (end_addr - base_addr) in
  let frames_number := u32 (length / (PAGE_FRAME_SIZE + SIZEOF_PAGE_FRAME) - 1) in
  let mem_base := u32 (base_addr + u32 (frames_number * SIZEOF_PAGE_FRAME)) in
  let mem_base := Z.land (u32 (mem_base + ALIGN_MASK_HELPER)) ALIGN_MASK in
  let free_lists :=
    for_loop (Z.to_nat BUDDY_MAXLEVEL) 0 (fun i fl => <[i := frames_number]> fl)
      (nm_free_lists (normal_mem s)) in
  let zone := NormalMem mem_base (u32 (frames_number * PAGE_FRAME_SIZE)) frames_number
                free_lists base_addr in
  carve (Pmm zone (init_frames frames_number mem_base (pages s))).

Definition usable_entry (e : mmap_entry_t) : bool :=
  (base_addr_low e =? 0x100000) && (mmap_type e =? 1).

(** Only the first usable entry is taken ([break]). *)
Definition init_normal_mem_zone (kernel_end_phys : Z) (mmap : list mmap_entry_t) (s : pmm)
  : option pmm :=
  match List.find usable_entry mmap with
  | Some e => init_zone kernel_end_phys e s
  | None => Some s
  end.

(** ** Reporting: [print_free_buddy_blocks] *)

(** The inner loop: the blocks printed for one level.  [None] when the list
    does not end within [fuel] links. *)
Definition print_level (fuel : nat) (s : pmm) (l : Z) : option (list Z) :=
  fst <$> while fuel (fun '(_, cur) => negb (cur =? frames_number s))
    (fun '(out, cur) => (out ++ [cur], pf_next_frame (page s cur))) ([], free_list s l).

(** What is printed, level by level, and the page total of the last line. *)
Definition print_free_buddy_blocks (fuel : nat) (s : pmm) : option (list (list Z) * Z) :=
  for_loop (Z.to_nat BUDDY_MAXLEVEL) 0
    (fun i acc =>
       '(out, total) ← acc;
       line ← print_level fuel s i;
       Some (out ++ [line], u32 (total + bit i * Z.of_nat (length line))))
    (Some ([], 0)).
