(* ===== verification/PmmSpec.v ===== *)
(** * The contract of the frame allocator

    Abstractly the zone [0, frames_number) is cut into blocks, each either free
    or handed out; the eleven free lists hold exactly the free blocks.  This
    file states that invariant over the state of [Pmm] ([buddy_inv]), the
    conditions under which releasing a block is safe ([clean_heads],
    [quiet_tail]) and the well-formedness of the frame table ([table_ok]). *)

From S2P Require Import Prelude Pmm.
From S2P Require Export Chain.

(** ** Blocks of a table given by its flags and levels *)

Definition is_head (fl : Z -> Z) (i : Z) : Prop :=
  fl i = PAGE_FRAME_BLOCK_HEAD \/ fl i = PAGE_FRAME_ALLOCATED + PAGE_FRAME_BLOCK_HEAD.

(** The first [n] pages are cut exactly into blocks: a block of level [l]
    starts at a multiple of [2 ^ l], fits, its other pages are marked interior,
    and every page lies in a block. *)
Record tiling (n : Z) (fl lv : Z -> Z) : Prop := {
  tl_shape : forall i, 0 <= i < n -> is_head fl i ->
    0 <= lv i < BUDDY_MAXLEVEL /\ (2 ^ lv i | i) /\ i + 2 ^ lv i <= n;
  tl_inner : forall i j, 0 <= i < n -> is_head fl i -> i < j < i + 2 ^ lv i ->
    fl j = PAGE_FRAME_ALLOCATED;
  tl_cover : forall p, 0 <= p < n ->
    exists i, 0 <= i < n /\ is_head fl i /\ i <= p < i + 2 ^ lv i
}.

(** ** The state of the allocator *)

Definition flags_of (s : pmm) (i : Z) : Z := pf_flags (page s i).
Definition level_of (s : pmm) (i : Z) : Z := pf_level (page s i).
Definition next_of (s : pmm) (i : Z) : Z := pf_next_frame (page s i).
Definition prev_of (s : pmm) (i : Z) : Z := pf_prev_frame (page s i).

Definition free_block (s : pmm) (i l : Z) : Prop :=
  0 <= i < frames_number s /\ flags_of s i = PAGE_FRAME_BLOCK_HEAD /\ level_of s i = l.

Definition used_block (s : pmm) (i l : Z) : Prop :=
  0 <= i < frames_number s
  /\ flags_of s i = PAGE_FRAME_ALLOCATED + PAGE_FRAME_BLOCK_HEAD /\ level_of s i = l.

(** The invariant while the first [n] pages have been cut: [L l] is the contents
    of the free list of level [l]. *)
Record buddy_inv_upto (n : Z) (s : pmm) (L : Z -> list Z) : Prop := {
  bi_bound : 0 <= n <= frames_number s /\ frames_number s < 2 ^ 31;
  bi_tiling : tiling n (flags_of s) (level_of s);
  bi_chain : forall l, 0 <= l < BUDDY_MAXLEVEL ->
    wchain (next_of s) (prev_of s) (frames_number s) (free_list s l) (L l);
  bi_mem : forall l i, 0 <= l < BUDDY_MAXLEVEL ->
    i ∈ L l <-> free_block s i l /\ i < n;
  bi_nodup : forall l, 0 <= l < BUDDY_MAXLEVEL -> NoDup (L l)
}.

Definition buddy_inv (s : pmm) (L : Z -> list Z) : Prop :=
  buddy_inv_upto (frames_number s) s L.

Definition buddy_ok (s : pmm) : Prop := exists L, buddy_inv s L.

(** The first block of each list below the top level has no predecessor. *)
Definition clean_heads (s : pmm) : Prop :=
  forall l, 0 <= l < BUDDY_MAXLEVEL - 1 -> free_list s l <> frames_number s ->
    prev_of s (free_list s l) = frames_number s.

(** The memory behind the frame table, as far as a buddy index can reach, does
    not read as the head of a free block. *)
Definition quiet_tail (s : pmm) : Prop :=
  forall j, frames_number s <= j < frames_number s + 512 ->
    flags_of s j <> PAGE_FRAME_BLOCK_HEAD.

(** The constant part of the table, and the layout of the zone. *)
Record table_ok (s : pmm) : Prop := {
  tb_frames : 0 < nm_frames (normal_mem s)
    /\ nm_frames (normal_mem s) + SIZEOF_PAGE_FRAME * frames_number s < 2 ^ 32;
  tb_base : 0 < nm_base (normal_mem s) /\ (PAGE_FRAME_SIZE | nm_base (normal_mem s))
    /\ nm_base (normal_mem s) + PAGE_FRAME_SIZE * frames_number s <= 2 ^ 32;
  tb_index : forall i, 0 <= i < frames_number s -> pf_index (page s i) = i;
  tb_addr : forall i, 0 <= i < frames_number s ->
    pf_physic_addr (page s i) = nm_base (normal_mem s) + PAGE_FRAME_SIZE * i
}.

(** What allocation and release leave alone: the zone and the fields of the
    table that do not describe blocks. *)
Definition same_table (s s' : pmm) : Prop :=
  nm_base (normal_mem s') = nm_base (normal_mem s)
  /\ nm_frames (normal_mem s') = nm_frames (normal_mem s)
  /\ frames_number s' = frames_number s
  /\ forall i, pf_index (page s' i) = pf_index (page s i)
       /\ pf_physic_addr (page s' i) = pf_physic_addr (page s i)
       /\ pf_allocator (page s' i) = pf_allocator (page s i).

(** Every page belongs to at most one block. *)
Definition in_block (i l p : Z) : Prop := i <= p < i + 2 ^ l.
