(* ===== verification/PmmLemmas.v ===== *)
(** * Tilings and linked lists in the frame table

    Lemmas about the two halves of the allocator's invariant, stated on plain
    functions of the page index: cutting, joining, relabelling and extending a
    tiling, and popping, pushing and unlinking in a chain. *)

From S2P Require Import Prelude Pmm PmmSpec.

(** ** Tilings *)

Lemma interior_not_head fl i : fl i = PAGE_FRAME_ALLOCATED -> ~ is_head fl i.
Proof. unfold is_head. intros E [H|H]; rewrite E in H; discriminate. Qed.

Lemma is_head_eq fl fl' i : fl' i = fl i -> is_head fl' i <-> is_head fl i.
Proof. unfold is_head. intros ->. reflexivity. Qed.

Section tilings.
Context (n : Z).
Implicit Types fl lv : Z -> Z.

Lemma tiling_ext fl lv fl' lv' :
  tiling n fl lv -> (forall j, 0 <= j < n -> fl' j = fl j /\ lv' j = lv j) ->
  tiling n fl' lv'.
Proof.
  intros [H1 H2 H3] He.
  assert (forall i, 0 <= i < n -> is_head fl' i -> is_head fl i) as Hh.
  { unfold is_head. intros i Hi. destruct (He i Hi) as [-> _]. auto. }
  split.
  - intros i Hi Hd. destruct (He i Hi) as [_ ->]. auto.
  - intros i j Hi Hd. destruct (He i Hi) as [_ ->]. intros Hj.
    destruct (H1 i Hi (Hh i Hi Hd)) as (_ & _ & ?).
    destruct (He j) as [-> _]; [lia|]. eauto.
  - intros p Hp. destruct (H3 p Hp) as (i & Hi & Hd & Hin). exists i.
    destruct (He i Hi) as [Ef ->]. unfold is_head in *. rewrite Ef. auto.
Qed.

(** Two blocks that share a page are the same block. *)
Lemma tiling_disjoint fl lv i j p :
  tiling n fl lv -> 0 <= i < n -> is_head fl i -> 0 <= j < n -> is_head fl j ->
  in_block i (lv i) p -> in_block j (lv j) p -> i = j.
Proof.
  unfold in_block. intros T Hi Hdi Hj Hdj Hpi Hpj.
  destruct (Z.lt_trichotomy i j) as [Hlt|[|Hlt]]; [exfalso|assumption|exfalso].
  - revert Hdj. apply interior_not_head, (tl_inner _ _ _ T i j); auto; lia.
  - revert Hdi. apply interior_not_head, (tl_inner _ _ _ T j i); auto; lia.
Qed.

(** A head inside a block is the head of that block. *)
Lemma tiling_head_in fl lv i j :
  tiling n fl lv -> 0 <= i < n -> is_head fl i -> 0 <= j < n -> is_head fl j ->
  i <= j < i + 2 ^ lv i -> i = j.
Proof.
  intros T Hi Hdi Hj Hdj Hin. apply (tiling_disjoint fl lv i j j); auto.
  unfold in_block. destruct (tl_shape _ _ _ T j Hj Hdj) as ((? & _) & _).
  pose proof (pow2_pos (lv j)). lia.
Qed.

(** Changing the mark of a head between free and used. *)
Lemma tiling_relabel fl lv fl' lv' i :
  tiling n fl lv -> 0 <= i < n -> is_head fl i -> is_head fl' i -> lv' i = lv i ->
  (forall j, 0 <= j < n -> j <> i -> fl' j = fl j /\ lv' j = lv j) ->
  tiling n fl' lv'.
Proof.
  intros T Hi Hd Hd' El He.
  assert (forall j, 0 <= j < n -> is_head fl' j -> is_head fl j /\ lv' j = lv j) as Hh.
  { intros j Hj. destruct (Z.eq_dec j i) as [->|Hne]; [auto|].
    unfold is_head. destruct (He j Hj Hne) as [-> ->]. auto. }
  split.
  - intros j Hj Hdj. destruct (Hh j Hj Hdj) as [? ->]. eapply tl_shape; eauto.
  - intros j k Hj Hdj Hk. destruct (Hh j Hj Hdj) as [Hd1 E]. rewrite E in Hk.
    pose proof (tl_inner _ _ _ T j k Hj Hd1 Hk) as Ek.
    destruct (tl_shape _ _ _ T j Hj Hd1) as (_ & _ & ?).
    assert (k <> i) as Hne.
    { intros ->. eapply interior_not_head; eauto. }
    destruct (He k) as [-> _]; [lia|exact Hne|exact Ek].
  - intros p Hp. destruct (tl_cover _ _ _ T p Hp) as (j & Hj & Hdj & Hin). exists j.
    destruct (Z.eq_dec j i) as [->|Hne].
    + rewrite El. auto.
    + destruct (He j Hj Hne) as [Ef ->]. unfold is_head in *. rewrite Ef. auto.
Qed.

(** Cutting a block of level [l + 1] at [i] into its two halves. *)
Lemma tiling_split fl lv fl' lv' i l :
  tiling n fl lv -> 0 <= i < n -> is_head fl i -> 0 <= l -> lv i = l + 1 ->
  is_head fl' i -> lv' i = l -> is_head fl' (i + 2 ^ l) -> lv' (i + 2 ^ l) = l ->
  (forall j, 0 <= j < n -> j <> i -> j <> i + 2 ^ l -> fl' j = fl j /\ lv' j = lv j) ->
  tiling n fl' lv'.
Proof.
  intros T Hi Hd Hl El Hdi Eli Hdr Elr He.
  destruct (tl_shape _ _ _ T i Hi Hd) as (Hr & Hdiv & Hfit).
  rewrite El in *. rewrite pow2_S in * by lia. pose proof (pow2_pos l Hl) as Hp.
  assert (forall j, i < j < i + 2 * 2 ^ l -> fl j = PAGE_FRAME_ALLOCATED) as Hin.
  { intros j Hj. apply (tl_inner _ _ _ T i j Hi Hd). rewrite El, pow2_S; lia. }
  assert (forall j, 0 <= j < n -> j <> i -> j <> i + 2 ^ l -> is_head fl' j ->
    is_head fl j /\ (j < i \/ i + 2 * 2 ^ l <= j)) as Hout.
  { intros j Hj H1 H2. destruct (He j Hj H1 H2) as [E _]. unfold is_head at 1. rewrite E.
    intros Hx. split; [exact Hx|].
    destruct (Z.lt_ge_cases j i); [auto|]. destruct (Z.lt_ge_cases j (i + 2 * 2 ^ l)); [|auto].
    exfalso. revert Hx. apply interior_not_head, Hin. lia. }
  split.
  - intros j Hj Hdj. destruct (Z.eq_dec j i) as [->|H1].
    { rewrite Eli. split; [lia|]. split; [|lia].
      eapply Z.divide_trans; [|exact Hdiv]. exists 2; lia. }
    destruct (Z.eq_dec j (i + 2 ^ l)) as [->|H2].
    { rewrite Elr. split; [lia|]. split; [|lia]. apply Z.divide_add_r; [|apply Z.divide_refl].
      eapply Z.divide_trans; [|exact Hdiv]. exists 2; lia. }
    destruct (Hout j Hj H1 H2 Hdj) as [Hx _]. destruct (He j Hj H1 H2) as [_ ->].
    eapply tl_shape; eauto.
  - intros j k Hj Hdj Hk. destruct (Z.eq_dec j i) as [->|H1].
    { rewrite Eli in Hk. destruct (He k) as [-> _]; try lia. apply Hin; lia. }
    destruct (Z.eq_dec j (i + 2 ^ l)) as [->|H2].
    { rewrite Elr in Hk. destruct (He k) as [-> _]; try lia. apply Hin; lia. }
    destruct (Hout j Hj H1 H2 Hdj) as [Hx Hside]. destruct (He j Hj H1 H2) as [_ E].
    rewrite E in Hk. pose proof (tl_inner _ _ _ T j k Hj Hx Hk) as Ek.
    destruct (tl_shape _ _ _ T j Hj Hx) as (_ & _ & ?).
    assert (j + 2 ^ lv j <= i \/ i < j) as Hd'.
    { destruct (Z.lt_ge_cases i j); [auto|left].
      destruct (Z.lt_ge_cases i (j + 2 ^ lv j)); [exfalso|lia].
      apply H1. apply (tiling_head_in fl lv j i); auto; lia. }
    destruct (He k) as [-> _]; try lia.
  - intros p Hp0. destruct (tl_cover _ _ _ T p Hp0) as (j & Hj & Hdj & Hin').
    destruct (Z.eq_dec j i) as [->|H1].
    + rewrite El, pow2_S in Hin' by lia. destruct (Z.lt_ge_cases p (i + 2 ^ l)).
      * exists i. rewrite Eli. repeat split; auto; lia.
      * exists (i + 2 ^ l). rewrite Elr. repeat split; auto; lia.
    + assert (j <> i + 2 ^ l) as H2.
      { intros ->. revert Hdj. apply interior_not_head, Hin. lia. }
      exists j. destruct (He j Hj H1 H2) as [Ef ->]. unfold is_head in *. rewrite Ef. auto.
Qed.

(** Joining two buddies of level [l] into the block of level [l + 1] at [i]. *)
Lemma tiling_merge fl lv fl' lv' i l :
  tiling n fl lv -> 0 <= i -> i + 2 ^ l < n -> 0 <= l < BUDDY_MAXLEVEL - 1 ->
  (2 * 2 ^ l | i) ->
  is_head fl i -> lv i = l -> is_head fl (i + 2 ^ l) -> lv (i + 2 ^ l) = l ->
  is_head fl' i -> lv' i = l + 1 -> fl' (i + 2 ^ l) = PAGE_FRAME_ALLOCATED ->
  (forall j, 0 <= j < n -> j <> i -> j <> i + 2 ^ l -> fl' j = fl j /\ lv' j = lv j) ->
  tiling n fl' lv'.
Proof.
  unfold BUDDY_MAXLEVEL. intros T Hi Hr Hl Hdiv Hdi Eli Hdr Elr Hdi' Eli' Efr He.
  pose proof (pow2_pos l ltac:(lia)) as Hp.
  destruct (tl_shape _ _ _ T (i + 2 ^ l) ltac:(lia) Hdr) as (_ & _ & Hfit). rewrite Elr in Hfit.
  assert (forall j, 0 <= j < n -> j <> i -> is_head fl' j ->
    is_head fl j /\ lv' j = lv j /\ j <> i + 2 ^ l) as Hout.
  { intros j Hj H1 Hd. destruct (Z.eq_dec j (i + 2 ^ l)) as [->|H2].
    - exfalso. revert Hd. apply interior_not_head, Efr.
    - unfold is_head in *. destruct (He j Hj H1 H2) as [<- ->]. auto. }
  split.
  - intros j Hj Hd. destruct (Z.eq_dec j i) as [->|H1].
    + rewrite Eli', pow2_S by lia. unfold BUDDY_MAXLEVEL. split; [lia|]. split; [exact Hdiv|lia].
    + destruct (Hout j Hj H1 Hd) as (? & -> & _). eapply tl_shape; eauto.
  - intros j k Hj Hd Hk. destruct (Z.eq_dec j i) as [->|H1].
    + rewrite Eli', pow2_S in Hk by lia. destruct (Z.eq_dec k (i + 2 ^ l)) as [->|H2]; [exact Efr|].
      destruct (He k) as [-> _]; try lia. destruct (Z.lt_ge_cases k (i + 2 ^ l)).
      * apply (tl_inner _ _ _ T i k); [lia|exact Hdi|rewrite Eli; lia].
      * apply (tl_inner _ _ _ T (i + 2 ^ l) k); [lia|exact Hdr|rewrite Elr; lia].
    + destruct (Hout j Hj H1 Hd) as (Hdj & E & _). rewrite E in Hk.
      pose proof (tl_inner _ _ _ T j k Hj Hdj Hk) as Ek.
      destruct (tl_shape _ _ _ T j Hj Hdj) as (_ & _ & ?).
      destruct (He k) as [-> _]; [lia| | |exact Ek];
        intros ->; eapply interior_not_head; eauto.
  - intros p Hp0. destruct (tl_cover _ _ _ T p Hp0) as (j & Hj & Hdj & Hin).
    destruct (Z.eq_dec j i) as [->|H1].
    { exists i. rewrite Eli', pow2_S by lia. rewrite Eli in Hin. repeat split; auto; lia. }
    destruct (Z.eq_dec j (i + 2 ^ l)) as [->|H2].
    { exists i. rewrite Eli', pow2_S by lia. rewrite Elr in Hin. repeat split; auto; lia. }
    exists j. destruct (He j Hj H1 H2) as [Ef ->]. unfold is_head in *. rewrite Ef. auto.
Qed.
End tilings.

(** Appending a block to the tiled part of a table. *)
Lemma tiling_extend n fl lv fl' lv' l :
  tiling n fl lv -> 0 <= n -> 0 <= l < BUDDY_MAXLEVEL -> (2 ^ l | n) ->
  is_head fl' n -> lv' n = l ->
  (forall j, n < j < n + 2 ^ l -> fl' j = PAGE_FRAME_ALLOCATED) ->
  (forall j, 0 <= j < n -> fl' j = fl j /\ lv' j = lv j) ->
  tiling (n + 2 ^ l) fl' lv'.
Proof.
  intros T Hn Hl Hdiv Hdn Eln Hinn He.
  apply (tiling_ext n fl lv fl' lv') in T; [|exact He].
  pose proof (pow2_pos l ltac:(lia)).
  assert (forall j, 0 <= j < n + 2 ^ l -> is_head fl' j -> j < n \/ j = n) as Hh.
  { intros j Hj Hd. destruct (Z.lt_trichotomy j n) as [|[|]]; [auto|auto|].
    exfalso. revert Hd. apply interior_not_head, Hinn. lia. }
  split.
  - intros j Hj Hd. destruct (Hh j Hj Hd) as [Hlt|E].
    + destruct (tl_shape _ _ _ T j ltac:(lia) Hd) as (? & ? & ?). repeat split; auto; lia.
    + rewrite E, Eln. repeat split; auto; lia.
  - intros j k Hj Hd Hk. destruct (Hh j Hj Hd) as [Hlt|E].
    + apply (tl_inner _ _ _ T j k ltac:(lia) Hd Hk).
    + rewrite E, Eln in Hk. apply Hinn. lia.
  - intros p Hp. destruct (Z.lt_ge_cases p n).
    + destruct (tl_cover _ _ _ T p ltac:(lia)) as (j & Hj & Hd & Hin). exists j.
      repeat split; auto; lia.
    + exists n. rewrite Eln. repeat split; auto; lia.
Qed.

Lemma tiling_zero fl lv : tiling 0 fl lv.
Proof. split; intros; lia. Qed.
