(* ===== verification/PmmState.v ===== *)
(** * The allocator's elementary steps preserve its invariant

    Each step of the code (taking the first block of a list, splitting, unlinking
    and joining a buddy, putting a block on a list) is first characterised by the
    fields it changes, then shown to preserve [buddy_inv]. *)

From S2P Require Import Prelude Pmm PmmSpec PmmLemmas.

(** Replace the contents of one free list. *)
Definition lset (l : Z) (xs : list Z) (L : Z -> list Z) : Z -> list Z :=
  fun k => if decide (k = l) then xs else L k.

(** ** Reading back a write *)

Lemma page_upd_page i j f s :
  page (upd_page i f s) j = if decide (i = j) then f (page s j) else page s j.
Proof. apply upd_lookup. Qed.

Lemma page_set_free_list l v s j : page (set_free_list l v s) j = page s j.
Proof. reflexivity. Qed.

Lemma free_list_upd_page i f s l : free_list (upd_page i f s) l = free_list s l.
Proof. reflexivity. Qed.

Lemma free_list_set_free_list l k v s :
  free_list (set_free_list l v s) k = if decide (l = k) then v else free_list s k.
Proof. unfold free_list. simpl. apply lookup_total_insert. Qed.

Lemma frames_number_upd_page i f s : frames_number (upd_page i f s) = frames_number s.
Proof. reflexivity. Qed.

Lemma frames_number_set_free_list l v s :
  frames_number (set_free_list l v s) = frames_number s.
Proof. reflexivity. Qed.

Create Rewrite HintDb pmm.
#[export] Hint Rewrite page_upd_page page_set_free_list free_list_upd_page
  free_list_set_free_list frames_number_upd_page frames_number_set_free_list : pmm.

(** Evaluate field reads of a state built by writes, by cases on the indices. *)
Ltac pmm_cases :=
  unfold flags_of, level_of, next_of, prev_of in *;
  autorewrite with pmm;
  repeat (case_decide; subst; simpl in *; autorewrite with pmm);
  try solve [reflexivity | congruence | tauto | lia].

Section state.
Implicit Types (s : pmm) (L : Z -> list Z).

Lemma lset_eq l xs L : lset l xs L l = xs.
Proof. apply decide_True. reflexivity. Qed.

Lemma lset_ne l k xs L : k <> l -> lset l xs L k = L k.
Proof. apply decide_False. Qed.

(** ** [mark_allocated] *)

Lemma frames_number_mark i l s : frames_number (mark_allocated i l s) = frames_number s.
Proof. reflexivity. Qed.

Lemma free_list_mark i l s k : free_list (mark_allocated i l s) k = free_list s k.
Proof. reflexivity. Qed.

Lemma page_mark_ne i l s j : j <> i -> page (mark_allocated i l s) j = page s j.
Proof. intros Hj. unfold mark_allocated. pmm_cases. Qed.

Lemma mark_eq i l s :
  0 <= l < 256 ->
  flags_of (mark_allocated i l s) i = 3 /\ level_of (mark_allocated i l s) i = l.
Proof.
  intros Hl. unfold mark_allocated, flags_of, level_of. autorewrite with pmm.
  rewrite !decide_True by reflexivity. simpl.
  split; [reflexivity|]. apply u8_small. exact Hl.
Qed.

#[local] Hint Rewrite frames_number_mark free_list_mark : pmm.

Lemma mark_ne i l s j :
  j <> i ->
  flags_of (mark_allocated i l s) j = flags_of s j
  /\ level_of (mark_allocated i l s) j = level_of s j
  /\ next_of (mark_allocated i l s) j = next_of s j
  /\ prev_of (mark_allocated i l s) j = prev_of s j.
Proof.
  intros Hj. unfold flags_of, level_of, next_of, prev_of.
  rewrite page_mark_ne by exact Hj. auto.
Qed.

(** ** Consequences of the invariant *)

Section inv.
Context (n : Z) (s : pmm) (L : Z -> list Z) (I : buddy_inv_upto n s L).

Lemma inv_head_free i l : free_block s i l -> is_head (flags_of s) i.
Proof. intros (_ & H & _). left. exact H. Qed.

Lemma inv_mem_free i l : 0 <= l < BUDDY_MAXLEVEL -> i ∈ L l -> free_block s i l.
Proof. intros Hl Hi. apply (bi_mem _ _ _ I) in Hi as [? _]; auto. Qed.

Lemma inv_mem_lt i l : 0 <= l < BUDDY_MAXLEVEL -> i ∈ L l -> 0 <= i < n.
Proof. intros Hl Hi. apply (bi_mem _ _ _ I) in Hi as [(? & _) ?]; auto. lia. Qed.

Lemma inv_sentinel l : 0 <= l < BUDDY_MAXLEVEL -> frames_number s ∉ L l.
Proof. intros Hl Hi. apply inv_mem_free in Hi as (? & _); auto. lia. Qed.

Lemma inv_empty l :
  0 <= l < BUDDY_MAXLEVEL -> free_list s l = frames_number s <-> L l = [].
Proof.
  intros Hl. eapply wchain_head; [apply (bi_chain _ _ _ I l Hl)|]. apply inv_sentinel, Hl.
Qed.

Lemma inv_first l i xs : 0 <= l < BUDDY_MAXLEVEL -> L l = i :: xs -> free_list s l = i.
Proof.
  intros Hl E. pose proof (bi_chain _ _ _ I l Hl) as Hc. rewrite E in Hc. apply Hc.
Qed.

Lemma inv_fits i : 0 <= i < n -> is_head (flags_of s) i ->
  0 <= level_of s i < BUDDY_MAXLEVEL /\ (2 ^ level_of s i | i) /\ i + 2 ^ level_of s i <= n.
Proof. apply (tl_shape _ _ _ (bi_tiling _ _ _ I)). Qed.
End inv.

(** Chains of lists none of whose elements were touched. *)
Lemma chain_frame s s' l xs :
  wchain (next_of s) (prev_of s) (frames_number s) (free_list s l) xs ->
  frames_number s' = frames_number s -> free_list s' l = free_list s l ->
  (forall x, x ∈ xs -> next_of s' x = next_of s x /\ prev_of s' x = prev_of s x) ->
  wchain (next_of s') (prev_of s') (frames_number s') (free_list s' l) xs.
Proof. intros Hc -> -> He. eapply wchain_ext; eauto. Qed.

(** Membership of the lists after a step that touched only the pages of [T]. *)
Lemma mem_transfer n s s' L L' (T : list Z) :
  buddy_inv_upto n s L -> frames_number s' = frames_number s ->
  (forall j, 0 <= j < frames_number s -> j ∉ T ->
     flags_of s' j = flags_of s j /\ level_of s' j = level_of s j) ->
  (forall k j, 0 <= k < BUDDY_MAXLEVEL -> j ∉ T -> j ∈ L' k <-> j ∈ L k) ->
  (forall k j, 0 <= k < BUDDY_MAXLEVEL -> j ∈ T -> j ∈ L' k <-> free_block s' j k /\ j < n) ->
  forall k j, 0 <= k < BUDDY_MAXLEVEL -> j ∈ L' k <-> free_block s' j k /\ j < n.
Proof.
  intros I En He HL HT k j Hk. destruct (decide (j ∈ T)) as [Hj|Hj]; [auto|].
  rewrite (HL k j Hk Hj), (bi_mem _ _ _ I k j Hk). unfold free_block. rewrite En.
  split; intros [(Hr & Hf & Hl) Hn]; destruct (He j Hr Hj) as [E1 E2];
    (split; [split; [exact Hr|]|exact Hn]); rewrite E1, E2 in *; auto.
Qed.

(** The used blocks after such a step. *)
Lemma used_transfer s s' (T : list Z) :
  frames_number s' = frames_number s ->
  (forall j, 0 <= j < frames_number s -> j ∉ T ->
     flags_of s' j = flags_of s j /\ level_of s' j = level_of s j) ->
  forall j k, j ∉ T -> used_block s' j k <-> used_block s j k.
Proof.
  intros En He j k Hj. unfold used_block. rewrite En.
  split; intros (Hr & Hf & Hl); destruct (He j Hr Hj) as [E1 E2];
    (split; [exact Hr|]); rewrite E1, E2 in *; auto.
Qed.

Lemma not_in_single (x y : Z) : x <> y -> x ∉ [y].
Proof. intros H Hx. apply list_elem_of_singleton in Hx. auto. Qed.

Lemma not_in_pair (x y z : Z) : x ∉ [y; z] <-> x <> y /\ x <> z.
Proof. rewrite !not_elem_of_cons. split; [intros (? & ? & _)|intros []]; repeat split; auto. apply not_elem_of_nil. Qed.

(** ** Taking the first block of a list *)

Definition pop (s : pmm) (l i : Z) : pmm :=
  mark_allocated i l (set_free_list l (next_of s i) s).

Lemma pop_ne s l i j :
  j <> i -> flags_of (pop s l i) j = flags_of s j /\ level_of (pop s l i) j = level_of s j
    /\ next_of (pop s l i) j = next_of s j /\ prev_of (pop s l i) j = prev_of s j.
Proof. apply (mark_ne i l (set_free_list l (next_of s i) s) j). Qed.

Lemma pop_inv s L l i xs :
  buddy_inv s L -> 0 <= l < BUDDY_MAXLEVEL -> L l = i :: xs ->
  buddy_inv (pop s l i) (lset l xs L).
Proof.
  intros I Hl E.
  assert (free_block s i l) as F by (eapply inv_mem_free; [exact I|exact Hl|rewrite E; left]).
  pose proof F as (Hi & Hf & Hlv).
  destruct (mark_eq i l (set_free_list l (next_of s i) s)) as [Ef El];
    [unfold BUDDY_MAXLEVEL in *; lia|fold (pop s l i) in Ef, El].
  pose proof (bi_nodup _ _ _ I l Hl) as Hnd. rewrite E in Hnd. apply NoDup_cons in Hnd as [Hni Hnd].
  assert (forall k, 0 <= k < BUDDY_MAXLEVEL -> i ∉ lset l xs L k) as Hout.
  { intros k Hk Hx. unfold lset in Hx. case_decide; [subst; auto|].
    apply (inv_mem_free _ _ _ I) in Hx as (_ & _ & ?); auto. congruence. }
  split.
  - exact (bi_bound _ _ _ I).
  - apply (tiling_relabel _ _ _ _ _ i (bi_tiling _ _ _ I) Hi).
    + left; exact Hf.
    + right. exact Ef.
    + congruence.
    + intros j _ Hj. destruct (pop_ne s l i j Hj) as (? & ? & _). auto.
  - intros k Hk. assert (forall x, x ∈ lset l xs L k ->
      next_of (pop s l i) x = next_of s x /\ prev_of (pop s l i) x = prev_of s x) as He.
    { intros x Hx. apply pop_ne. intros ->. eapply Hout; eauto. }
    eapply wchain_ext; [|exact He]. unfold pop. autorewrite with pmm.
    pose proof (bi_chain _ _ _ I k Hk) as Hc. unfold lset. destruct (decide (k = l)) as [->|].
    + rewrite decide_True by reflexivity. rewrite E in Hc. destruct Hc as [_ Hc].
      eapply dchain_wchain, Hc.
    + rewrite decide_False by congruence. exact Hc.
  - apply (mem_transfer _ s _ L _ [i] I); [reflexivity| | |].
    + intros j _ Hj. apply not_elem_of_cons in Hj as [Hj _]. destruct (pop_ne s l i j Hj) as (? & ? & _). auto.
    + intros k j Hk Hj. apply not_elem_of_cons in Hj as [Hj _]. unfold lset.
      case_decide; [subst k|reflexivity]. rewrite E, elem_of_cons. tauto.
    + intros k j Hk Hj. apply list_elem_of_singleton in Hj as ->. split.
      * intros Hx. exfalso. eapply Hout; eauto.
      * intros [(_ & Hx & _) _]. rewrite Ef in Hx. discriminate.
  - intros k Hk. unfold lset. case_decide; [exact Hnd|apply (bi_nodup _ _ _ I k Hk)].
Qed.

Lemma pop_used s l i :
  0 <= l < BUDDY_MAXLEVEL -> free_block s i l ->
  forall j k, used_block (pop s l i) j k <-> used_block s j k \/ (j = i /\ k = l).
Proof.
  intros Hl (Hi & Hf & Hlv) j k. destruct (Z.eq_dec j i) as [->|Hj].
  - destruct (mark_eq i l (set_free_list l (next_of s i) s)) as [Ef El];
      [unfold BUDDY_MAXLEVEL in *; lia|]. fold (pop s l i) in Ef, El.
    unfold used_block. rewrite Ef, El, Hf. intuition (try discriminate; try congruence).
  - rewrite (used_transfer s (pop s l i) [i]);
      [tauto|reflexivity| |apply not_in_single, Hj].
    intros x _ Hx. apply not_elem_of_cons in Hx as [Hx _]. destruct (pop_ne s l i x Hx) as (? & ? & _). auto.
Qed.

(** ** Splitting *)

Lemma split_facts i cl s s' cl' :
  split_step i (s, cl) = (s', cl') -> 1 <= cl < BUDDY_MAXLEVEL ->
  free_list s (cl - 1) = frames_number s ->
  let r := Z.lxor i (bit (cl - 1)) in
  r <> frames_number s ->
  cl' = cl - 1 /\ frames_number s' = frames_number s
  /\ (forall k, free_list s' k = if decide (k = cl - 1) then r else free_list s k)
  /\ flags_of s' r = 2 /\ level_of s' r = cl - 1 /\ next_of s' r = frames_number s
  /\ forall j, j <> r -> j <> frames_number s -> page s' j = page s j.
Proof.
  intros E Hcl Hfl r Hr. unfold split_step in E. fold r in E. injection E as <- <-.
  autorewrite with pmm. rewrite Hfl. unfold BUDDY_MAXLEVEL in *.
  split; [reflexivity|]. split; [reflexivity|]. split.
  { intros k. autorewrite with pmm. repeat case_decide; congruence. }
  split; [|split; [|split]].
  - pmm_cases.
  - pmm_cases. apply u8_small. unfold in_u8. lia.
  - pmm_cases.
  - intros j Hj Hz. pmm_cases.
Qed.

Section splitting.
Context (i cl : Z) (s s' : pmm) (cl' : Z) (L : Z -> list Z).
Context (Hcl : 1 <= cl < BUDDY_MAXLEVEL).
Context (E : split_step i (s, cl) = (s', cl')).
Context (Hi : 0 <= i < frames_number s).
Context (I : buddy_inv (mark_allocated i cl s) L).
Context (Hempty : L (cl - 1) = []).
Let r := Z.lxor i (bit (cl - 1)).

Lemma split_shape : (2 * 2 ^ (cl - 1) | i) /\ i + 2 * 2 ^ (cl - 1) <= frames_number s
  /\ r = i + 2 ^ (cl - 1).
Proof.
  unfold BUDDY_MAXLEVEL in Hcl.
  destruct (mark_eq i cl s ltac:(lia)) as [Ef El].
  destruct (tl_shape _ _ _ (bi_tiling _ _ _ I) i Hi) as (_ & Hd & Hn); [right; exact Ef|].
  rewrite El in Hd, Hn. replace cl with (cl - 1 + 1) in Hd, Hn by lia.
  rewrite pow2_S in Hd, Hn by lia. split; [exact Hd|]. split; [exact Hn|].
  unfold r. rewrite bit_pow2 by lia. apply lxor_pow2_even; [lia|exact Hd].
Qed.

Lemma split_facts' :
  cl' = cl - 1 /\ frames_number s' = frames_number s
  /\ (forall k, free_list s' k = if decide (k = cl - 1) then r else free_list s k)
  /\ flags_of s' r = 2 /\ level_of s' r = cl - 1 /\ next_of s' r = frames_number s
  /\ forall j, j <> r -> j <> frames_number s -> page s' j = page s j.
Proof.
  apply split_facts; [exact E|exact Hcl| |].
  - apply (inv_empty _ _ _ I (cl - 1)); [unfold BUDDY_MAXLEVEL in *; lia|exact Hempty].
  - fold r. destruct split_shape as (_ & Hn & ->). pose proof (pow2_pos (cl - 1)).
    unfold BUDDY_MAXLEVEL in *. autorewrite with pmm in *. lia.
Qed.

(** The virtual state, where the block in hand is marked used, before and after. *)
Let v := mark_allocated i cl s.
Let v' := mark_allocated i (cl - 1) s'.

Lemma split_ne j : 0 <= j < frames_number s -> j <> i -> j <> r ->
  flags_of v' j = flags_of v j /\ level_of v' j = level_of v j
  /\ next_of v' j = next_of v j /\ prev_of v' j = prev_of v j.
Proof.
  intros Hj H1 H2. destruct split_facts' as (_ & _ & _ & _ & _ & _ & Hp).
  unfold v, v', flags_of, level_of, next_of, prev_of.
  rewrite !page_mark_ne, Hp by (exact H1 || exact H2 || lia). auto.
Qed.

Lemma split_inv : buddy_inv v' (lset (cl - 1) [r] L).
Proof.
  destruct split_shape as (Hd & Hn & Er).
  destruct split_facts' as (_ & En & Hfl & Hfr & Hlr & Hnr & _).
  assert (1 <= cl < 11) as Hcl' by exact Hcl.
  pose proof (pow2_pos (cl - 1) ltac:(lia)) as Hp.
  destruct (mark_eq i cl s ltac:(lia)) as [Ef El].
  destruct (mark_eq i (cl - 1) s' ltac:(lia)) as [Ef' El'].
  destruct (mark_ne i (cl - 1) s' r ltac:(lia)) as (Efr & Elr & Enr & _).
  rewrite Hfr in Efr. rewrite Hlr in Elr. rewrite Hnr in Enr.
  fold v in Ef, El. fold v' in Ef', El', Efr, Elr, Enr.
  assert (frames_number v' = frames_number s) as Env by exact En.
  assert (forall k j, 0 <= k < BUDDY_MAXLEVEL -> j ∈ L k -> j <> i /\ j <> r) as Hout.
  { intros k j Hk Hj. apply (inv_mem_free _ _ _ I) in Hj as (Hj & Hf & Hl); [|exact Hk].
    fold v in Hf, Hl. split; intros ->; [rewrite Ef in Hf; discriminate|].
    assert (i = r); [|lia].
    eapply (tiling_head_in _ _ _ i r (bi_tiling _ _ _ I)); auto; [right; exact Ef|left; exact Hf|].
    fold v. rewrite El. replace cl with (cl - 1 + 1) by lia. rewrite pow2_S by lia. lia. }
  split.
  - rewrite Env. exact (bi_bound _ _ _ I).
  - rewrite Env. apply (tiling_split _ (flags_of v) (level_of v) _ _ i (cl - 1));
      rewrite <- ?Er; [apply (bi_tiling _ _ _ I)|exact Hi|right; exact Ef|lia|lia|
                       right; exact Ef'|exact El'|left; exact Efr|exact Elr|].
    intros j Hj H1 H2. destruct (split_ne j Hj H1 H2) as (? & ? & _). auto.
  - intros k Hk. rewrite Env. unfold v' at 3. rewrite free_list_mark, Hfl. unfold lset. case_decide.
    + simpl. split; [reflexivity|]. exact Enr.
    + eapply wchain_ext; [apply (bi_chain _ _ _ I k Hk)|].
      intros x Hx. pose proof (Hout k x Hk Hx) as []. apply split_ne; auto.
      apply (inv_mem_lt _ _ _ I) in Hx; auto.
  - apply (mem_transfer _ v _ L _ [i; r]); auto.
    + rewrite Env. exact I.
    + intros j Hj Hn'. apply not_in_pair in Hn' as []. destruct (split_ne j Hj) as (? & ? & _); auto.
    + intros k j Hk Hn'. apply not_in_pair in Hn' as []. unfold lset. case_decide; [|reflexivity].
      subst k. rewrite Hempty, list_elem_of_singleton. split; [contradiction|].
      intros Hx. apply elem_of_nil in Hx as [].
    + intros k j Hk Hj. unfold free_block. rewrite Env.
      apply elem_of_cons in Hj as [->|Hj%list_elem_of_singleton].
      * rewrite Ef'. split; [|intros [(_ & [=] & _) _]].
        unfold lset. case_decide; [intros Hx%list_elem_of_singleton; lia|].
        intros Hx. destruct (Hout k i Hk Hx); contradiction.
      * subst j. rewrite Efr, Elr. unfold lset. case_decide.
        -- rewrite list_elem_of_singleton. repeat split; auto; lia.
        -- split; [intros Hx; destruct (Hout k r Hk Hx); contradiction|].
           intros [(_ & _ & ?) _]. congruence.
  - intros k Hk. unfold lset. case_decide; [apply NoDup_singleton|apply (bi_nodup _ _ _ I k Hk)].
Qed.

(** Splitting moves the used block in hand one level down and nothing else. *)
Lemma split_used j k :
  used_block v' j k <-> (used_block v j k /\ j <> i) \/ (j = i /\ k = cl - 1).
Proof.
  destruct split_shape as (Hd & Hn & Er).
  destruct split_facts' as (_ & En & Hfl & Hfr & Hlr & _).
  assert (1 <= cl < 11) as Hcl' by exact Hcl.
  pose proof (pow2_pos (cl - 1) ltac:(lia)) as Hp.
  destruct (mark_eq i cl s ltac:(lia)) as [Ef El].
  destruct (mark_eq i (cl - 1) s' ltac:(lia)) as [Ef' El'].
  destruct (Z.eq_dec j i) as [->|Hj].
  { unfold used_block, v', v. rewrite Ef', El', !frames_number_mark, En.
    intuition congruence. }
  destruct (Z.eq_dec j r) as [->|Hjr].
  - destruct (mark_ne i (cl - 1) s' r Hj) as (Efr & _).
    unfold used_block at 1, v'. rewrite Efr, Hfr.
    split; [intros (_ & [=] & _)|intros [[(_ & Hu & _) _]|[]]; [exfalso|contradiction]].
    apply Hj. symmetry. apply (tiling_head_in _ _ _ i r (bi_tiling _ _ _ I)); auto.
    + right; exact Ef.
    + autorewrite with pmm. lia.
    + right; exact Hu.
    + rewrite El. replace cl with (cl - 1 + 1) by lia. rewrite pow2_S by lia. lia.
  - rewrite (used_transfer v v' [i; r]); [tauto|exact En| |apply not_in_pair; auto].
    intros x Hx Hn'. apply not_in_pair in Hn' as []. destruct (split_ne x Hx) as (? & ? & _); auto.
Qed.
End splitting.

(** ** Predecessor links *)

(** Below the top level the lists are fully doubly linked. *)
Definition clean_chains (s : pmm) (L : Z -> list Z) : Prop :=
  forall l, 0 <= l < BUDDY_MAXLEVEL - 1 ->
    dchain (next_of s) (prev_of s) (frames_number s) (frames_number s) (free_list s l) (L l).

Lemma clean_chains_iff s L : buddy_inv s L -> clean_heads s <-> clean_chains s L.
Proof.
  intros I. split; intros H l Hl.
  - assert (0 <= l < BUDDY_MAXLEVEL) as Hl' by lia.
    apply wchain_dchain; [apply (bi_chain _ _ _ I l Hl')|apply (inv_sentinel _ _ _ I l Hl')|].
    apply H, Hl.
  - specialize (H l Hl). destruct (L l); cbn [dchain] in H; [intros; contradiction|].
    destruct H as (-> & Hp & _). auto.
Qed.

(** Lists of different levels have no common element. *)
Lemma lists_disjoint n s L l k x :
  buddy_inv_upto n s L -> 0 <= l < BUDDY_MAXLEVEL -> 0 <= k < BUDDY_MAXLEVEL ->
  x ∈ L l -> x ∈ L k -> l = k.
Proof.
  intros I Hl Hk Hxl Hxk. apply (inv_mem_free _ _ _ I) in Hxl as (_ & _ & <-); [|exact Hl].
  apply (inv_mem_free _ _ _ I) in Hxk as (_ & _ & <-); [|exact Hk]. reflexivity.
Qed.

(** ** Unlinking *)

Lemma unlink_facts l b s :
  frames_number (unlink l b s) = frames_number s
  /\ (forall k, free_list (unlink l b s) k =
        if decide (k = l /\ prev_of s b = frames_number s) then next_of s b else free_list s k)
  /\ (forall x, flags_of (unlink l b s) x = flags_of s x
        /\ level_of (unlink l b s) x = level_of s x)
  /\ (forall x, 0 <= x < frames_number s ->
        next_of (unlink l b s) x = if decide (x = prev_of s b) then next_of s b else next_of s x)
  /\ (forall x, 0 <= x < frames_number s ->
        prev_of (unlink l b s) x = if decide (x = next_of s b) then prev_of s b else prev_of s x).
Proof.
  unfold unlink. fold (prev_of s b) (next_of s b).
  destruct (Z.eqb_spec (prev_of s b) (frames_number s)) as [Ep|Ep];
    autorewrite with pmm; destruct (Z.ltb_spec (next_of s b) (frames_number s)) as [En|En];
    (split; [reflexivity|]); (split; [intros k|split; [intros x; split|split; intros x Hx]]);
    generalize dependent (prev_of s b); generalize dependent (next_of s b); intros; pmm_cases.
Qed.

(** ** Joining a block with its buddy *)

Section merging.
Context (s : pmm) (i b l : Z) (L : Z -> list Z).
Let v := mark_allocated i l s.
Context (Hl : 0 <= l < BUDDY_MAXLEVEL - 1).
Context (Hi : 0 <= i < frames_number s).
Context (I : buddy_inv v L).
Context (C : clean_chains v L).
Context (Eb : b = Z.lxor i (bit l)).
Context (Fb : free_block s b l).

Let s1 := unlink l b s.
Let m := merge_step (MergeSt s i b l).
Let v' := mark_allocated (mg_page_index m) (l + 1) (mg_s m).

(** The lower half of the joined block, and the upper half. *)
Let lo := Z.min i b.
Let hi := Z.max i b.

Lemma merge_shape : b <> i /\ hi = lo + 2 ^ l /\ (2 * 2 ^ l | lo) /\ 0 <= lo /\ hi < frames_number s.
Proof.
  unfold BUDDY_MAXLEVEL in Hl. pose proof (pow2_pos l ltac:(lia)) as Hp.
  destruct (mark_eq i l s ltac:(lia)) as [Ef El]. fold v in Ef, El. destruct Fb as (Hb & _).
  destruct (tl_shape _ _ _ (bi_tiling _ _ _ I) i Hi) as (_ & Hd & _); [right; exact Ef|].
  rewrite El in Hd. unfold lo, hi. rewrite Eb in *. rewrite bit_pow2 in * by lia.
  destruct (aligned_cases i l ltac:(lia) Hd) as [He|Ho].
  - rewrite (lxor_pow2_even i l) in * by (lia || exact He).
    rewrite Z.min_l, Z.max_r by lia. repeat split; auto; lia.
  - rewrite (lxor_pow2_odd i l) in * by (lia || exact Ho).
    rewrite Z.min_r, Z.max_l by lia. repeat split; auto; lia.
Qed.

Lemma merge_facts :
  mg_page_index m = lo /\ mg_level m = l + 1 /\ mg_buddy_index m = Z.lxor lo (bit (l + 1))
  /\ frames_number (mg_s m) = frames_number s
  /\ (forall k, free_list (mg_s m) k = free_list s1 k)
  /\ flags_of (mg_s m) hi = 1
  /\ (forall j, j <> lo -> j <> hi -> page (mg_s m) j = page s1 j)
  /\ (forall j, frames_number s <= j -> page (mg_s m) j = page s1 j).
Proof.
  destruct merge_shape as (Hne & Eh & _ & H0 & Hh). unfold m, merge_step.
  cbn [mg_s mg_level mg_page_index mg_buddy_index]. fold s1.
  assert (frames_number s1 = frames_number s) as En by apply unlink_facts.
  destruct (Z.ltb_spec b i) as [Hlt|Hlt]; cbn [mg_s mg_level mg_page_index mg_buddy_index];
    unfold lo, hi in *; rewrite ?(Z.min_r i b), ?(Z.max_l i b), ?(Z.min_l i b), ?(Z.max_r i b) in * by lia;
    repeat split; auto; try (intros j ? ?); try (intros j ?); pmm_cases.
Qed.

Lemma merge_ne j : 0 <= j < frames_number s -> j <> lo -> j <> hi ->
  flags_of v' j = flags_of v j /\ level_of v' j = level_of v j
  /\ next_of v' j = (if decide (j = prev_of v b) then next_of v b else next_of v j)
  /\ prev_of v' j = (if decide (j = next_of v b) then prev_of v b else prev_of v j).
Proof.
  intros Hj H1 H2. destruct merge_facts as (Em & _ & _ & _ & _ & _ & Hp & _).
  destruct merge_shape as (Hne & _).
  destruct (unlink_facts l b s) as (_ & _ & Hfl & Hnx & Hpv). fold s1 in Hfl, Hnx, Hpv.
  assert (j <> i /\ j <> b) as [H3 H4] by (unfold lo, hi in *; lia).
  destruct (mark_ne i l s b Hne) as (_ & _ & Enb & Epb). fold v in Enb, Epb.
  destruct (mark_ne i l s j H3) as (Ef & El & En & Ep). fold v in Ef, El, En, Ep.
  rewrite Ef, El, En, Ep, Enb, Epb, <- (Hnx j Hj), <- (Hpv j Hj).
  destruct (Hfl j) as [<- <-].
  unfold v', flags_of, level_of, next_of, prev_of. rewrite Em, page_mark_ne, Hp by auto. auto.
Qed.

Lemma merge_b_in : exists xs ys, L l = xs ++ b :: ys.
Proof.
  apply list_elem_of_split. apply (bi_mem _ _ _ I l b); [unfold BUDDY_MAXLEVEL in *; lia|].
  destruct merge_shape as (Hne & _). destruct Fb as (Hb & Hf & Hlv).
  destruct (mark_ne i l s b Hne) as (E1 & E2 & _). fold v in E1, E2.
  split; [split; [exact Hb|rewrite E1, E2; auto]|exact (proj2 Hb)].
Qed.

Lemma merge_out k j : 0 <= k < BUDDY_MAXLEVEL -> j ∈ L k -> j <> b -> j <> lo /\ j <> hi.
Proof.
  intros Hk Hj Hb. apply (inv_mem_free _ _ _ I) in Hj as (_ & Hf & _); [|exact Hk].
  assert (j <> i); [|unfold lo, hi; lia]. intros ->.
  destruct (mark_eq i l s) as [Ef _]; [unfold BUDDY_MAXLEVEL in *; lia|]. fold v in Ef.
  rewrite Ef in Hf. discriminate.
Qed.

Section lists.
Context (xs ys : list Z) (EL : L l = xs ++ b :: ys).
Let L' := lset l (xs ++ ys) L.

Lemma merge_sub k j : 0 <= k < BUDDY_MAXLEVEL -> j ∈ L' k -> j ∈ L k /\ j <> b.
Proof.
  intros Hk. unfold L', lset. case_decide as Ek.
  - subst k. pose proof (bi_nodup _ _ _ I l Hk) as Hnd. rewrite EL in Hnd |- *.
    intros Hj. split; [apply elem_of_app in Hj as []; apply elem_of_app; [left|right; right]; auto|].
    intros ->. apply NoDup_app in Hnd as (_ & Hd & Hnd). apply NoDup_cons in Hnd as [Hn _].
    apply elem_of_app in Hj as [Hj|Hj]; [|auto]. apply (Hd b Hj). left.
  - intros Hj. split; [exact Hj|]. intros ->. apply Ek.
    apply (lists_disjoint _ _ _ k l b I); auto; [unfold BUDDY_MAXLEVEL in *; lia|].
    rewrite EL. apply elem_of_app. right. left.
Qed.

(** The links of the elements that stay: those of a chain other than the
    buddy's do not change. *)
Lemma merge_links k j : 0 <= k < BUDDY_MAXLEVEL -> j ∈ L' k ->
  next_of v' j = (if decide (j = prev_of v b) then next_of v b else next_of v j)
  /\ prev_of v' j = (if decide (j = next_of v b) then prev_of v b else prev_of v j).
Proof.
  intros Hk Hj. destruct (merge_sub k j Hk Hj) as [Hin Hb].
  destruct (merge_out k j Hk Hin Hb). apply merge_ne; auto.
  apply (inv_mem_lt _ _ _ I j k Hk Hin).
Qed.

Lemma merge_neighbours :
  (prev_of v b = frames_number s /\ xs = [] \/ prev_of v b ∈ L l /\ xs <> [])
  /\ (next_of v b = frames_number s \/ next_of v b ∈ L l).
Proof.
  pose proof (C l Hl) as Hc. rewrite EL in Hc |- *. split.
  - destruct (dchain_pv _ _ _ _ _ _ _ _ Hc) as [[-> E]|[Hne Hin]]; [left|right]; split; auto.
    apply elem_of_app. left. exact Hin.
  - destruct (dchain_nx _ _ _ _ _ _ _ _ Hc) as [E|Hin]; [left; exact E|right].
    apply elem_of_app. right. right. exact Hin.
Qed.

Lemma merge_links_other k j : 0 <= k < BUDDY_MAXLEVEL -> k <> l -> j ∈ L k ->
  next_of v' j = next_of v j /\ prev_of v' j = prev_of v j.
Proof.
  intros Hk Hkl Hj. assert (j ∈ L' k) as Hj' by (unfold L'; rewrite lset_ne; auto).
  assert (0 <= l < BUDDY_MAXLEVEL) as Hl' by (unfold BUDDY_MAXLEVEL in *; lia).
  assert (j ∉ L l) as Hd by (intros Hx; apply Hkl; apply (lists_disjoint _ _ _ k l j I); auto).
  destruct (merge_links k j Hk Hj') as [-> ->].
  pose proof (inv_mem_lt _ _ _ I j k Hk Hj) as Hr. autorewrite with pmm in Hr.
  assert (frames_number v = frames_number s) as Env by reflexivity.
  destruct merge_neighbours as [[[Ep _]|[Hp _]] [En|Hn]];
    rewrite !decide_False; auto; intros ->; try contradiction; lia.
Qed.

Lemma merge_free_list k :
  free_list v' k = if decide (k = l) then match xs with [] => next_of v b | _ => free_list v l end
                   else free_list v k.
Proof.
  destruct merge_facts as (_ & _ & _ & _ & Hfl & _).
  destruct (unlink_facts l b s) as (_ & Hfu & _). destruct merge_shape as (Hne & _).
  destruct (mark_ne i l s b Hne) as (_ & _ & Enb & Epb). fold v in Enb, Epb.
  destruct merge_neighbours as [Hp _].
  assert (0 <= l < BUDDY_MAXLEVEL) as Hl' by (unfold BUDDY_MAXLEVEL in *; lia).
  unfold v' at 1. rewrite free_list_mark, Hfl. unfold s1. rewrite Hfu, <- Enb, <- Epb.
  change (free_list v) with (free_list s).
  destruct (decide (k = l)) as [->|Hkl]; [|rewrite decide_False by tauto; reflexivity].
  destruct Hp as [[E ->]|[Hin Hx]]; [rewrite decide_True by auto; reflexivity|].
  pose proof (inv_mem_lt _ _ _ I _ l Hl' Hin) as Hr.
  assert (frames_number v = frames_number s) as Env by reflexivity.
  rewrite decide_False by (intros []; lia). destruct xs; [congruence|reflexivity].
Qed.

Lemma merge_clean : clean_chains v' L'.
Proof.
  intros k Hk. assert (0 <= k < BUDDY_MAXLEVEL) as Hk' by (unfold BUDDY_MAXLEVEL in *; lia).
  destruct merge_facts as (_ & _ & _ & En & _).
  assert (frames_number v' = frames_number v) as -> by exact En.
  pose proof (C k Hk) as Hc. rewrite merge_free_list.
  destruct (decide (k = l)) as [->|Hkl].
  - unfold L'. rewrite lset_eq. rewrite EL in Hc.
    pose proof (bi_nodup _ _ _ I l Hk') as Hnd. rewrite EL in Hnd.
    pose proof (inv_sentinel _ _ _ I l Hk') as Hz. rewrite EL in Hz.
    eapply dchain_unlink; [exact Hc|exact Hnd|exact Hz|exact Hz| |];
      intros x Hx; apply (merge_links l x Hk'); unfold L'; rewrite lset_eq; exact Hx.
  - unfold L'. rewrite lset_ne by exact Hkl. eapply dchain_ext; [exact Hc|].
    intros x Hx. apply (merge_links_other k x Hk' Hkl Hx).
Qed.

Lemma merge_inv : buddy_inv v' L'.
Proof.
  destruct merge_shape as (Hne & Eh & Hd & H0 & Hh).
  destruct merge_facts as (Em & _ & _ & En & _ & Hfh & _).
  assert (frames_number v' = frames_number s) as Env by exact En.
  assert (0 <= l < 10) as Hl10 by exact Hl.
  destruct (mark_eq i l s ltac:(lia)) as [Ef El].
  destruct (mark_ne i l s b Hne) as (Efb & Elb & _).
  destruct Fb as (Hb & Hfb & Hlb). rewrite Hfb in Efb. rewrite Hlb in Elb.
  destruct (mark_eq lo (l + 1) (mg_s m) ltac:(lia)) as [Ef' El'].
  pose proof (pow2_pos l ltac:(lia)) as Hp.
  assert (flags_of v' hi = 1) as Efh.
  { unfold v'. rewrite Em. destruct (mark_ne lo (l + 1) (mg_s m) hi ltac:(lia)) as (-> & _). exact Hfh. }
  rewrite <- Em in Ef', El'. fold v in Ef, El, Efb, Elb. fold v' in Ef', El'. rewrite Em in Ef', El'.
  assert (forall x, x = lo \/ x = hi -> is_head (flags_of v) x /\ level_of v x = l) as Hlh.
  { intros x Hx. assert (x = i \/ x = b) as [->| ->] by (unfold lo, hi in Hx; lia);
      split; auto; [right|left]; auto. }
  split.
  - rewrite Env. exact (bi_bound _ _ _ I).
  - rewrite Env. destruct (Hlh lo (or_introl eq_refl)), (Hlh hi (or_intror eq_refl)).
    apply (tiling_merge _ (flags_of v) (level_of v) _ _ lo l);
      rewrite <- ?Eh; [apply (bi_tiling _ _ _ I)|exact H0|lia|exact Hl|exact Hd|
        assumption|assumption|assumption|assumption|right; exact Ef'|exact El'|exact Efh|].
    intros j Hj Hx1 Hx2. destruct (merge_ne j Hj Hx1 Hx2) as (? & ? & _). auto.
  - intros k Hk. destruct (decide (k < 10)).
    + eapply dchain_wchain. apply merge_clean. unfold BUDDY_MAXLEVEL in *. lia.
    + assert (k = 10) as -> by (unfold BUDDY_MAXLEVEL in *; lia).
      rewrite Env, merge_free_list, decide_False by lia. unfold L'. rewrite lset_ne by lia.
      eapply wchain_ext; [apply (bi_chain _ _ _ I 10 Hk)|].
      intros x Hx. apply (merge_links_other 10 x Hk); [lia|exact Hx].
  - rewrite Env. apply (mem_transfer _ v _ L _ [lo; hi]); auto.
    + intros j Hj Hn'. apply not_in_pair in Hn' as []. destruct (merge_ne j Hj) as (? & ? & _); auto.
    + intros k j Hk Hn'. apply not_in_pair in Hn' as []. split; [apply merge_sub, Hk|].
      intros Hj. unfold L', lset. case_decide; [subst k|exact Hj]. rewrite EL in Hj.
      rewrite elem_of_app in *. rewrite elem_of_cons in Hj.
      assert (j <> b) by (unfold lo, hi in *; lia). tauto.
    + intros k j Hk Hj. split.
      * intros Hx. apply merge_sub in Hx as [Hx Hb']; [|exact Hk].
        destruct (merge_out k j Hk Hx Hb').
        apply elem_of_cons in Hj as [|Hj%list_elem_of_singleton]; contradiction.
      * intros [(_ & Hf & _) _].
        apply elem_of_cons in Hj as [->|Hj%list_elem_of_singleton]; [|subst j];
          [rewrite Ef' in Hf|rewrite Efh in Hf]; discriminate.
  - intros k Hk. unfold L', lset. case_decide; [subst k|apply (bi_nodup _ _ _ I k Hk)].
    pose proof (bi_nodup _ _ _ I l Hk) as Hnd. rewrite EL in Hnd.
    apply NoDup_app in Hnd as (H1 & H2 & H3). apply NoDup_cons in H3 as [_ H3].
    apply NoDup_app. split; [exact H1|]. split; [|exact H3].
    intros x Hx Hy. apply (H2 x Hx). right. exact Hy.
Qed.
End lists.

Lemma merge_used j k :
  used_block v' j k <-> (used_block v j k /\ j <> i) \/ (j = lo /\ k = l + 1).
Proof.
  destruct merge_shape as (Hne & Eh & Hd & H0 & Hh).
  destruct merge_facts as (Em & _ & _ & En & _ & Hfh & _).
  assert (0 <= l < 10) as Hl10 by exact Hl. pose proof (pow2_pos l ltac:(lia)) as Hp.
  destruct (mark_eq lo (l + 1) (mg_s m) ltac:(lia)) as [Ef' El'].
  rewrite <- Em in Ef', El'. fold v' in Ef', El'. rewrite Em in Ef', El'.
  destruct (mark_ne i l s b Hne) as (Efb & _). destruct Fb as (Hb & Hfb & _). rewrite Hfb in Efb.
  fold v in Efb.
  destruct (Z.eq_dec j lo) as [->|H1].
  { unfold used_block. rewrite Ef', El'. assert (frames_number v' = frames_number s) as -> by exact En.
    split; [intros (_ & _ & <-); auto|]. intros [[(_ & Hx & _) Hni]|[_ ->]]; [exfalso|repeat split; auto; lia].
    assert (lo = b) as E by (unfold lo in *; lia). rewrite E, Efb in Hx. discriminate. }
  destruct (Z.eq_dec j hi) as [->|H2].
  - unfold used_block at 1, v'. rewrite Em.
    destruct (mark_ne lo (l + 1) (mg_s m) hi ltac:(lia)) as (-> & _). rewrite Hfh.
    split; [intros (_ & [=] & _)|]. intros [[(_ & Hx & _) Hni]|[? _]]; [exfalso|contradiction].
    assert (hi = b) as E by (unfold hi in *; lia). rewrite E, Efb in Hx. discriminate.
  - assert (j <> i) by (unfold lo, hi in *; lia).
    rewrite (used_transfer v v' [lo; hi]); [tauto|exact En| |apply not_in_pair; auto].
    intros x Hx Hn'. apply not_in_pair in Hn' as []. destruct (merge_ne x Hx) as (? & ? & _); auto.
Qed.
End merging.

(** ** Putting a block on a list *)

Lemma push_facts i l s :
  0 <= l < 256 -> free_list s l <> i ->
  frames_number (push_free i l s) = frames_number s
  /\ (forall k, free_list (push_free i l s) k = if decide (k = l) then i else free_list s k)
  /\ flags_of (push_free i l s) i = 2 /\ level_of (push_free i l s) i = l
  /\ next_of (push_free i l s) i = free_list s l
  /\ prev_of (push_free i l s) i = frames_number s
  /\ (forall j, j <> i -> flags_of (push_free i l s) j = flags_of s j
        /\ level_of (push_free i l s) j = level_of s j
        /\ next_of (push_free i l s) j = next_of s j)
  /\ (forall j, j <> i -> 0 <= j < frames_number s ->
        prev_of (push_free i l s) j = if decide (j = free_list s l) then i else prev_of s j).
Proof.
  intros Hl Hne. unfold push_free. autorewrite with pmm.
  destruct (Z.ltb_spec (free_list s l) (frames_number s)) as [Hf|Hf]; autorewrite with pmm;
    (split; [reflexivity|]); (split; [intros k; autorewrite with pmm; repeat case_decide; congruence|]);
    repeat split; intros; pmm_cases; apply u8_small; exact Hl.
Qed.

Section pushing.
Context (s : pmm) (i l : Z) (L : Z -> list Z).
Let v := mark_allocated i l s.
Context (Hl : 0 <= l < BUDDY_MAXLEVEL).
Context (Hi : 0 <= i < frames_number s).
Context (I : buddy_inv v L).
Let s' := push_free i l s.

Lemma push_out k : 0 <= k < BUDDY_MAXLEVEL -> i ∉ L k.
Proof.
  intros Hk Hx. apply (inv_mem_free _ _ _ I) in Hx as (_ & Hf & _); [|exact Hk].
  destruct (mark_eq i l s) as [Ef _]; [unfold BUDDY_MAXLEVEL in *; lia|].
  fold v in Ef. rewrite Ef in Hf. discriminate.
Qed.

Lemma push_facts' :
  frames_number s' = frames_number s
  /\ (forall k, free_list s' k = if decide (k = l) then i else free_list v k)
  /\ flags_of s' i = 2 /\ level_of s' i = l
  /\ next_of s' i = free_list v l /\ prev_of s' i = frames_number s
  /\ (forall j, j <> i -> flags_of s' j = flags_of v j /\ level_of s' j = level_of v j
        /\ next_of s' j = next_of v j)
  /\ (forall j, j <> i -> 0 <= j < frames_number s ->
        prev_of s' j = if decide (j = free_list v l) then i else prev_of v j).
Proof.
  assert (free_list s l <> i) as Hne.
  { change (free_list v l <> i). pose proof (bi_chain _ _ _ I l Hl) as Hc. intros E.
    destruct (L l) as [|x xs] eqn:EL.
    - rewrite E in Hc. cbn [wchain] in Hc. change (frames_number v) with (frames_number s) in Hc. lia.
    - destruct Hc as [Hc _]. apply (push_out l Hl). rewrite EL, <- E, Hc. left. }
  destruct (push_facts i l s) as (H1 & H2 & H3 & H4 & H5 & H6 & H7 & H8);
    [unfold BUDDY_MAXLEVEL in *; lia|exact Hne|].
  repeat (split; [assumption|]). split.
  - intros j Hj. destruct (mark_ne i l s j Hj) as (E1 & E2 & E3 & _). fold v in E1, E2, E3.
    rewrite E1, E2, E3. apply H7, Hj.
  - intros j Hj Hr. destruct (mark_ne i l s j Hj) as (_ & _ & _ & E4). fold v in E4.
    rewrite E4. apply H8; auto.
Qed.

Lemma push_links k j : 0 <= k < BUDDY_MAXLEVEL -> j ∈ L k ->
  next_of s' j = next_of v j
  /\ prev_of s' j = (if decide (j = free_list v l) then i else prev_of v j).
Proof.
  intros Hk Hj. assert (j <> i) as Hne by (intros ->; eapply push_out; eauto).
  destruct push_facts' as (_ & _ & _ & _ & _ & _ & H7 & H8). split; [apply H7, Hne|].
  apply H8; [exact Hne|]. apply (inv_mem_lt _ _ _ I j k Hk Hj).
Qed.

Lemma push_links_other k j : 0 <= k < BUDDY_MAXLEVEL -> k <> l -> j ∈ L k ->
  next_of s' j = next_of v j /\ prev_of s' j = prev_of v j.
Proof.
  intros Hk Hkl Hj. destruct (push_links k j Hk Hj) as [-> ->]. split; [reflexivity|].
  apply decide_False. intros E. apply Hkl. apply (lists_disjoint _ _ _ k l j I); auto.
  pose proof (inv_mem_lt _ _ _ I j k Hk Hj) as Hr.
  pose proof (bi_chain _ _ _ I l Hl) as Hc. destruct (L l) as [|x xs]; cbn [wchain] in Hc; [lia|].
  destruct Hc as [Hc _]. rewrite E, Hc. left.
Qed.

Lemma push_inv : buddy_inv s' (lset l (i :: L l) L).
Proof.
  destruct push_facts' as (En & Hfl & Hf & Hlv & Hn & Hp & Ho & Hpv).
  destruct (mark_eq i l s) as [Ef El]; [unfold BUDDY_MAXLEVEL in *; lia|]. fold v in Ef, El.
  split.
  - rewrite En. exact (bi_bound _ _ _ I).
  - rewrite En. apply (tiling_relabel _ _ _ _ _ i (bi_tiling _ _ _ I) Hi).
    + right; exact Ef.
    + left; exact Hf.
    + congruence.
    + intros j _ Hj. destruct (Ho j Hj) as (? & ? & _). auto.
  - intros k Hk. rewrite En, Hfl. destruct (decide (k = l)) as [->|Hkl].
    + rewrite lset_eq. apply (wchain_push _ (next_of v) (prev_of v) _ _ (free_list v l));
        [apply (bi_chain _ _ _ I l Hl)|apply push_out, Hl|apply (bi_nodup _ _ _ I l Hl)|exact Hn| |];
        intros x Hx; apply (push_links l x Hl Hx).
    + rewrite lset_ne by exact Hkl. eapply wchain_ext; [apply (bi_chain _ _ _ I k Hk)|].
      intros x Hx. apply (push_links_other k x Hk Hkl Hx).
  - rewrite En. apply (mem_transfer _ v _ L _ [i] I); auto.
    + intros j _ Hj. apply not_elem_of_cons in Hj as [Hj _]. destruct (Ho j Hj) as (? & ? & _); auto.
    + intros k j Hk Hj. apply not_elem_of_cons in Hj as [Hj _]. unfold lset.
      case_decide; [subst k|reflexivity]. rewrite elem_of_cons. tauto.
    + intros k j Hk Hj. apply list_elem_of_singleton in Hj as ->. unfold free_block. rewrite En, Hf, Hlv.
      unfold lset. case_decide as Ek.
      * subst k. rewrite elem_of_cons. split; auto. intros _. split; [split; [exact Hi|auto]|exact (proj2 Hi)].
      * split; [intros Hx; exfalso; eapply push_out; eauto|]. intros [(_ & _ & ?) _]. congruence.
  - intros k Hk. unfold lset. case_decide; [subst k|apply (bi_nodup _ _ _ I k Hk)].
    apply NoDup_cons. split; [apply push_out, Hl|apply (bi_nodup _ _ _ I l Hl)].
Qed.

Lemma push_clean : clean_chains v L -> clean_heads s'.
Proof.
  intros C k Hk Hne. destruct push_facts' as (En & Hfl & _ & _ & _ & Hp & _ & _).
  assert (0 <= k < BUDDY_MAXLEVEL) as Hk' by (unfold BUDDY_MAXLEVEL in *; lia).
  rewrite En in Hne |- *. rewrite Hfl in Hne |- *.
  destruct (decide (k = l)) as [->|Hkl]; [exact Hp|].
  pose proof (C k Hk) as Hc. change (frames_number v) with (frames_number s) in Hc. destruct (L k) as [|x xs] eqn:EL; cbn [dchain] in Hc.
  - contradiction.
  - destruct Hc as (E & Hx & _). rewrite E, <- Hx.
    apply (push_links_other k x Hk' Hkl). rewrite EL. left.
Qed.

Lemma push_used j k : used_block s' j k <-> used_block v j k /\ j <> i.
Proof.
  destruct push_facts' as (En & _ & Hf & _ & _ & _ & Ho & _).
  destruct (Z.eq_dec j i) as [->|Hj].
  - unfold used_block at 1. rewrite Hf. split; [intros (_ & [=] & _)|tauto].
  - rewrite (used_transfer v s' [i]); [tauto|exact En| |apply not_in_single, Hj].
    intros x _ Hx. apply not_elem_of_cons in Hx as [Hx _]. destruct (Ho x Hx) as (? & ? & _). auto.
Qed.
End pushing.
End state.
