(* ===== verification/PmmProofs.v ===== *)
(** * The frame allocator meets its contract

    Allocation hands out a block cut from the smallest free block that is large
    enough, release gives it back joined with its free buddies, and both keep the
    invariant of [PmmSpec]. *)

From S2P Require Import Prelude KMath Pmm PmmSpec PmmLemmas PmmState.

Section proofs.
Implicit Types (s : pmm) (L : Z -> list Z).

(** ** The constant part of the table *)

Lemma same_table_refl s : same_table s s.
Proof. repeat split. Qed.

Lemma same_table_upd_page s0 s i f :
  same_table s0 s ->
  (forall p, pf_index (f p) = pf_index p /\ pf_physic_addr (f p) = pf_physic_addr p
     /\ pf_allocator (f p) = pf_allocator p) ->
  same_table s0 (upd_page i f s).
Proof.
  intros (H1 & H2 & H3 & H4) Hf. repeat (split; [assumption|]). intros j.
  rewrite page_upd_page. case_decide; [|apply H4].
  destruct (Hf (page s j)) as (-> & -> & ->). apply H4.
Qed.

Lemma same_table_set_free_list s0 s l v :
  same_table s0 s -> same_table s0 (set_free_list l v s).
Proof. exact (fun H => H). Qed.

Create HintDb table.
#[local] Hint Resolve same_table_refl same_table_upd_page same_table_set_free_list : table.
#[local] Hint Extern 1 (forall p : page_frame_t, _ /\ _) => (intros []; repeat split) : table.

Lemma same_table_mark s0 s i l : same_table s0 s -> same_table s0 (mark_allocated i l s).
Proof. intros H. unfold mark_allocated. auto 10 with table. Qed.

Lemma same_table_split s0 i s cl :
  same_table s0 s -> same_table s0 (fst (split_step i (s, cl))).
Proof. intros H. unfold split_step. simpl. auto 10 with table. Qed.

Lemma same_table_unlink s0 s l b : same_table s0 s -> same_table s0 (unlink l b s).
Proof. intros H. unfold unlink. repeat case_match; auto 10 with table. Qed.

Lemma same_table_merge s0 m : same_table s0 (mg_s m) -> same_table s0 (mg_s (merge_step m)).
Proof.
  intros H. unfold merge_step. pose proof (same_table_unlink s0 _ (mg_level m) (mg_buddy_index m) H).
  destruct (_ <? _); cbn [mg_s]; auto 10 with table.
Qed.

Lemma same_table_push s0 s i l : same_table s0 s -> same_table s0 (push_free i l s).
Proof. intros H. unfold push_free. case_match; auto 10 with table. Qed.

(** ** Allocation *)

Lemma find_level_spec s lvl :
  0 <= lvl < BUDDY_MAXLEVEL ->
  exists cl, find_level s lvl = Some cl /\ lvl <= cl <= BUDDY_MAXLEVEL
    /\ (forall k, lvl <= k < cl -> free_list s k = frames_number s)
    /\ (cl < BUDDY_MAXLEVEL -> free_list s cl <> frames_number s).
Proof.
  intros Hl. unfold BUDDY_MAXLEVEL in *.
  destruct (while_total (fun cl => lvl <= cl <= 11
      /\ forall k, lvl <= k < cl -> free_list s k = frames_number s)
    (fun cl => 11 - cl) 11
    (fun cl => (cl <? 11) && (free_list s cl =? frames_number s))
    (fun cl => cl + 1) lvl) as (cl & E & [H1 H2] & H3); try lia.
  - split; [lia|]. intros; lia.
  - intros c [H1 H2] Hc. reflect_bools. split; [|lia]. split; [lia|].
    intros k Hk. destruct (Z.eq_dec k c) as [->|]; [assumption|apply H2; lia].
  - exists cl. split; [exact E|]. split; [exact H1|]. split; [exact H2|].
    intros Hlt. apply andb_false_iff in H3 as [H3|H3]; reflect_bools; lia.
Qed.

(** The state of the splitting loop, for a request of level [lvl] served from
    the free block [i] of level [top], whose list had [xs] behind it. *)
Definition split_ok (s0 : pmm) (L0 : Z -> list Z) (i lvl top : Z) (xs : list Z)
    '((s, cl) : pmm * Z) : Prop :=
  lvl <= cl <= top /\ same_table s0 s
  /\ (forall j k, used_block (mark_allocated i cl s) j k <->
        used_block s0 j k \/ (j = i /\ k = cl))
  /\ exists L, buddy_inv (mark_allocated i cl s) L
      /\ L top = xs
      /\ (forall k, cl <= k < top -> L k = [i + 2 ^ k])
      /\ (forall k, k < cl \/ top < k -> L k = L0 k).

Lemma split_loop_spec s0 L0 s i lvl top xs :
  0 <= lvl <= top -> top < BUDDY_MAXLEVEL -> 0 <= i < frames_number s0 ->
  (forall j l, ~ (used_block s0 j l /\ j = i)) ->
  (forall k, lvl <= k < top -> L0 k = []) ->
  split_ok s0 L0 i lvl top xs (s, top) ->
  exists s', split_loop i lvl s top = Some (s', lvl) /\ split_ok s0 L0 i lvl top xs (s', lvl).
Proof.
  intros Hl Ht Hi Hnu Hempty H0. unfold split_loop.
  destruct (while_total (split_ok s0 L0 i lvl top xs) (fun '(_, cl) => cl - lvl) 11
    (fun '(_, cl) => lvl <? cl) (split_step i) (s, top)) as ((s' & cl) & E & Hok & Hc).
  - exact H0.
  - intros (s1 & cl) (Hcl & Hs & Hu & L & I & HLt & HLm & HLo) Hc. reflect_bools.
    destruct (split_step i (s1, cl)) as [s2 cl2] eqn:E.
    assert (1 <= cl < BUDDY_MAXLEVEL) as Hcl' by lia.
    assert (0 <= i < frames_number s1) as Hi1 by (destruct Hs as (_ & _ & -> & _); exact Hi).
    assert (L (cl - 1) = []) as Hem by (rewrite HLo by lia; apply Hempty; lia).
    destruct (split_facts' i cl s1 s2 cl2 L Hcl' E Hi1 I Hem) as (-> & _).
    destruct (split_shape i cl s1 L Hcl' Hi1 I) as (_ & _ & Er).
    pose proof (split_inv i cl s1 s2 (cl - 1) L Hcl' E Hi1 I Hem) as I'.
    pose proof (split_used i cl s1 s2 (cl - 1) L Hcl' E Hi1 I Hem) as U'.
    split; [|lia]. split; [lia|]. split.
    { pose proof (same_table_split s0 i s1 cl Hs) as Hst. rewrite E in Hst. exact Hst. }
    split.
    { intros j k. rewrite U', Hu. specialize (Hnu j k). tauto. }
    exists (lset (cl - 1) [Z.lxor i (bit (cl - 1))] L). split; [exact I'|]. split; [|split].
    + rewrite lset_ne by lia. exact HLt.
    + intros k Hk. destruct (Z.eq_dec k (cl - 1)) as [->|]; [rewrite lset_eq; congruence|].
      rewrite lset_ne by lia. apply HLm. lia.
    + intros k Hk. rewrite lset_ne by lia. apply HLo. lia.
  - intros (s1 & cl) (Hcl & _). lia.
  - unfold BUDDY_MAXLEVEL in *. lia.
  - exists s'. assert (cl = lvl) as ->; [|auto].
    destruct Hok as (Hcl & _). reflect_bools. lia.
Qed.

(** [get_ok]: what a successful request of level [lvl] yields. *)
Definition get_ok (s : pmm) (lvl i top : Z) (s' : pmm) : Prop :=
  free_block s i top /\ lvl <= top < BUDDY_MAXLEVEL
  /\ (forall j k, lvl <= k < top -> ~ free_block s j k)
  /\ buddy_ok s' /\ same_table s s'
  /\ (forall j k, used_block s' j k <-> used_block s j k \/ (j = i /\ k = lvl))
  /\ (forall j k, 0 <= k < BUDDY_MAXLEVEL ->
        free_block s' j k <-> (free_block s j k /\ j <> i) \/ (lvl <= k < top /\ j = i + 2 ^ k)).

Lemma get_block_spec s lvl :
  buddy_ok s -> 0 <= lvl < BUDDY_MAXLEVEL ->
  (exists i top s', buddy_system_get_frame_page_block lvl s = Some (frame_ptr s i, s')
     /\ get_ok s lvl i top s')
  \/ (buddy_system_get_frame_page_block lvl s = Some (0, s)
      /\ forall j k, lvl <= k < BUDDY_MAXLEVEL -> ~ free_block s j k).
Proof.
  intros (L & I) Hl. unfold buddy_system_get_frame_page_block.
  destruct (find_level_spec s lvl Hl) as (top & -> & Ht & Hem & Hne). simpl.
  assert (forall k, lvl <= k < top -> L k = []) as HL.
  { intros k Hk. apply (inv_empty _ _ _ I k); [lia|]. apply Hem, Hk. }
  assert (forall j k, lvl <= k < top -> ~ free_block s j k) as Hnf.
  { intros j k Hk F. assert (j ∈ L k) as Hj.
    { apply (bi_mem _ _ _ I k j); [lia|]. split; [exact F|]. destruct F as ((_ & ?) & _). assumption. }
    rewrite HL in Hj by exact Hk. apply elem_of_nil in Hj as []. }
  destruct (Z.leb_spec BUDDY_MAXLEVEL top) as [Hge|Hlt].
  { right. split; [reflexivity|]. intros j k Hk. apply Hnf. lia. }
  left. assert (0 <= top < BUDDY_MAXLEVEL) as Htop by lia.
  destruct (L top) as [|i xs] eqn:E.
  { exfalso. apply Hne; [lia|]. apply (inv_empty _ _ _ I top Htop), E. }
  rewrite (inv_first _ _ _ I top i xs Htop E).
  assert (free_block s i top) as F by (apply (inv_mem_free _ _ _ I); [exact Htop|rewrite E; left]).
  set (s1 := set_free_list top (pf_next_frame (page s i)) s).
  destruct (split_loop_spec s L s1 i lvl top xs) as (s2 & -> & _ & Hst & Hu & L2 & I2 & HLt & HLm & HLo).
  - lia.
  - lia.
  - apply F.
  - intros j l [(_ & Hf & _) ->]. destruct F as (_ & Hf' & _). rewrite Hf in Hf'. discriminate.
  - exact HL.
  - split; [lia|]. split; [apply same_table_set_free_list, same_table_refl|].
    split; [apply pop_used; [exact Htop|exact F]|].
    exists (lset top xs L). split; [apply pop_inv; assumption|].
    split; [apply lset_eq|]. split; [intros; lia|]. intros k Hk. apply lset_ne. lia.
  - simpl. exists i, top, (mark_allocated i lvl s2). split.
    { unfold frame_ptr. simpl. destruct Hst as (_ & <- & _). reflexivity. }
    assert (frames_number s2 = frames_number s) as En by apply Hst.
    split; [exact F|]. split; [lia|]. split; [exact Hnf|].
    split; [exists L2; exact I2|]. split; [apply same_table_mark, Hst|]. split; [exact Hu|].
    assert (forall st (M : Z -> list Z) k j, buddy_inv st M -> 0 <= k < BUDDY_MAXLEVEL ->
      j ∈ M k <-> free_block st j k) as Hmem.
    { intros st M k j Inv Hk. rewrite (bi_mem _ _ _ Inv k j Hk). split; [tauto|].
      intros Fb. split; [exact Fb|]. apply Fb. }
    intros j k Hk. rewrite <- (Hmem _ _ k j I2 Hk), <- (Hmem _ _ k j I Hk).
    pose proof (bi_nodup _ _ _ I top Htop) as Hnd. rewrite E in Hnd. apply NoDup_cons in Hnd as [Hni _].
    assert (forall m, 0 <= m < BUDDY_MAXLEVEL -> m <> top -> i ∉ L m) as Hi.
    { intros m Hm Hmt Hx. apply Hmt. apply (lists_disjoint _ _ _ m top i I); auto. rewrite E. left. }
    destruct (Z.eq_dec k top) as [->|Hkt].
    + rewrite HLt, E, elem_of_cons. split; [|intros [[[|] ?]|]; [contradiction|assumption|lia]].
      intros Hj. left. split; [auto|]. intros ->. auto.
    + destruct (Z.lt_ge_cases k lvl); [|destruct (Z.lt_ge_cases k top)].
      * rewrite HLo by lia. split; [|intros [[]|]; [assumption|lia]].
        intros Hj. left. split; [exact Hj|]. intros ->. apply (Hi k); auto.
      * rewrite HLm, HL by lia. rewrite list_elem_of_singleton. split; [auto|].
        intros [[Hx _]|[_ ?]]; [apply elem_of_nil in Hx as []|assumption].
      * rewrite HLo by lia. split; [|intros [[]|]; [assumption|lia]].
        intros Hj. left. split; [exact Hj|]. intros ->. apply (Hi k); auto.
Qed.

(** ** Release *)

(** Marking a used block used again, with its links reset. *)
Lemma mark_id_inv s L i l :
  buddy_inv s L -> 0 <= l < BUDDY_MAXLEVEL -> used_block s i l ->
  buddy_inv (mark_allocated i l s) L.
Proof.
  intros I Hl (Hi & Hf & Hlv).
  destruct (mark_eq i l s) as [Ef El]; [unfold BUDDY_MAXLEVEL in *; lia|].
  assert (forall k, 0 <= k < BUDDY_MAXLEVEL -> i ∉ L k) as Hout.
  { intros k Hk Hx. apply (inv_mem_free _ _ _ I) in Hx as (_ & Hf' & _); [|exact Hk].
    rewrite Hf in Hf'. discriminate. }
  split.
  - exact (bi_bound _ _ _ I).
  - apply (tiling_relabel _ _ _ _ _ i (bi_tiling _ _ _ I) Hi); [right; exact Hf|right; exact Ef|congruence|].
    intros j _ Hj. destruct (mark_ne i l s j Hj) as (? & ? & _). auto.
  - intros k Hk. eapply wchain_ext; [apply (bi_chain _ _ _ I k Hk)|].
    intros x Hx. apply mark_ne. intros ->. eapply Hout; eauto.
  - apply (mem_transfer _ s _ L L [i] I); [reflexivity| |reflexivity|].
    + intros j _ Hj. apply not_elem_of_cons in Hj as [Hj _]. destruct (mark_ne i l s j Hj) as (? & ? & _). auto.
    + intros k j Hk Hj. apply list_elem_of_singleton in Hj as ->. split.
      * intros Hx. exfalso. eapply Hout; eauto.
      * intros [(_ & Hx & _) _]. rewrite Ef in Hx. discriminate.
  - exact (bi_nodup _ _ _ I).
Qed.

Lemma mark_id_clean s L i l :
  buddy_inv s L -> 0 <= l < BUDDY_MAXLEVEL -> used_block s i l ->
  clean_chains s L -> clean_chains (mark_allocated i l s) L.
Proof.
  intros I Hl (Hi & Hf & Hlv) C k Hk. eapply dchain_ext; [apply (C k Hk)|].
  intros x Hx. apply mark_ne. intros ->.
  apply (inv_mem_free _ _ _ I) in Hx as (_ & Hf' & _); [|unfold BUDDY_MAXLEVEL in *; lia].
  rewrite Hf in Hf'. discriminate.
Qed.

(** A page past the end of the table is never written by a merge step. *)
Lemma merge_tail s i b l j :
  frames_number s <= j -> i < frames_number s -> b < frames_number s ->
  (prev_of s b <= frames_number s) ->
  flags_of (mg_s (merge_step (MergeSt s i b l))) j = flags_of s j.
Proof.
  intros Hj Hi Hb Hp. unfold merge_step. cbn [mg_s mg_page_index mg_buddy_index mg_level].
  destruct (unlink_facts l b s) as (_ & _ & Hfl & _). destruct (Hfl j) as [<- _].
  destruct (Z.ltb_spec b i); cbn [mg_s]; unfold flags_of; autorewrite with pmm;
    rewrite !decide_False by lia; reflexivity.
Qed.

(** The state of the merging loop while block [i0] of level [l0] is released. *)
Record merge_ok (s0 : pmm) (i0 l0 : Z) (m : merge_st) : Prop := {
  mo_index : 0 <= mg_page_index m < frames_number s0;
  mo_level : 0 <= mg_level m < BUDDY_MAXLEVEL;
  mo_buddy : mg_buddy_index m = Z.lxor (mg_page_index m) (bit (mg_level m));
  mo_table : same_table s0 (mg_s m);
  mo_quiet : quiet_tail (mg_s m);
  mo_inv : exists L, buddy_inv (mark_allocated (mg_page_index m) (mg_level m) (mg_s m)) L
             /\ clean_chains (mark_allocated (mg_page_index m) (mg_level m) (mg_s m)) L;
  mo_used : forall j k,
    used_block (mark_allocated (mg_page_index m) (mg_level m) (mg_s m)) j k <->
    (used_block s0 j k /\ j <> i0) \/ (j = mg_page_index m /\ k = mg_level m);
  mo_own : forall k, used_block s0 (mg_page_index m) k -> mg_page_index m = i0;
  mo_cover : mg_page_index m <= i0
    /\ i0 + 2 ^ l0 <= mg_page_index m + 2 ^ mg_level m
}.

(** When the loop goes on, the buddy is a free block of the table. *)
Lemma merge_buddy s0 i0 l0 m :
  merge_ok s0 i0 l0 m -> merge_cond m = true ->
  mg_level m < BUDDY_MAXLEVEL - 1 /\ free_block (mg_s m) (mg_buddy_index m) (mg_level m).
Proof.
  intros [Hi Hl Eb Ht Hq (L & I & C) _ _ _] Hc. unfold merge_cond in Hc. reflect_bools.
  destruct m as [s i b l]. cbn [mg_s mg_page_index mg_buddy_index mg_level] in *.
  split; [assumption|]. assert (frames_number s = frames_number s0) as En by apply Ht.
  unfold BUDDY_MAXLEVEL in *.
  assert (0 <= b < frames_number s + 512) as Hb.
  { assert (2 ^ l <= 2 ^ 9) as H9 by (apply Z.pow_le_mono_r; lia). change (2 ^ 9) with 512 in H9.
    destruct (mark_eq i l s ltac:(lia)) as [Ef El].
    destruct (tl_shape _ _ _ (bi_tiling _ _ _ I) i) as (_ & Hd & _).
    - rewrite frames_number_mark, En. exact Hi.
    - right. exact Ef.
    - rewrite El in Hd. rewrite Eb, bit_pow2 by lia. pose proof (pow2_pos l ltac:(lia)).
      destruct (aligned_cases i l ltac:(lia) Hd) as [He|[q Ho]].
      + rewrite lxor_pow2_even by (lia || exact He). lia.
      + rewrite lxor_pow2_odd by (lia || (exists q; exact Ho)).
        assert (0 <= q); [|nia]. destruct (Z.lt_ge_cases q 0); [|assumption].
        assert (q * (2 * 2 ^ l) <= (-1) * (2 * 2 ^ l)) by (apply Z.mul_le_mono_nonneg_r; lia). lia. }
  destruct (Z.lt_ge_cases b (frames_number s)) as [Hlt|Hge].
  - split; [lia|]. split; [assumption|]. symmetry. assumption.
  - exfalso. apply (Hq b); [lia|assumption].
Qed.

Lemma merge_step_ok s0 i0 l0 m :
  merge_ok s0 i0 l0 m -> merge_cond m = true -> merge_ok s0 i0 l0 (merge_step m).
Proof.
  intros M Hc. destruct (merge_buddy _ _ _ _ M Hc) as [Hl Fb].
  destruct M as [Hi Hl' Eb Ht Hq (L & I & C) Hu Hown Hcov].
  destruct m as [s i b l]. cbn [mg_s mg_page_index mg_buddy_index mg_level] in *.
  assert (frames_number s = frames_number s0) as En by apply Ht.
  assert (0 <= l < BUDDY_MAXLEVEL - 1) as Hl2 by lia. rewrite <- En in Hi.
  destruct (merge_shape s i b l L Hl2 Hi I Eb Fb) as (Hne & Eh & Hd & Hlo & Hhi).
  destruct (merge_facts s i b l L Hl2 Hi I C Eb Fb) as (Ep & Elv & Ebi & En' & _ & _ & _).
  destruct (merge_b_in s i b l L Hl2 Hi I Eb Fb) as (xs & ys & EL).
  pose proof (merge_clean s i b l L Hl2 Hi I C Eb Fb xs ys EL) as C'.
  pose proof (merge_inv s i b l L Hl2 Hi I C Eb Fb xs ys EL) as I'.
  pose proof (merge_used s i b l L Hl2 Hi I C Eb Fb) as U'.
  pose proof (pow2_pos l ltac:(lia)) as Hp.
  destruct (mark_ne i l s b Hne) as (_ & _ & _ & Epb).
  assert (prev_of s b <= frames_number s) as Hprev.
  { rewrite <- Epb. destruct (merge_neighbours s i b l L Hl2 C xs ys EL) as [[[-> _]|[Hin _]] _]; [reflexivity|].
    apply (inv_mem_lt _ _ _ I) in Hin; [rewrite frames_number_mark in Hin; lia|unfold BUDDY_MAXLEVEL in *; lia]. }
  split; rewrite ?Elv; rewrite ?Ep.
  - lia.
  - unfold BUDDY_MAXLEVEL in *. lia.
  - rewrite Ebi. reflexivity.
  - apply same_table_merge. exact Ht.
  - intros j Hj. rewrite En' in Hj. rewrite merge_tail; try lia. apply Hq. exact Hj.
  - rewrite Ep in I', C'. eauto.
  - intros j k. rewrite Ep in U'. rewrite U', Hu. split.
    + intros [[[|[? _]] ?]|]; [tauto|contradiction|tauto].
    + intros [[Hx Hy]|]; [left|tauto]. split; [tauto|]. intros ->. eauto.
  - intros k Hk. destruct (Z.eq_dec i (Z.min i b)) as [E|]; [rewrite <- E in *; eauto|].
    assert (Z.min i b = b) as E by lia. rewrite E in *.
    destruct (Z.eq_dec b i0) as [|Hb0]; [assumption|exfalso].
    assert (used_block (mark_allocated i l s) b k) as (_ & Hx & _) by (apply Hu; auto).
    destruct (mark_ne i l s b Hne) as (Ef & _). destruct Fb as (_ & Hf & _).
    rewrite Ef, Hf in Hx. discriminate.
  - destruct Hcov. rewrite pow2_S by lia. lia.
Qed.

(** [free_ok]: what the release of block [i] of level [l] yields. *)
Definition free_ok (s : pmm) (i l : Z) (s' : pmm) : Prop :=
  buddy_ok s' /\ clean_heads s' /\ same_table s s'
  /\ (forall j k, used_block s' j k <-> used_block s j k /\ j <> i)
  /\ exists b k, free_block s' b k /\ b <= i /\ i + 2 ^ l <= b + 2 ^ k
       /\ (k = BUDDY_MAXLEVEL - 1 \/ ~ free_block s' (Z.lxor b (bit k)) k).

Lemma merge_start s L i l :
  buddy_inv s L -> clean_heads s -> quiet_tail s -> used_block s i l ->
  0 <= l < BUDDY_MAXLEVEL -> merge_ok s i l (MergeSt s i (Z.lxor i (bit l)) l).
Proof.
  intros I C Q U Hl. split; cbn [mg_s mg_page_index mg_buddy_index mg_level].
  - apply U.
  - exact Hl.
  - reflexivity.
  - apply same_table_refl.
  - exact Q.
  - exists L. split; [apply mark_id_inv; auto|].
    apply mark_id_clean; auto. apply (clean_chains_iff _ _ I), C.
  - intros j k. destruct (Z.eq_dec j i) as [->|Hj].
    + destruct (mark_eq i l s) as [Ef El]; [unfold BUDDY_MAXLEVEL in *; lia|].
      unfold used_block at 1. rewrite Ef, El. split; [intros (_ & _ & ->); auto|].
      intros [[_ []]|[_ ->]]; [reflexivity|]. repeat split; apply U.
    + rewrite (used_transfer s (mark_allocated i l s) [i]); [tauto|reflexivity| |apply not_in_single, Hj].
      intros x _ Hx. apply not_elem_of_cons in Hx as [Hx _]. destruct (mark_ne i l s x Hx) as (? & ? & _); auto.
  - auto.
  - lia.
Qed.

Lemma merge_end s i l m :
  merge_ok s i l m -> merge_cond m = false -> used_block s i l ->
  free_ok s i l (push_free (mg_page_index m) (mg_level m) (mg_s m)).
Proof.
  intros [Hi Hl Eb Ht Hq (L & I & C) Hu Hown Hcov] Hc U.
  destruct m as [s1 p b k]. cbn [mg_s mg_page_index mg_buddy_index mg_level] in *.
  assert (frames_number s1 = frames_number s) as En by apply Ht. rewrite <- En in Hi.
  destruct (push_facts' s1 p k L Hl Hi I) as (En' & _ & Hf & Hlv & _ & _ & Ho & _).
  split; [eexists; apply (push_inv s1 p k L Hl Hi I)|].
  split; [apply (push_clean s1 p k L Hl Hi I C)|].
  split; [apply same_table_push, Ht|]. split.
  - intros j x. rewrite (push_used s1 p k L Hl Hi I), Hu. split.
    + intros [[|[]] ?]; [assumption|contradiction].
    + intros [Hx Hj]. split; [auto|]. intros ->. eauto.
  - exists p, k. split; [split; [rewrite En'; exact Hi|auto]|]. split; [apply Hcov|]. split; [apply Hcov|].
    unfold merge_cond in Hc. cbn [mg_s mg_page_index mg_buddy_index mg_level] in Hc.
    destruct (Z.ltb_spec k (BUDDY_MAXLEVEL - 1)) as [Hk|Hk]; [right|left; lia].
    cbn [andb] in Hc. rewrite <- Eb. intros (_ & Fb & Flv).
    destruct (Z.eq_dec b p) as [E|Hbp].
    { rewrite E in Eb. unfold BUDDY_MAXLEVEL in *. rewrite bit_pow2 in Eb by lia.
      assert (Z.lxor p p = Z.lxor p (Z.lxor p (2 ^ k))) as Ex by congruence.
      rewrite <- Z.lxor_assoc, Z.lxor_nilpotent, Z.lxor_0_l in Ex.
      pose proof (pow2_pos k). lia. }
    destruct (Ho b Hbp) as (E1 & E2 & _). destruct (mark_ne p k s1 b Hbp) as (E3 & E4 & _).
    rewrite E1, E3 in Fb. rewrite E2, E4 in Flv. unfold flags_of, level_of in *.
    rewrite Fb, Flv, Z.eqb_refl in Hc. discriminate.
Qed.

Lemma free_block_spec s i l :
  buddy_ok s -> clean_heads s -> quiet_tail s -> used_block s i l ->
  exists s', buddy_system_free_frame_page_block i s = Some (1, s') /\ free_ok s i l s'.
Proof.
  intros (L & I) C Q U. pose proof U as (Hi & Hf & Hlv).
  assert (0 <= l < BUDDY_MAXLEVEL) as Hl.
  { rewrite <- Hlv. apply (inv_fits _ _ _ I i Hi). right. exact Hf. }
  unfold buddy_system_free_frame_page_block.
  destruct (Z.leb_spec (frames_number s) i); [lia|].
  change (pf_flags (page s i)) with (flags_of s i). rewrite Hf.
  change (pf_level (page s i)) with (level_of s i). rewrite Hlv. simpl.
  destruct (while_total (merge_ok s i l) (fun m => BUDDY_MAXLEVEL - mg_level m) 11
    merge_cond merge_step (MergeSt s i (Z.lxor i (bit l)) l)) as (m & -> & M & Hc).
  - apply (merge_start s L); assumption.
  - intros m M Hc. split; [apply merge_step_ok; assumption|].
    unfold merge_step. destruct (_ <? _); cbn [mg_level]; lia.
  - intros m M. pose proof (mo_level _ _ _ _ M). lia.
  - cbn [mg_level]. unfold BUDDY_MAXLEVEL in *. lia.
  - simpl. eexists. split; [reflexivity|]. apply merge_end; assumption.
Qed.
End proofs.
