(* ===== verification/PmmInit.v ===== *)
(** * Initialisation of the frame allocator

    [init_normal_mem_zone] fills the frame table and carves the zone into blocks,
    largest first; on a zone of at least 1024 frames the result satisfies the
    allocator's invariant, with every frame free. *)

From S2P Require Import Prelude Pmm PmmSpec PmmLemmas PmmState PmmProofs.

(** ** The frame table *)

Lemma init_frames_lookup fn mb pg j :
  0 <= j < fn ->
  init_frames fn mb pg !!! j = PageFrame 1 0 (u32 (mb + j * PAGE_FRAME_SIZE)) j fn fn 0.
Proof.
  intros Hj. unfold init_frames.
  set (body := fun (i : Z) (pg : gmap Z page_frame_t) =>
    <[i := PageFrame (Z.lor 0 PAGE_FRAME_ALLOCATED) 0
             (u32 (mb + i * PAGE_FRAME_SIZE)) i fn fn 0]> pg).
  pose proof (for_loop_ind (fun i pg => forall j, 0 <= j < i ->
    pg !!! j = PageFrame 1 0 (u32 (mb + j * PAGE_FRAME_SIZE)) j fn fn 0)
    (Z.to_nat fn) 0 body pg) as H.
  rewrite Z2Nat.id in H by lia. apply H; [lia| |lia].
  intros k m _ Hm i Hi. unfold body. destruct (Z.eq_dec i k) as [->|].
  - rewrite lookup_total_insert_eq. reflexivity.
  - rewrite lookup_total_insert_ne by lia. apply Hm. lia.
Qed.

Lemma init_free_lists fn fl l :
  0 <= l < BUDDY_MAXLEVEL ->
  for_loop (Z.to_nat BUDDY_MAXLEVEL) 0 (fun (i : Z) (m : gmap Z Z) => <[i := fn]> m) fl !!! l = fn.
Proof.
  intros Hl. apply (for_loop_ind (fun i (m : gmap Z Z) => forall j, 0 <= j < i -> m !!! j = fn)
    (Z.to_nat BUDDY_MAXLEVEL) 0 (fun i m => <[i := fn]> m) fl); [lia| |].
  - intros k m _ Hm j Hj. destruct (Z.eq_dec j k) as [->|].
    + apply lookup_total_insert_eq.
    + rewrite lookup_total_insert_ne by lia. apply Hm. lia.
  - rewrite Z2Nat.id by (unfold BUDDY_MAXLEVEL; lia). lia.
Qed.

(** ** Carving *)

Lemma shrink_spec fn i l :
  1024 <= fn < 2 ^ 31 -> 0 <= i < fn -> 0 <= l <= 10 ->
  exists l', shrink fn i (2 ^ l, l) = Some (2 ^ l', l') /\ 0 <= l' <= l
    /\ i + 2 ^ l' <= fn /\ (l' = l \/ fn < i + 2 ^ (l' + 1)).
Proof.
  intros Hfn Hi Hl. unfold shrink.
  assert (forall k, 0 <= k <= 10 -> u32 (fn - 2 ^ k) = fn - 2 ^ k) as Hu.
  { intros k Hk. assert (2 ^ k <= 2 ^ 10) by (apply Z.pow_le_mono_r; lia).
    change (2 ^ 10) with 1024 in *. pose proof (pow2_pos k).
    apply u32_small. unfold in_u32. lia. }
  destruct (while_total
    (fun '(size, k) => size = 2 ^ k /\ 0 <= k <= l /\ (k = l \/ fn < i + 2 ^ (k + 1)))
    (fun '(_, k) => k) 11
    (fun '(size, _) => u32 (fn - size) <? i) (fun '(size, lvl) => (size / 2, lvl - 1)) (2 ^ l, l))
    as ([size k] & E & (-> & Hk & Hor) & Hc).
  - split; [reflexivity|]. split; [lia|auto].
  - intros [size k] (-> & Hk & Hor) Hc. reflect_bools. rewrite Hu in Hc by lia.
    assert (k <> 0) by (intros ->; simpl in Hc; lia).
    assert (2 ^ k / 2 = 2 ^ (k - 1)) as ->.
    { replace k with (k - 1 + 1) at 1 by lia. rewrite pow2_S by lia.
      rewrite Z.mul_comm, Z.div_mul by lia. reflexivity. }
    split; [|lia]. split; [reflexivity|]. split; [lia|]. right. replace (k - 1 + 1) with k by lia. lia.
  - intros [size k] (_ & Hk & _). lia.
  - lia.
  - exists k. split; [exact E|]. split; [lia|]. reflect_bools. rewrite Hu in Hc by lia.
    split; [lia|exact Hor].
Qed.

(** The write of one block in [carve_step]. *)
Definition carve_put (i l : Z) (s : pmm) : pmm :=
  let s := upd_page i (set_flags (Z.lor 0 PAGE_FRAME_BLOCK_HEAD)) s in
  let s := upd_page i (set_level (u8 l)) s in
  let tmp := free_list s l in
  let s := upd_page i (set_next tmp) s in
  let s := upd_page tmp (set_prev i) s in
  set_free_list l i s.

Lemma carve_put_facts i l s :
  0 <= l < 256 -> free_list s l <> i ->
  frames_number (carve_put i l s) = frames_number s
  /\ (forall k, free_list (carve_put i l s) k = if decide (k = l) then i else free_list s k)
  /\ flags_of (carve_put i l s) i = 2 /\ level_of (carve_put i l s) i = l
  /\ next_of (carve_put i l s) i = free_list s l
  /\ prev_of (carve_put i l s) i = prev_of s i
  /\ (forall j, j <> i -> flags_of (carve_put i l s) j = flags_of s j
        /\ level_of (carve_put i l s) j = level_of s j
        /\ next_of (carve_put i l s) j = next_of s j
        /\ prev_of (carve_put i l s) j = if decide (j = free_list s l) then i else prev_of s j).
Proof.
  intros Hl Hne. unfold carve_put.
  split; [reflexivity|]. split; [intros k; autorewrite with pmm; repeat case_decide; congruence|].
  repeat split; intros; pmm_cases; apply u8_small; exact Hl.
Qed.

Lemma same_table_carve s0 s i l : same_table s0 s -> same_table s0 (carve_put i l s).
Proof.
  intros H. unfold carve_put. repeat first [apply same_table_set_free_list | apply same_table_upd_page];
    try exact H; intros []; repeat split.
Qed.

(** The state of the carving loop over the table [s0]: the first [cv_i] pages
    are cut into free blocks, the others are untouched; the lists below the
    current level are still empty. *)
Record carve_ok (s0 : pmm) (c : carve_st) : Prop := {
  co_range : 0 <= cv_i c <= frames_number s0;
  co_level : 0 <= cv_level c <= 10 /\ cv_size c = 2 ^ cv_level c;
  co_align : (2 ^ cv_level c | cv_i c);
  co_table : same_table s0 (cv_s c);
  co_rest : forall j, cv_i c <= j < frames_number s0 ->
    flags_of (cv_s c) j = 1 /\ prev_of (cv_s c) j = frames_number s0;
  co_free : forall j, 0 <= j < frames_number s0 -> flags_of (cv_s c) j <> 3;
  co_clean : clean_heads (cv_s c);
  co_large : forall j, 0 <= j < cv_i c -> (2 ^ 10 | j) -> j + 2 ^ 10 <= frames_number s0 ->
    flags_of (cv_s c) j = PAGE_FRAME_BLOCK_HEAD /\ level_of (cv_s c) j = 10;
  co_inv : exists L, buddy_inv_upto (cv_i c) (cv_s c) L
    /\ (forall l, 0 <= l < cv_level c -> L l = [])
    /\ (cv_level c < 10 -> frames_number s0 - cv_i c < 2 ^ cv_level c)
}.

Section carving.
Context (s0 : pmm) (Hfn : 1024 <= frames_number s0 < 2 ^ 31).

Section step.
Context (s : pmm) (i l0 l : Z) (L : Z -> list Z).
Context (C : carve_ok s0 (CarveSt s i (2 ^ l0) l0)).
Context (I : buddy_inv_upto i s L).
Context (Hi : i < frames_number s0) (Hl : 0 <= l <= l0) (Hl0 : l0 <= 10).
Context (Hfit : i + 2 ^ l <= frames_number s0).
Context (Hlow : forall k, 0 <= k < l0 -> L k = []).
Context (Htop : l < 10 -> L l = []).
Let s' := carve_put i l s.

Lemma carve_frames : frames_number s = frames_number s0.
Proof. apply (co_table _ _ C). Qed.

Lemma carve_facts :
  frames_number s' = frames_number s
  /\ (forall k, free_list s' k = if decide (k = l) then i else free_list s k)
  /\ flags_of s' i = 2 /\ level_of s' i = l
  /\ next_of s' i = free_list s l /\ prev_of s' i = frames_number s
  /\ (forall j, j <> i -> flags_of s' j = flags_of s j /\ level_of s' j = level_of s j
        /\ next_of s' j = next_of s j
        /\ prev_of s' j = if decide (j = free_list s l) then i else prev_of s j).
Proof.
  pose proof carve_frames as En. pose proof (co_range _ _ C) as Hr. cbn [cv_i] in Hr.
  assert (free_list s l <> i) as Hne.
  { intros E. assert (0 <= l < BUDDY_MAXLEVEL) as Hlb by (unfold BUDDY_MAXLEVEL; lia).
    pose proof (bi_chain _ _ _ I l Hlb) as Hc. destruct (L l) as [|x xs] eqn:EL.
    - cbn [wchain] in Hc. lia.
    - pose proof (inv_first _ _ _ I l x xs Hlb EL) as Ex.
      assert (x ∈ L l) as Hx by (rewrite EL; left). apply (inv_mem_lt _ _ _ I) in Hx; lia. }
  destruct (carve_put_facts i l s ltac:(lia) Hne) as (H1 & H2 & H3 & H4 & H5 & H6 & H7).
  repeat (split; [assumption|]). split; [|exact H7].
  unfold s'. rewrite H6, En. apply (co_rest _ _ C). cbn [cv_i]. lia.
Qed.

Lemma carve_links k j : 0 <= k < BUDDY_MAXLEVEL -> j ∈ L k ->
  j <> i /\ next_of s' j = next_of s j
  /\ prev_of s' j = (if decide (j = free_list s l) then i else prev_of s j).
Proof.
  intros Hk Hj. pose proof (inv_mem_lt _ _ _ I j k Hk Hj) as Hr.
  destruct carve_facts as (_ & _ & _ & _ & _ & _ & Ho).
  assert (j <> i) as Hne by lia. split; [exact Hne|]. split; apply (Ho j Hne).
Qed.

Lemma carve_links_other k j : 0 <= k < BUDDY_MAXLEVEL -> k <> l -> j ∈ L k ->
  next_of s' j = next_of s j /\ prev_of s' j = prev_of s j.
Proof.
  intros Hk Hkl Hj. destruct (carve_links k j Hk Hj) as (_ & -> & ->). split; [reflexivity|].
  assert (0 <= l < BUDDY_MAXLEVEL) as Hlb by (unfold BUDDY_MAXLEVEL; lia).
  apply decide_False. intros E. apply Hkl. apply (lists_disjoint _ _ _ k l j I); auto.
  pose proof (inv_mem_lt _ _ _ I j k Hk Hj) as Hr. pose proof (bi_bound _ _ _ I) as Hb.
  pose proof (bi_chain _ _ _ I l Hlb) as Hc. destruct (L l) as [|x xs]; cbn [wchain] in Hc; [lia|].
  destruct Hc as [Hc _]. rewrite E, Hc. left.
Qed.

Lemma carve_inv : (2 ^ l | i) -> buddy_inv_upto (i + 2 ^ l) s' (lset l (i :: L l) L).
Proof.
  intros Hdiv. destruct carve_facts as (En & Hfl & Hf & Hlv & Hn & Hp & Ho).
  pose proof carve_frames as Es. pose proof (co_range _ _ C) as Hr. cbn [cv_i] in Hr.
  assert (0 <= l < BUDDY_MAXLEVEL) as Hlb by (unfold BUDDY_MAXLEVEL; lia).
  pose proof (pow2_pos l ltac:(lia)) as Hpw.
  assert (forall j, i < j < i + 2 ^ l -> flags_of s' j = 1) as Hrest.
  { intros j Hj. destruct (Ho j ltac:(lia)) as (-> & _).
    apply (co_rest _ _ C). cbn [cv_i]. lia. }
  assert (forall k, 0 <= k < BUDDY_MAXLEVEL -> i ∉ L k) as Hni.
  { intros k Hk Hx. apply (inv_mem_lt _ _ _ I) in Hx; [lia|exact Hk]. }
  split.
  - rewrite En, Es. lia.
  - apply (tiling_extend i (flags_of s) (level_of s) _ _ l (bi_tiling _ _ _ I));
      [lia|exact Hlb|exact Hdiv|left; exact Hf|exact Hlv|exact Hrest|].
    intros j Hj. destruct (Ho j ltac:(lia)) as (? & ? & _). auto.
  - intros k Hk. rewrite En, Hfl. destruct (decide (k = l)) as [->|Hkl].
    + rewrite lset_eq. apply (wchain_push _ (next_of s) (prev_of s) _ _ (free_list s l));
        [apply (bi_chain _ _ _ I l Hlb)|apply Hni, Hlb|apply (bi_nodup _ _ _ I l Hlb)|exact Hn| |];
        intros x Hx; apply (carve_links l x Hlb Hx).
    + rewrite lset_ne by exact Hkl. eapply wchain_ext; [apply (bi_chain _ _ _ I k Hk)|].
      intros x Hx. apply (carve_links_other k x Hk Hkl Hx).
  - intros k j Hk.
    assert (j ∈ lset l (i :: L l) L k <-> j ∈ L k \/ (j = i /\ k = l)) as ->.
    { unfold lset. case_decide; [subst k; rewrite elem_of_cons; tauto|tauto]. }
    rewrite (bi_mem _ _ _ I k j Hk). unfold free_block. rewrite En.
    destruct (Z.lt_trichotomy j i) as [Hj|[->|Hj]].
    + destruct (Ho j ltac:(lia)) as (-> & -> & _). split; [intros [?|[? _]]; [|lia]|intros [? _]; left];
        (split; [tauto|lia]).
    + rewrite Hf, Hlv. split; [intros [[_ ?]|[_ ->]]; [lia|]|intros [(_ & _ & <-) _]; auto].
      repeat split; lia.
    + split; [intros [[_ ?]|[? _]]; lia|]. intros [(_ & Hx & _) Hlt].
      rewrite Hrest in Hx by lia. discriminate.
  - intros k Hk. unfold lset. case_decide; [subst k|apply (bi_nodup _ _ _ I k Hk)].
    apply NoDup_cons. split; [apply Hni, Hlb|apply (bi_nodup _ _ _ I l Hlb)].
Qed.

Lemma carve_clean : clean_heads s'.
Proof.
  intros k Hk Hne. destruct carve_facts as (En & Hfl & _ & _ & _ & Hp & _).
  assert (0 <= k < BUDDY_MAXLEVEL) as Hk' by (unfold BUDDY_MAXLEVEL in *; lia).
  rewrite En in Hne |- *. rewrite Hfl in Hne |- *.
  destruct (decide (k = l)) as [->|Hkl]; [exact Hp|].
  pose proof (co_clean _ _ C k Hk Hne) as Hcl. cbn [cv_s] in Hcl.
  etransitivity; [|exact Hcl]. destruct (L k) as [|x xs] eqn:EL.
  - exfalso. apply Hne. apply (inv_empty _ _ _ I k Hk'), EL.
  - rewrite (inv_first _ _ _ I k x xs Hk' EL).
    apply (carve_links_other k x Hk' Hkl). rewrite EL. left.
Qed.

(** Where a block of the top level fits there is one. *)
Lemma carve_large j :
  l = l0 \/ frames_number s0 < i + 2 ^ (l + 1) -> (2 ^ l | i) ->
  0 <= j < i + 2 ^ l -> (2 ^ 10 | j) -> j + 2 ^ 10 <= frames_number s0 ->
  flags_of s' j = PAGE_FRAME_BLOCK_HEAD /\ level_of s' j = 10.
Proof.
  intros Hor Hdiv Hj Hd Hn. destruct carve_facts as (_ & _ & Hf & Hlv & _ & _ & Ho).
  destruct (Z.lt_ge_cases j i) as [Hji|Hji].
  - destruct (Ho j ltac:(lia)) as (-> & -> & _). apply (co_large _ _ C); [cbn [cv_i]; lia|exact Hd|exact Hn].
  - destruct (Z.eq_dec l 10) as [->|Hl10].
    + destruct Hd as [a ->], Hdiv as [b Eb]. assert (a * 2 ^ 10 = i) as -> by nia. auto.
    + exfalso. assert (2 ^ (l + 1) <= 2 ^ 10) by (apply Z.pow_le_mono_r; lia).
      destruct Hor as [->|Hlt]; [|lia]. destruct (co_inv _ _ C) as (_ & _ & _ & Hrm).
      cbn [cv_level cv_i] in Hrm. specialize (Hrm ltac:(lia)). rewrite pow2_S in * by lia. lia.
Qed.

Lemma carve_next : l = l0 \/ frames_number s0 < i + 2 ^ (l + 1) ->
  (2 ^ l | i) -> carve_ok s0 (CarveSt s' (i + 2 ^ l) (2 ^ l) l).
Proof.
  intros Hor Hdiv. pose proof (co_range _ _ C) as Hr. cbn [cv_i] in Hr.
  pose proof carve_frames as Es. pose proof (pow2_pos l ltac:(lia)) as Hpw.
  destruct carve_facts as (En & Hfl & Hf & _ & _ & _ & Ho).
  assert (0 <= l < BUDDY_MAXLEVEL) as Hlb by (unfold BUDDY_MAXLEVEL; lia).
  split; cbn [cv_i cv_s cv_size cv_level].
  - lia.
  - split; [lia|reflexivity].
  - apply Z.divide_add_r; [exact Hdiv|apply Z.divide_refl].
  - apply same_table_carve, (co_table _ _ C).
  - intros j Hj. destruct (Ho j ltac:(lia)) as (-> & _ & _ & ->).
    destruct (co_rest _ _ C j) as [E1 E2]; cbn [cv_i cv_s] in *; [lia|]. split; [exact E1|].
    rewrite decide_False; [exact E2|]. intros ->.
    pose proof (bi_chain _ _ _ I l Hlb) as Hc. destruct (L l) as [|x xs] eqn:EL; cbn [wchain] in Hc; [lia|].
    assert (x ∈ L l) as Hx by (rewrite EL; left). apply (inv_mem_lt _ _ _ I) in Hx; lia.
  - intros j Hj. destruct (Z.eq_dec j i) as [->|Hji]; [rewrite Hf; lia|].
    destruct (Ho j Hji) as (-> & _). apply (co_free _ _ C j Hj).
  - apply carve_clean.
  - intros j. apply carve_large; assumption.
  - exists (lset l (i :: L l) L). split; [apply carve_inv, Hdiv|]. split.
    + intros k Hk. rewrite lset_ne by lia. apply Hlow. lia.
    + intros Hl10. destruct Hor as [->|Hlt].
      * destruct (co_inv _ _ C) as (_ & _ & _ & Hrm). cbn [cv_level cv_i] in Hrm.
        specialize (Hrm Hl10). lia.
      * rewrite pow2_S in Hlt by lia. lia.
Qed.
End step.

Lemma carve_step_ok c :
  carve_ok s0 c -> cv_i c < frames_number s0 ->
  exists c', carve_step (frames_number s0) c = Some c' /\ carve_ok s0 c' /\ cv_i c < cv_i c'.
Proof.
  intros C Hi. destruct c as [s i size l0]. cbn [cv_i] in *.
  destruct (co_level _ _ C) as [Hl0 Es]. pose proof (co_range _ _ C) as Hr.
  cbn [cv_i cv_s cv_size cv_level] in *. subst size.
  destruct (shrink_spec (frames_number s0) i l0 Hfn ltac:(lia) Hl0) as (l & E & Hl & Hfit & Hor).
  unfold carve_step. cbn [cv_i cv_s cv_size cv_level]. rewrite E. simpl.
  eexists. split; [reflexivity|]. cbn [cv_i]. split; [|pose proof (pow2_pos l); lia].
  destruct (co_inv _ _ C) as (L & I & Hlow & Hrm). cbn [cv_i cv_s cv_level] in *.
  assert (l < 10 -> L l = []) as Htop.
  { intros Hl10. apply Hlow. assert (l <> l0); [|lia]. intros ->.
    specialize (Hrm Hl10). lia. }
  apply (carve_next s i l0 l L C I Hi Hl ltac:(lia) Hfit Hlow Htop Hor).
  apply (divide_pow2_le i l l0 Hl). apply (co_align _ _ C).
Qed.

Lemma carve_spec :
  carve_ok s0 (CarveSt s0 0 (bit (BUDDY_MAXLEVEL - 1)) (BUDDY_MAXLEVEL - 1)) ->
  exists s', carve s0 = Some s' /\ buddy_ok s' /\ clean_heads s' /\ same_table s0 s'
    /\ (forall i l, ~ used_block s' i l)
    /\ (forall j, 0 <= j -> (2 ^ 10 | j) -> j + 2 ^ 10 <= frames_number s' -> free_block s' j 10).
Proof.
  intros H0. unfold carve.
  destruct (while_o_total (carve_ok s0) (fun c => frames_number s0 - cv_i c)
    (Z.to_nat (frames_number s0)) (fun c => cv_i c <? frames_number s0)
    (carve_step (frames_number s0)) _ H0) as (c & -> & C & Hc).
  - intros c C Hc. reflect_bools. destruct (carve_step_ok c C Hc) as (c' & E & C' & Hlt).
    exists c'. split; [exact E|]. split; [exact C'|lia].
  - intros c C. pose proof (co_range _ _ C). lia.
  - cbn [cv_i]. lia.
  - simpl. exists (cv_s c). split; [reflexivity|]. reflect_bools.
    pose proof (co_range _ _ C) as Hr. pose proof (co_table _ _ C) as Ht.
    assert (frames_number (cv_s c) = frames_number s0) as En by apply Ht.
    assert (cv_i c = frames_number (cv_s c)) as Ei by lia.
    destruct (co_inv _ _ C) as (L & I & _). rewrite Ei in I.
    split; [exists L; exact I|]. split; [apply (co_clean _ _ C)|]. split; [exact Ht|].
    split; [intros i l (Hi & Hf & _); apply (co_free _ _ C i); [rewrite <- En; exact Hi|exact Hf]|].
    intros j Hj Hd Hn. split; [lia|]. apply (co_large _ _ C); [lia|exact Hd|lia].
Qed.
End carving.

(** ** The whole initialisation, on 32-bit memory *)

Section zone.
Context (ke len typ : Z) (s : pmm).
Context (Hke : 0 < ke) (Hlen : 0 <= len) (Hend : 0x100000 + len < 2 ^ 32).

(** The number of frames the zone gets. *)
Definition zone_frames : Z := (0x100000 + len - ke) / 4118 - 1.

Context (Hbig : 1024 <= zone_frames).

Definition zone_base : Z :=
  Z.land (ke + 22 * zone_frames + 4095) ALIGN_MASK.

Lemma zone_bounds :
  4118 * (zone_frames + 1) <= 0x100000 + len - ke /\ zone_frames < 2 ^ 21.
Proof.
  unfold zone_frames in *.
  pose proof (Z.mul_div_le (0x100000 + len - ke) 4118). lia.
Qed.

Lemma zone_base_spec :
  ke + 22 * zone_frames <= zone_base /\ (PAGE_FRAME_SIZE | zone_base)
  /\ zone_base + 4096 * zone_frames <= 0x100000 + len.
Proof.
  pose proof zone_bounds as [Hb1 Hb2]. unfold zone_base, ALIGN_MASK.
  change 0xFFFFF000 with 4294963200. rewrite land_page_mask by (unfold in_u32; lia).
  set (x := ke + 22 * zone_frames + 4095) in *.
  pose proof (Z.mod_pos_bound x 4096 ltac:(lia)). split; [lia|]. split; [|lia].
  exists (x / 4096). unfold PAGE_FRAME_SIZE. pose proof (Z.div_mod x 4096). lia.
Qed.

Lemma init_zone_spec :
  exists s', init_zone ke (MmapEntry 0x100000 0 len 0 typ) s = Some s'
    /\ buddy_ok s' /\ clean_heads s' /\ table_ok s'
    /\ (forall i l, ~ used_block s' i l)
    /\ frames_number s' = zone_frames
    /\ nm_base (normal_mem s') = zone_base
    /\ nm_frames (normal_mem s') = ke
    /\ (forall j, 0 <= j -> (2 ^ 10 | j) -> j + 2 ^ 10 <= zone_frames -> free_block s' j 10).
Proof.
  pose proof zone_bounds as [Hb1 Hb2]. pose proof zone_base_spec as (Hb3 & Hb4 & Hb5).
  unfold init_zone. cbn [base_addr_low base_addr_high length_low length_high].
  change (u32 (Z.shiftl 0 16)) with 0.
  rewrite !Z.add_0_l. rewrite (u32_small 0x100000), (u32_small len),
    (u32_small (0x100000 + len)), (u32_small (0x100000 + len - ke)) by (unfold in_u32; lia).
  change (PAGE_FRAME_SIZE + SIZEOF_PAGE_FRAME) with 4118. fold zone_frames.
  rewrite (u32_small zone_frames) by (unfold in_u32; lia).
  change SIZEOF_PAGE_FRAME with 22. unfold ALIGN_MASK_HELPER.
  rewrite (u32_small (zone_frames * 22)), (u32_small (ke + zone_frames * 22)),
    (u32_small (ke + zone_frames * 22 + 0xFFF)) by (unfold in_u32; lia).
  replace (ke + zone_frames * 22 + 0xFFF) with (ke + 22 * zone_frames + 4095) by lia.
  fold zone_base.
  set (n := NormalMem _ _ _ _ _). set (s0 := Pmm n _).
  assert (frames_number s0 = zone_frames) as Ef by reflexivity.
  assert (forall j, 0 <= j < zone_frames ->
    page s0 j = PageFrame 1 0 (u32 (zone_base + j * PAGE_FRAME_SIZE)) j zone_frames zone_frames 0) as Hpg.
  { intros j Hj. apply init_frames_lookup, Hj. }
  assert (forall l, 0 <= l < BUDDY_MAXLEVEL -> free_list s0 l = zone_frames) as Hfl.
  { intros l Hl. apply init_free_lists, Hl. }
  destruct (carve_spec s0) as (s' & E & Hok & Hcl & Ht & Hnu & Hlarge); [rewrite Ef; lia| |].
  - split; cbn [cv_i cv_s cv_size cv_level]; rewrite ?Ef.
    + lia.
    + split; [unfold BUDDY_MAXLEVEL; lia|reflexivity].
    + apply Z.divide_0_r.
    + apply same_table_refl.
    + intros j Hj. unfold flags_of, prev_of. rewrite Hpg by lia. auto.
    + intros j Hj. unfold flags_of. rewrite Hpg by lia. simpl. lia.
    + intros l Hl Hne. rewrite Hfl in Hne by (unfold BUDDY_MAXLEVEL in *; lia). contradiction.
    + intros j Hj. lia.
    + exists (fun _ => []). split; [|split; [reflexivity|unfold BUDDY_MAXLEVEL; lia]].
      split; [rewrite Ef; lia|apply tiling_zero| | |intros; apply NoDup_nil_2].
      * intros l Hl. apply Hfl, Hl.
      * intros l j _. split; [intros Hx; apply elem_of_nil in Hx as []|intros [(? & _) ?]; lia].
  - exists s'. split; [exact E|]. split; [exact Hok|]. split; [exact Hcl|].
    destruct Ht as (Eb & Efr & En & Hx).
    assert (nm_base (normal_mem s') = zone_base) as Eb' by exact Eb.
    assert (nm_frames (normal_mem s') = ke) as Efr' by exact Efr.
    assert (frames_number s' = zone_frames) as En' by exact En.
    rewrite En' in Hlarge.
    split; [|auto 10]. split; rewrite ?Eb', ?Efr', ?En'.
    + unfold SIZEOF_PAGE_FRAME. lia.
    + split; [lia|]. split; [exact Hb4|unfold PAGE_FRAME_SIZE; lia].
    + intros i Hi. destruct (Hx i) as (-> & _). rewrite Hpg by exact Hi. reflexivity.
    + intros i Hi. destruct (Hx i) as (_ & -> & _). rewrite Hpg by exact Hi. simpl.
      unfold PAGE_FRAME_SIZE. rewrite u32_small by (unfold in_u32; lia). lia.
Qed.
End zone.
