(* ===== verification/PmmProps.v ===== *)
(** * Properties of the frame allocator

    The theorems about kernel/kernel/pmm.c, each with an instance on the zone of
    1024 frames that [boot_zone] initialises, and the runs on which the code
    leaves its invariant. *)

From S2P Require Import Prelude KMath Pmm PmmSpec PmmLemmas PmmState PmmProofs PmmInit.

(** The number of pages of a request in bytes. *)
Definition page_count (byte_size : Z) : Z :=
  byte_size / PAGE_FRAME_SIZE + (if 0 <? byte_size mod PAGE_FRAME_SIZE then 1 else 0).

(** ** Requests in pages and bytes *)

Lemma request_level n : 0 <= n <= 2 ^ 31 -> power_of_2 (next_power_of_2 n) = Some (Z.log2_up n).
Proof.
  intros Hn. destruct (Z.eq_dec n 0) as [->|]; [reflexivity|].
  rewrite next_power_of_2_log2_up by lia. apply power_of_2_pow.
  pose proof (Z.log2_up_nonneg n). assert (Z.log2_up n <= 31); [|lia].
  apply Z.log2_up_le_pow2; lia.
Qed.

Lemma page_count_bounds b :
  0 <= b -> 0 <= page_count b /\ b <= PAGE_FRAME_SIZE * page_count b < b + PAGE_FRAME_SIZE.
Proof.
  intros Hb. unfold page_count, PAGE_FRAME_SIZE.
  pose proof (Z.div_mod b 4096 ltac:(lia)). pose proof (Z.mod_pos_bound b 4096 ltac:(lia)).
  pose proof (Z.div_pos b 4096 Hb ltac:(lia)). destruct (Z.ltb_spec 0 (b mod 4096)); lia.
Qed.

Lemma log2_up_covers n : 0 <= n -> n <= 2 ^ Z.log2_up n.
Proof.
  intros Hn. destruct (Z.eq_dec n 0) as [->|]; [vm_compute; discriminate|].
  destruct (Z.eq_dec n 1) as [->|]; [vm_compute; discriminate|]. apply Z.log2_up_spec. lia.
Qed.

Lemma frame_of_ptr s i :
  table_ok s -> 0 <= i < frames_number s -> frame_of s (frame_ptr s i) = i.
Proof.
  intros T Hi. pose proof (tb_frames _ T) as [H1 H2]. unfold frame_of, frame_ptr, SIZEOF_PAGE_FRAME in *.
  rewrite (u32_small (nm_frames (normal_mem s) + 22 * i)) by (unfold in_u32; lia).
  replace (nm_frames (normal_mem s) + 22 * i - nm_frames (normal_mem s)) with (i * 22) by lia.
  rewrite u32_small by (unfold in_u32; lia). apply Z.div_mul. lia.
Qed.

Lemma frame_ptr_nonzero s i :
  table_ok s -> 0 <= i < frames_number s -> frame_ptr s i <> 0.
Proof.
  intros T Hi. pose proof (tb_frames _ T) as [H1 H2]. unfold frame_ptr, SIZEOF_PAGE_FRAME in *.
  rewrite u32_small by (unfold in_u32; lia). lia.
Qed.

Lemma same_table_ok s s' : same_table s s' -> table_ok s -> table_ok s'.
Proof.
  intros (Eb & Ef & En & Hx) [H1 H2 H3 H4]. split; rewrite ?Eb, ?Ef, ?En; auto.
  - intros i Hi. destruct (Hx i) as (-> & _). auto.
  - intros i Hi. destruct (Hx i) as (_ & -> & _). auto.
Qed.

Lemma same_table_frame_of s s' p : same_table s s' -> frame_of s' p = frame_of s p.
Proof. intros (_ & E & _). unfold frame_of. rewrite E. reflexivity. Qed.

Lemma get_ok_fits s lvl i top s' :
  buddy_ok s -> 0 <= lvl -> get_ok s lvl i top s' ->
  0 <= i < frames_number s /\ (2 ^ lvl | i) /\ i + 2 ^ lvl <= i + 2 ^ top
  /\ i + 2 ^ top <= frames_number s.
Proof.
  intros (L & I) Hl (F & Ht & _). destruct (inv_fits _ _ _ I i) as (_ & Hd & Hn).
  - apply F.
  - left. apply F.
  - destruct F as (Hi & _ & Ev). rewrite Ev in Hd, Hn. split; [exact Hi|].
    split; [apply (divide_pow2_le i lvl top ltac:(lia) Hd)|].
    split; [|exact Hn]. apply Zplus_le_compat_l, Z.pow_le_mono_r; lia.
Qed.

(** The page index [physic_free] computes from an address of the zone. *)
Lemma physic_index s s' i :
  same_table s s' -> table_ok s -> 0 <= i < frames_number s ->
  u32 (nm_base (normal_mem s) + PAGE_FRAME_SIZE * i - nm_base (normal_mem s')) / PAGE_FRAME_SIZE = i.
Proof.
  intros (-> & _) T Hi. pose proof (tb_base _ T) as (H1 & _ & H2). unfold PAGE_FRAME_SIZE in *.
  replace (nm_base (normal_mem s) + 4096 * i - nm_base (normal_mem s)) with (i * 4096) by lia.
  rewrite u32_small by (unfold in_u32; lia). apply Z.div_mul. lia.
Qed.

(** A block that is handed out was free before. *)
Lemma get_ok_fresh s lvl i top s' : buddy_ok s -> get_ok s lvl i top s' -> forall k, ~ used_block s i k.
Proof. intros _ ((_ & F & _) & _) k (_ & U & _). rewrite F in U. discriminate U. Qed.

(** [physic_alloc] on a request of [lvl] levels: the two outcomes. *)
Lemma physic_alloc_cases s b :
  buddy_ok s -> table_ok s -> 0 <= b <= 2 ^ 22 ->
  (exists i top s', physic_alloc b s = Some (nm_base (normal_mem s) + PAGE_FRAME_SIZE * i, s')
     /\ get_ok s (Z.log2_up (page_count b)) i top s')
  \/ (physic_alloc b s = Some (0, s)
      /\ forall j k, Z.log2_up (page_count b) <= k < BUDDY_MAXLEVEL -> ~ free_block s j k).
Proof.
  intros B T Hb. destruct (page_count_bounds b ltac:(lia)) as [Hp1 Hp2].
  assert (page_count b <= 1024) as Hp3 by (unfold PAGE_FRAME_SIZE in *; lia).
  pose proof (Z.log2_up_nonneg (page_count b)) as Hn.
  assert (Z.log2_up (page_count b) <= Z.log2_up 1024) as Hl by (apply Z.log2_up_le_mono; lia).
  change (Z.log2_up 1024) with 10 in Hl.
  unfold physic_alloc. fold (page_count b). unfold frame_alloc.
  rewrite request_level by lia. simpl.
  destruct (get_block_spec s (Z.log2_up (page_count b)) B ltac:(unfold BUDDY_MAXLEVEL; lia))
    as [(i & top & s' & -> & G)|[-> Hno]]; [left|right]; simpl.
  - destruct (get_ok_fits s _ i top s' B Hn G) as (Hi & _).
    pose proof G as (_ & _ & _ & _ & St & _).
    destruct (Z.eqb_spec (frame_ptr s i) 0) as [E|_]; [destruct (frame_ptr_nonzero s i T Hi E)|].
    rewrite (same_table_frame_of _ _ _ St), frame_of_ptr by assumption.
    destruct St as (Eb & Ef & En & Hx). destruct (Hx i) as (_ & -> & _).
    rewrite (tb_addr _ T) by exact Hi. eauto.
  - auto.
Qed.

(** ** The zone used by the instances *)

Definition empty_pmm : pmm := Pmm (NormalMem 0 0 0 ∅ 0) ∅.

(** A memory map with one usable region, that gives [n] frames behind a kernel
    image that ends at 2 MiB. *)
Definition boot_map (n : Z) : list mmap_entry_t :=
  [MmapEntry 0 0 0x9FC00 0 1; MmapEntry 0x100000 0 (4118 * (n + 1) + 0x100000) 0 1].

Definition boot_zone (n : Z) : pmm :=
  default empty_pmm (init_normal_mem_zone 0x200000 (boot_map n) empty_pmm).

Lemma boot_zone_ok :
  buddy_ok (boot_zone 1024) /\ clean_heads (boot_zone 1024) /\ table_ok (boot_zone 1024)
  /\ frames_number (boot_zone 1024) = 1024.
Proof.
  destruct (init_zone_spec 0x200000 (4118 * 1025 + 0x100000) 1 empty_pmm) as
    (s' & E & B & C & T & _ & N & _); try lia; [vm_compute; discriminate|].
  assert (init_normal_mem_zone 0x200000 (boot_map 1024) empty_pmm = Some s') as E' by exact E.
  unfold boot_zone. rewrite E'. simpl. split; [exact B|]. split; [exact C|]. split; [exact T|exact N].
Qed.

(** Tests that decide the hypotheses of the theorems on a concrete zone. *)
Definition tail_quiet (s : pmm) : bool :=
  forallb (fun k => negb (flags_of s (frames_number s + Z.of_nat k) =? PAGE_FRAME_BLOCK_HEAD))
    (seq 0 512).

Lemma quiet_tail_dec s :
  tail_quiet s = true -> quiet_tail s.
Proof.
  unfold tail_quiet. intros H j Hj E. rewrite forallb_forall in H.
  specialize (H (Z.to_nat (j - frames_number s))). rewrite Z2Nat.id in H by lia.
  replace (frames_number s + (j - frames_number s)) with j in H by lia.
  rewrite E in H. discriminate H. apply in_seq. lia.
Qed.

Definition head_clean (s : pmm) (l : Z) : bool :=
  (free_list s l =? frames_number s) || (prev_of s (free_list s l) =? frames_number s).

Lemma clean_heads_dec s :
  forallb (head_clean s) [0; 1; 2; 3; 4; 5; 6; 7; 8; 9] = true -> clean_heads s.
Proof.
  intros H l Hl Hne. rewrite forallb_forall in H. specialize (H l).
  assert (In l [0; 1; 2; 3; 4; 5; 6; 7; 8; 9]) as Hin.
  { unfold BUDDY_MAXLEVEL in Hl. simpl. lia. }
  specialize (H Hin). unfold head_clean in H. reflect_bools. destruct H; reflect_bools; congruence.
Qed.

Definition is_block (fl : Z) (s : pmm) (i l : Z) : bool :=
  (0 <=? i) && (i <? frames_number s) && (flags_of s i =? fl) && (level_of s i =? l).

Lemma used_block_dec s i l : is_block 3 s i l = true -> used_block s i l.
Proof. unfold is_block. intros H. reflect_bools. repeat split; assumption. Qed.

Lemma free_block_dec s i l : is_block 2 s i l = true -> free_block s i l.
Proof. unfold is_block. intros H. reflect_bools. repeat split; assumption. Qed.

(** ** Properties *)

(** [C10] A request of at most 4 MiB either gets the physical address of a block
    of [2 ^ lvl] frames, aligned on its size and large enough, cut out of one
    free block of the least sufficient size, while every block handed out
    before stays handed out and nothing else becomes used; or no free block is
    large enough, and the call returns 0 and changes nothing.  The allocator's
    invariant holds afterwards in both cases. *)
Theorem physic_alloc_correct s b :
  buddy_ok s -> table_ok s -> 0 <= b <= 2 ^ 22 ->
  let lvl := Z.log2_up (page_count b) in
  b <= PAGE_FRAME_SIZE * 2 ^ lvl /\
  ((exists i top s',
      physic_alloc b s = Some (nm_base (normal_mem s) + PAGE_FRAME_SIZE * i, s')
      /\ (2 ^ lvl | i) /\ free_block s i top /\ lvl <= top
      /\ (forall j k, lvl <= k < top -> ~ free_block s j k)
      /\ buddy_ok s' /\ table_ok s'
      /\ (forall j k, used_block s' j k <-> used_block s j k \/ (j = i /\ k = lvl))
      /\ (forall j k, 0 <= k < BUDDY_MAXLEVEL -> free_block s' j k <->
            (free_block s j k /\ j <> i) \/ (lvl <= k < top /\ j = i + 2 ^ k)))
   \/ (physic_alloc b s = Some (0, s)
       /\ forall j k, lvl <= k < BUDDY_MAXLEVEL -> ~ free_block s j k)).
Proof.
  intros B T Hb lvl. destruct (page_count_bounds b ltac:(lia)) as [Hp1 Hp2]. split.
  { pose proof (log2_up_covers (page_count b) Hp1). unfold PAGE_FRAME_SIZE, lvl in *. lia. }
  destruct (physic_alloc_cases s b B T Hb) as [(i & top & s' & E & G)|[E Hno]]; [left|right; auto].
  destruct (get_ok_fits s _ i top s' B (Z.log2_up_nonneg _) G) as (_ & Hd & _).
  destruct G as (F & Ht & Hbest & B' & St & Hu & Hf).
  exists i, top, s'. repeat (split; [first [assumption|lia]|]).
  split; [apply (same_table_ok s s' St T)|auto].
Qed.

Lemma physic_alloc_correct_witness :
  buddy_ok (boot_zone 1024) /\ table_ok (boot_zone 1024) /\ 0 <= 5000 <= 2 ^ 22
  /\ 5000 <= PAGE_FRAME_SIZE * 2 ^ Z.log2_up (page_count 5000).
Proof.
  destruct boot_zone_ok as (B & _ & T & _). split; [exact B|]. split; [exact T|].
  split; [lia|]. exact (proj1 (physic_alloc_correct (boot_zone 1024) 5000 B T ltac:(lia))).
Defined.

(** [C12] Releasing a block that is handed out succeeds, gives back that block
    and no other, keeps the invariant, and joins it with its free buddies as far
    as possible: it ends up inside a free block that is of the top level or whose
    buddy is not a free block of its level.  The hypotheses ask that the first
    block of each lower list has no stale predecessor ([clean_heads], which an
    allocation may break) and that the memory behind the frame table does not read
    as a free block ([quiet_tail]); without the first one a page can be handed out
    twice ([PmmRuns.stale_predecessor_double_allocation]). *)
Theorem free_correct s i l :
  buddy_ok s -> clean_heads s -> quiet_tail s -> used_block s i l ->
  exists s', buddy_system_free_frame_page_block i s = Some (1, s')
    /\ buddy_ok s' /\ clean_heads s'
    /\ (forall j k, used_block s' j k <-> used_block s j k /\ j <> i)
    /\ exists b k, free_block s' b k /\ b <= i /\ i + 2 ^ l <= b + 2 ^ k
         /\ (k = BUDDY_MAXLEVEL - 1 \/ ~ free_block s' (Z.lxor b (bit k)) k).
Proof.
  intros B C Q U. destruct (free_block_spec s i l B C Q U) as (s' & E & B' & C' & _ & Hu & Hf).
  exists s'. auto.
Qed.

(** A zone where one page has been handed out. *)
Definition one_page_out : pmm :=
  match buddy_system_get_frame_page_block 0 (boot_zone 1024) with
  | Some (_, s) => s
  | None => empty_pmm
  end.

Lemma one_page_out_checks :
  match buddy_system_get_frame_page_block 0 (boot_zone 1024) with
  | Some (p, s) => negb (p =? 0) && forallb (head_clean s) [0; 1; 2; 3; 4; 5; 6; 7; 8; 9] && tail_quiet s && is_block 3 s 0 0
  | None => false
  end = true.
Proof. vm_compute. reflexivity. Qed.

#[local] Opaque boot_zone.

Lemma one_page_out_ok :
  buddy_ok one_page_out /\ clean_heads one_page_out /\ quiet_tail one_page_out
  /\ table_ok one_page_out /\ used_block one_page_out 0 0.
Proof.
  destruct boot_zone_ok as (B & _ & T & _). pose proof one_page_out_checks as H.
  unfold one_page_out.
  destruct (get_block_spec (boot_zone 1024) 0 B ltac:(unfold BUDDY_MAXLEVEL; lia))
    as [(i & top & s' & E & G)|[E _]]; rewrite E in H |- *; [|discriminate H].
  reflect_bools. destruct G as (_ & _ & _ & B' & St & _).
  split; [exact B'|]. split; [apply clean_heads_dec; assumption|].
  split; [apply quiet_tail_dec; assumption|]. split; [apply (same_table_ok _ _ St T)|].
  apply used_block_dec; assumption.
Qed.

Lemma free_correct_witness :
  buddy_ok one_page_out /\ clean_heads one_page_out /\ quiet_tail one_page_out
  /\ used_block one_page_out 0 0
  /\ exists s', buddy_system_free_frame_page_block 0 one_page_out = Some (1, s') /\ buddy_ok s'.
Proof.
  destruct one_page_out_ok as (B & C & Q & _ & U). split; [exact B|]. split; [exact C|].
  split; [exact Q|]. split; [exact U|].
  destruct (free_correct one_page_out 0 0 B C Q U) as (s' & E & B' & _). exists s'. split; assumption.
Defined.

(** Blocks are disjoint and cover the zone: every page lies in exactly one
    block, and that block is exactly one of free and handed out, aligned on its
    size and inside the zone. *)
Lemma blocks_partition s p :
  buddy_ok s -> 0 <= p < frames_number s ->
  exists i l, in_block i l p
    /\ 0 <= l < BUDDY_MAXLEVEL /\ (2 ^ l | i) /\ i + 2 ^ l <= frames_number s
    /\ ((free_block s i l /\ ~ used_block s i l) \/ (used_block s i l /\ ~ free_block s i l))
    /\ forall j k, free_block s j k \/ used_block s j k -> in_block j k p -> j = i /\ k = l.
Proof.
  intros (L & I) Hp. destruct (tl_cover _ _ _ (bi_tiling _ _ _ I) p Hp) as (i & Hi & Hh & Hin).
  destruct (inv_fits _ _ _ I i Hi Hh) as (Hl & Hd & Hf).
  exists i, (level_of s i). split; [exact Hin|]. repeat (split; [assumption|]). split.
  - destruct Hh as [Hh|Hh]; [left|right]; (split; [repeat split; assumption || lia|]);
      intros (_ & E & _); rewrite Hh in E; discriminate E.
  - intros j k Hjk Hpj.
    assert (0 <= j < frames_number s /\ is_head (flags_of s) j /\ level_of s j = k) as (Hj & Hhj & <-).
    { destruct Hjk as [(? & ? & ?)|(? & ? & ?)]; (split; [assumption|]); split; trivial;
        [left|right]; assumption. }
    assert (j = i) as ->; [|auto].
    apply (tiling_disjoint _ _ _ j i p (bi_tiling _ _ _ I)); assumption.
Qed.

Lemma blocks_partition_witness :
  buddy_ok one_page_out /\ 0 <= 5 < frames_number one_page_out
  /\ exists i l, in_block i l 5 /\ i + 2 ^ l <= frames_number one_page_out.
Proof.
  destruct one_page_out_ok as (B & _). split; [exact B|].
  assert (0 <= 5 < frames_number one_page_out) as H by (vm_compute; split; [discriminate|reflexivity]).
  split; [exact H|].
  destruct (blocks_partition one_page_out 5 B H) as (i & l & Hin & _ & _ & Hf & _).
  exists i, l. split; assumption.
Defined.

(** [C40] Releasing an index outside the zone, or one that is not the first page
    of a block, is refused: the call returns 0 and changes nothing.  The null
    address is refused the same way. *)
Theorem free_refuses s i :
  buddy_ok s -> (frames_number s <= i \/ (0 <= i < frames_number s /\ ~ is_head (flags_of s) i)) ->
  buddy_system_free_frame_page_block i s = Some (0, s) /\ physic_free 0 s = Some (0, s).
Proof.
  intros (L & I) H. split; [|reflexivity]. unfold buddy_system_free_frame_page_block.
  destruct H as [H|[Hi Hn]]; [destruct (Z.leb_spec (frames_number s) i); [reflexivity|lia]|].
  destruct (Z.leb_spec (frames_number s) i); [lia|].
  destruct (tl_cover _ _ _ (bi_tiling _ _ _ I) i Hi) as (j & Hj & Hh & Hin).
  assert (flags_of s i = PAGE_FRAME_ALLOCATED) as E.
  { apply (tl_inner _ _ _ (bi_tiling _ _ _ I) j i Hj Hh).
    destruct (Z.eq_dec i j) as [->|]; [contradiction|lia]. }
  change (pf_flags (page s i)) with (flags_of s i). rewrite E. reflexivity.
Qed.

Lemma free_refuses_witness :
  buddy_ok one_page_out /\ (0 <= 5 < frames_number one_page_out /\ ~ is_head (flags_of one_page_out) 5)
  /\ buddy_system_free_frame_page_block 5 one_page_out = Some (0, one_page_out).
Proof.
  destruct one_page_out_ok as (B & _). split; [exact B|].
  assert (0 <= 5 < frames_number one_page_out /\ ~ is_head (flags_of one_page_out) 5) as H.
  { split; [vm_compute; split; [discriminate|reflexivity]|]. apply interior_not_head.
    vm_compute. reflexivity. }
  split; [exact H|].
  exact (proj1 (free_refuses one_page_out 5 B (or_intror H))).
Defined.

(** Round trip: the address [physic_alloc] returns can be given back to
    [physic_free], which accepts it; afterwards exactly the blocks that were
    handed out before are handed out, and the invariant holds. *)
Lemma alloc_free_roundtrip s b p s1 :
  buddy_ok s -> table_ok s -> 0 <= b <= 2 ^ 22 ->
  physic_alloc b s = Some (p, s1) -> p <> 0 -> clean_heads s1 -> quiet_tail s1 ->
  exists s2, physic_free p s1 = Some (1, s2) /\ buddy_ok s2 /\ clean_heads s2 /\ table_ok s2
    /\ forall j k, used_block s2 j k <-> used_block s j k.
Proof.
  intros B T Hb E Hp C Q.
  destruct (physic_alloc_cases s b B T Hb) as [(i & top & s' & E' & G)|[E' _]];
    rewrite E in E'; simplify_eq.
  destruct (get_ok_fits s _ i top s' B (Z.log2_up_nonneg _) G) as (Hi & _).
  pose proof (get_ok_fresh s _ i top s' B G) as Hnew.
  destruct G as (_ & _ & _ & B' & St & Hu & _).
  destruct (free_block_spec s' i (Z.log2_up (page_count b)) B' C Q) as
    (s2 & E2 & B2 & C2 & St2 & Hu2 & _).
  { apply Hu. auto. }
  exists s2. unfold physic_free. rewrite (proj2 (Z.eqb_neq _ 0) Hp).
  rewrite (physic_index s s' i St T Hi). split; [exact E2|]. split; [exact B2|].
  split; [exact C2|]. split; [apply (same_table_ok _ _ St2), (same_table_ok _ _ St), T|].
  intros j k. rewrite Hu2, Hu. split; [intros [[H|[-> _]] Hne]; [exact H|contradiction]|].
  intros H. split; [left; exact H|]. intros ->. apply (Hnew k H).
Qed.

Lemma one_page_alloc :
  exists p, p <> 0 /\ physic_alloc 4096 (boot_zone 1024) = Some (p, one_page_out).
Proof.
  destruct boot_zone_ok as (B & _ & T & _). pose proof one_page_out_checks as H.
  assert (frame_alloc 1 (boot_zone 1024) = buddy_system_get_frame_page_block 0 (boot_zone 1024))
    as E by reflexivity.
  destruct (physic_alloc_cases (boot_zone 1024) 4096 B T ltac:(lia)) as [(i & top & s' & Ea & G)|[Ea _]].
  - exists (nm_base (normal_mem (boot_zone 1024)) + PAGE_FRAME_SIZE * i). split.
    + destruct (get_ok_fits _ _ i top s' B (Z.log2_up_nonneg _) G) as (Hi & _).
      pose proof (tb_base _ T). unfold PAGE_FRAME_SIZE. lia.
    + rewrite Ea. unfold physic_alloc in Ea. change (4096 / PAGE_FRAME_SIZE + _) with 1 in Ea.
      rewrite E in Ea. unfold one_page_out.
      destruct (buddy_system_get_frame_page_block 0 (boot_zone 1024)) as [[q s1]|]; simpl in Ea; [|discriminate].
      destruct (q =? 0); [discriminate H|]. congruence.
  - exfalso. unfold physic_alloc in Ea. change (4096 / PAGE_FRAME_SIZE + _) with 1 in Ea.
    rewrite E in Ea.
    destruct (buddy_system_get_frame_page_block 0 (boot_zone 1024)) as [[q s1]|]; simpl in Ea; [|discriminate].
    destruct (q =? 0); [discriminate H|]. injection Ea as Ea1 Ea2. subst s1.
    apply andb_prop in H. destruct H as [_ H].
    assert (is_block 3 (boot_zone 1024) 0 0 = false) as H2 by (vm_compute; reflexivity).
    rewrite H in H2. discriminate H2.
Qed.

Lemma alloc_free_roundtrip_witness :
  buddy_ok (boot_zone 1024) /\ table_ok (boot_zone 1024) /\ 0 <= 4096 <= 2 ^ 22
  /\ clean_heads one_page_out /\ quiet_tail one_page_out
  /\ exists p s2, p <> 0 /\ physic_alloc 4096 (boot_zone 1024) = Some (p, one_page_out)
       /\ physic_free p one_page_out = Some (1, s2) /\ buddy_ok s2.
Proof.
  destruct boot_zone_ok as (B & _ & T & _). destruct one_page_out_ok as (_ & C & Q & _).
  split; [exact B|]. split; [exact T|]. split; [lia|]. split; [exact C|]. split; [exact Q|].
  destruct one_page_alloc as (p & Hp & E).
  destruct (alloc_free_roundtrip (boot_zone 1024) 4096 p one_page_out B T ltac:(lia) E Hp C Q)
    as (s2 & E2 & B2 & _).
  exists p, s2. split; [exact Hp|]. split; [exact E|]. split; [exact E2|exact B2].
Defined.

(** [C17] Initialisation: for a usable region above 1 MiB that ends below 4 GiB (the
    high words of its entry are 0) and leaves at least 1024 frames behind the kernel
    image, the zone gets a frame table and page frames that do not overlap and lie
    inside the region, every page is free, in blocks of 4 MiB wherever one fits, and
    the allocator starts in its invariant.  With fewer frames the first block is
    larger than the zone ([PmmRuns.small_zone_overrun]). *)
Theorem init_ok ke mmap e s :
  List.find usable_entry mmap = Some e ->
  base_addr_high e = 0 -> length_high e = 0 -> 0 <= length_low e ->
  0x100000 + length_low e < 2 ^ 32 -> 0 < ke ->
  1024 <= zone_frames ke (length_low e) ->
  exists s', init_normal_mem_zone ke mmap s = Some s'
    /\ buddy_ok s' /\ clean_heads s' /\ table_ok s'
    /\ frames_number s' = zone_frames ke (length_low e)
    /\ (forall i l, ~ used_block s' i l)
    /\ nm_frames (normal_mem s') = ke
    /\ ke + SIZEOF_PAGE_FRAME * frames_number s' <= nm_base (normal_mem s')
    /\ nm_base (normal_mem s') + PAGE_FRAME_SIZE * frames_number s' <= 0x100000 + length_low e
    /\ (forall j, 0 <= j -> (2 ^ 10 | j) -> j + 2 ^ 10 <= frames_number s' -> free_block s' j 10).
Proof.
  intros Hf Hbh Hlh Hl He Hk Hz. unfold init_normal_mem_zone. rewrite Hf.
  pose proof (List.find_some _ _ Hf) as [_ Hu]. unfold usable_entry in Hu. reflect_bools.
  destruct e as [bl bh ll lh ty]. simpl in *. subst.
  destruct (init_zone_spec ke ll 1 s Hk Hl He Hz) as (s' & E & B & C & T & U & N & Eb & Ef & Hl10).
  exists s'. rewrite N, Eb. split; [exact E|]. repeat (split; [assumption|]). split; [reflexivity|].
  repeat (split; [assumption|]). pose proof (zone_base_spec ke ll Hk He Hz) as (H1 & _ & H2).
  split; [unfold SIZEOF_PAGE_FRAME; lia|]. split; [unfold PAGE_FRAME_SIZE; lia|exact Hl10].
Qed.

Lemma init_ok_witness :
  let e := MmapEntry 0x100000 0 (4118 * 1025 + 0x100000) 0 1 in
  List.find usable_entry (boot_map 1024) = Some e /\ 1024 <= zone_frames 0x200000 (length_low e)
  /\ exists s', init_normal_mem_zone 0x200000 (boot_map 1024) empty_pmm = Some s' /\ buddy_ok s'.
Proof.
  intros e. assert (List.find usable_entry (boot_map 1024) = Some e) as H by reflexivity.
  assert (1024 <= zone_frames 0x200000 (length_low e)) as Hz by (vm_compute; discriminate).
  split; [exact H|]. split; [exact Hz|].
  destruct (init_ok 0x200000 (boot_map 1024) e empty_pmm H eq_refl eq_refl
    ltac:(vm_compute; discriminate) ltac:(vm_compute; reflexivity) ltac:(lia) Hz) as (s' & E & B & _).
  exists s'. split; assumption.
Defined.

(** ** Reporting *)

Lemma print_level_spec fuel s l pv xs :
  wchain (next_of s) pv (frames_number s) (free_list s l) xs -> frames_number s ∉ xs ->
  (length xs <= fuel)%nat -> print_level fuel s l = Some xs.
Proof.
  intros W Hn Hl. unfold print_level.
  assert (forall ys fuel out h, wchain (next_of s) pv (frames_number s) h ys ->
            frames_number s ∉ ys -> (length ys <= fuel)%nat ->
            while fuel (fun '(_, cur) => negb (cur =? frames_number s))
              (fun '(out, cur) => (out ++ [cur], pf_next_frame (page s cur))) (out, h)
            = Some (out ++ ys, frames_number s)) as H.
  { clear. induction ys as [|y ys IH]; intros fuel out h W Hn Hl.
    - apply wchain_nil in W. subst h. rewrite while_false by (rewrite Z.eqb_refl; reflexivity).
      rewrite app_nil_r. reflexivity.
    - destruct W as [-> W]. destruct fuel as [|fuel]; [simpl in Hl; lia|].
      rewrite not_elem_of_cons in Hn. destruct Hn as [Hy Hn].
      rewrite while_true by (apply negb_true_iff, Z.eqb_neq; congruence).
      change (pf_next_frame (page s y)) with (next_of s y).
      rewrite IH; [rewrite <- app_assoc; reflexivity| |exact Hn|simpl in Hl; lia].
      apply (dchain_wchain _ _ _ _ _ _ W). }
  rewrite (H xs fuel [] _ W Hn Hl). reflexivity.
Qed.

(** A list of distinct page indices is no longer than the table. *)
Lemma nodup_bounded (xs : list Z) n :
  0 <= n -> NoDup xs -> (forall x, x ∈ xs -> 0 <= x < n) -> (length xs <= Z.to_nat n)%nat.
Proof.
  intros Hn Hd Hx. rewrite <- (length_seqZ 0 n). apply submseteq_length, NoDup_submseteq; [exact Hd|].
  intros x Hin. apply elem_of_seqZ. specialize (Hx x Hin). lia.
Qed.

(** The levels, in the order of the report. *)
Definition levels : list Z := [0; 1; 2; 3; 4; 5; 6; 7; 8; 9; 10].

Definition total_pages (L : Z -> list Z) : Z :=
  foldr (fun l acc => 2 ^ l * Z.of_nat (length (L l)) + acc) 0 levels.

(** [C39] The report terminates in the allocator's invariant, within as many
    links as there are frames, prints for each level exactly the free blocks of
    that level, each once, and totals their pages. *)
Theorem print_free_buddy_blocks_correct s :
  buddy_ok s ->
  exists L, print_free_buddy_blocks (Z.to_nat (frames_number s)) s
      = Some (L <$> levels, u32 (total_pages L))
    /\ forall l, 0 <= l < BUDDY_MAXLEVEL -> NoDup (L l) /\ forall i, i ∈ L l <-> free_block s i l.
Proof.
  intros (L & I). exists L. pose proof (bi_bound _ _ _ I) as Hb.
  assert (forall l, 0 <= l < BUDDY_MAXLEVEL ->
            print_level (Z.to_nat (frames_number s)) s l = Some (L l)) as Hp.
  { intros l Hl. apply (print_level_spec _ _ _ _ _ (bi_chain _ _ _ I l Hl)).
    - apply (inv_sentinel _ _ _ I l Hl).
    - apply nodup_bounded; [lia|apply (bi_nodup _ _ _ I l Hl)|].
      intros x Hx. apply (inv_mem_lt _ _ _ I x l Hl Hx). }
  split.
  - unfold print_free_buddy_blocks. change (Z.to_nat BUDDY_MAXLEVEL) with 11%nat.
    unfold BUDDY_MAXLEVEL in Hp. cbn [for_loop]. simpl mbind.
    rewrite !Hp by lia. simpl. do 2 f_equal.
    rewrite !bit_pow2 by lia. unfold total_pages, u32. simpl foldr.
    repeat (rewrite Zplus_mod_idemp_l; rewrite <- ?Z.add_assoc). f_equal. rewrite !Z.add_assoc, Z.add_0_r. reflexivity.
  - intros l Hl. split; [apply (bi_nodup _ _ _ I l Hl)|]. intros i.
    rewrite (bi_mem _ _ _ I l i Hl). split; [tauto|]. intros H. split; [exact H|]. apply H.
Qed.

Lemma print_free_buddy_blocks_correct_witness :
  buddy_ok one_page_out
  /\ exists L, print_free_buddy_blocks (Z.to_nat (frames_number one_page_out)) one_page_out
       = Some (L <$> levels, u32 (total_pages L)).
Proof.
  destruct one_page_out_ok as (B & _). split; [exact B|].
  destruct (print_free_buddy_blocks_correct one_page_out B) as (L & E & _). exists L. exact E.
Defined.
