(* ===== verification/PmmRuns.v ===== *)
(** * Runs of the frame allocator outside its contract

    Concrete runs on which kernel/kernel/pmm.c leaves the invariant of
    [PmmSpec]: they show that the hypotheses of the theorems in [PmmProps]
    ([clean_heads], [quiet_tail], at least 1024 frames, a block that is handed
    out) are needed, and what the code does without them. *)

From S2P Require Import Prelude KMath Pmm PmmSpec PmmProps.

Inductive pmm_op :=
  | Get (lvl : Z)
  | Release (i : Z).

(** The result of an operation, as a page index for [Get]. *)
Definition run_op (o : pmm_op) (s : pmm) : option (Z * pmm) :=
  match o with
  | Get lvl => '(p, s') ← buddy_system_get_frame_page_block lvl s; Some (frame_of s' p, s')
  | Release i => buddy_system_free_frame_page_block i s
  end.

Fixpoint run (os : list pmm_op) (s : pmm) : option (list Z * pmm) :=
  match os with
  | [] => Some ([], s)
  | o :: os => '(r, s) ← run_op o s; '(rs, s) ← run os s; Some (r :: rs, s)
  end.

Definition final (os : list pmm_op) (s : pmm) : pmm :=
  match run os s with Some (_, s) => s | None => empty_pmm end.

(** Taking the first block of a list leaves the [prev_frame] of the next one
    pointing at it (lines 182-186 of pmm.c).  When that next block is merged
    away later, its stale predecessor is linked instead of the list head: here
    page 5 is handed out, and then again as part of the block of pages 4 to 7. *)
Lemma stale_predecessor_double_allocation :
  fst <$> run [Get 0; Get 0; Get 0; Get 0; Get 0; Release 0; Get 0; Release 4; Get 0; Get 2]
            (boot_zone 1024)
  = Some [0; 1; 2; 3; 4; 1; 0; 1; 5; 4].
Proof. vm_compute. reflexivity. Qed.

(** The guard of the release tests [PAGE_FRAME_BLOCK_HEAD] twice and
    [PAGE_FRAME_ALLOCATED] never (line 230): a block that is already free is
    accepted, and pushed on its list a second time. *)
Lemma double_free_accepted :
  fst <$> run [Get 0; Release 0; Release 0] (boot_zone 1024) = Some [0; 1; 1].
Proof. vm_compute. reflexivity. Qed.

Lemma double_free_cycle :
  let s := final [Get 0; Release 0; Release 0] (boot_zone 1024) in
  (free_list s 10 =? 0) && (next_of s 0 =? 0) && (frames_number s =? 1024) = true.
Proof. vm_compute. reflexivity. Qed.

#[local] Opaque final boot_zone.

Lemma double_free_report_diverges fuel :
  print_level fuel (final [Get 0; Release 0; Release 0] (boot_zone 1024)) 10 = None.
Proof.
  pose proof double_free_cycle as H. revert H.
  generalize (final [Get 0; Release 0; Release 0] (boot_zone 1024)). intros s H. simpl in H.
  reflect_bools. unfold print_level.
  rewrite (while_diverges (fun st => snd st = 0)); [reflexivity|assumption|].
  intros [out cur] E. simpl in E. subst cur. simpl.
  split; [rewrite H0; reflexivity|assumption].
Qed.

(** With fewer than 1024 frames the first block is still cut with 1024 pages:
    [frames_number - size] wraps around in the test of line 135. *)
Lemma small_zone_overrun :
  let s := boot_zone 1000 in
  (frames_number s =? 1000) && is_block 2 s 0 10
  && match buddy_system_get_frame_page_block 10 s with
     | Some (p, s') => negb (p =? 0) && is_block 3 s' 0 10
     | None => false
     end = true.
Proof. vm_compute. reflexivity. Qed.

(** Line 141 writes the [prev_frame] of the sentinel, one record behind the
    table: [pages[frames_number]]. *)
Lemma init_writes_behind_table :
  match pages (boot_zone 1024) !! 1024 with Some _ => true | None => false end = true.
Proof. vm_compute. reflexivity. Qed.

(** When the table ends at a page boundary, that record lies in the first frame of
    the zone ([Pmm] keeps the table and the frames as separate stores, so the model
    does not show the damage to whatever the frame holds). *)
Lemma sentinel_in_first_frame :
  let ke := 0x1FA800 in
  match init_normal_mem_zone ke [MmapEntry 0x100000 0 (ke - 0x100000 + 4118 * 1025) 0 1] empty_pmm with
  | Some s => frames_number s = 1024 /\ nm_frames (normal_mem s) + SIZEOF_PAGE_FRAME * 1024 = nm_base (normal_mem s)
  | None => False
  end.
Proof. vm_compute. split; reflexivity. Qed.

(** The high halves of the addresses in the memory map are shifted by 16 bits
    and not by 32 (lines 80 and 83). *)
Lemma high_length_shifted_by_16 ke h low s :
  0 <= h < 65536 -> 0 <= low -> low + 65536 * h < 2 ^ 32 ->
  init_zone ke (MmapEntry 0x100000 0 low h 1) s
  = init_zone ke (MmapEntry 0x100000 0 (low + 65536 * h) 0 1) s.
Proof.
  intros Hh Hl Hs. unfold init_zone. cbn [base_addr_low base_addr_high length_low length_high].
  assert (u32 (u32 (Z.shiftl h 16) + low) = u32 (u32 (Z.shiftl 0 16) + (low + 65536 * h))) as ->.
  { rewrite !Z.shiftl_mul_pow2 by lia. f_equal. rewrite !u32_small by (unfold in_u32; lia). lia. }
  reflexivity.
Qed.

(** A request of more than [2 ^ 31] frames does not return: the count rounds
    up to 0, whose logarithm is searched for ever. *)
Lemma frame_alloc_diverges n s : 2 ^ 31 < n < 2 ^ 32 -> frame_alloc n s = None.
Proof.
  intros Hn. unfold frame_alloc. rewrite next_power_of_2_wraps by lia.
  unfold power_of_2. rewrite power_of_2_zero_diverges. reflexivity.
Qed.
