(* ===== verification/Vmm.v ===== *)
(** * kernel/kernel/vmm.c: page directories and page tables

    Memory is a store of 32-bit words indexed by virtual byte address; the code
    only makes aligned word accesses, except for the [memset] of a whole page,
    which zeroes its 1024 words.  A page directory is the address [pd] of its
    first entry, a page table the physical address kept in a directory entry,
    reached through the linear mapping at [PAGE_OFFSET].  The instructions that
    load cr3 and invalidate a translation have no effect on this store: the
    value loaded is kept in [vm_cr3].

    The pages for new tables come from a [PageSource]; [PageSourceLaws] is what
    this file needs of it, and the frame allocator is an instance ([VmmPmm]). *)

From S2P Require Import Prelude Pmm.

Definition PAGE_SIZE : Z := 4096.
Definition PAGE_MASK : Z := ALIGN_MASK.
Definition PAGE_PRESENT : Z := 0x1.
Definition PAGE_WRITE : Z := 0x2.
Definition KERNEL_NORMAL_ZONE_SIZE : Z := 0x38000000.
Definition KERNEL_NORMAL_ZONE_DIRECTORY_SIZE : Z := Z.shiftr KERNEL_NORMAL_ZONE_SIZE 22.

Definition PGD_INDEX (x : Z) : Z := Z.land (Z.shiftr x 22) 0x3FF.
Definition PTE_INDEX (x : Z) : Z := Z.land (Z.shiftr x 12) 0x3FF.

(** ** The interface to the page allocator *)

Class PageSource (Pool : Type) := {
  page_alloc : Z -> Pool -> option (Z * Pool)
}.

(** A page source either has no page left, and returns 0 and changes nothing, or
    gives a page of the first GiB that was free and is not free any more. *)
Class PageSourceLaws (Pool : Type) `{PageSource Pool} := {
  ps_ok : Pool -> Prop;
  ps_free : Pool -> Z -> Prop;
  page_alloc_ok : forall b s, ps_ok s -> 0 < b <= PAGE_SIZE ->
    exists p s', page_alloc b s = Some (p, s') /\ ps_ok s' /\
      ((p = 0 /\ s' = s)
       \/ (0 < p /\ (PAGE_SIZE | p) /\ p + PAGE_SIZE <= 2 ^ 30 /\ ps_free s p
           /\ ~ ps_free s' p /\ forall q, ps_free s' q -> ps_free s q))
}.

Section vmm.
Context {Pool : Type} `{PageSource Pool}.

Record vmm := Vmm {
  vm_mem : gmap Z Z;
  vm_pool : Pool;
  vm_cr3 : Z
}.

Definition rd (s : vmm) (a : Z) : Z := vm_mem s !!! a.
Definition wr (a v : Z) (s : vmm) : vmm := Vmm (<[a := v]> (vm_mem s)) (vm_pool s) (vm_cr3 s).

(** [pd[i]], [table[i]]: the address of the [i]th word of an array. *)
Definition word_at (base i : Z) : Z := u32 (base + 4 * i).

(** [memset(table, 0, PAGE_SIZE)] on whole words. *)
Definition memset_page (table : Z) (s : vmm) : vmm :=
  for_loop 1024 0 (fun i s => wr (word_at table i) 0 s) s.

(** ** Operations *)

Definition switch_pgd (pd : Z) (s : vmm) : vmm := Vmm (vm_mem s) (vm_pool s) pd.

(** [sizeof(PAGE_SIZE)], the size of an [int]: what [map] asks for. *)
Definition SIZEOF_PAGE_SIZE : Z := 4.

Definition map (pd va pa flags : Z) (s : vmm) : option vmm :=
  let pgd_index := PGD_INDEX va in
  let pte_index := PTE_INDEX va in
  let table := Z.land (rd s (word_at pd pgd_index)) PAGE_MASK in
  '(table, s) ←
    (if table =? 0 then
       '(table, pool) ← page_alloc SIZEOF_PAGE_SIZE (vm_pool s);
       let s := Vmm (vm_mem s) pool (vm_cr3 s) in
       let s := wr (word_at pd pgd_index) (Z.lor table flags) s in
       let table := u32 (table + PAGE_OFFSET) in
       Some (table, memset_page table s)
     else Some (u32 (table + PAGE_OFFSET), s));
  Some (wr (word_at table pte_index) (Z.lor (Z.land pa PAGE_MASK) flags) s).

Definition unmap (pd va : Z) (s : vmm) : vmm :=
  let pgd_index := PGD_INDEX va in
  let pte_index := PTE_INDEX va in
  let table := Z.land (rd s (word_at pd pgd_index)) PAGE_MASK in
  if table =? 0 then s
  else
    let table := u32 (table + PAGE_OFFSET) in
    wr (word_at table pte_index) 0 s.

(** The return value, and what is stored through [pa] when it is not null. *)
Definition get_mapping (pd va : Z) (pa : bool) (s : vmm) : Z * option Z :=
  let pgd_index := PGD_INDEX va in
  let pte_index := PTE_INDEX va in
  let table := Z.land (rd s (word_at pd pgd_index)) PAGE_MASK in
  if table =? 0 then (0, None)
  else
    let table := u32 (table + PAGE_OFFSET) in
    if negb (rd s (word_at table pte_index) =? 0) && pa
    then (1, Some (Z.land (rd s (word_at table pte_index)) PAGE_MASK))
    else (0, None).

(** [init_vmm], for the link-time addresses of [pgd_k] and [tables] and the
    value of [pt0]. *)
Definition init_vmm (pgd_k tables pt0 : Z) (s : vmm) : vmm :=
  let page_of_set_dir_index := PGD_INDEX PAGE_OFFSET in
  let s := for_loop (Z.to_nat page_of_set_dir_index) 0
             (fun i s => wr (word_at pgd_k i) 0 s) s in
  let s := for_loop (Z.to_nat KERNEL_NORMAL_ZONE_DIRECTORY_SIZE) 0
             (fun i s => wr (word_at pgd_k (i + page_of_set_dir_index))
                (Z.lor (Z.lor (u32 (u32 (tables + PAGE_SIZE * i) - PAGE_OFFSET)) PAGE_PRESENT)
                   PAGE_WRITE) s) s in
  let s := wr (word_at pgd_k 0) (Z.lor (Z.lor pt0 PAGE_PRESENT) PAGE_WRITE) s in
  let s := for_loop (Z.to_nat KERNEL_NORMAL_ZONE_DIRECTORY_SIZE) 0
             (fun i s => for_loop 1024 0
                (fun j s => let k := i * 1024 + j in
                   wr (word_at (u32 (tables + PAGE_SIZE * i)) j)
                     (Z.lor (Z.lor (u32 (Z.shiftl k 12)) PAGE_PRESENT) PAGE_WRITE) s) s) s in
  let pgd_k_phy_addr := u32 (pgd_k - PAGE_OFFSET) in
  switch_pgd pgd_k_phy_addr s.

(** ** What the operations promise *)

(** The directory entry of [va], as the physical address of a page table, and
    the table entry of [va]; 0 when there is none. *)
Definition table_of (s : vmm) (pd i : Z) : Z := Z.land (rd s (pd + 4 * i)) PAGE_MASK.

Definition entry (s : vmm) (pd va : Z) : Z :=
  let t := table_of s pd (PGD_INDEX va) in
  if t =? 0 then 0 else rd s (t + PAGE_OFFSET + 4 * PTE_INDEX va).

(** What [get_mapping] answers about an entry. *)
Definition lookup_entry (e : Z) : Z * option Z :=
  if e =? 0 then (0, None) else (1, Some (Z.land e PAGE_MASK)).

(** A directory that owns its tables: it and its tables are different pages,
    none of them free in the page source. *)
Record vm_ok `{!PageSourceLaws Pool} (pd : Z) (s : vmm) : Prop := {
  vo_pool : ps_ok (vm_pool s);
  vo_pd : (PAGE_SIZE | pd) /\ PAGE_OFFSET <= pd /\ pd + PAGE_SIZE <= 2 ^ 32;
  vo_pd_free : ~ ps_free (vm_pool s) (pd - PAGE_OFFSET);
  vo_word : forall i, 0 <= i < 1024 -> in_u32 (rd s (pd + 4 * i));
  vo_table : forall i, 0 <= i < 1024 -> table_of s pd i <> 0 ->
    table_of s pd i + PAGE_SIZE <= 2 ^ 30 /\ table_of s pd i + PAGE_OFFSET <> pd
    /\ ~ ps_free (vm_pool s) (table_of s pd i);
  vo_inj : forall i j, 0 <= i < 1024 -> 0 <= j < 1024 -> table_of s pd i <> 0 ->
    table_of s pd i = table_of s pd j -> i = j
}.
End vmm.

Arguments vmm : clear implicits.
