(* ===== verification/VmmProofs.v ===== *)
(** * Properties of the page tables

    The theorems about kernel/kernel/vmm.c, proved against the interface of the
    page source: [map], [unmap] and [get_mapping] implement a map from pages to
    entries, and [init_vmm] builds the linear mapping of the kernel. *)

From S2P Require Import Prelude Pmm Vmm.

(** ** Indices and addresses *)

Lemma index_range x k : 0 <= Z.land (Z.shiftr x k) 0x3FF < 1024.
Proof.
  change 0x3FF with (Z.ones 10). rewrite Z.land_ones by lia. apply Z.mod_pos_bound. lia.
Qed.

Lemma PGD_INDEX_range x : 0 <= PGD_INDEX x < 1024.
Proof. apply index_range. Qed.

Lemma PTE_INDEX_range x : 0 <= PTE_INDEX x < 1024.
Proof. apply index_range. Qed.

Lemma PGD_INDEX_div x : in_u32 x -> PGD_INDEX x = x / 2 ^ 22.
Proof.
  intros Hx. unfold PGD_INDEX. change 0x3FF with (Z.ones 10).
  rewrite Z.land_ones, Z.shiftr_div_pow2 by lia. apply Z.mod_small.
  unfold in_u32 in Hx. split; [apply Z.div_pos; lia|]. apply Z.div_lt_upper_bound; lia.
Qed.

Lemma PTE_INDEX_div x : PTE_INDEX x = (x / 2 ^ 12) mod 2 ^ 10.
Proof.
  unfold PTE_INDEX. change 0x3FF with (Z.ones 10). rewrite Z.land_ones, Z.shiftr_div_pow2 by lia.
  reflexivity.
Qed.

(** The two indices determine the page. *)
Lemma same_page x y :
  in_u32 x -> in_u32 y -> PGD_INDEX x = PGD_INDEX y -> PTE_INDEX x = PTE_INDEX y ->
  x / PAGE_SIZE = y / PAGE_SIZE.
Proof.
  intros Hx Hy. rewrite !PGD_INDEX_div, !PTE_INDEX_div by assumption. unfold PAGE_SIZE.
  change (2 ^ 22) with (4096 * 1024). change (2 ^ 12) with 4096. change (2 ^ 10) with 1024.
  rewrite <- !Z.div_div by lia. intros E1 E2.
  rewrite (Z.div_mod (x / 4096) 1024), (Z.div_mod (y / 4096) 1024) by lia. congruence.
Qed.

Lemma word_at_small base i :
  0 <= base -> base + PAGE_SIZE <= 2 ^ 32 -> 0 <= i < 1024 -> word_at base i = base + 4 * i.
Proof. unfold PAGE_SIZE. intros. apply u32_small. unfold in_u32. lia. Qed.

(** Words of different pages are different words. *)
Lemma page_apart p q i j :
  (PAGE_SIZE | p) -> (PAGE_SIZE | q) -> p <> q -> 0 <= i < 1024 -> 0 <= j < 1024 ->
  p + 4 * i <> q + 4 * j.
Proof. unfold PAGE_SIZE. intros [a ->] [b ->] Hne Hi Hj E. apply Hne. lia. Qed.

Lemma mask_aligned x : in_u32 x -> (PAGE_SIZE | Z.land x PAGE_MASK) /\ 0 <= Z.land x PAGE_MASK <= x.
Proof.
  intros Hx. unfold PAGE_MASK, ALIGN_MASK, PAGE_SIZE. change 0xFFFFF000 with 4294963200.
  rewrite land_page_mask by exact Hx. unfold in_u32 in Hx.
  pose proof (Z.div_mod x 4096 ltac:(lia)). pose proof (Z.mod_pos_bound x 4096 ltac:(lia)).
  split; [exists (x / 4096); lia|]. pose proof (Z.div_pos x 4096). lia.
Qed.

Lemma lor_flags t f : (PAGE_SIZE | t) -> 0 <= f < PAGE_SIZE -> Z.lor t f = t + f.
Proof.
  intros [q ->] Hf. unfold PAGE_SIZE in *. change 4096 with (2 ^ 12) in *.
  assert (Z.land (q * 2 ^ 12) f = 0) as El.
  { apply Z.bits_inj'. intros n Hn. rewrite Z.land_spec, Z.bits_0.
    destruct (Z.lt_ge_cases n 12).
    - rewrite Z.mul_pow2_bits_low by lia. reflexivity.
    - rewrite (testbit_small f 12 n) by lia. apply andb_false_r. }
  rewrite (Z.add_nocarry_lxor _ _ El), Z.lxor_lor by exact El. reflexivity.
Qed.

Lemma mask_add t f :
  (PAGE_SIZE | t) -> 0 <= t < 2 ^ 32 -> 0 <= f < PAGE_SIZE -> Z.land (t + f) PAGE_MASK = t.
Proof.
  intros Hd Ht Hf. unfold PAGE_SIZE in *. pose proof Hd as [q Eq].
  unfold PAGE_MASK, ALIGN_MASK. change 0xFFFFF000 with 4294963200.
  rewrite land_page_mask by (unfold in_u32; lia).
  rewrite Eq, Z.add_comm, Z.mod_add, Z.mod_small by lia. lia.
Qed.

Lemma mask_entry t f :
  (PAGE_SIZE | t) -> 0 <= t < 2 ^ 32 -> 0 <= f < PAGE_SIZE ->
  in_u32 (Z.lor t f) /\ Z.land (Z.lor t f) PAGE_MASK = t.
Proof.
  intros Hd Ht Hf. rewrite lor_flags by assumption. split; [|apply mask_add; assumption].
  destruct Hd as [q ->]. unfold in_u32, PAGE_SIZE in *. lia.
Qed.

(** ** Reads after writes *)

Section state.
Context {Pool : Type} `{PageSourceLaws Pool}.
Implicit Types s : vmm Pool.

Lemma rd_wr_eq a v s : rd (wr a v s) a = v.
Proof. apply lookup_total_insert_eq. Qed.

Lemma rd_wr_ne a b v s : a <> b -> rd (wr a v s) b = rd s b.
Proof. apply lookup_total_insert_ne. Qed.

Lemma rd_switch_pgd pd s a : rd (switch_pgd pd s) a = rd s a.
Proof. reflexivity. Qed.

Lemma vm_cr3_switch_pgd pd s : vm_cr3 (switch_pgd pd s) = pd.
Proof. reflexivity. Qed.

Lemma vm_pool_switch_pgd pd s : vm_pool (switch_pgd pd s) = vm_pool s.
Proof. reflexivity. Qed.

Lemma vm_pool_wr a v s : vm_pool (wr a v s) = vm_pool s.
Proof. reflexivity. Qed.

Lemma vm_pool_for n i body s :
  (forall k s, vm_pool (body k s) = vm_pool s) -> vm_pool (for_loop n i body s) = vm_pool s.
Proof. revert i s. induction n as [|n IH]; intros i s Hb; simpl; [reflexivity|]. rewrite IH; auto. Qed.

(** A loop that writes [f i] to the [i]th word of an array. *)
Lemma fill_spec base f n s :
  0 <= base -> base + 4 * Z.of_nat n <= 2 ^ 32 ->
  let s' := for_loop n 0 (fun i s => wr (word_at base i) (f i) s) s in
  vm_pool s' = vm_pool s
  /\ (forall i, 0 <= i < Z.of_nat n -> rd s' (base + 4 * i) = f i)
  /\ (forall a, (forall i, 0 <= i < Z.of_nat n -> a <> base + 4 * i) -> rd s' a = rd s a).
Proof.
  intros Hb Hn. cbv zeta.
  pose proof (for_loop_ind (fun k s' => k <= Z.of_nat n -> vm_pool s' = vm_pool s
    /\ (forall i, 0 <= i < k -> rd s' (base + 4 * i) = f i)
    /\ (forall a, (forall i, 0 <= i < k -> a <> base + 4 * i) -> rd s' a = rd s a))
    n 0 (fun i s => wr (word_at base i) (f i) s) s) as L.
  rewrite Z.add_0_l in L. apply L; [|clear L|lia].
  - intros _. split; [reflexivity|]. split; [intros; lia|reflexivity].
  - intros k s1 Hk IH Hk2. destruct IH as (Ep & E1 & E2); [lia|].
    assert (word_at base k = base + 4 * k) as -> by (apply u32_small; unfold in_u32; lia).
    split; [exact Ep|]. split.
    + intros i Hi. destruct (Z.eq_dec i k) as [->|]; [apply rd_wr_eq|].
      rewrite rd_wr_ne by lia. apply E1. lia.
    + intros a Ha. rewrite rd_wr_ne by (intros E; apply (Ha k); lia).
      apply E2. intros i Hi. apply Ha. lia.
Qed.

Lemma memset_page_spec t s :
  0 <= t -> t + PAGE_SIZE <= 2 ^ 32 ->
  vm_pool (memset_page t s) = vm_pool s
  /\ (forall i, 0 <= i < 1024 -> rd (memset_page t s) (t + 4 * i) = 0)
  /\ (forall a, (forall i, 0 <= i < 1024 -> a <> t + 4 * i) -> rd (memset_page t s) a = rd s a).
Proof. unfold PAGE_SIZE. intros H1 H2. apply (fill_spec t (fun _ => 0) 1024); lia. Qed.

(** ** The invariant *)

Lemma table_of_range pd s i :
  vm_ok pd s -> 0 <= i < 1024 -> (PAGE_SIZE | table_of s pd i) /\ 0 <= table_of s pd i < 2 ^ 32.
Proof.
  intros V Hi. pose proof (vo_word _ _ V i Hi) as Hw. unfold in_u32 in Hw.
  pose proof (mask_aligned _ (vo_word _ _ V i Hi)) as [Hd Hr].
  unfold table_of. split; [exact Hd|]. lia.
Qed.

Lemma pd_word pd s i : vm_ok pd s -> 0 <= i < 1024 -> word_at pd i = pd + 4 * i.
Proof.
  intros V Hi. destruct (vo_pd _ _ V) as (_ & Hl & Hh). unfold PAGE_OFFSET in Hl.
  apply word_at_small; lia.
Qed.

Lemma pd_entry pd s va :
  vm_ok pd s ->
  Z.land (rd s (word_at pd (PGD_INDEX va))) PAGE_MASK = table_of s pd (PGD_INDEX va).
Proof. intros V. rewrite (pd_word pd s) by (exact V || apply PGD_INDEX_range). reflexivity. Qed.

(** A table page, seen at its virtual address. *)
Lemma table_page pd s i :
  vm_ok pd s -> 0 <= i < 1024 -> table_of s pd i <> 0 ->
  u32 (table_of s pd i + PAGE_OFFSET) = table_of s pd i + PAGE_OFFSET
  /\ (PAGE_SIZE | table_of s pd i + PAGE_OFFSET)
  /\ table_of s pd i + PAGE_OFFSET + PAGE_SIZE <= 2 ^ 32.
Proof.
  intros V Hi Hn. destruct (table_of_range _ _ _ V Hi) as [Hd Hr].
  destruct (vo_table _ _ V i Hi Hn) as (Ht & _). unfold PAGE_SIZE, PAGE_OFFSET in *.
  split; [apply u32_small; unfold in_u32; lia|]. split; [|lia].
  apply Z.divide_add_r; [exact Hd|]. exists 0xC0000. reflexivity.
Qed.

Lemma get_mapping_entry pd va s :
  vm_ok pd s -> get_mapping pd va true s = lookup_entry (entry s pd va).
Proof.
  intros V. unfold get_mapping, entry. rewrite (pd_entry _ _ _ V).
  destruct (Z.eqb_spec (table_of s pd (PGD_INDEX va)) 0) as [|Hn]; [reflexivity|].
  destruct (table_page _ _ _ V (PGD_INDEX_range va) Hn) as (-> & Hd & Hh).
  assert (0 <= table_of s pd (PGD_INDEX va) + PAGE_OFFSET).
  { pose proof (table_of_range _ _ _ V (PGD_INDEX_range va)). unfold PAGE_OFFSET. lia. }
  rewrite word_at_small by (assumption || apply PTE_INDEX_range).
  unfold lookup_entry. rewrite andb_true_r.
  destruct (rd s _ =? 0); reflexivity.
Qed.

(** An entry is the same for all the addresses of a page. *)
Lemma index_page x y :
  in_u32 x -> in_u32 y -> x / PAGE_SIZE = y / PAGE_SIZE ->
  PGD_INDEX x = PGD_INDEX y /\ PTE_INDEX x = PTE_INDEX y.
Proof.
  intros Hx Hy E. rewrite !PGD_INDEX_div, !PTE_INDEX_div by assumption. unfold PAGE_SIZE in E.
  change (2 ^ 22) with (4096 * 1024). change (2 ^ 12) with 4096.
  rewrite <- !Z.div_div, E by lia. auto.
Qed.

Lemma entry_page s pd x y :
  in_u32 x -> in_u32 y -> x / PAGE_SIZE = y / PAGE_SIZE -> entry s pd x = entry s pd y.
Proof. intros Hx Hy E. destruct (index_page x y Hx Hy E) as [E1 E2]. unfold entry. rewrite E1, E2. reflexivity. Qed.

(** Writing an entry of a table changes that entry and no other. *)
Lemma set_entry_ok pd va v s :
  vm_ok pd s -> in_u32 va -> table_of s pd (PGD_INDEX va) <> 0 ->
  let s' := wr (word_at (u32 (table_of s pd (PGD_INDEX va) + PAGE_OFFSET)) (PTE_INDEX va)) v s in
  vm_ok pd s' /\ entry s' pd va = v
  /\ forall va', in_u32 va' -> va' / PAGE_SIZE <> va / PAGE_SIZE -> entry s' pd va' = entry s pd va'.
Proof.
  intros V Hva Hn. set (i := PGD_INDEX va) in *. pose proof (PGD_INDEX_range va : 0 <= i < 1024) as Hi.
  destruct (table_page _ _ _ V Hi Hn) as (-> & Hd & Hh).
  pose proof (table_of_range _ _ _ V Hi) as [_ Hr]. pose proof (PTE_INDEX_range va) as Hj.
  rewrite word_at_small by (unfold PAGE_OFFSET in *; lia || assumption).
  set (a := table_of s pd i + PAGE_OFFSET + 4 * PTE_INDEX va). intros s'.
  destruct (vo_pd _ _ V) as (Hpd & _). destruct (vo_table _ _ V i Hi Hn) as (_ & Hne & _).
  assert (forall k, 0 <= k < 1024 -> rd s' (pd + 4 * k) = rd s (pd + 4 * k)) as Epd.
  { intros k Hk. apply rd_wr_ne. apply page_apart; assumption. }
  assert (forall k, 0 <= k < 1024 -> table_of s' pd k = table_of s pd k) as Et.
  { intros k Hk. unfold table_of. rewrite Epd by exact Hk. reflexivity. }
  split; [|split].
  - destruct V as [V1 V2 V3 V4 V5 V6]. split; try assumption.
    + intros k Hk. rewrite Epd by exact Hk. auto.
    + intros k Hk. rewrite Et by exact Hk. auto.
    + intros k l Hk Hl. rewrite !Et by assumption. auto.
  - unfold entry. rewrite Et by exact Hi. fold i. rewrite (proj2 (Z.eqb_neq _ _) Hn).
    apply rd_wr_eq.
  - intros va' Hva' Hp. unfold entry. rewrite Et by apply PGD_INDEX_range.
    destruct (Z.eqb_spec (table_of s pd (PGD_INDEX va')) 0) as [|Hn']; [reflexivity|].
    apply rd_wr_ne. unfold a.
    destruct (Z.eq_dec (PGD_INDEX va') i) as [Ei|Ei].
    + rewrite Ei. intros E. apply Hp. apply same_page; [assumption|assumption|exact Ei|lia].
    + destruct (table_page _ _ _ V (PGD_INDEX_range va') Hn') as (_ & Hd' & _).
      apply page_apart; [assumption|assumption| |assumption|apply PTE_INDEX_range].
      intros E. apply Ei. symmetry.
      apply (vo_inj _ _ V i (PGD_INDEX va') Hi (PGD_INDEX_range va') Hn). lia.
Qed.

(** A page that was not free before an allocation is not free after it, and is
    not the page allocated. *)
Definition fresh_page (s : vmm Pool) (p : Z) (pool' : Pool) : Prop :=
  0 < p /\ (PAGE_SIZE | p) /\ p + PAGE_SIZE <= 2 ^ 30 /\ ps_free (vm_pool s) p
  /\ ~ ps_free pool' p /\ forall q, ps_free pool' q -> ps_free (vm_pool s) q.

(** The state once a fresh page has been entered in the directory and cleared. *)
Definition with_table (pd i p flags : Z) (pool' : Pool) (s : vmm Pool) : vmm Pool :=
  memset_page (u32 (p + PAGE_OFFSET))
    (wr (word_at pd i) (Z.lor p flags) (Vmm (vm_mem s) pool' (vm_cr3 s))).

Lemma with_table_mem pd i p flags pool' s :
  vm_ok pd s -> 0 <= i < 1024 -> fresh_page s p pool' ->
  let s' := with_table pd i p flags pool' s in
  vm_pool s' = pool'
  /\ rd s' (pd + 4 * i) = Z.lor p flags
  /\ (forall j, 0 <= j < 1024 -> rd s' (p + PAGE_OFFSET + 4 * j) = 0)
  /\ (forall q j, (PAGE_SIZE | q) -> q <> p + PAGE_OFFSET -> 0 <= j < 1024 ->
        q + 4 * j <> pd + 4 * i -> rd s' (q + 4 * j) = rd s (q + 4 * j)).
Proof.
  intros V Hi (Hp & Hd & Hh & Hf & _). cbv zeta. unfold with_table.
  destruct (vo_pd _ _ V) as (Hpd & _). rewrite (pd_word pd s) by assumption.
  rewrite u32_small by (unfold in_u32, PAGE_OFFSET, PAGE_SIZE in *; lia).
  assert (PAGE_SIZE | p + PAGE_OFFSET) as Hd'.
  { apply Z.divide_add_r; [exact Hd|]. exists 0xC0000. reflexivity. }
  assert (pd <> p + PAGE_OFFSET) as Hne.
  { intros E. apply (vo_pd_free _ _ V). replace (pd - PAGE_OFFSET) with p by lia. exact Hf. }
  set (s1 := wr _ _ _).
  destruct (memset_page_spec (p + PAGE_OFFSET) s1) as (E1 & E2 & E3);
    [unfold PAGE_OFFSET in *; lia|unfold PAGE_OFFSET, PAGE_SIZE in *; lia|].
  split; [exact E1|]. split; [|split; [exact E2|]].
  - rewrite E3 by (intros j Hj; apply page_apart; assumption). apply rd_wr_eq.
  - intros q j Hq Hqp Hj Hqi. rewrite E3 by (intros k Hk; apply page_apart; assumption).
    unfold s1. rewrite rd_wr_ne by congruence. reflexivity.
Qed.

Lemma with_table_ok pd i p flags pool' s :
  vm_ok pd s -> 0 <= i < 1024 -> 0 <= flags < PAGE_SIZE -> table_of s pd i = 0 ->
  ps_ok pool' -> fresh_page s p pool' ->
  let s' := with_table pd i p flags pool' s in
  vm_ok pd s' /\ table_of s' pd i = p /\ forall va, entry s' pd va = entry s pd va.
Proof.
  intros V Hi Hfl Hz Hok F. cbv zeta.
  destruct (with_table_mem pd i p flags pool' s V Hi F) as (Ep & Ei & E0 & Eo).
  set (s' := with_table pd i p flags pool' s) in *.
  destruct (vo_pd _ _ V) as (Hpd & Hpd2 & Hpd3). destruct F as (Hp & Hd & Hh & Hf & Hnf & Hmono).
  assert (pd <> p + PAGE_OFFSET) as Hne.
  { intros E. apply (vo_pd_free _ _ V). replace (pd - PAGE_OFFSET) with p by lia. exact Hf. }
  destruct (mask_entry p flags Hd ltac:(unfold PAGE_SIZE in *; lia) Hfl) as [Hw Hm].
  assert (table_of s' pd i = p) as Eti by (unfold table_of; rewrite Ei; exact Hm).
  assert (forall k, 0 <= k < 1024 -> k <> i -> rd s' (pd + 4 * k) = rd s (pd + 4 * k)) as Ek.
  { intros k Hk Hki. apply Eo; [assumption|assumption|assumption|lia]. }
  assert (forall k, 0 <= k < 1024 -> k <> i -> table_of s' pd k = table_of s pd k) as Etk.
  { intros k Hk Hki. unfold table_of. rewrite Ek by assumption. reflexivity. }
  assert (forall k, 0 <= k < 1024 -> table_of s pd k <> 0 -> table_of s pd k <> p) as Hfresh.
  { intros k Hk Hn E. destruct (vo_table _ _ V k Hk Hn) as (_ & _ & Hnf'). rewrite E in Hnf'. auto. }
  split; [|split; [exact Eti|]].
  - split; rewrite ?Ep; [exact Hok|auto| | | |].
    + intros Hx. apply (vo_pd_free _ _ V). apply Hmono, Hx.
    + intros k Hk. destruct (Z.eq_dec k i) as [->|]; [rewrite Ei; exact Hw|].
      rewrite Ek by assumption. apply (vo_word _ _ V k Hk).
    + intros k Hk. destruct (Z.eq_dec k i) as [->|]; [rewrite Eti; intros _; split; [exact Hh|auto]|].
      rewrite Etk by assumption. intros Hn. destruct (vo_table _ _ V k Hk Hn) as (H1 & H2 & H3).
      split; [exact H1|]. split; [exact H2|]. intros Hx. apply H3, Hmono, Hx.
    + intros k l Hk Hl. destruct (Z.eq_dec k i) as [->|], (Z.eq_dec l i) as [->|];
        rewrite ?Eti, ?Etk by assumption; intros Hn E; auto.
      * destruct (Hfresh l Hl); [lia|auto].
      * destruct (Hfresh k Hk Hn); auto.
      * apply (vo_inj _ _ V); assumption.
  - intros va. unfold entry. destruct (Z.eq_dec (PGD_INDEX va) i) as [->|Hk].
    + rewrite Eti, Hz. simpl. destruct (p =? 0); [reflexivity|]. apply E0, PTE_INDEX_range.
    + rewrite Etk by (assumption || apply PGD_INDEX_range).
      destruct (Z.eqb_spec (table_of s pd (PGD_INDEX va)) 0) as [|Hn]; [reflexivity|].
      destruct (table_page _ _ _ V (PGD_INDEX_range va) Hn) as (_ & Hd' & _).
      pose proof (Hfresh _ (PGD_INDEX_range va) Hn) as Hnp.
      destruct (vo_table _ _ V _ (PGD_INDEX_range va) Hn) as (_ & Hn2 & _).
      apply Eo; [assumption|intros E; apply Hnp; lia|apply PTE_INDEX_range|].
      apply page_apart; try assumption. apply PTE_INDEX_range.
Qed.

(** [map] either writes the entry or, when the page source is empty, leaves it
    to [map_no_page]. *)
Lemma map_cases pd va pa flags s :
  vm_ok pd s -> in_u32 va -> 0 <= flags < PAGE_SIZE ->
  (table_of s pd (PGD_INDEX va) = 0 /\ page_alloc SIZEOF_PAGE_SIZE (vm_pool s) = Some (0, vm_pool s))
  \/ exists s', map pd va pa flags s = Some s' /\ vm_ok pd s'
       /\ entry s' pd va = Z.lor (Z.land pa PAGE_MASK) flags
       /\ forall va', in_u32 va' -> va' / PAGE_SIZE <> va / PAGE_SIZE ->
            entry s' pd va' = entry s pd va'.
Proof.
  intros V Hva Hfl. pose proof (PGD_INDEX_range va) as Hi. unfold map. rewrite (pd_entry _ _ _ V).
  destruct (Z.eqb_spec (table_of s pd (PGD_INDEX va)) 0) as [Hz|Hn].
  - destruct (page_alloc_ok SIZEOF_PAGE_SIZE (vm_pool s)) as (p & pool' & E & Hok & [[-> ->]|F]);
      [apply (vo_pool _ _ V)|split; [reflexivity|discriminate]|left; auto|].
    right. rewrite E. simpl. fold (with_table pd (PGD_INDEX va) p flags pool' s).
    destruct (with_table_ok pd (PGD_INDEX va) p flags pool' s V Hi Hfl Hz Hok F) as (V' & Et & Ee).
    destruct (set_entry_ok pd va (Z.lor (Z.land pa PAGE_MASK) flags) _ V' Hva) as (V2 & E2 & E3).
    { rewrite Et. destruct F. lia. }
    rewrite Et in V2, E2, E3.
    eexists. split; [reflexivity|]. split; [exact V2|]. split; [exact E2|].
    intros va' Hva' Hne. rewrite E3 by assumption. apply Ee.
  - right. simpl. eexists. split; [reflexivity|]. apply set_entry_ok; assumption.
Qed.

(** What [map] leaves alone: every page but the directory, the table of [va] and
    a page that was free. *)
Lemma map_frame pd va pa flags s s' q j :
  vm_ok pd s -> in_u32 va -> 0 <= flags < PAGE_SIZE -> map pd va pa flags s = Some s' ->
  (table_of s pd (PGD_INDEX va) <> 0
   \/ page_alloc SIZEOF_PAGE_SIZE (vm_pool s) <> Some (0, vm_pool s)) ->
  (PAGE_SIZE | q) -> 0 <= j < 1024 -> PAGE_OFFSET <= q -> q <> pd ->
  (table_of s pd (PGD_INDEX va) = 0 \/ q <> table_of s pd (PGD_INDEX va) + PAGE_OFFSET) ->
  ~ ps_free (vm_pool s) (q - PAGE_OFFSET) ->
  rd s' (q + 4 * j) = rd s (q + 4 * j) /\ ~ ps_free (vm_pool s') (q - PAGE_OFFSET).
Proof.
  intros V Hva Hfl E Hal Hq Hj Hqo Hqpd Hqt Hqf. pose proof (PGD_INDEX_range va) as Hi.
  unfold map in E. rewrite (pd_entry _ _ _ V) in E.
  destruct (Z.eqb_spec (table_of s pd (PGD_INDEX va)) 0) as [Hz|Hn].
  - destruct Hal as [|Hal]; [contradiction|].
    destruct (page_alloc_ok SIZEOF_PAGE_SIZE (vm_pool s)) as (p & pool' & Ea & Hok & [[-> ->]|F]);
      [apply (vo_pool _ _ V)|split; [reflexivity|discriminate]|contradiction|].
    rewrite Ea in E. simpl in E. fold (with_table pd (PGD_INDEX va) p flags pool' s) in E.
    destruct (with_table_mem pd (PGD_INDEX va) p flags pool' s V Hi F) as (Ep & _ & _ & Eo).
    pose proof F as (Hp & Hd & Hh & Hf & _ & Hmono).
    assert (q <> p + PAGE_OFFSET) as Hqp.
    { intros ->. apply Hqf. replace (p + PAGE_OFFSET - PAGE_OFFSET) with p by lia. exact Hf. }
    destruct (vo_pd _ _ V) as (Hpd & _).
    rewrite u32_small in E by (unfold in_u32, PAGE_OFFSET, PAGE_SIZE in *; lia).
    rewrite word_at_small in E by
      (unfold PAGE_OFFSET, PAGE_SIZE in *; lia || apply PTE_INDEX_range).
    apply Some_inj in E. subst s'. rewrite vm_pool_wr, Ep. split; [|intros Hx; apply Hqf, Hmono, Hx].
    rewrite rd_wr_ne, Eo; try assumption; [reflexivity| |]; apply page_apart; auto using PTE_INDEX_range.
    apply Z.divide_add_r; [exact Hd|]. exists 0xC0000. reflexivity.
  - simpl in E. apply Some_inj in E. subst s'. destruct Hqt as [|Hqt]; [contradiction|].
    destruct (table_page _ _ _ V Hi Hn) as (-> & Hd & Hh).
    pose proof (table_of_range _ _ _ V Hi) as [_ Hr].
    rewrite word_at_small by (unfold PAGE_OFFSET, PAGE_SIZE in *; lia || apply PTE_INDEX_range).
    rewrite vm_pool_wr. split; [|exact Hqf]. apply rd_wr_ne.
    apply page_apart; auto using PTE_INDEX_range.
Qed.

(** Two directories that share no page. *)
Definition apart (s : vmm Pool) (pd pd2 : Z) : Prop :=
  pd <> pd2
  /\ (forall i, 0 <= i < 1024 -> table_of s pd i <> 0 -> table_of s pd i + PAGE_OFFSET <> pd2)
  /\ (forall j, 0 <= j < 1024 -> table_of s pd2 j <> 0 -> table_of s pd2 j + PAGE_OFFSET <> pd)
  /\ (forall i j, 0 <= i < 1024 -> 0 <= j < 1024 -> table_of s pd i <> 0 ->
        table_of s pd i <> table_of s pd2 j).

(** The pages of [pd2] are untouched by [map] in [pd]. *)
Lemma map_apart_pages pd pd2 va pa flags s s' :
  vm_ok pd s -> vm_ok pd2 s -> apart s pd pd2 -> in_u32 va -> 0 <= flags < PAGE_SIZE ->
  map pd va pa flags s = Some s' ->
  table_of s pd (PGD_INDEX va) <> 0
  \/ page_alloc SIZEOF_PAGE_SIZE (vm_pool s) <> Some (0, vm_pool s) ->
  ~ ps_free (vm_pool s') (pd2 - PAGE_OFFSET)
  /\ (forall k, 0 <= k < 1024 -> rd s' (pd2 + 4 * k) = rd s (pd2 + 4 * k))
  /\ forall k, 0 <= k < 1024 -> table_of s pd2 k <> 0 ->
       ~ ps_free (vm_pool s') (table_of s pd2 k)
       /\ forall j, 0 <= j < 1024 ->
            rd s' (table_of s pd2 k + PAGE_OFFSET + 4 * j) = rd s (table_of s pd2 k + PAGE_OFFSET + 4 * j).
Proof.
  intros V V2 (Hne & Ha1 & Ha2 & Ha3) Hva Hfl E Hal. pose proof (PGD_INDEX_range va) as Hi.
  set (t := table_of s pd (PGD_INDEX va)) in *.
  assert (forall q j, (PAGE_SIZE | q) -> 0 <= j < 1024 -> PAGE_OFFSET <= q -> q <> pd ->
            (t <> 0 -> q <> t + PAGE_OFFSET) -> ~ ps_free (vm_pool s) (q - PAGE_OFFSET) ->
            rd s' (q + 4 * j) = rd s (q + 4 * j) /\ ~ ps_free (vm_pool s') (q - PAGE_OFFSET)) as Fr.
  { intros q j H1 H2 H3 H4 H5 H6. apply (map_frame pd va pa flags s s' q j); try assumption.
    fold t. destruct (Z.eq_dec t 0); auto. }
  clear E Hal. destruct (vo_pd _ _ V2) as (Hd2 & Ho2 & _).
  assert (forall k, 0 <= k < 1024 -> rd s' (pd2 + 4 * k) = rd s (pd2 + 4 * k)
            /\ ~ ps_free (vm_pool s') (pd2 - PAGE_OFFSET)) as Fpd.
  { intros k Hk. apply Fr; try assumption; [congruence| |apply (vo_pd_free _ _ V2)].
    intros Hn. apply not_eq_sym, Ha1; assumption. }
  split; [apply (Fpd 0); lia|]. split; [intros k Hk; apply (Fpd k Hk)|].
  intros k Hk Hn. destruct (table_page _ _ _ V2 Hk Hn) as (_ & Hd & _).
  destruct (vo_table _ _ V2 k Hk Hn) as (_ & _ & Hf).
  pose proof (table_of_range _ _ _ V2 Hk) as [_ Hr].
  assert (table_of s pd2 k + PAGE_OFFSET - PAGE_OFFSET = table_of s pd2 k) as Ec by lia.
  assert (forall j, 0 <= j < 1024 -> rd s' (table_of s pd2 k + PAGE_OFFSET + 4 * j)
            = rd s (table_of s pd2 k + PAGE_OFFSET + 4 * j)
            /\ ~ ps_free (vm_pool s') (table_of s pd2 k)) as Ft.
  { intros j Hj. rewrite <- Ec in Hf.
    destruct (Fr _ j Hd Hj ltac:(lia) (Ha2 k Hk Hn)) as [E1 E2];
      [|exact Hf|rewrite Ec in E2; split; assumption].
    intros Ht Eq. apply (Ha3 (PGD_INDEX va) k Hi Hk Ht). fold t. lia. }
  split; [apply (Ft 0); lia|]. intros j Hj. apply (Ft j Hj).
Qed.

(** [unmap] writes a zero entry, or there was no table. *)
Lemma unmap_ok pd va s :
  vm_ok pd s -> in_u32 va ->
  vm_ok pd (unmap pd va s) /\ entry (unmap pd va s) pd va = 0
  /\ forall va', in_u32 va' -> va' / PAGE_SIZE <> va / PAGE_SIZE ->
       entry (unmap pd va s) pd va' = entry s pd va'.
Proof.
  intros V Hva. unfold unmap. rewrite (pd_entry _ _ _ V).
  destruct (Z.eqb_spec (table_of s pd (PGD_INDEX va)) 0) as [Hz|Hn].
  - split; [exact V|]. split; [|reflexivity]. unfold entry. rewrite Hz. reflexivity.
  - apply set_entry_ok; assumption.
Qed.

Lemma lookup_entry_mapped pa flags :
  in_u32 pa -> 0 < flags < PAGE_SIZE ->
  lookup_entry (Z.lor (Z.land pa PAGE_MASK) flags) = (1, Some (Z.land pa PAGE_MASK)).
Proof.
  intros Hpa Hf. pose proof (mask_aligned pa Hpa) as [Hd Hr]. unfold in_u32 in Hpa.
  destruct (mask_entry (Z.land pa PAGE_MASK) flags Hd) as [_ Hm]; [lia|lia|].
  unfold lookup_entry. rewrite Hm. rewrite lor_flags by (assumption || lia).
  destruct (Z.eqb_spec (Z.land pa PAGE_MASK + flags) 0); [lia|reflexivity].
Qed.

(** ** Properties *)

(** [C18] [map] followed by [get_mapping]: with flags that are not 0, and unless the
    page source is empty when a table is needed, the page of [va] reads back as the
    page of [pa], the mapping of every other page is what it was, and the directory
    stays well formed.  Without a page for the table the address stays unmapped
    ([map_no_page]). *)
Theorem map_get_mapping pd va pa flags s :
  vm_ok pd s -> in_u32 va -> in_u32 pa -> 0 < flags < PAGE_SIZE ->
  table_of s pd (PGD_INDEX va) <> 0
  \/ page_alloc SIZEOF_PAGE_SIZE (vm_pool s) <> Some (0, vm_pool s) ->
  exists s', map pd va pa flags s = Some s' /\ vm_ok pd s'
    /\ (forall va', in_u32 va' -> get_mapping pd va' true s' =
          if va' / PAGE_SIZE =? va / PAGE_SIZE then (1, Some (Z.land pa PAGE_MASK))
          else get_mapping pd va' true s).
Proof.
  intros V Hva Hpa Hfl Hal.
  destruct (map_cases pd va pa flags s V Hva ltac:(lia)) as [[Hz Ha]|(s' & E & V' & E1 & E2)];
    [destruct Hal; contradiction|].
  exists s'. split; [exact E|]. split; [exact V'|]. intros va' Hva'.
  rewrite !get_mapping_entry by assumption.
  destruct (Z.eqb_spec (va' / PAGE_SIZE) (va / PAGE_SIZE)) as [Ep|Hne]; [|f_equal; auto].
  rewrite <- (lookup_entry_mapped pa flags Hpa Hfl), <- E1. f_equal. apply entry_page; assumption.
Qed.

(** [C38] [unmap] removes the mapping of the page of [va] and of no other page; it
    gives no page back to the page source. *)
Theorem unmap_get_mapping pd va s :
  vm_ok pd s -> in_u32 va ->
  vm_ok pd (unmap pd va s) /\ vm_pool (unmap pd va s) = vm_pool s
  /\ forall va', in_u32 va' -> get_mapping pd va' true (unmap pd va s) =
       if va' / PAGE_SIZE =? va / PAGE_SIZE then (0, None) else get_mapping pd va' true s.
Proof.
  intros V Hva. destruct (unmap_ok pd va s V Hva) as (V' & E1 & E2). split; [exact V'|]. split.
  - unfold unmap. case_match; reflexivity.
  - intros va' Hva'. rewrite !get_mapping_entry by assumption.
    destruct (Z.eqb_spec (va' / PAGE_SIZE) (va / PAGE_SIZE)) as [Ep|Hne]; [|f_equal; auto].
    rewrite <- (entry_page _ _ _ _ Hva' Hva Ep) in E1. rewrite E1. reflexivity.
Qed.

(** [C19] Isolation: mapping a page in one address space leaves every mapping of
    another one, whose directory and tables are other pages, as it was, unless the
    page source is empty when a table is needed. *)
Theorem map_isolated pd pd2 va pa flags s s' :
  vm_ok pd s -> vm_ok pd2 s -> apart s pd pd2 -> in_u32 va -> 0 <= flags < PAGE_SIZE ->
  map pd va pa flags s = Some s' ->
  table_of s pd (PGD_INDEX va) <> 0
  \/ page_alloc SIZEOF_PAGE_SIZE (vm_pool s) <> Some (0, vm_pool s) ->
  vm_ok pd2 s' /\ forall va', in_u32 va' -> get_mapping pd2 va' true s' = get_mapping pd2 va' true s.
Proof.
  intros V V2 A Hva Hfl E Hal.
  destruct (map_apart_pages pd pd2 va pa flags s s' V V2 A Hva Hfl E Hal) as (Fp & Fpd & Ft).
  assert (ps_ok (vm_pool s')) as Hok.
  { destruct (map_cases pd va pa flags s V Hva Hfl) as [[Hz Ha]|(s1 & E1 & V' & _)];
      [destruct Hal; contradiction|]. rewrite E in E1. apply Some_inj in E1. subst s1.
    apply (vo_pool _ _ V'). }
  assert (forall k, 0 <= k < 1024 -> table_of s' pd2 k = table_of s pd2 k) as Et.
  { intros k Hk. unfold table_of. rewrite Fpd by exact Hk. reflexivity. }
  assert (vm_ok pd2 s') as V2'.
  { destruct V2 as [V1 V3 V4 V5 V6 V7]. split; [exact Hok|exact V3|exact Fp| | |].
    - intros k Hk. rewrite Fpd by exact Hk. auto.
    - intros k Hk. rewrite Et by exact Hk. intros Hn. destruct (V6 k Hk Hn) as (H1 & H2 & _).
      split; [exact H1|]. split; [exact H2|]. apply (Ft k Hk Hn).
    - intros k l Hk Hl. rewrite !Et by assumption. auto. }
  split; [exact V2'|]. intros va' Hva'. rewrite !get_mapping_entry by assumption. f_equal.
  unfold entry. rewrite Et by apply PGD_INDEX_range.
  destruct (Z.eqb_spec (table_of s pd2 (PGD_INDEX va')) 0) as [|Hn]; [reflexivity|].
  apply (Ft _ (PGD_INDEX_range va') Hn), PTE_INDEX_range.
Qed.

(** When a table is needed and the page source has no page left, [map] does
    not notice: it takes physical page 0 for the table, clears the page at
    [PAGE_OFFSET] and writes the entry there; the address stays unmapped. *)
Theorem map_no_page pd va pa flags s :
  vm_ok pd s -> in_u32 va -> 0 <= flags < PAGE_SIZE -> table_of s pd (PGD_INDEX va) = 0 ->
  pd <> PAGE_OFFSET ->
  page_alloc SIZEOF_PAGE_SIZE (vm_pool s) = Some (0, vm_pool s) ->
  exists s', map pd va pa flags s = Some s'
    /\ rd s' (pd + 4 * PGD_INDEX va) = flags
    /\ (forall j, 0 <= j < 1024 -> rd s' (PAGE_OFFSET + 4 * j) =
          if j =? PTE_INDEX va then Z.lor (Z.land pa PAGE_MASK) flags else 0)
    /\ get_mapping pd va true s' = (0, None).
Proof.
  intros V Hva Hfl Hz Hne Ha. pose proof (PGD_INDEX_range va) as Hi.
  pose proof (PTE_INDEX_range va) as Hj.
  destruct (vo_pd _ _ V) as (Hpd & _).
  unfold map. rewrite (pd_entry _ _ _ V), Hz, Ha. cbn [Z.eqb mbind option_bind]. rewrite Z.lor_0_l.
  rewrite (pd_word pd s) by assumption. change (u32 (0 + PAGE_OFFSET)) with PAGE_OFFSET.
  rewrite (word_at_small PAGE_OFFSET) by (discriminate || assumption).
  assert (PAGE_SIZE | PAGE_OFFSET) as Hd by (exists 0xC0000; reflexivity).
  eexists. split; [reflexivity|].
  set (s1 := wr (pd + 4 * PGD_INDEX va) flags (Vmm (vm_mem s) (vm_pool s) (vm_cr3 s))).
  destruct (memset_page_spec PAGE_OFFSET s1) as (_ & E2 & E3); [discriminate|discriminate|].
  assert (rd (wr (PAGE_OFFSET + 4 * PTE_INDEX va) (Z.lor (Z.land pa PAGE_MASK) flags)
            (memset_page PAGE_OFFSET s1)) (pd + 4 * PGD_INDEX va) = flags) as Epd.
  { rewrite rd_wr_ne by (apply page_apart; auto).
    rewrite E3 by (intros k Hk; apply page_apart; assumption). apply rd_wr_eq. }
  split; [exact Epd|]. split.
  - intros j Hjr. destruct (Z.eqb_spec j (PTE_INDEX va)) as [->|Hn]; [apply rd_wr_eq|].
    rewrite rd_wr_ne by lia. apply E2, Hjr.
  - unfold get_mapping. rewrite (pd_word pd s) by assumption. rewrite Epd.
    replace (Z.land flags PAGE_MASK) with 0; [reflexivity|]. symmetry.
    apply (mask_add 0 flags); [apply Z.divide_0_r|lia|exact Hfl].
Qed.

(** ** The kernel's own directory *)

(** A loop that fills [n] consecutive pages, word by word. *)
Lemma fill_pages_spec base f n s :
  0 <= base -> base + PAGE_SIZE * Z.of_nat n <= 2 ^ 32 ->
  let s' := for_loop n 0 (fun i s => for_loop 1024 0
              (fun j s => wr (word_at (u32 (base + PAGE_SIZE * i)) j) (f i j) s) s) s in
  vm_pool s' = vm_pool s
  /\ (forall i j, 0 <= i < Z.of_nat n -> 0 <= j < 1024 -> rd s' (base + PAGE_SIZE * i + 4 * j) = f i j)
  /\ (forall a, a < base \/ base + PAGE_SIZE * Z.of_nat n <= a -> rd s' a = rd s a).
Proof.
  intros Hb Hn. cbv zeta. set (body := fun i s => for_loop 1024 0 _ s).
  pose proof (for_loop_ind (fun k s' => k <= Z.of_nat n -> vm_pool s' = vm_pool s
    /\ (forall i j, 0 <= i < k -> 0 <= j < 1024 -> rd s' (base + PAGE_SIZE * i + 4 * j) = f i j)
    /\ (forall a, a < base \/ base + PAGE_SIZE * k <= a -> rd s' a = rd s a)) n 0 body s) as L.
  rewrite Z.add_0_l in L. apply L; [|clear L|lia].
  - intros _. split; [reflexivity|]. split; [intros; lia|reflexivity].
  - intros k s1 Hk IH Hk2. destruct IH as (Ep & E1 & E2); [lia|].
    unfold body, PAGE_SIZE in *. rewrite u32_small by (unfold in_u32; lia).
    destruct (fill_spec (base + 4096 * k) (f k) 1024 s1) as (F0 & F1 & F2); [lia|lia|].
    split; [rewrite F0; exact Ep|]. split.
    + intros i j Hi Hj. destruct (Z.eq_dec i k) as [->|Hne]; [apply F1; lia|].
      rewrite F2 by (intros j' Hj'; lia). apply E1; lia.
    + intros a Ha. rewrite F2 by (intros j' Hj'; lia). apply E2. lia.
Qed.

Lemma flags_present_write t :
  (PAGE_SIZE | t) -> Z.lor (Z.lor t PAGE_PRESENT) PAGE_WRITE = t + 3.
Proof.
  intros Hd. rewrite <- Z.lor_assoc. apply (lor_flags t 3 Hd). unfold PAGE_SIZE. lia.
Qed.

Lemma shift12 k : Z.shiftl k 12 = PAGE_SIZE * k.
Proof. rewrite Z.shiftl_mul_pow2 by lia. unfold PAGE_SIZE. lia. Qed.

Section kernel_directory.
Context (pgd_k tables pt0 : Z) (s : vmm Pool).
Context (Hpk : (PAGE_SIZE | pgd_k)) (Hpk2 : PAGE_OFFSET <= pgd_k) (Hpk3 : pgd_k + PAGE_SIZE <= 2 ^ 32).
Context (Htb : (PAGE_SIZE | tables)) (Htb2 : PAGE_OFFSET < tables).
Context (Htb3 : tables + PAGE_SIZE * KERNEL_NORMAL_ZONE_DIRECTORY_SIZE <= 2 ^ 32).
Context (Hdis : pgd_k + PAGE_SIZE <= tables
                \/ tables + PAGE_SIZE * KERNEL_NORMAL_ZONE_DIRECTORY_SIZE <= pgd_k).

Let s' := init_vmm pgd_k tables pt0 s.

Lemma init_vmm_regs : vm_cr3 s' = pgd_k - PAGE_OFFSET /\ vm_pool s' = vm_pool s.
Proof.
  unfold s', init_vmm. cbv zeta. rewrite vm_cr3_switch_pgd, vm_pool_switch_pgd.
  split; [apply u32_small; unfold in_u32, PAGE_OFFSET, PAGE_SIZE in *; lia|].
  rewrite vm_pool_for by (intros k s1; apply vm_pool_for; intros; apply vm_pool_wr).
  rewrite vm_pool_wr. rewrite !vm_pool_for by (intros; apply vm_pool_wr). reflexivity.
Qed.

Lemma init_vmm_words :
  (forall i, 1 <= i < 768 -> rd s' (pgd_k + 4 * i) = 0)
  /\ (forall i, 0 <= i < 224 -> rd s' (pgd_k + 4 * (768 + i)) = tables + PAGE_SIZE * i - PAGE_OFFSET + 3)
  /\ (forall i j, 0 <= i < 224 -> 0 <= j < 1024 ->
        rd s' (tables + PAGE_SIZE * i + 4 * j) = PAGE_SIZE * (i * 1024 + j) + 3)
  /\ (forall i, 992 <= i < 1024 -> rd s' (pgd_k + 4 * i) = rd s (pgd_k + 4 * i)).
Proof.
  unfold s', init_vmm. cbv zeta. setoid_rewrite rd_switch_pgd.
  change (Z.to_nat (PGD_INDEX PAGE_OFFSET)) with 768%nat. change (PGD_INDEX PAGE_OFFSET) with 768.
  change (Z.to_nat KERNEL_NORMAL_ZONE_DIRECTORY_SIZE) with 224%nat.
  change KERNEL_NORMAL_ZONE_DIRECTORY_SIZE with 224 in *.
  unfold PAGE_OFFSET, PAGE_SIZE in *.
  destruct (fill_spec pgd_k (fun _ => 0) 768 s) as (_ & A1 & A2); [lia|lia|].
  set (sa := for_loop 768 0 _ s) in *.
  rewrite (for_loop_ext 224 0 _ (fun i s => wr (word_at (pgd_k + 3072) i)
    (Z.lor (Z.lor (u32 (u32 (tables + 4096 * i) - 0xC0000000)) PAGE_PRESENT) PAGE_WRITE) s) sa)
    by (intros k s1 Hk; unfold word_at; do 2 f_equal; lia).
  destruct (fill_spec (pgd_k + 3072) (fun i => Z.lor (Z.lor (u32 (u32 (tables + 4096 * i) - 0xC0000000))
    PAGE_PRESENT) PAGE_WRITE) 224 sa) as (_ & B1 & B2); [lia|lia|].
  set (sb := for_loop 224 0 _ sa) in *.
  rewrite word_at_small by (unfold PAGE_SIZE; lia).
  set (sc := wr (pgd_k + 4 * 0) _ sb).
  destruct (fill_pages_spec tables (fun i j => Z.lor (Z.lor (u32 (Z.shiftl (i * 1024 + j) 12))
    PAGE_PRESENT) PAGE_WRITE) 224 sc) as (_ & C1 & C2); [lia|unfold PAGE_SIZE; lia|].
  unfold PAGE_SIZE in C1, C2.
  set (sd := for_loop 224 0 _ sc) in *.
  split; [|split; [|split]].
  - intros i Hi. rewrite C2 by lia.
    unfold sc. rewrite rd_wr_ne by lia. rewrite B2 by (intros k Hk; lia). apply A1. lia.
  - intros i Hi. rewrite C2 by lia. unfold sc. rewrite rd_wr_ne by lia.
    replace (pgd_k + 4 * (768 + i)) with (pgd_k + 3072 + 4 * i) by lia. rewrite B1 by lia.
    rewrite (u32_small (tables + 4096 * i)), u32_small by (unfold in_u32; lia).
    apply flags_present_write. destruct Htb as [q Eq]. exists (q + i - 0xC0000). unfold PAGE_SIZE. lia.
  - intros i j Hi Hj. rewrite C1 by lia. rewrite shift12. unfold PAGE_SIZE. rewrite u32_small by (unfold in_u32; lia).
    apply flags_present_write. exists (i * 1024 + j). unfold PAGE_SIZE. lia.
  - intros i Hi. rewrite C2 by lia. unfold sc. rewrite rd_wr_ne by lia.
    rewrite B2 by (intros k Hk; lia). apply A2. intros k Hk. lia.
Qed.

(** The entries of the linear mapping, seen through the directory. *)
Lemma init_vmm_entry i :
  0 <= i < 224 -> table_of s' pgd_k (768 + i) = tables + PAGE_SIZE * i - PAGE_OFFSET.
Proof.
  intros Hi. destruct init_vmm_words as (_ & B & _). unfold table_of. rewrite B by exact Hi.
  change KERNEL_NORMAL_ZONE_DIRECTORY_SIZE with 224 in *. unfold PAGE_OFFSET, PAGE_SIZE in *.
  apply mask_add; [|lia|unfold PAGE_SIZE; lia].
  destruct Htb as [q Eq]. exists (q + i - 0xC0000). unfold PAGE_SIZE. lia.
Qed.

Lemma linear_address x :
  0 <= x < KERNEL_NORMAL_ZONE_SIZE ->
  PGD_INDEX (PAGE_OFFSET + x) = 768 + x / 2 ^ 22 /\ 0 <= x / 2 ^ 22 < 224
  /\ x / 2 ^ 22 * 1024 + PTE_INDEX (PAGE_OFFSET + x) = x / PAGE_SIZE.
Proof.
  unfold KERNEL_NORMAL_ZONE_SIZE, PAGE_OFFSET, PAGE_SIZE. intros Hx.
  rewrite PGD_INDEX_div by (unfold in_u32; lia). rewrite PTE_INDEX_div.
  change 0xC0000000 with (768 * 2 ^ 22) at 1. rewrite Z.div_add_l by lia.
  change 0xC0000000 with (768 * 1024 * 2 ^ 12). rewrite Z.div_add_l by lia.
  change (2 ^ 10) with 1024. rewrite (Z.add_comm (768 * 1024)), Z.mod_add by lia. split; [reflexivity|]. split.
  - split; [apply Z.div_pos; lia|]. apply Z.div_lt_upper_bound; lia.
  - change (2 ^ 22) with (4096 * 1024). change (2 ^ 12) with 4096.
    rewrite <- Z.div_div by lia. pose proof (Z.div_mod (x / 4096) 1024). lia.
Qed.
End kernel_directory.

Lemma get_mapping_linear pgd_k tables s' x :
  PAGE_OFFSET <= pgd_k -> pgd_k + PAGE_SIZE <= 2 ^ 32 -> PAGE_OFFSET < tables ->
  tables + PAGE_SIZE * 224 <= 2 ^ 32 ->
  (forall i, 0 <= i < 224 ->
     table_of s' pgd_k (768 + i) = tables + PAGE_SIZE * i - PAGE_OFFSET) ->
  (forall i j, 0 <= i < 224 -> 0 <= j < 1024 ->
     rd s' (tables + PAGE_SIZE * i + 4 * j) = PAGE_SIZE * (i * 1024 + j) + 3) ->
  0 <= x < KERNEL_NORMAL_ZONE_SIZE ->
  get_mapping pgd_k (PAGE_OFFSET + x) true s' = (1, Some (Z.land x PAGE_MASK)).
Proof.
  intros H2 H3 H5 H6 Bt C Hx. destruct (linear_address x Hx) as (E1 & E2 & E3). unfold get_mapping.
  rewrite E1, word_at_small by (assumption || unfold PAGE_OFFSET in *; lia).
  fold (table_of s' pgd_k (768 + x / 2 ^ 22)). rewrite Bt by exact E2.
  pose proof (PTE_INDEX_range (PAGE_OFFSET + x)) as Hj.
  set (i := x / 2 ^ 22) in *. set (j := PTE_INDEX (PAGE_OFFSET + x)) in *.
  unfold PAGE_OFFSET, PAGE_SIZE in *.
  rewrite (proj2 (Z.eqb_neq _ _)) by lia.
  replace (tables + 4096 * i - 0xC0000000 + 0xC0000000) with (tables + 4096 * i) by lia.
  rewrite u32_small by (unfold in_u32; lia).
  rewrite word_at_small by (unfold PAGE_SIZE; lia). rewrite C by lia.
  rewrite E3. pose proof (Z.div_pos x 4096 ltac:(lia) ltac:(lia)) as Hd.
  unfold KERNEL_NORMAL_ZONE_SIZE in Hx.
  assert (4096 * (x / 4096) <= x) by (apply Z.mul_div_le; lia).
  rewrite (proj2 (Z.eqb_neq _ _)) by lia. simpl.
  rewrite mask_add by ((exists (x / 4096); unfold PAGE_SIZE; lia) || (unfold PAGE_SIZE; lia)).
  do 2 f_equal. unfold PAGE_MASK, ALIGN_MASK. change 0xFFFFF000 with 4294963200.
  rewrite land_page_mask by (unfold in_u32; lia). pose proof (Z.div_mod x 4096). lia.
Qed.

Lemma get_mapping_none pgd_k s' va :
  PAGE_OFFSET <= pgd_k -> pgd_k + PAGE_SIZE <= 2 ^ 32 ->
  (forall i, 1 <= i < 768 -> rd s' (pgd_k + 4 * i) = 0) -> 2 ^ 22 <= va < PAGE_OFFSET ->
  get_mapping pgd_k va true s' = (0, None).
Proof.
  intros H2 H3 A Hva. unfold get_mapping.
  unfold PAGE_OFFSET in Hva. assert (1 <= PGD_INDEX va < 768) as Hi.
  { rewrite PGD_INDEX_div by (unfold in_u32; lia). split; [apply Z.div_le_lower_bound; lia|].
    apply Z.div_lt_upper_bound; lia. }
  rewrite word_at_small by (assumption || unfold PAGE_OFFSET in *; lia). rewrite A by exact Hi. reflexivity.
Qed.

(** [init_vmm] maps the kernel zone linearly: each of its addresses
    [PAGE_OFFSET + x] is mapped to the page of the physical address [x]; the
    addresses between the first 4 MiB and [PAGE_OFFSET] are not mapped, and the
    physical address of the directory is loaded. *)
Lemma init_vmm_linear pgd_k tables pt0 s :
  (PAGE_SIZE | pgd_k) -> PAGE_OFFSET <= pgd_k -> pgd_k + PAGE_SIZE <= 2 ^ 32 ->
  (PAGE_SIZE | tables) -> PAGE_OFFSET < tables ->
  tables + PAGE_SIZE * KERNEL_NORMAL_ZONE_DIRECTORY_SIZE <= 2 ^ 32 ->
  pgd_k + PAGE_SIZE <= tables
  \/ tables + PAGE_SIZE * KERNEL_NORMAL_ZONE_DIRECTORY_SIZE <= pgd_k ->
  let s' := init_vmm pgd_k tables pt0 s in
  (forall x, 0 <= x < KERNEL_NORMAL_ZONE_SIZE ->
     get_mapping pgd_k (PAGE_OFFSET + x) true s' = (1, Some (Z.land x PAGE_MASK)))
  /\ (forall va, 2 ^ 22 <= va < PAGE_OFFSET -> get_mapping pgd_k va true s' = (0, None))
  /\ vm_cr3 s' = pgd_k - PAGE_OFFSET /\ vm_pool s' = vm_pool s.
Proof.
  intros H1 H2 H3 H4 H5 H6 H7. cbv zeta.
  destruct (init_vmm_words pgd_k tables pt0 s) as (A & B & C & _); [assumption..|].
  assert (forall i, 0 <= i < 224 -> table_of (init_vmm pgd_k tables pt0 s) pgd_k (768 + i)
            = tables + PAGE_SIZE * i - PAGE_OFFSET) as Bt
    by (intros; apply init_vmm_entry; assumption).
  destruct (init_vmm_regs pgd_k tables pt0 s) as [R1 R2]; [assumption..|].
  split; [|split; [|split; assumption]].
  - intros x Hx. apply (get_mapping_linear pgd_k tables); assumption.
  - intros va Hva. apply get_mapping_none; assumption.
Qed.
End state.
