(* ===== verification/VmmPmm.v ===== *)
(** * The frame allocator as the source of pages for page tables

    [physic_alloc] discharges the interface that [Vmm] states, so the theorems
    of [VmmProofs] hold for the kernel as it is linked; their instances on a
    directory of a freshly initialised zone are here. *)

From S2P Require Import Prelude KMath Pmm PmmSpec PmmLemmas PmmState PmmProofs PmmInit PmmProps.
From S2P Require Import Vmm VmmProofs.

#[export] Instance pmm_page_source : PageSource pmm := {| page_alloc := physic_alloc |}.

(** The zone lies in the first GiB, the part of memory that has an address above
    [PAGE_OFFSET]. *)
Definition pmm_ok (s : pmm) : Prop :=
  buddy_ok s /\ table_ok s
  /\ nm_base (normal_mem s) + PAGE_FRAME_SIZE * frames_number s <= 2 ^ 30.

(** The physical address [p] lies in a free block. *)
Definition pmm_free (s : pmm) (p : Z) : Prop :=
  exists i l, free_block s i l
    /\ nm_base (normal_mem s) + PAGE_FRAME_SIZE * i <= p
       < nm_base (normal_mem s) + PAGE_FRAME_SIZE * (i + 2 ^ l).

Lemma free_block_fits s i l :
  buddy_ok s -> free_block s i l \/ used_block s i l ->
  0 <= l < BUDDY_MAXLEVEL /\ i + 2 ^ l <= frames_number s.
Proof.
  intros (L & I) [(Hi & Hf & <-)|(Hi & Hf & <-)];
    (destruct (inv_fits _ _ _ I i Hi) as (Hl & _ & Hn); [|auto]); [left|right]; assumption.
Qed.

(** Two blocks that share a page are the same. *)
Lemma blocks_same s i l j k p :
  buddy_ok s -> free_block s i l \/ used_block s i l -> free_block s j k \/ used_block s j k ->
  in_block i l p -> in_block j k p -> i = j.
Proof.
  intros (L & I) Hi Hj.
  assert (forall a b, free_block s a b \/ used_block s a b ->
            0 <= a < frames_number s /\ is_head (flags_of s) a /\ level_of s a = b) as Hh.
  { intros a b [(? & ? & ?)|(? & ? & ?)]; (split; [assumption|]); (split; [|assumption]);
      [left|right]; assumption. }
  destruct (Hh _ _ Hi) as (Hi1 & Hi2 & <-), (Hh _ _ Hj) as (Hj1 & Hj2 & <-).
  apply (tiling_disjoint _ _ _ i j p (bi_tiling _ _ _ I)); assumption.
Qed.

Lemma pmm_page_alloc_ok b s :
  pmm_ok s -> 0 < b <= PAGE_SIZE ->
  exists p s', physic_alloc b s = Some (p, s') /\ pmm_ok s' /\
    ((p = 0 /\ s' = s)
     \/ (0 < p /\ (PAGE_SIZE | p) /\ p + PAGE_SIZE <= 2 ^ 30 /\ pmm_free s p
         /\ ~ pmm_free s' p /\ forall q, pmm_free s' q -> pmm_free s q)).
Proof.
  intros (B & T & Hz) Hb. unfold PAGE_SIZE in *.
  assert (page_count b = 1) as Hc.
  { pose proof (page_count_bounds b ltac:(lia)). unfold PAGE_FRAME_SIZE in *. lia. }
  destruct (physic_alloc_cases s b B T ltac:(lia)) as [(i & top & s' & E & G)|[E _]].
  - rewrite Hc in G. change (Z.log2_up 1) with 0 in G.
    destruct (get_ok_fits s 0 i top s' B ltac:(lia) G) as (Hi & _ & _ & Hn).
    destruct G as (F & Ht & _ & B' & St & Hu & Hf).
    pose proof (tb_base _ T) as (Hb1 & Hb2 & Hb3). pose proof (same_table_ok _ _ St T) as T'.
    pose proof St as (Eb & _ & En & _).
    exists (nm_base (normal_mem s) + PAGE_FRAME_SIZE * i), s'. split; [exact E|].
    split; [split; [exact B'|split; [exact T'|rewrite Eb, En; exact Hz]]|right].
    assert (PAGE_FRAME_SIZE * i + PAGE_FRAME_SIZE <= PAGE_FRAME_SIZE * frames_number s)
      by (unfold PAGE_FRAME_SIZE; lia).
    pose proof (pow2_pos top ltac:(lia)) as Hp2.
    unfold PAGE_FRAME_SIZE in *.
    split; [lia|]. split; [apply Z.divide_add_r; [exact Hb2|]; exists i; lia|]. split; [lia|].
    split; [exists i, top; split; [exact F|unfold PAGE_FRAME_SIZE; lia]|]. split.
    + intros (j & k & Fj & Hj). rewrite Eb in Hj. unfold PAGE_FRAME_SIZE in Hj.
      assert (i = j) as <-.
      { apply (blocks_same s' i 0 j k i B'); [right; apply Hu; auto|left; exact Fj| |];
          unfold in_block; lia. }
      destruct Fj as (_ & Ff & _). destruct (proj2 (Hu i 0) (or_intror (conj eq_refl eq_refl))) as (_ & Fu & _).
      rewrite Fu in Ff. discriminate Ff.
    + intros q (j & k & Fj & Hj). rewrite Eb in Hj. unfold PAGE_FRAME_SIZE in Hj.
      destruct (free_block_fits s' j k B' (or_introl Fj)) as [Hk _].
      apply (Hf j k Hk) in Fj as [[Fj _]|[Hk2 ->]].
      * exists j, k. split; [exact Fj|exact Hj].
      * exists i, top. split; [exact F|]. unfold PAGE_FRAME_SIZE.
        assert (2 ^ (k + 1) <= 2 ^ top) by (apply Z.pow_le_mono_r; lia).
        rewrite pow2_S in * by lia. pose proof (pow2_pos k ltac:(lia)). lia.
  - exists 0, s. split; [exact E|]. split; [split; auto|]. left. auto.
Qed.

#[export] Instance pmm_page_source_laws : PageSourceLaws pmm :=
  {| ps_ok := pmm_ok; ps_free := pmm_free; page_alloc_ok := pmm_page_alloc_ok |}.

(** ** Instances of the theorems *)

Lemma boot_checks :
  (nm_base (normal_mem (boot_zone 1024)) + PAGE_FRAME_SIZE * frames_number (boot_zone 1024) <=? 2 ^ 30)
  && (0x200000 <=? nm_base (normal_mem (boot_zone 1024)))
  && match physic_alloc 4 (boot_zone 1024) with Some (p, _) => negb (p =? 0) | None => false end
  = true.
Proof. vm_compute. reflexivity. Qed.

(** A zone with no page left: one block takes it all. *)
Definition full_zone : pmm :=
  match buddy_system_get_frame_page_block 10 (boot_zone 1024) with
  | Some (_, s) => s
  | None => empty_pmm
  end.

Lemma full_checks :
  match buddy_system_get_frame_page_block 10 (boot_zone 1024) with
  | Some (p, s) => negb (p =? 0) && (0x200000 <=? nm_base (normal_mem s))
      && (nm_base (normal_mem s) + PAGE_FRAME_SIZE * frames_number s <=? 2 ^ 30)
      && match physic_alloc 4 s with Some (p, _) => p =? 0 | None => false end
  | None => false
  end = true.
Proof. vm_compute. reflexivity. Qed.

#[local] Opaque boot_zone.

Lemma boot_pmm_ok : pmm_ok (boot_zone 1024).
Proof.
  destruct boot_zone_ok as (B & _ & T & _). pose proof boot_checks as H. reflect_bools.
  split; [exact B|]. split; assumption.
Qed.

(** Addresses below the zone are never free in it. *)
Lemma low_not_free s p :
  0x200000 <= nm_base (normal_mem s) -> p < 0x200000 -> ~ pmm_free s p.
Proof. intros Hb Hp (i & l & ((Hi & _) & _) & H). unfold PAGE_FRAME_SIZE in H. lia. Qed.

Lemma full_zone_ok :
  pmm_ok full_zone /\ 0x200000 <= nm_base (normal_mem full_zone)
  /\ physic_alloc 4 full_zone = Some (0, full_zone).
Proof.
  destruct boot_zone_ok as (B & _ & T & _). pose proof full_checks as H. unfold full_zone.
  destruct (get_block_spec (boot_zone 1024) 10 B ltac:(unfold BUDDY_MAXLEVEL; lia))
    as [(i & top & s' & E & G)|[E _]]; rewrite E in H |- *; [|discriminate H].
  destruct G as (_ & _ & _ & B' & St & _). pose proof (same_table_ok _ _ St T) as T'.
  destruct (physic_alloc_cases s' 4 B' T' ltac:(lia)) as [(j & k & s2 & E2 & G2)|[E2 _]].
  - rewrite E2 in H. reflect_bools. pose proof (tb_base _ T') as (Hb & _).
    destruct (get_ok_fits _ _ j k s2 B' (Z.log2_up_nonneg _) G2) as (Hj & _).
    unfold PAGE_FRAME_SIZE in *. lia.
  - reflect_bools. split; [split; [exact B'|split; assumption]|]. split; assumption.
Qed.

Definition empty_vmm (pool : pmm) : vmm pmm := Vmm ∅ pool 0.

Lemma rd_empty pool a : rd (empty_vmm pool) a = 0.
Proof. unfold rd, empty_vmm. simpl. rewrite lookup_total_empty. reflexivity. Qed.

Lemma table_of_empty pool pd i : table_of (empty_vmm pool) pd i = 0.
Proof. unfold table_of. rewrite rd_empty. reflexivity. Qed.

Lemma empty_vmm_ok pd pool :
  pmm_ok pool -> 0x200000 <= nm_base (normal_mem pool) ->
  (PAGE_SIZE | pd) -> PAGE_OFFSET <= pd < PAGE_OFFSET + 0x200000 -> vm_ok pd (empty_vmm pool).
Proof.
  intros Hp Hb Hd Hr. unfold PAGE_OFFSET, PAGE_SIZE in *. split.
  - exact Hp.
  - split; [exact Hd|]. unfold PAGE_OFFSET, PAGE_SIZE. lia.
  - apply low_not_free; [exact Hb|]. unfold PAGE_OFFSET. lia.
  - intros i _. rewrite rd_empty. unfold in_u32. lia.
  - intros i _ Hn. rewrite table_of_empty in Hn. contradiction.
  - intros i j _ _ Hn. rewrite table_of_empty in Hn. contradiction.
Qed.

Lemma boot_vmm_ok pd :
  (PAGE_SIZE | pd) -> PAGE_OFFSET <= pd < PAGE_OFFSET + 0x200000 ->
  vm_ok pd (empty_vmm (boot_zone 1024)).
Proof.
  intros Hd Hr. pose proof boot_checks as H. reflect_bools.
  apply empty_vmm_ok; try assumption. apply boot_pmm_ok.
Qed.

Lemma boot_not_empty pd va :
  table_of (empty_vmm (boot_zone 1024)) pd (PGD_INDEX va) <> 0
  \/ page_alloc SIZEOF_PAGE_SIZE (vm_pool (empty_vmm (boot_zone 1024)))
     <> Some (0, vm_pool (empty_vmm (boot_zone 1024))).
Proof.
  right. pose proof boot_checks as H. simpl vm_pool.
  change (page_alloc SIZEOF_PAGE_SIZE (boot_zone 1024)) with (physic_alloc 4 (boot_zone 1024)).
  intros E. rewrite E in H. rewrite andb_false_r in H. discriminate H.
Qed.

(** The directory used by the instances. *)
Definition PD : Z := 0xC0100000.

Lemma PD_ok : vm_ok PD (empty_vmm (boot_zone 1024)).
Proof. apply boot_vmm_ok; [exists 0xC0100; reflexivity|split; [discriminate|reflexivity]]. Qed.

Lemma PD2_ok : vm_ok (PD + PAGE_SIZE) (empty_vmm (boot_zone 1024)).
Proof. apply boot_vmm_ok; [exists 0xC0101; reflexivity|split; [discriminate|reflexivity]]. Qed.

Lemma map_get_mapping_witness :
  vm_ok PD (empty_vmm (boot_zone 1024))
  /\ exists s', map PD 0x40001234 0x00300ABC 3 (empty_vmm (boot_zone 1024)) = Some s'
       /\ get_mapping PD 0x40001234 true s' = (1, Some 0x00300000).
Proof.
  split; [exact PD_ok|].
  destruct (map_get_mapping PD 0x40001234 0x00300ABC 3 (empty_vmm (boot_zone 1024)) PD_ok
    ltac:(split; [discriminate|reflexivity]) ltac:(split; [discriminate|reflexivity])
    ltac:(split; reflexivity) (boot_not_empty PD 0x40001234)) as (s' & E & _ & G).
  exists s'. split; [exact E|].
  exact (G 0x40001234 ltac:(split; [discriminate|reflexivity])).
Defined.

Lemma unmap_get_mapping_witness :
  vm_ok PD (empty_vmm (boot_zone 1024)) /\ in_u32 0x40001234
  /\ get_mapping PD 0x40001FFF true (unmap PD 0x40001234 (empty_vmm (boot_zone 1024))) = (0, None).
Proof.
  assert (in_u32 0x40001234) as Hva by (split; [discriminate|reflexivity]).
  split; [exact PD_ok|]. split; [exact Hva|].
  destruct (unmap_get_mapping PD 0x40001234 (empty_vmm (boot_zone 1024)) PD_ok Hva) as (_ & _ & G).
  exact (G 0x40001FFF ltac:(split; [discriminate|reflexivity])).
Defined.

Lemma boot_apart : apart (empty_vmm (boot_zone 1024)) PD (PD + PAGE_SIZE).
Proof.
  split; [discriminate|]. split; [|split].
  - intros i _ Hn. rewrite table_of_empty in Hn. contradiction.
  - intros i _ Hn. rewrite table_of_empty in Hn. contradiction.
  - intros i j _ _ Hn. rewrite table_of_empty in Hn. contradiction.
Qed.

Lemma map_isolated_witness :
  vm_ok PD (empty_vmm (boot_zone 1024)) /\ vm_ok (PD + PAGE_SIZE) (empty_vmm (boot_zone 1024))
  /\ apart (empty_vmm (boot_zone 1024)) PD (PD + PAGE_SIZE)
  /\ forall s', map PD 0x40001234 0x00300ABC 3 (empty_vmm (boot_zone 1024)) = Some s' ->
       vm_ok (PD + PAGE_SIZE) s'.
Proof.
  split; [exact PD_ok|]. split; [exact PD2_ok|]. split; [exact boot_apart|]. intros s' E.
  exact (proj1 (map_isolated PD (PD + PAGE_SIZE) 0x40001234 0x00300ABC 3
    (empty_vmm (boot_zone 1024)) s' PD_ok PD2_ok boot_apart
    ltac:(split; [discriminate|reflexivity]) ltac:(split; [discriminate|reflexivity]) E
    (boot_not_empty PD 0x40001234))).
Defined.

Lemma map_no_page_witness :
  vm_ok PD (empty_vmm full_zone)
  /\ page_alloc SIZEOF_PAGE_SIZE (vm_pool (empty_vmm full_zone)) = Some (0, full_zone)
  /\ exists s', map PD 0x40001234 0x00300ABC 3 (empty_vmm full_zone) = Some s'
       /\ get_mapping PD 0x40001234 true s' = (0, None).
Proof.
  destruct full_zone_ok as (Hok & Hb & Ha).
  assert (vm_ok PD (empty_vmm full_zone)) as V.
  { apply empty_vmm_ok; [exact Hok|exact Hb|exists 0xC0100; reflexivity|split; [discriminate|reflexivity]]. }
  split; [exact V|]. split; [exact Ha|].
  pose proof (table_of_empty full_zone PD (PGD_INDEX 0x40001234)) as Ht.
  destruct (map_no_page PD 0x40001234 0x00300ABC 3 (empty_vmm full_zone) V
    ltac:(split; [discriminate|reflexivity]) ltac:(split; [discriminate|reflexivity]) Ht
    ltac:(discriminate) Ha) as (s' & E & _ & _ & G).
  exists s'. split; [exact E|exact G].
Defined.

(** The addresses of a kernel image: [tables] right after [pgd_k]. *)
Lemma init_vmm_linear_witness :
  get_mapping 0xC0100000 (PAGE_OFFSET + 0x123456) true
    (init_vmm 0xC0100000 0xC0101000 0x2000 (empty_vmm (boot_zone 1024)))
  = (1, Some (Z.land 0x123456 PAGE_MASK))
  /\ Z.land 0x123456 PAGE_MASK = 0x123000.
Proof.
  split; [|reflexivity].
  refine (proj1 (init_vmm_linear 0xC0100000 0xC0101000 0x2000 (empty_vmm (boot_zone 1024))
    _ _ _ _ _ _ _) 0x123456 _).
  - exists 0xC0100. reflexivity.
  - discriminate.
  - discriminate.
  - exists 0xC0101. reflexivity.
  - reflexivity.
  - discriminate.
  - left. discriminate.
  - split; [discriminate|reflexivity].
Defined.
