(* ===== verification/CString.v ===== *)
(** * libc/string: the memory and string functions of the kernel's libc

    Memory is a store of bytes indexed by address; [ptr_at p i] is the address
    of [p[i]].  The functions return their pointer argument unchanged, which is
    left out.  [memcpy] and [memmove] are told apart by what their callers may
    ask: the parameters of [memcpy] are [restrict] (memcpy.c:3, string.h:13), so
    its property is about regions that do not overlap; [memmove] copies in every
    case. *)

From S2P Require Import Prelude.

Definition memory : Type := gmap Z Z.

Definition ld (m : memory) (a : Z) : Z := m !!! a.
Definition st (a v : Z) (m : memory) : memory := <[a := v]> m.

Definition ptr_at (p i : Z) : Z := u32 (p + i).

Definition memset (buf value size : Z) (m : memory) : memory :=
  for_loop (Z.to_nat size) 0 (fun i m => st (ptr_at buf i) (u8 value) m) m.

(** The loop as it is written.  C defines a call only for regions that do not
    overlap; for regions that do, the definition gives what the loop does when it is
    compiled in ascending order, byte by byte.  [main_terminal_roll] (terminal.c:82)
    makes such a call, downwards by a line, which that order copies well
    ([copy_up_spec]). *)
Definition memcpy (dst src size : Z) (m : memory) : memory :=
  for_loop (Z.to_nat size) 0 (fun i m => st (ptr_at dst i) (ld m (ptr_at src i)) m) m.

(** [for (i = size; i != 0; i--)]: the [k]th turn has [i = size - k]. *)
Definition memmove (dst src size : Z) (m : memory) : memory :=
  if dst <? src then
    for_loop (Z.to_nat size) 0 (fun i m => st (ptr_at dst i) (ld m (ptr_at src i)) m) m
  else
    for_loop (Z.to_nat size) 0
      (fun k m => let i := size - k in
         st (ptr_at dst (i - 1)) (ld m (ptr_at src (i - 1))) m) m.

Fixpoint memcmp_from (n : nat) (a b i : Z) (m : memory) : Z :=
  match n with
  | O => 0
  | S n' =>
      if ld m (ptr_at a i) <? ld m (ptr_at b i) then -1
      else if ld m (ptr_at b i) <? ld m (ptr_at a i) then 1
      else memcmp_from n' a b (i + 1) m
  end.

Definition memcmp (a b size : Z) (m : memory) : Z := memcmp_from (Z.to_nat size) a b 0 m.

(** [None] when no terminator is found within [fuel] bytes. *)
Definition strlen (fuel : nat) (str : Z) (m : memory) : option Z :=
  while fuel (fun len => negb (str =? 0) && negb (ld m (ptr_at str len) =? 0))
    (fun len => len + 1) 0.

(** ** Lemmas *)

Lemma ld_st a b v m : ld (st a v m) b = if decide (a = b) then v else ld m b.
Proof. apply (lookup_total_insert (M := gmap Z)). Qed.

Lemma ptr_at_small p i : 0 <= p -> 0 <= i -> p + i < 2 ^ 32 -> ptr_at p i = p + i.
Proof. intros. apply u32_small. unfold in_u32. lia. Qed.

(** The bytes [base, base + size) of memory are [f], the others those of [m]. *)
Definition filled (base size : Z) (f : Z -> Z) (m m' : memory) : Prop :=
  (forall i, 0 <= i < size -> ld m' (base + i) = f i)
  /\ (forall a, ~ base <= a < base + size -> ld m' a = ld m a).

(** The ascending loop of [memcpy] and of the first branch of [memmove] is safe when
    the destination does not start inside the source. *)
Lemma copy_up_spec dst src size m :
  0 <= dst -> 0 <= src -> dst + size <= 2 ^ 32 -> src + size <= 2 ^ 32 ->
  dst <= src \/ src + size <= dst ->
  filled dst size (fun i => ld m (src + i)) m (memcpy dst src size m).
Proof.
  intros Hd Hs Hd2 Hs2 Hov. unfold memcpy. set (body := fun i m => st _ _ m).
  destruct (Z.lt_ge_cases size 0) as [Hneg|Hn].
  { rewrite Z2Nat.nonpos by lia. split; [intros; lia|reflexivity]. }
  pose proof (for_loop_ind (fun k m' => 0 <= k <= size -> filled dst k (fun i => ld m (src + i)) m m')
    (Z.to_nat size) 0 body m) as L.
  rewrite Z.add_0_l, Z2Nat.id in L by lia. apply L; [|clear L|lia].
  - intros _. split; [intros; lia|reflexivity].
  - intros k m1 Hk IH Hk2. destruct IH as [I1 I2]; [lia|]. unfold body.
    rewrite !ptr_at_small by lia. split.
    + intros i Hi. rewrite ld_st. case_decide as Ei.
      * assert (i = k) as -> by lia. apply I2. lia.
      * apply I1. lia.
    + intros a Ha. rewrite ld_st. case_decide; [lia|]. apply I2. lia.
Qed.

(** Copying downwards is safe when the destination does not start before the
    source. *)
Lemma copy_down_spec dst src size m :
  0 <= dst -> 0 <= src -> dst + size <= 2 ^ 32 -> src + size <= 2 ^ 32 -> src <= dst ->
  filled dst size (fun i => ld m (src + i)) m
    (for_loop (Z.to_nat size) 0
      (fun k m => st (ptr_at dst (size - k - 1)) (ld m (ptr_at src (size - k - 1))) m) m).
Proof.
  intros Hd Hs Hd2 Hs2 Hle. set (body := fun k m => st _ _ m).
  destruct (Z.lt_ge_cases size 0) as [Hneg|Hn].
  { rewrite Z2Nat.nonpos by lia. split; [intros; lia|reflexivity]. }
  pose proof (for_loop_ind (fun k m' => 0 <= k <= size ->
    (forall i, size - k <= i < size -> ld m' (dst + i) = ld m (src + i))
    /\ (forall a, ~ dst + (size - k) <= a < dst + size -> ld m' a = ld m a))
    (Z.to_nat size) 0 body m) as L.
  rewrite Z.add_0_l, Z2Nat.id in L by lia.
  destruct L as [L1 L2]; [..|lia|].
  - intros _. split; [intros; lia|reflexivity].
  - intros k m1 Hk IH Hk2. destruct IH as [I1 I2]; [lia|]. unfold body.
    rewrite !ptr_at_small by lia. split.
    + intros i Hi. rewrite ld_st. case_decide as Ei.
      * replace i with (size - k - 1) by lia. apply I2. lia.
      * apply I1. lia.
    + intros a Ha. rewrite ld_st. case_decide; [lia|]. apply I2. lia.
  - split; [intros i Hi; apply L1; lia|]. intros a Ha. apply L2. lia.
Qed.

Lemma memcmp_from_spec n a b i m :
  memcmp_from n a b i m = 0 <-> forall k, i <= k < i + Z.of_nat n -> ld m (ptr_at a k) = ld m (ptr_at b k).
Proof.
  revert i. induction n as [|n IH]; intros i; simpl.
  - split; [intros _ k Hk; lia|reflexivity].
  - destruct (Z.ltb_spec (ld m (ptr_at a i)) (ld m (ptr_at b i))) as [Hlt|Hge].
    { split; [discriminate|]. intros H. specialize (H i ltac:(lia)). lia. }
    destruct (Z.ltb_spec (ld m (ptr_at b i)) (ld m (ptr_at a i))) as [Hlt|Hle].
    { split; [discriminate|]. intros H. specialize (H i ltac:(lia)). lia. }
    rewrite IH. split; intros H k Hk.
    + destruct (Z.eq_dec k i) as [->|]; [lia|]. apply H. lia.
    + apply H. lia.
Qed.

Lemma memcmp_from_first n a b i m k :
  i <= k < i + Z.of_nat n -> (forall j, i <= j < k -> ld m (ptr_at a j) = ld m (ptr_at b j)) ->
  ld m (ptr_at a k) <> ld m (ptr_at b k) ->
  memcmp_from n a b i m = if ld m (ptr_at a k) <? ld m (ptr_at b k) then -1 else 1.
Proof.
  revert i. induction n as [|n IH]; intros i Hk Heq Hne; [lia|]. simpl.
  destruct (Z.eq_dec i k) as [->|Hik].
  - destruct (Z.ltb_spec (ld m (ptr_at a k)) (ld m (ptr_at b k))); [reflexivity|].
    destruct (Z.ltb_spec (ld m (ptr_at b k)) (ld m (ptr_at a k))); [reflexivity|lia].
  - rewrite (Heq i) by lia. rewrite Z.ltb_irrefl. apply IH; [lia| |assumption].
    intros j Hj. apply Heq. lia.
Qed.

Lemma memset_spec buf value size m :
  0 <= buf -> buf + size <= 2 ^ 32 -> filled buf size (fun _ => u8 value) m (memset buf value size m).
Proof.
  intros Hb Hb2. unfold memset. set (body := fun i m => st _ _ m).
  destruct (Z.lt_ge_cases size 0) as [Hneg|Hn].
  { rewrite Z2Nat.nonpos by lia. split; [intros; lia|reflexivity]. }
  pose proof (for_loop_ind (fun k m' => 0 <= k <= size -> filled buf k (fun _ => u8 value) m m')
    (Z.to_nat size) 0 body m) as L.
  rewrite Z.add_0_l, Z2Nat.id in L by lia. apply L; [|clear L|lia].
  - intros _. split; [intros; lia|reflexivity].
  - intros k m1 Hk IH Hk2. destruct IH as [I1 I2]; [lia|]. unfold body.
    rewrite !ptr_at_small by lia. split.
    + intros i Hi. rewrite ld_st. case_decide; [reflexivity|]. apply I1. lia.
    + intros a Ha. rewrite ld_st. case_decide; [lia|]. apply I2. lia.
Qed.

Lemma memmove_spec dst src size m :
  0 <= dst -> 0 <= src -> dst + size <= 2 ^ 32 -> src + size <= 2 ^ 32 ->
  filled dst size (fun i => ld m (src + i)) m (memmove dst src size m).
Proof.
  intros Hd Hs Hd2 Hs2. unfold memmove. destruct (Z.ltb_spec dst src).
  - apply copy_up_spec; lia.
  - apply copy_down_spec; lia.
Qed.

(** A memory is determined on every byte by [filled]. *)
Lemma filled_unique base size f m m1 m2 a :
  filled base size f m m1 -> filled base size f m m2 -> ld m1 a = ld m2 a.
Proof.
  intros [A1 A2] [B1 B2].
  destruct (Z.le_gt_cases base a); [destruct (Z.lt_ge_cases a (base + size))|].
  - replace a with (base + (a - base)) by lia. rewrite A1, B1 by lia. reflexivity.
  - rewrite A2, B2 by lia. reflexivity.
  - rewrite A2, B2 by lia. reflexivity.
Qed.

(** ** Properties *)

(** [C32] [memmove] copies correctly whatever the overlap: the destination holds
    the bytes the source held before the call, every other byte is unchanged. *)
Theorem memmove_correct dst src size m a :
  0 <= dst -> 0 <= src -> dst + size <= 2 ^ 32 -> src + size <= 2 ^ 32 ->
  ld (memmove dst src size m) a =
    if (dst <=? a) && (a <? dst + size) then ld m (src + (a - dst)) else ld m a.
Proof.
  intros H1 H2 H3 H4. destruct (memmove_spec dst src size m H1 H2 H3 H4) as [A B].
  destruct (Z.leb_spec dst a), (Z.ltb_spec a (dst + size)); simpl; try (apply B; lia).
  rewrite <- A by lia. f_equal. lia.
Qed.

(** Six bytes 1..6 at 100, shifted up by two over themselves. *)
Definition six_bytes : memory := for_loop 6 0 (fun i m => st (100 + i) (i + 1) m) ∅.

Lemma memmove_correct_witness :
  ld (memmove 102 100 4 six_bytes) 105 = 4 /\ ld (memmove 100 102 4 six_bytes) 100 = 3.
Proof.
  split.
  - refine (eq_trans (memmove_correct 102 100 4 six_bytes 105 _ _ _ _) _);
      [discriminate|discriminate|discriminate|discriminate|vm_compute; reflexivity].
  - refine (eq_trans (memmove_correct 100 102 4 six_bytes 100 _ _ _ _) _);
      [discriminate|discriminate|discriminate|discriminate|vm_compute; reflexivity].
Defined.

(** [C33] For regions that do not overlap, the calls that [restrict] allows, [memcpy]
    agrees with [memmove] on every byte: the destination holds the bytes of the
    source, the source and the rest of memory stay. *)
Theorem memcpy_memmove dst src size m a :
  0 <= dst -> 0 <= src -> dst + size <= 2 ^ 32 -> src + size <= 2 ^ 32 ->
  dst + size <= src \/ src + size <= dst ->
  ld (memcpy dst src size m) a = ld (memmove dst src size m) a
  /\ (dst <= a < dst + size -> ld (memcpy dst src size m) a = ld (memcpy dst src size m) (src + (a - dst)))
  /\ (~ dst <= a < dst + size -> ld (memcpy dst src size m) a = ld m a).
Proof.
  intros H1 H2 H3 H4 H5.
  destruct (copy_up_spec dst src size m) as [A B]; [assumption..|lia|]. split; [|split; [|apply B]].
  - apply (filled_unique dst size (fun i => ld m (src + i)) m); [split; assumption|].
    apply memmove_spec; assumption.
  - intros Ha. rewrite (B (src + (a - dst))) by lia. rewrite <- A by lia. f_equal. lia.
Qed.

Lemma memcpy_memmove_witness :
  ld (memcpy 103 100 3 six_bytes) 105 = ld (memmove 103 100 3 six_bytes) 105
  /\ ld (memcpy 103 100 3 six_bytes) 105 = ld (memcpy 103 100 3 six_bytes) 102
  /\ ld (memcpy 103 100 3 six_bytes) 102 = 3.
Proof.
  destruct (memcpy_memmove 103 100 3 six_bytes 105) as (E & F & _); [lia|lia|lia|lia|right; lia|].
  split; [exact E|]. split; [exact (F ltac:(lia))|].
  refine (eq_trans (proj2 (proj2 (memcpy_memmove 103 100 3 six_bytes 102 _ _ _ _ (or_intror _))) _) _);
    [lia|lia|lia|lia|lia|lia|vm_compute; reflexivity].
Defined.

(** [memcmp] compares lexicographically: 0 exactly when all the bytes agree,
    and otherwise -1 or 1 according to the first pair that differs. *)
Theorem memcmp_lexicographic a b size m :
  0 <= a -> 0 <= b -> 0 <= size -> a + size <= 2 ^ 32 -> b + size <= 2 ^ 32 ->
  (memcmp a b size m = 0 <-> forall i, 0 <= i < size -> ld m (a + i) = ld m (b + i))
  /\ (forall k, 0 <= k < size -> (forall i, 0 <= i < k -> ld m (a + i) = ld m (b + i)) ->
       ld m (a + k) <> ld m (b + k) ->
       memcmp a b size m = if ld m (a + k) <? ld m (b + k) then -1 else 1).
Proof.
  intros Ha Hb Hs Ha2 Hb2. unfold memcmp.
  assert (forall i, 0 <= i < size -> ptr_at a i = a + i /\ ptr_at b i = b + i) as E
    by (intros; split; apply ptr_at_small; lia).
  split.
  - rewrite memcmp_from_spec, Z2Nat.id by lia. split; intros H i Hi; specialize (H i ltac:(lia));
      destruct (E i ltac:(lia)) as [E1 E2]; rewrite ?E1, ?E2 in *; exact H.
  - intros k Hk Heq Hne. destruct (E k Hk) as [E1 E2].
    rewrite (memcmp_from_first _ _ _ _ _ k); rewrite ?E1, ?E2; [reflexivity|lia| |exact Hne].
    intros j Hj. destruct (E j ltac:(lia)) as [-> ->]. apply Heq. lia.
Qed.

Lemma memcmp_lexicographic_witness :
  memcmp 100 101 3 six_bytes <> 0 /\ (memcmp 100 100 6 six_bytes = 0 <-> forall i, 0 <= i < 6 -> ld six_bytes (100 + i) = ld six_bytes (100 + i)).
Proof.
  split; [vm_compute; discriminate|].
  exact (proj1 (memcmp_lexicographic 100 100 6 six_bytes ltac:(lia) ltac:(lia) ltac:(lia) ltac:(lia) ltac:(lia))).
Defined.

(** [strlen] stops at the first null byte and returns its offset, within as
    many turns as there are bytes; the null pointer has length 0. *)
Theorem strlen_correct str m n fuel :
  0 < str -> 0 <= n -> str + n < 2 ^ 32 -> n <= Z.of_nat fuel ->
  (forall i, 0 <= i < n -> ld m (str + i) <> 0) -> ld m (str + n) = 0 ->
  strlen fuel str m = Some n /\ strlen fuel 0 m = Some 0.
Proof.
  intros Hs Hn Hb Hf Hne Hz. split; [|apply while_false; reflexivity]. unfold strlen.
  destruct (while_total (fun len => 0 <= len <= n) (fun len => n - len) fuel
    (fun len => negb (str =? 0) && negb (ld m (ptr_at str len) =? 0)) (fun len => len + 1) 0)
    as (len & E & Hl & Hc); [lia| |lia|lia|].
  - intros len Hl Hc. reflect_bools. rewrite ptr_at_small in * by lia.
    destruct (Z.eq_dec len n) as [->|]; [contradiction|lia].
  - rewrite E. f_equal. rewrite ptr_at_small in Hc by lia. reflect_bools.
    destruct Hc as [Hc|Hc]; reflect_bools; [lia|].
    destruct (Z.eq_dec len n) as [|]; [assumption|]. destruct (Hne len); [lia|exact Hc].
Qed.

Lemma strlen_correct_witness :
  strlen 10 100 six_bytes = Some 6 /\ ld six_bytes (100 + 6) = 0.
Proof.
  assert (ld six_bytes (100 + 6) = 0) as Hz by (vm_compute; reflexivity). split; [|exact Hz].
  apply (strlen_correct 100 six_bytes 6 10); [lia|lia|lia|simpl; lia| |exact Hz].
  intros i Hi. assert (i = 0 \/ i = 1 \/ i = 2 \/ i = 3 \/ i = 4 \/ i = 5) as Hc by lia.
  destruct Hc as [->|[->|[->|[->|[->| ->]]]]]; vm_compute; discriminate.
Defined.
