(* ===== verification/Klist.v ===== *)
(** * klib/list.h: circular doubly linked lists

    A list is a ring of [list_head] nodes embedded in other objects; the store
    [lists] maps the address of a node to its two pointers.  [ring s x ys] says
    that following [next] from [x] visits [ys] and comes back to [x], that [prev]
    goes the other way round, and that the nodes are distinct; the same ring can
    be read from any of its nodes ([ring_rotate]).  A list with head [h] and
    contents [xs] is [ring s h xs]. *)

From S2P Require Import Prelude.

Record list_head := ListHead { lh_next : Z; lh_prev : Z }.

#[export] Instance list_head_inhabited : Inhabited list_head := populate (ListHead 0 0).

Abbreviation lists := (gmap Z list_head).

Definition next (s : lists) (a : Z) : Z := lh_next (s !!! a).
Definition prev (s : lists) (a : Z) : Z := lh_prev (s !!! a).
Definition set_next (a v : Z) (s : lists) : lists := upd a (fun n => ListHead v (lh_prev n)) s.
Definition set_prev (a v : Z) (s : lists) : lists := upd a (fun n => ListHead (lh_next n) v) s.

Definition INIT_LIST_HEAD (ptr : Z) (s : lists) : lists :=
  let s := set_next ptr ptr s in set_prev ptr ptr s.

Definition _list_add (new left right : Z) (s : lists) : lists :=
  let s := set_next new right s in
  let s := set_prev new left s in
  let s := set_next left new s in
  set_prev right new s.

Definition list_add (new head : Z) (s : lists) : lists := _list_add new head (next s head) s.

Definition list_add_tail (new head : Z) (s : lists) : lists := _list_add new (prev s head) head s.

Definition _list_del (prev next : Z) (s : lists) : lists :=
  let s := set_next prev next s in set_prev next prev s.

Definition list_del (entry : Z) (s : lists) : lists :=
  let s := _list_del (prev s entry) (next s entry) s in
  let s := set_next entry 0 s in
  set_prev entry 0 s.

Definition list_replace (old new : Z) (s : lists) : lists :=
  let s := set_next new (next s old) s in
  let s := set_prev (next s new) new s in
  let s := set_prev new (prev s old) s in
  set_next (prev s new) new s.

Definition list_move_to_head (node dst_list : Z) (s : lists) : lists :=
  list_add node dst_list (list_del node s).

Definition list_move_to_tail (node dst_list : Z) (s : lists) : lists :=
  list_add_tail node dst_list (list_del node s).

Definition list_swap (entry1 entry2 : Z) (s : lists) : lists :=
  let pos := prev s entry2 in
  let s := list_del entry2 s in
  let s := list_replace entry1 entry2 s in
  let pos := if pos =? entry1 then entry2 else pos in
  list_add entry1 pos s.

Definition list_is_first (entry head : Z) (s : lists) : bool := next s head =? entry.
Definition list_is_last (entry head : Z) (s : lists) : bool := prev s head =? entry.

(** ** Rings *)

Definition linked (s : lists) (x y : Z) : Prop := next s x = y /\ prev s y = x.

(** The nodes [ys] lead from [x] to [z]. *)
Fixpoint chain (s : lists) (x : Z) (ys : list Z) (z : Z) : Prop :=
  match ys with
  | [] => linked s x z
  | y :: ys' => linked s x y /\ chain s y ys' z
  end.

Definition ring (s : lists) (x : Z) (ys : list Z) : Prop := NoDup (x :: ys) /\ chain s x ys x.

(** Two stores agree on the nodes [xs]. *)
Definition agree (s s' : lists) (xs : list Z) : Prop := forall a, a ∈ xs -> s' !!! a = s !!! a.

(** ** Reads after writes *)

Lemma next_set_next a b v s : next (set_next a v s) b = if decide (a = b) then v else next s b.
Proof. unfold next, set_next. rewrite upd_lookup. case_decide; reflexivity. Qed.

Lemma next_set_prev a b v s : next (set_prev a v s) b = next s b.
Proof. unfold next, set_prev. rewrite upd_lookup. case_decide; reflexivity. Qed.

Lemma prev_set_prev a b v s : prev (set_prev a v s) b = if decide (a = b) then v else prev s b.
Proof. unfold prev, set_prev. rewrite upd_lookup. case_decide; reflexivity. Qed.

Lemma prev_set_next a b v s : prev (set_next a v s) b = prev s b.
Proof. unfold prev, set_next. rewrite upd_lookup. case_decide; reflexivity. Qed.

Create Rewrite HintDb links.
#[export] Hint Rewrite next_set_next next_set_prev prev_set_prev prev_set_next : links.

(** Evaluate reads of a written store, with the equalities of nodes known. *)
Ltac links := autorewrite with links; repeat (case_decide; try congruence); try congruence.

Lemma node_ext (n m : list_head) : lh_next n = lh_next m -> lh_prev n = lh_prev m -> n = m.
Proof. destruct n, m; simpl; congruence. Qed.

(** What the distinctness of the nodes of a ring says about each pair. *)
Ltac distinct_hyps :=
  repeat match goal with
  | H : NoDup (_ :: _) |- _ => apply NoDup_cons in H; destruct H
  | H : _ ∉ _ :: _ |- _ => apply not_elem_of_cons in H; destruct H
  end.
Ltac distinct :=
  distinct_hyps; rewrite ?NoDup_cons, ?not_elem_of_cons; repeat split; try assumption;
  try (apply not_eq_sym; assumption); try congruence.

(** A node of a list that is written to is not one of its inner nodes. *)
Ltac outside :=
  intros ? Ha; rewrite ?elem_of_app, ?elem_of_cons, ?elem_of_nil in Ha; links;
  destruct_or? Ha; subst; contradiction || congruence.

(** ** Chains *)

Lemma chain_app s x ys y zs z :
  chain s x (ys ++ y :: zs) z <-> chain s x ys y /\ chain s y zs z.
Proof. revert x. induction ys as [|a ys IH]; intros x; simpl; [tauto|]. rewrite IH. tauto. Qed.

(** A chain depends on [next] up to its last node and on [prev] from its first. *)
Lemma chain_agree s s' x ys z :
  (forall a, a ∈ x :: ys -> next s' a = next s a) ->
  (forall a, a ∈ ys ++ [z] -> prev s' a = prev s a) ->
  chain s x ys z -> chain s' x ys z.
Proof.
  revert x. induction ys as [|y ys IH]; intros x Hn Hp; simpl.
  - unfold linked. rewrite Hn, Hp by (simpl; set_solver). auto.
  - unfold linked. rewrite Hn, Hp by (simpl; set_solver). intros [Hl Hc]. split; [exact Hl|].
    apply IH; [|intros a Ha; apply Hp; simpl; set_solver|exact Hc].
    intros a Ha. apply Hn. set_solver.
Qed.

Lemma ring_agree s s' x ys : agree s s' (x :: ys) -> ring s x ys -> ring s' x ys.
Proof.
  intros H [Hd Hc]. split; [exact Hd|]. eapply chain_agree; [| |exact Hc].
  - intros a Ha. unfold next. rewrite H by exact Ha. reflexivity.
  - intros a Ha. unfold prev. rewrite H by set_solver. reflexivity.
Qed.

Lemma ring_rotate s x xs y ys : ring s x (xs ++ y :: ys) <-> ring s y (ys ++ x :: xs).
Proof.
  unfold ring. rewrite !chain_app.
  assert (x :: xs ++ y :: ys ≡ₚ y :: ys ++ x :: xs) as Hp.
  { change (x :: xs ++ y :: ys) with ((x :: xs) ++ y :: ys).
    change (y :: ys ++ x :: xs) with ((y :: ys) ++ x :: xs). apply Permutation_app_comm. }
  rewrite Hp. tauto.
Qed.

(** ** The operations on rings *)

(** Insertion after [left]. *)
Lemma list_add_ring s left ys new :
  ring s left ys -> (new ∉ left :: ys) -> ring (list_add new left s) left (new :: ys).
Proof.
  intros [Hd Hc] Hn. split; [distinct|].
  unfold list_add, _list_add. destruct ys as [|r ys]; simpl in Hc |- *; distinct_hyps.
  - destruct Hc as [-> _]. unfold linked. split; split; links.
  - destruct Hc as [[-> Hp] Hc].
    unfold linked. split; [split; links|]. split; [split; links|].
    eapply chain_agree; [| |exact Hc]; outside.
Qed.

(** Deletion of the node after [left]. *)
Lemma list_del_ring s left e ys :
  ring s left (e :: ys) ->
  ring (list_del e s) left ys /\ next (list_del e s) e = 0 /\ prev (list_del e s) e = 0.
Proof.
  intros [Hd Hc]. simpl in Hc. destruct Hc as [[Hn Hp] Hc].
  unfold list_del, _list_del. split; [|split; links].
  split; [distinct|]. destruct ys as [|r ys]; simpl in Hc |- *; distinct_hyps.
  - destruct Hc as [Hn2 Hp2]. rewrite Hp, Hn2. unfold linked. split; links.
  - destruct Hc as [[-> Hp2] Hc]. rewrite Hp.
    unfold linked. split; [split; links|].
    eapply chain_agree; [| |exact Hc]; outside.
Qed.

(** Replacement of the node after [left]. *)
Lemma list_replace_ring s left old ys new :
  ring s left (old :: ys) -> (new ∉ left :: old :: ys) -> ring (list_replace old new s) left (new :: ys).
Proof.
  intros [Hd Hc] Hnew. simpl in Hc. destruct Hc as [[Hn Hp] Hc].
  unfold list_replace. split; [distinct|].
  destruct ys as [|r ys]; simpl in Hc |- *; distinct_hyps.
  - destruct Hc as [Hn2 Hp2]. unfold linked. autorewrite with links. split; split; links.
  - destruct Hc as [[Hn2 Hp2] Hc].
    unfold linked. split; [split; links|]. split; [split; links|].
    eapply chain_agree; [| |exact Hc]; outside.
Qed.

Lemma get_set_next a b v s : b <> a -> set_next a v s !!! b = s !!! b.
Proof. intros H. apply upd_ne. congruence. Qed.

Lemma get_set_prev a b v s : b <> a -> set_prev a v s !!! b = s !!! b.
Proof. intros H. apply upd_ne. congruence. Qed.

(** What the operations leave alone. *)
Lemma list_add_frame new left s a :
  a <> new -> a <> left -> a <> next s left -> list_add new left s !!! a = s !!! a.
Proof. intros. unfold list_add, _list_add. repeat first [rewrite get_set_next by assumption | rewrite get_set_prev by assumption]. reflexivity. Qed.

Lemma list_add_tail_frame new head s a :
  a <> new -> a <> head -> a <> prev s head -> list_add_tail new head s !!! a = s !!! a.
Proof. intros. unfold list_add_tail, _list_add. repeat first [rewrite get_set_next by assumption | rewrite get_set_prev by assumption]. reflexivity. Qed.

Lemma list_del_frame e s a :
  a <> e -> a <> prev s e -> a <> next s e -> list_del e s !!! a = s !!! a.
Proof. intros. unfold list_del, _list_del. repeat first [rewrite get_set_next by assumption | rewrite get_set_prev by assumption]. reflexivity. Qed.

(** The neighbours of a node of a ring. *)
Lemma ring_first s x ys : ring s x ys -> next s x = hd x ys /\ prev s (hd x ys) = x.
Proof. intros [_ Hc]. destruct ys; simpl in *; apply Hc. Qed.

Lemma ring_last s x ys : ring s x ys -> prev s x = default x (last ys) /\ next s (default x (last ys)) = x.
Proof.
  intros R. destruct ys as [|y ys _] using rev_ind; [apply and_comm, (ring_first s x [] R)|].
  rewrite last_snoc. simpl. apply ring_rotate in R. destruct (ring_first _ _ _ R) as [E1 E2].
  simpl in E1, E2. auto.
Qed.

Lemma ring_next_in s x ys : ring s x ys -> next s x ∈ x :: ys.
Proof. intros R. destruct (ring_first _ _ _ R) as [-> _]. destruct ys; simpl; set_solver. Qed.

Lemma ring_prev_in s x ys : ring s x ys -> prev s x ∈ x :: ys.
Proof.
  intros R. destruct (ring_last _ _ _ R) as [-> _].
  destruct ys as [|y ys _] using rev_ind; [simpl; set_solver|]. rewrite last_snoc. simpl. set_solver.
Qed.

(** Any node of a ring can be its starting point. *)
Lemma ring_start s h xs e ys :
  ring s h (xs ++ e :: ys) -> exists zs, ring s e zs /\ (forall a, a ∈ e :: zs <-> a ∈ h :: xs ++ e :: ys).
Proof.
  intros R. exists (ys ++ h :: xs). split; [apply ring_rotate, R|]. set_solver.
Qed.

(** ** Operations at any position *)

Lemma ring_add_after s h xs p ys new :
  ring s h (xs ++ p :: ys) -> (new ∉ h :: xs ++ p :: ys) ->
  ring (list_add new p s) h (xs ++ p :: new :: ys).
Proof.
  intros R Hn. apply ring_rotate in R. apply ring_rotate. apply (list_add_ring s p); [exact R|].
  set_solver.
Qed.

Lemma ring_add_tail s h xs new :
  ring s h xs -> (new ∉ h :: xs) -> ring (list_add_tail new h s) h (xs ++ [new]).
Proof.
  intros R Hn. destruct (ring_last _ _ _ R) as [E1 E2]. destruct xs as [|p xs _] using rev_ind.
  - simpl in E1, E2. unfold list_add_tail. rewrite E1.
    pose proof (list_add_ring s h [] new R Hn) as R2. unfold list_add in R2. rewrite E2 in R2. exact R2.
  - rewrite last_snoc in E1, E2. simpl in E1, E2. unfold list_add_tail. rewrite E1.
    rewrite <- app_assoc. simpl. apply (ring_add_after s h xs p [] new) in R; [|exact Hn].
    unfold list_add in R. rewrite E2 in R. exact R.
Qed.

Lemma ring_add_before s h xs y ys new :
  ring s h (xs ++ y :: ys) -> (new ∉ h :: xs ++ y :: ys) ->
  ring (list_add_tail new y s) h (xs ++ new :: y :: ys).
Proof.
  intros R Hn. apply ring_rotate in R. apply (ring_add_tail _ _ _ new) in R; [|set_solver].
  rewrite <- app_assoc in R. simpl in R.
  replace (xs ++ new :: y :: ys) with ((xs ++ [new]) ++ y :: ys) by (rewrite <- app_assoc; reflexivity).
  apply ring_rotate. exact R.
Qed.

Lemma ring_del s h xs e ys : ring s h (xs ++ e :: ys) -> ring (list_del e s) h (xs ++ ys).
Proof.
  intros R. destruct xs as [|p xs _] using rev_ind; [apply (list_del_ring s h e ys R)|].
  rewrite <- app_assoc in R |- *. simpl in R |- *. apply ring_rotate in R. apply ring_rotate.
  apply (list_del_ring s p e (ys ++ h :: xs) R).
Qed.

Lemma ring_replace s h xs old ys new :
  ring s h (xs ++ old :: ys) -> (new ∉ h :: xs ++ old :: ys) ->
  ring (list_replace old new s) h (xs ++ new :: ys).
Proof.
  intros R Hn. destruct xs as [|p xs _] using rev_ind; [apply (list_replace_ring s h old ys new R Hn)|].
  rewrite <- app_assoc in R, Hn |- *. simpl in R, Hn |- *. apply ring_rotate in R. apply ring_rotate.
  apply (list_replace_ring s p old (ys ++ h :: xs) new R). set_solver.
Qed.

Lemma ring_pred s h xs e ys : ring s h (xs ++ e :: ys) -> prev s e = default h (last xs).
Proof.
  intros R. destruct xs as [|p xs _] using rev_ind; [apply (ring_first s h (e :: ys) R)|].
  rewrite last_snoc. rewrite <- app_assoc in R. simpl in R. apply ring_rotate in R.
  apply (ring_first s p _ R).
Qed.

(** An operation on the nodes of one ring leaves a disjoint ring as it is. *)
Lemma ring_add_tail_other s h xs new h2 ys :
  ring s h xs -> ring s h2 ys -> (forall a, a ∈ h2 :: ys -> (a ∉ new :: h :: xs)) ->
  ring (list_add_tail new h s) h2 ys.
Proof.
  intros R R2 Hd. apply (ring_agree s); [|exact R2]. intros a Ha. specialize (Hd a Ha).
  pose proof (ring_prev_in _ _ _ R). apply list_add_tail_frame; set_solver.
Qed.

Lemma ring_add_other s h xs new h2 ys :
  ring s h xs -> ring s h2 ys -> (forall a, a ∈ h2 :: ys -> (a ∉ new :: h :: xs)) ->
  ring (list_add new h s) h2 ys.
Proof.
  intros R R2 Hd. apply (ring_agree s); [|exact R2]. intros a Ha. specialize (Hd a Ha).
  pose proof (ring_next_in _ _ _ R). apply list_add_frame; set_solver.
Qed.

Lemma ring_del_other s h xs e ys h2 zs :
  ring s h (xs ++ e :: ys) -> ring s h2 zs ->
  (forall a, a ∈ h2 :: zs -> (a ∉ h :: xs ++ e :: ys)) -> ring (list_del e s) h2 zs.
Proof.
  intros R R2 Hd. apply (ring_agree s); [|exact R2]. intros a Ha. specialize (Hd a Ha).
  destruct (ring_start _ _ _ _ _ R) as (us & Ru & Hu).
  pose proof (ring_prev_in _ _ _ Ru) as Hp. pose proof (ring_next_in _ _ _ Ru) as Hx.
  apply Hu in Hp, Hx. apply list_del_frame; set_solver.
Qed.

(** Two rings without a common node. *)
Definition disjoint_rings (h : Z) (xs : list Z) (h2 : Z) (ys : list Z) : Prop :=
  forall a, a ∈ h :: xs -> (a ∉ h2 :: ys).

(** Moving a node to the end of another list. *)
Lemma list_move_tail_ring s h xs e ys h2 zs :
  ring s h (xs ++ e :: ys) -> ring s h2 zs -> disjoint_rings h2 zs h (xs ++ e :: ys) ->
  let s' := list_move_to_tail e h2 s in ring s' h (xs ++ ys) /\ ring s' h2 (zs ++ [e]).
Proof.
  intros R R2 Hd. cbv zeta. unfold list_move_to_tail.
  pose proof (ring_del _ _ _ _ _ R) as R1.
  pose proof (ring_del_other _ _ _ _ _ _ _ R R2 Hd) as R3.
  assert (e ∉ h2 :: zs) as He by (intros He; apply (Hd e He); set_solver).
  split; [|apply ring_add_tail; assumption]. apply (ring_add_tail_other _ h2 zs e); try assumption.
  destruct R as [Hnd _]. intros a Ha. apply not_elem_of_cons. split.
  - intros ->. rewrite <- Permutation_middle in Hnd. distinct_hyps. set_solver.
  - intros Ha2. apply (Hd a Ha2). set_solver.
Qed.

(** Moving a node to the end of the list at [p] leaves a third list as it is. *)
Lemma list_move_tail_other s h xs e ys p us h3 zs :
  ring s h (xs ++ e :: ys) -> ring s p us -> ring s h3 zs ->
  disjoint_rings p us h (xs ++ e :: ys) -> disjoint_rings h3 zs h (xs ++ e :: ys) -> disjoint_rings h3 zs p us ->
  ring (list_move_to_tail e p s) h3 zs.
Proof.
  intros R R2 R3 D12 D13 D23. unfold list_move_to_tail.
  apply (ring_add_tail_other _ p us e).
  - apply (ring_del_other s h xs e ys); assumption.
  - apply (ring_del_other s h xs e ys); assumption.
  - intros a Ha. apply not_elem_of_cons. split; [|apply D23, Ha]. intros ->. apply (D13 e Ha).
    right. apply elem_of_app. right. apply list_elem_of_here.
Qed.

(** Moving the first node of a list in front of a node of another list. *)
Lemma list_move_before_ring s h e ys h2 xs p zs :
  ring s h (e :: ys) -> ring s h2 (xs ++ p :: zs) -> disjoint_rings h2 (xs ++ p :: zs) h (e :: ys) ->
  let s' := list_move_to_tail e p s in ring s' h ys /\ ring s' h2 (xs ++ e :: p :: zs).
Proof.
  intros R R2 Hd. cbv zeta.
  assert (disjoint_rings p (zs ++ h2 :: xs) h ([] ++ e :: ys)) as Hd'.
  { intros a Ha. apply Hd. set_solver. }
  destruct (list_move_tail_ring s h [] e ys p (zs ++ h2 :: xs) R (proj1 (ring_rotate _ _ _ _ _) R2) Hd') as [R3 R4].
  split; [exact R3|]. rewrite <- app_assoc in R4. simpl in R4.
  replace (xs ++ e :: p :: zs) with ((xs ++ [e]) ++ p :: zs) by (rewrite <- app_assoc; reflexivity).
  apply ring_rotate. exact R4.
Qed.

(** ** Properties *)

(** Insertion puts the node first ([list_add]) or last ([list_add_tail]) in
    the list and changes no other list. *)
Lemma list_add_correct s h xs new :
  ring s h xs -> (new ∉ h :: xs) ->
  ring (list_add new h s) h (new :: xs) /\ ring (list_add_tail new h s) h (xs ++ [new])
  /\ forall h2 ys, ring s h2 ys -> disjoint_rings h2 ys h xs -> (new ∉ h2 :: ys) ->
       ring (list_add new h s) h2 ys /\ ring (list_add_tail new h s) h2 ys.
Proof.
  intros R Hn. split; [apply list_add_ring; assumption|]. split; [apply ring_add_tail; assumption|].
  intros h2 ys R2 Hd Hn2. assert (forall a, a ∈ h2 :: ys -> (a ∉ new :: h :: xs)) as Ho.
  { intros a Ha. specialize (Hd a Ha). apply not_elem_of_cons. split; [congruence|exact Hd]. }
  split; [apply (ring_add_other s h xs)|apply (ring_add_tail_other s h xs)]; assumption.
Qed.

(** The list with head 10 and nodes 20, 30, 40, and the empty list with head 90. *)
Definition three_nodes : lists :=
  list_add_tail 40 10 (list_add_tail 30 10 (list_add_tail 20 10
    (INIT_LIST_HEAD 10 (INIT_LIST_HEAD 90 ∅)))).

Lemma three_nodes_ring : ring three_nodes 10 [20; 30; 40] /\ ring three_nodes 90 [].
Proof.
  split; (split; [apply (bool_decide_unpack _); vm_compute; exact I|]);
    vm_compute; repeat split.
Qed.

Lemma list_add_correct_witness :
  ring three_nodes 10 [20; 30; 40] /\ ring (list_add 50 10 three_nodes) 10 [50; 20; 30; 40]
  /\ ring (list_add_tail 50 10 three_nodes) 10 [20; 30; 40; 50].
Proof.
  destruct three_nodes_ring as [R _]. split; [exact R|].
  assert (50 ∉ [10; 20; 30; 40]) as Hn by (apply (bool_decide_unpack _); vm_compute; exact I).
  destruct (list_add_correct three_nodes 10 [20; 30; 40] 50 R Hn) as (A & B & _).
  split; [exact A|exact B].
Defined.

(** Deletion takes the node out of its list, wherever it is, clears its
    pointers and changes no other list; inserting and deleting it again gives the
    list back. *)
Lemma list_del_correct s h xs e ys :
  ring s h (xs ++ e :: ys) ->
  ring (list_del e s) h (xs ++ ys)
  /\ next (list_del e s) e = 0 /\ prev (list_del e s) e = 0
  /\ (forall h2 zs, ring s h2 zs -> disjoint_rings h2 zs h (xs ++ e :: ys) -> ring (list_del e s) h2 zs)
  /\ ring (list_add_tail e h (list_del e s)) h (xs ++ ys ++ [e]).
Proof.
  intros R. pose proof (ring_del _ _ _ _ _ R) as R1. split; [exact R1|].
  split; [unfold list_del; links|]. split; [unfold list_del; links|]. split.
  - intros h2 zs R2 Hd. apply (ring_del_other s h xs e ys); assumption.
  - rewrite app_assoc. apply ring_add_tail; [exact R1|]. destruct R as [Hd _].
    rewrite <- Permutation_middle in Hd. distinct_hyps. rewrite elem_of_cons. set_solver.
Qed.

Lemma list_del_correct_witness :
  ring three_nodes 10 ([20] ++ 30 :: [40]) /\ ring (list_del 30 three_nodes) 10 [20; 40].
Proof.
  destruct three_nodes_ring as [R _]. split; [exact R|].
  exact (proj1 (list_del_correct three_nodes 10 [20] 30 [40] R)).
Defined.

(** Moving a node between two lists takes it out of the one and puts it at
    the front or at the end of the other. *)
Theorem list_move_correct s h xs e ys h2 zs :
  ring s h (xs ++ e :: ys) -> ring s h2 zs -> disjoint_rings h2 zs h (xs ++ e :: ys) ->
  (let s' := list_move_to_tail e h2 s in ring s' h (xs ++ ys) /\ ring s' h2 (zs ++ [e]))
  /\ (let s' := list_move_to_head e h2 s in ring s' h (xs ++ ys) /\ ring s' h2 (e :: zs)).
Proof.
  intros R R2 Hd. split; [apply list_move_tail_ring; assumption|]. cbv zeta. unfold list_move_to_head.
  pose proof (ring_del _ _ _ _ _ R) as R1.
  pose proof (ring_del_other _ _ _ _ _ _ _ R R2 Hd) as R3.
  assert (e ∉ h2 :: zs) as He by (intros He; apply (Hd e He); set_solver).
  split; [|apply list_add_ring; assumption]. apply (ring_add_other _ h2 zs e); try assumption.
  destruct R as [Hnd _]. intros a Ha. apply not_elem_of_cons. split.
  - intros ->. rewrite <- Permutation_middle in Hnd. distinct_hyps. set_solver.
  - intros Ha2. apply (Hd a Ha2). set_solver.
Qed.

Lemma list_move_correct_witness :
  ring three_nodes 10 ([20] ++ 30 :: [40]) /\ ring three_nodes 90 []
  /\ ring (list_move_to_tail 30 90 three_nodes) 90 [30].
Proof.
  destruct three_nodes_ring as [R R2]. split; [exact R|]. split; [exact R2|].
  assert (disjoint_rings 90 [] 10 ([20] ++ 30 :: [40])) as Hd.
  { intros a Ha. apply elem_of_cons in Ha as [->|Ha]; [|apply elem_of_nil in Ha; contradiction].
    apply (bool_decide_unpack _); vm_compute; exact I. }
  exact (proj2 (proj1 (list_move_correct three_nodes 10 [20] 30 [40] 90 [] R R2 Hd))).
Defined.

Lemma nodup_two (h : Z) xs a ys b zs :
  NoDup (h :: xs ++ a :: ys ++ b :: zs) ->
  a ≠ b /\ h ≠ a /\ h ≠ b /\ (a ∉ xs) /\ (a ∉ ys) /\ (a ∉ zs) /\ (b ∉ xs) /\ (b ∉ ys) /\ (b ∉ zs).
Proof.
  assert (h :: xs ++ a :: ys ++ b :: zs ≡ₚ a :: b :: h :: xs ++ ys ++ zs) as ->.
  { change (h :: xs ++ a :: ys ++ b :: zs) with ((h :: xs) ++ a :: ys ++ b :: zs).
    rewrite <- Permutation_middle, app_assoc, <- Permutation_middle, <- app_assoc. reflexivity. }
  intros H. distinct_hyps. rewrite !not_elem_of_app in *. naive_solver.
Qed.

(** [list_swap] exchanges two nodes of a list, next to each other or not, in
    either order of its arguments. *)
Theorem list_swap_correct s h xs a ys b zs :
  ring s h (xs ++ a :: ys ++ b :: zs) ->
  ring (list_swap a b s) h (xs ++ b :: ys ++ a :: zs)
  /\ ring (list_swap b a s) h (xs ++ b :: ys ++ a :: zs).
Proof.
  intros R. pose proof R as [Hnd _]. unfold list_swap.
  assert (a ≠ b /\ h ≠ a /\ h ≠ b /\ (a ∉ xs) /\ (a ∉ ys) /\ (a ∉ zs) /\ (b ∉ xs) /\ (b ∉ ys) /\ (b ∉ zs))
    as (Hab & Hha & Hhb & Hax & Hay & Haz & Hbx & Hby & Hbz).
  { apply nodup_two, Hnd. }
  split.
  - rewrite (ring_pred s h (xs ++ a :: ys) b zs) by (rewrite <- app_assoc; exact R).
    assert (ring (list_del b s) h (xs ++ a :: ys ++ zs)) as R1.
    { replace (xs ++ a :: ys ++ zs) with ((xs ++ a :: ys) ++ zs) by (rewrite <- app_assoc; reflexivity).
      apply ring_del. rewrite <- app_assoc. exact R. }
    apply (ring_replace _ _ _ _ _ b) in R1; [|set_solver].
    destruct ys as [|p ys _] using rev_ind.
    + rewrite last_snoc. simpl. rewrite Z.eqb_refl. apply ring_add_after; [exact R1|set_solver].
    + rewrite app_comm_cons, app_assoc, last_snoc. simpl.
      rewrite (proj2 (Z.eqb_neq p a)) by set_solver.
      pose proof (ring_add_after (list_replace a b (list_del b s)) h (xs ++ b :: ys) p zs a) as R2.
      rewrite <- !app_assoc in R1 |- *. simpl in R1 |- *. rewrite <- !app_assoc in R2. simpl in R2.
      apply R2; [exact R1|set_solver].
  - rewrite (ring_pred s h xs a (ys ++ b :: zs)) by exact R.
    pose proof (ring_del _ _ _ _ _ R) as R1.
    assert (ring (list_replace b a (list_del a s)) h (xs ++ ys ++ a :: zs)) as R2.
    { rewrite app_assoc. apply ring_replace; [rewrite <- app_assoc; exact R1|set_solver]. }
    assert (default h (last xs) <> b) as Hp.
    { destruct xs as [|p xs _] using rev_ind; [exact Hhb|]. rewrite last_snoc. simpl. set_solver. }
    rewrite (proj2 (Z.eqb_neq _ _)) by exact Hp.
    destruct xs as [|p xs _] using rev_ind.
    + apply (list_add_ring _ h (ys ++ a :: zs) b); [exact R2|set_solver].
    + rewrite last_snoc. simpl. rewrite <- app_assoc in R2 |- *. simpl in R2 |- *.
      apply ring_add_after; [exact R2|set_solver].
Qed.

Lemma list_swap_correct_witness :
  ring three_nodes 10 ([] ++ 20 :: [] ++ 30 :: [40])
  /\ ring (list_swap 20 30 three_nodes) 10 [30; 20; 40].
Proof.
  destruct three_nodes_ring as [R _]. split; [exact R|].
  exact (proj1 (list_swap_correct three_nodes 10 [] 20 [] 30 [40] R)).
Defined.
