(* ===== verification/Kmap.v ===== *)
(** * kernel/kernel/klib/map.c: the hash table

    An open-addressing table with quadratic probing; the table behind
    [map->list] is an array of nodes, zeroed (all empty) when it is created.
    The probing loops and the nesting of rehashes take a bound: [fuel] probes
    and [depth] nested insertions.  The arithmetic is that of 32-bit words, so
    [probe_level * probe_level] wraps around. *)

From S2P Require Import Prelude.

Definition MAP_EMPTY : Z := 0.
Definition MAP_OCCUPIED : Z := 1.
Definition MAP_DELETED : Z := 2.
Definition LOAD_FACTOR_DIVIDEND_MAX : Z := 3.
Definition LOAD_FACTOR_DIVISOR_MAX : Z := 4.
Definition LOAD_FACTOR_DIVIDEND_MIN : Z := 1.
Definition LOAD_FACTOR_DIVISOR_MIN : Z := 4.
Definition UINT32_MAX : Z := 4294967295.

Definition primes : list Z :=
  [1; 2; 5; 7; 19; 41; 83; 167; 337; 677; 1361; 2729; 5449; 10909; 21841; 43669; 87359; 174761;
   349519; 699037; 1398091; 2796181; 5592373; 11184799; 22369601; 44739181; 89478457; 178956937;
   357913931].

Definition prime_at (l : Z) : Z := nth (Z.to_nat l) primes 0.

Record map_node_t := MapNode { mn_key : Z; mn_value : Z; mn_status : Z }.

#[export] Instance map_node_inhabited : Inhabited map_node_t := populate (MapNode 0 0 MAP_EMPTY).

Record map_t := Map {
  capacity : Z;
  capacity_level : Z;
  size : Z;
  nodes : gmap Z map_node_t
}.

(** [map->list[i]] *)
Definition node (m : map_t) (i : Z) : map_node_t := nodes m !!! i.
Definition upd_node (i : Z) (f : map_node_t -> map_node_t) (m : map_t) : map_t :=
  Map (capacity m) (capacity_level m) (size m) (upd i f (nodes m)).
Definition set_size (v : Z) (m : map_t) : map_t :=
  Map (capacity m) (capacity_level m) v (nodes m).

Definition map_init : map_t := Map (prime_at 3) 3 0 ∅.

Definition probe (i : Z) : Z := u32 (i * i).
Definition hash (key : Z) (m : map_t) : Z := key mod capacity m.

(** [index % map->capacity] at the given probe. *)
Definition slot (m : map_t) (key i : Z) : Z := u32 (hash key m + probe i) mod capacity m.

Definition is_status (m : map_t) (i v : Z) : bool := mn_status (node m i) =? v.

(** The index of the key in the list, or [UINT32_MAX].  A turn of the loop moves
    to the next probe; it is left early on the key. *)
Fixpoint map_find_from (fuel : nat) (key i : Z) (m : map_t) : option Z :=
  let j := slot m key i in
  if is_status m j MAP_OCCUPIED || is_status m j MAP_DELETED then
    if (mn_key (node m j) =? key) && is_status m j MAP_OCCUPIED then Some j
    else match fuel with
         | O => None
         | S f => map_find_from f key (u32 (i + 1)) m
         end
  else Some UINT32_MAX.

Definition _map_find (fuel : nat) (key : Z) (m : map_t) : option Z := map_find_from fuel key 0 m.

(** The return value, and what is stored in [*value]. *)
Definition map_find (fuel : nat) (key : Z) (m : map_t) : option (Z * option Z) :=
  index ← _map_find fuel key m;
  if negb (index =? UINT32_MAX) then Some (1, Some (mn_value (node m index)))
  else Some (0, None).

(** The search of [map_insert]: the first slot that is not occupied, or that
    holds the key. *)
Fixpoint insert_slot (fuel : nat) (key i : Z) (m : map_t) : option Z :=
  let j := slot m key i in
  if is_status m j MAP_OCCUPIED then
    if mn_key (node m j) =? key then Some j
    else match fuel with
         | O => None
         | S f => insert_slot f key (u32 (i + 1)) m
         end
  else Some j.

Definition too_full (m : map_t) : bool :=
  (capacity_level m <? 27)
  && (u32 (u32 (capacity m - size m) * LOAD_FACTOR_DIVIDEND_MAX)
      <=? u32 ((LOAD_FACTOR_DIVISOR_MAX - LOAD_FACTOR_DIVIDEND_MAX) * size m)).

Definition too_empty (m : map_t) : bool :=
  (3 <? capacity_level m)
  && (u32 ((LOAD_FACTOR_DIVISOR_MIN - LOAD_FACTOR_DIVIDEND_MIN) * size m)
      <=? u32 (u32 (capacity m - size m) * LOAD_FACTOR_DIVIDEND_MIN)).

(** [map_rehash], for the insertion it calls on every occupied node. *)
Definition map_rehash_with (insert : Z -> Z -> map_t -> option map_t)
    (m : map_t) (new_capacity_level : Z) : option map_t :=
  let new_capacity := prime_at new_capacity_level in
  for_loop (Z.to_nat (capacity m)) 0
    (fun i acc => m' ← acc;
       if is_status m i MAP_OCCUPIED then insert (mn_key (node m i)) (mn_value (node m i)) m'
       else Some m')
    (Some (Map new_capacity new_capacity_level 0 ∅)).

(** The part of [map_insert] after the rehash. *)
Definition map_put (fuel : nat) (key value : Z) (m : map_t) : option map_t :=
  j ← insert_slot fuel key 0 m;
  let m := upd_node j (fun n => MapNode key (mn_value n) (mn_status n)) m in
  let m := upd_node j (fun n => MapNode (mn_key n) value (mn_status n)) m in
  let m := upd_node j (fun n => MapNode (mn_key n) (mn_value n) MAP_OCCUPIED) m in
  Some (set_size (u32 (size m + 1)) m).

Fixpoint map_insert (depth fuel : nat) (key value : Z) (m : map_t) : option map_t :=
  m ← (if too_full m then
         match depth with
         | O => None
         | S d => map_rehash_with (map_insert d fuel) m (capacity_level m + 1)
         end
       else Some m);
  map_put fuel key value m.

Definition map_rehash (depth fuel : nat) (m : map_t) (new_capacity_level : Z) : option map_t :=
  map_rehash_with (map_insert depth fuel) m new_capacity_level.

Definition map_delete (depth fuel : nat) (key : Z) (m : map_t) : option map_t :=
  m ← (if too_empty m then map_rehash depth fuel m (capacity_level m - 1) else Some m);
  index ← _map_find fuel key m;
  if negb (index =? UINT32_MAX) then
    let m := upd_node index (fun n => MapNode (mn_key n) (mn_value n) MAP_DELETED) m in
    Some (set_size (u32 (size m - 1)) m)
  else Some m.
