(* ===== verification/KmapProofs.v ===== *)
(** * Properties of the hash table

    The table refines a finite map from keys to values ([holds]) under the
    invariant [map_ok]: every key is stored once, and can be reached by its probe
    sequence without crossing an empty slot.  Lookup, insertion (with growth) and
    deletion (with shrinking) are the operations of that map as long as no
    tombstone stands before the key that is inserted, and the search for a free
    slot ends because the capacities are prime and probe sequences of a prime
    capacity visit more than half of the slots. *)

From stdpp Require Import gmap fin_sets.
From Stdlib Require Import Znumtheory.
From S2P Require Import Prelude Kmap.

(** ** Primes *)

Definition is_prime_b (p : Z) : bool :=
  (1 <? p) && for_loop (Z.to_nat (p - 2)) 2 (fun d acc => acc && negb (p mod d =? 0)) true.

Lemma is_prime_b_prime p : is_prime_b p = true -> prime p.
Proof.
  unfold is_prime_b. intros H. reflect_bools. apply prime_alt. split; [assumption|].
  intros n Hn Hd. revert H0.
  pose proof (for_loop_ind (fun k acc => acc = true -> forall d, 2 <= d < k -> p mod d <> 0)
    (Z.to_nat (p - 2)) 2 (fun d acc => acc && negb (p mod d =? 0)) true) as L.
  intros H2. refine (L _ _ H2 n _ (proj2 (Z.mod_divide p n _) Hd)); [| |lia|lia].
  - intros _ d Hd2. lia.
  - intros k acc Hk IH Hacc d Hd2. apply andb_prop in Hacc as [Hacc Hm]. reflect_bools.
    destruct (Z.eq_dec d k) as [->|]; [assumption|]. apply IH; [assumption|lia].
Qed.

(** The capacities of the levels in use, and what their growth is. *)
Definition level_checks (l : Z) : bool :=
  is_prime_b (prime_at l) && (7 <=? prime_at l) && (prime_at l <? 100000)
  && (18 * prime_at l + 18 <? 10 * prime_at (l + 1)) && (prime_at (l + 1) <? 3 * prime_at l).

Lemma levels_ok : forallb level_checks (seqZ 3 13) = true.
Proof. vm_compute. reflexivity. Qed.

Lemma level_ok l : 3 <= l <= 15 ->
  prime (prime_at l) /\ 7 <= prime_at l < 100000 /\ 18 * prime_at l + 18 < 10 * prime_at (l + 1)
  /\ prime_at (l + 1) < 3 * prime_at l.
Proof.
  intros Hl. pose proof levels_ok as H. rewrite forallb_forall in H. specialize (H l).
  rewrite <- list_elem_of_In, elem_of_seqZ in H. specialize (H ltac:(lia)).
  unfold level_checks in H. reflect_bools. split; [apply is_prime_b_prime; assumption|]. lia.
Qed.

Lemma last_level_ok : prime (prime_at 16) /\ prime_at 16 = 87359.
Proof. split; [apply is_prime_b_prime; vm_compute; reflexivity|reflexivity]. Qed.

Lemma level_prime l : 3 <= l <= 16 -> prime (prime_at l) /\ 7 <= prime_at l < 100000.
Proof.
  intros Hl. destruct (Z.eq_dec l 16) as [->|].
  - destruct last_level_ok as [H E]. split; [exact H|]. rewrite E. lia.
  - destruct (level_ok l) as (H & H2 & _); [lia|]. auto.
Qed.

(** ** The invariant *)

Definition occupied (m : map_t) (j : Z) : Prop := mn_status (node m j) = MAP_OCCUPIED.
Definition deleted (m : map_t) (j : Z) : Prop := mn_status (node m j) = MAP_DELETED.
Definition live (m : map_t) (j : Z) : Prop := occupied m j \/ deleted m j.

#[export] Instance occupied_dec m j : Decision (occupied m j).
Proof. unfold occupied. apply _. Defined.

Definition occ_set (m : map_t) : gset Z :=
  filter (fun j => occupied m j) (list_to_set (seqZ 0 (capacity m))).

Definition count (m : map_t) : Z := Z.of_nat (base.size (occ_set m)).

(** The key is stored with that value. *)
Definition holds (m : map_t) (k v : Z) : Prop :=
  exists j, j ∈ occ_set m /\ mn_key (node m j) = k /\ mn_value (node m j) = v.

(** [fuel] probes from the home slot of each stored key reach it. *)
Record map_ok (fuel : nat) (m : map_t) : Prop := {
  mo_level : 3 <= capacity_level m <= 16;
  mo_capacity : capacity m = prime_at (capacity_level m);
  mo_fuel : capacity m <= 2 * Z.of_nat fuel /\ Z.of_nat fuel < 2 ^ 32;
  mo_size : count m <= size m /\ 4 * size m <= 3 * capacity m + 3;
  mo_keys : forall i j, i ∈ occ_set m -> j ∈ occ_set m ->
    mn_key (node m i) = mn_key (node m j) -> i = j;
  mo_reach : forall j, j ∈ occ_set m -> exists i, 0 <= i <= Z.of_nat fuel
    /\ slot m (mn_key (node m j)) i = j
    /\ forall t, 0 <= t < i -> live m (slot m (mn_key (node m j)) t)
}.

Definition no_tombstone (m : map_t) : Prop := forall j, ~ deleted m j.

(** A probe of the key that is not occupied. *)
Definition has_free (fuel : nat) (m : map_t) (k : Z) : Prop :=
  exists i, 0 <= i <= Z.of_nat fuel /\ ~ occupied m (slot m k i).

Lemma occ_set_spec m j : j ∈ occ_set m <-> 0 <= j < capacity m /\ occupied m j.
Proof. unfold occ_set. rewrite elem_of_filter, elem_of_list_to_set, elem_of_seqZ. split; [|intros [? ?]; split; [assumption|lia]]; intros [? ?]; split; [lia|assumption]. Qed.

Lemma slot_range m k i : 0 < capacity m -> 0 <= slot m k i < capacity m.
Proof. intros H. apply Z.mod_pos_bound. exact H. Qed.

Lemma cap_pos fuel m : map_ok fuel m -> 7 <= capacity m < 100000.
Proof. intros M. rewrite (mo_capacity _ _ M). apply level_prime, (mo_level _ _ M). Qed.

Lemma occ_slot fuel m k i : map_ok fuel m -> slot m k i ∈ occ_set m <-> occupied m (slot m k i).
Proof.
  intros M. pose proof (cap_pos _ _ M). pose proof (slot_range m k i ltac:(lia)).
  rewrite occ_set_spec. tauto.
Qed.

Lemma status_true m j v : is_status m j v = true <-> mn_status (node m j) = v.
Proof. apply Z.eqb_eq. Qed.

Lemma status_false m j v : is_status m j v = false <-> mn_status (node m j) <> v.
Proof. apply Z.eqb_neq. Qed.

(** ** Lookup *)

(** Probes that find neither the key nor an empty slot are passed over. *)
Lemma find_skip fuel k m i n :
  0 <= i -> 0 <= n -> i + n < 2 ^ 32 -> n <= Z.of_nat fuel ->
  (forall t, i <= t < i + n -> live m (slot m k t)
     /\ ~ (occupied m (slot m k t) /\ mn_key (node m (slot m k t)) = k)) ->
  map_find_from fuel k i m = map_find_from (fuel - Z.to_nat n) k (i + n) m.
Proof.
  intros Hi Hn. revert i Hi fuel. pattern n. apply natlike_ind; [|clear n Hn|exact Hn].
  - intros i _ fuel _ _ _. rewrite Z.add_0_r, Nat.sub_0_r. reflexivity.
  - intros n Hn IH i Hi fuel Hb Hf H. destruct fuel as [|fuel]; [lia|]. simpl map_find_from at 1.
    destruct (H i) as [Hl Hk]; [lia|].
    assert (is_status m (slot m k i) MAP_OCCUPIED || is_status m (slot m k i) MAP_DELETED = true) as ->.
    { apply orb_true_iff. rewrite !status_true. exact Hl. }
    assert ((mn_key (node m (slot m k i)) =? k) && is_status m (slot m k i) MAP_OCCUPIED = false) as ->.
    { apply andb_false_iff. rewrite Z.eqb_neq, status_false.
      destruct (Z.eq_dec (mn_key (node m (slot m k i))) k); [right|left; assumption].
      intros Ho. apply Hk. split; assumption. }
    rewrite u32_small by (unfold in_u32; lia).
    rewrite IH by (lia || (intros t Ht; apply H; lia)).
    replace (i + Z.succ n) with (i + 1 + n) by lia. f_equal. lia.
Qed.

Lemma find_present fuel m j :
  map_ok fuel m -> j ∈ occ_set m -> _map_find fuel (mn_key (node m j)) m = Some j.
Proof.
  intros M Hj. set (k := mn_key (node m j)).
  pose proof (proj1 (occ_set_spec _ _) Hj) as [_ Ho].
  pose proof (mo_fuel _ _ M) as [_ Hfu].
  destruct (mo_reach _ _ M j Hj) as (i & Hi & Hs & Hl). fold k in Hs, Hl.
  (* the first probe that is the slot of the key *)
  assert (exists i0, 0 <= i0 <= i /\ slot m k i0 = j /\ forall t, 0 <= t < i0 -> slot m k t <> j)
    as (i0 & Hi0 & Hs0 & Hfirst).
  { clear Hl. revert Hs. pattern i. apply Zlt_lower_bound_ind with (z := 0); [|lia].
    clear i Hi. intros i IH Hi Hs.
    destruct (decide (Exists (fun t => slot m k t = j) (seqZ 0 i))) as [Hex|Hno].
    - apply Exists_exists in Hex as (t & Ht & Et). apply elem_of_seqZ in Ht.
      destruct (IH t ltac:(lia) Et) as (i0 & Hi0 & E & F). exists i0. split; [lia|]. auto.
    - exists i. split; [lia|]. split; [exact Hs|]. intros t Ht Et. apply Hno.
      apply Exists_exists. exists t. split; [apply elem_of_seqZ; lia|exact Et]. }
  unfold _map_find. rewrite (find_skip fuel k m 0 i0); [|lia|lia|lia|lia|].
  - rewrite Z.add_0_l.
    assert (is_status m (slot m k i0) MAP_OCCUPIED = true) as Eo by (apply status_true; rewrite Hs0; exact Ho).
    destruct (fuel - Z.to_nat i0)%nat; simpl; rewrite Eo, Hs0; simpl; rewrite Z.eqb_refl; reflexivity.
  - intros t Ht. split; [apply Hl; lia|]. intros [Hot Hkt]. apply (Hfirst t); [lia|].
    apply (mo_keys _ _ M); [apply (occ_slot _ _ _ _ M), Hot|exact Hj|exact Hkt].
Qed.

Lemma find_absent fuel m k i :
  map_ok fuel m -> (forall v, ~ holds m k v) ->
  0 <= i <= Z.of_nat fuel -> ~ live m (slot m k i) -> _map_find fuel k m = Some UINT32_MAX.
Proof.
  intros M Hno Hi Hl. pose proof (mo_fuel _ _ M) as [_ Hfu].
  assert (forall n j, 0 <= j <= i -> i - j <= Z.of_nat n ->
            map_find_from n k j m = Some UINT32_MAX) as H.
  { induction n as [|n IH]; intros j Hj Hn; simpl.
    - assert (j = i) as -> by lia.
      destruct (is_status m (slot m k i) MAP_OCCUPIED || is_status m (slot m k i) MAP_DELETED) eqn:E;
        [|reflexivity].
      apply orb_true_iff in E. rewrite !status_true in E. destruct Hl. exact E.
    - destruct (is_status m (slot m k j) MAP_OCCUPIED || is_status m (slot m k j) MAP_DELETED) eqn:E;
        [|reflexivity].
      destruct (Z.eq_dec j i) as [->|Hne];
        [apply orb_true_iff in E; rewrite !status_true in E; destruct Hl; exact E|].
      destruct ((mn_key (node m (slot m k j)) =? k) && is_status m (slot m k j) MAP_OCCUPIED) eqn:E2.
      + exfalso. apply andb_prop in E2 as [Ek Eo]. apply Z.eqb_eq in Ek. apply status_true in Eo.
        eapply Hno. exists (slot m k j). split; [apply (occ_slot _ _ _ _ M), Eo|]. split; [exact Ek|reflexivity].
      + rewrite u32_small by (unfold in_u32; lia). apply IH; lia. }
  apply H; lia.
Qed.

(** ** Insertion into a free slot *)

Definition stops (m : map_t) (k i : Z) : Prop :=
  occupied m (slot m k i) -> mn_key (node m (slot m k i)) = k.

Lemma insert_slot_from fuel k m i :
  0 <= i -> i + Z.of_nat fuel < 2 ^ 32 ->
  (exists t, i <= t <= i + Z.of_nat fuel /\ stops m k t) ->
  exists t, i <= t <= i + Z.of_nat fuel /\ insert_slot fuel k i m = Some (slot m k t)
    /\ stops m k t /\ forall u, i <= u < t -> occupied m (slot m k u) /\ mn_key (node m (slot m k u)) <> k.
Proof.
  revert i. induction fuel as [|fuel IH]; intros i Hi Hb (t & Ht & Hs); simpl.
  - assert (t = i) as -> by lia. exists i. split; [lia|].
    destruct (is_status m (slot m k i) MAP_OCCUPIED) eqn:E.
    + apply status_true in E. rewrite (Hs E), Z.eqb_refl. split; [reflexivity|]. split; [exact Hs|lia].
    + split; [reflexivity|]. split; [exact Hs|lia].
  - destruct (is_status m (slot m k i) MAP_OCCUPIED) eqn:E.
    + apply status_true in E. destruct (Z.eqb_spec (mn_key (node m (slot m k i))) k) as [Ek|Hk].
      * exists i. split; [lia|]. split; [reflexivity|]. split; [intros _; exact Ek|lia].
      * rewrite u32_small by (unfold in_u32; lia).
        destruct (IH (i + 1)) as (t' & Ht' & E' & Hs' & Hu); [lia|lia| |].
        { exists t. split; [|exact Hs]. destruct (Z.eq_dec t i) as [->|]; [destruct (Hk (Hs E))|lia]. }
        exists t'. split; [lia|]. split; [exact E'|]. split; [exact Hs'|].
        intros u Hu'. destruct (Z.eq_dec u i) as [->|]; [split; assumption|]. apply Hu. lia.
    + exists i. split; [lia|]. split; [reflexivity|]. split; [|lia].
      intros Ho. apply status_false in E. contradiction.
Qed.

(** The table after a key and value have been written to slot [j]. *)
Definition put_at (j k v : Z) (m : map_t) : map_t :=
  set_size (u32 (size m + 1)) (upd_node j (fun _ => MapNode k v MAP_OCCUPIED) m).

Lemma map_put_at fuel k v m j :
  insert_slot fuel k 0 m = Some j -> exists m', map_put fuel k v m = Some m'
    /\ capacity m' = capacity m /\ capacity_level m' = capacity_level m
    /\ size m' = u32 (size m + 1)
    /\ forall i, node m' i = if decide (j = i) then MapNode k v MAP_OCCUPIED else node m i.
Proof.
  intros E. unfold map_put. rewrite E. simpl. eexists. split; [reflexivity|].
  split; [reflexivity|]. split; [reflexivity|]. split; [reflexivity|].
  intros i. unfold node, upd_node. simpl. rewrite !upd_lookup. case_decide; reflexivity.
Qed.

Section put.
Context (fuel : nat) (m m' : map_t) (k v i j : Z) (Hj : slot m k i = j).
Context (M : map_ok fuel m) (Hi : 0 <= i <= Z.of_nat fuel).
Context (Hstop : stops m k i).
Context (Hpass : forall u, 0 <= u < i ->
  occupied m (slot m k u) /\ mn_key (node m (slot m k u)) <> k).
Context (Hk : no_tombstone m \/ forall w, ~ holds m k w).
Context (Ec : capacity m' = capacity m) (El : capacity_level m' = capacity_level m).
Context (Es : size m' = u32 (size m + 1)).
Context (En : forall i, node m' i = if decide (j = i) then MapNode k v MAP_OCCUPIED else node m i).
Context (Hroom : 4 * size m < 3 * capacity m).

Lemma put_slot key t : slot m' key t = slot m key t.
Proof. unfold slot, hash. rewrite Ec. reflexivity. Qed.

Lemma put_occupied t : occupied m' t <-> t = j \/ occupied m t.
Proof. unfold occupied. rewrite En. case_decide; [subst; simpl; tauto|]. naive_solver. Qed.

Lemma put_occ_set : occ_set m' = {[j]} ∪ occ_set m.
Proof.
  apply set_eq. intros t. rewrite elem_of_union, elem_of_singleton, !occ_set_spec, put_occupied, Ec.
  pose proof (cap_pos _ _ M). pose proof (slot_range m k i ltac:(lia)). rewrite Hj in H0.
  split; [tauto|]. intros [->|]; tauto.
Qed.

(** The slot written either was free, and the key was nowhere, or held it. *)
Lemma put_cases :
  (~ occupied m j /\ forall t, t ∈ occ_set m -> mn_key (node m t) <> k)
  \/ (j ∈ occ_set m /\ mn_key (node m j) = k).
Proof.
  destruct (decide (occupied m j)) as [Ho|Ho].
  - right. rewrite <- Hj in *. split; [apply (occ_slot _ _ _ _ M), Ho|apply Hstop, Ho].
  - left. split; [exact Ho|]. intros t Ht Et.
    destruct Hk as [Hnt|Hno]; [|apply (Hno (mn_value (node m t))); exists t; auto].
    destruct (mo_reach _ _ M t Ht) as (u & Hu & Esu & Hl). rewrite Et in Esu, Hl.
    destruct (Z.lt_trichotomy u i) as [Hlt|[->|Hgt]].
    + destruct (Hpass u ltac:(lia)) as [_ Hne]. rewrite Esu in Hne. contradiction.
    + apply Ho. rewrite <- Hj, Esu. apply (proj1 (occ_set_spec _ _) Ht).
    + destruct (Hl i ltac:(lia)) as [Hlo|Hld]; [apply Ho; rewrite <- Hj; exact Hlo|apply (Hnt _ Hld)].
Qed.

Lemma put_holds k' v' : holds m' k' v' <-> (k' = k /\ v' = v) \/ (k' <> k /\ holds m k' v').
Proof.
  assert (forall t, t ∈ occ_set m -> mn_key (node m t) = k -> t = j) as Huniq.
  { intros t Ht Et. destruct put_cases as [[_ Hne]|[Hjo Ej]]; [destruct (Hne t Ht Et)|].
    apply (mo_keys _ _ M); [exact Ht|exact Hjo|congruence]. }
  unfold holds. rewrite put_occ_set. setoid_rewrite En. setoid_rewrite elem_of_union.
  setoid_rewrite elem_of_singleton. split.
  - intros (t & Ht & Ek & Ev). case_decide as Ej; simpl in *; [left; split; congruence|].
    right. destruct Ht as [Ht|Ht]; [congruence|]. split; [|exists t; auto].
    intros ->. apply Ej. symmetry. apply Huniq; assumption.
  - intros [[-> ->]|[Hne (t & Ht & Ek & Ev)]].
    + exists j. case_decide; [simpl; auto|contradiction].
    + exists t. case_decide as Ej; [|auto]. exfalso. subst t.
      destruct put_cases as [[Hno _]|[_ Ejk]]; [|congruence].
      apply Hno, (proj1 (occ_set_spec _ _) Ht).
Qed.

Lemma put_count : count m <= count m' <= count m + 1
  /\ ((forall w, ~ holds m k w) -> count m' = count m + 1).
Proof.
  unfold count. rewrite put_occ_set.
  destruct (decide (j ∈ occ_set m)) as [Hjo|Hjo].
  - replace ({[j]} ∪ occ_set m) with (occ_set m) by set_solver. split; [lia|]. intros Hno. exfalso.
    destruct put_cases as [[Hn _]|[_ Ek]]; [apply Hn, (proj1 (occ_set_spec _ _) Hjo)|].
    apply (Hno (mn_value (node m j))). exists j. auto.
  - rewrite size_union by set_solver. rewrite size_singleton. lia.
Qed.

Lemma put_size : size m' = size m + 1.
Proof.
  rewrite Es. apply u32_small. pose proof (cap_pos _ _ M). pose proof (mo_size _ _ M).
  unfold in_u32, count in *. lia.
Qed.

Lemma put_ok : map_ok fuel m'.
Proof.
  pose proof (cap_pos _ _ M) as Hc. split; rewrite ?Ec, ?El.
  - apply (mo_level _ _ M).
  - apply (mo_capacity _ _ M).
  - apply (mo_fuel _ _ M).
  - rewrite put_size. pose proof put_count as [? _]. pose proof (mo_size _ _ M). lia.
  - intros a b Ha Hb. rewrite put_occ_set, elem_of_union, elem_of_singleton in Ha, Hb.
    rewrite !En. destruct put_cases as [[Hno Hne]|[Hjo Ej]]; repeat case_decide; subst; simpl;
      intros E; try reflexivity;
      repeat match goal with
      | H : _ = _ \/ _ |- _ => destruct H; [congruence|]
      end.
    + destruct (Hne b); congruence.
    + destruct (Hne a); congruence.
    + apply (mo_keys _ _ M); assumption.
    + apply (mo_keys _ _ M); congruence.
    + apply (mo_keys _ _ M); congruence.
    + apply (mo_keys _ _ M); assumption.
  - assert (forall t, live m t -> live m' t) as Hlive.
    { intros t. unfold live, occupied, deleted. rewrite En. case_decide; [left; reflexivity|tauto]. }
    intros a Ha. rewrite put_occ_set, elem_of_union, elem_of_singleton in Ha.
    setoid_rewrite put_slot. rewrite En. case_decide as Ea; simpl.
    + exists i. split; [lia|]. split; [congruence|]. intros u Hu. apply Hlive. left. apply Hpass, Hu.
    + destruct Ha as [|Ha]; [congruence|]. destruct (mo_reach _ _ M a Ha) as (u & Hu & Eu & Hl).
      exists u. split; [exact Hu|]. split; [exact Eu|]. intros t Ht. apply Hlive, Hl, Ht.
Qed.

Lemma put_no_tombstone : no_tombstone m -> no_tombstone m'.
Proof.
  intros H t. unfold deleted. rewrite En. case_decide; [discriminate|apply H].
Qed.
End put.

(** ** Probe sequences of a prime capacity *)

Lemma slot_small m k i :
  0 < capacity m < 100000 -> 0 <= i < 50000 ->
  slot m k i = (k mod capacity m + i * i) mod capacity m.
Proof.
  intros Hc Hi. unfold slot, probe, hash. pose proof (Z.mod_pos_bound k (capacity m) ltac:(lia)).
  assert (0 <= i * i <= 49999 * 49999) by nia.
  rewrite (u32_small (i * i)), u32_small by (unfold in_u32; lia). reflexivity.
Qed.

(** The first half of the probes are pairwise different slots. *)
Lemma probes_distinct m k i j :
  prime (capacity m) -> capacity m < 100000 -> 0 <= i < j -> 2 * j < capacity m ->
  slot m k i <> slot m k j.
Proof.
  intros Hp Hc Hi Hj E. rewrite !slot_small in E by lia.
  set (p := capacity m) in *. set (h := k mod p) in *.
  assert ((p | (j - i) * (j + i))) as Hd.
  { apply Z.mod_divide; [lia|]. replace ((j - i) * (j + i)) with ((h + j * j) - (h + i * i)) by ring.
    rewrite Zminus_mod, E, Z.sub_diag. apply Z.mod_0_l. lia. }
  apply prime_mult in Hd; [|exact Hp]. destruct Hd as [Hd|Hd]; apply Z.divide_pos_le in Hd; lia.
Qed.

Lemma half_full_has_free fuel m k :
  map_ok fuel m -> 2 * count m < capacity m + 1 -> has_free fuel m k.
Proof.
  intros M Hcnt. pose proof (cap_pos _ _ M) as Hc. pose proof (mo_fuel _ _ M) as [Hf _].
  assert (prime (capacity m)) as Hp.
  { rewrite (mo_capacity _ _ M). apply level_prime, (mo_level _ _ M). }
  assert (exists h, capacity m = 2 * h + 1) as (h & Eh).
  { exists (capacity m / 2). pose proof (Z.div_mod (capacity m) 2).
    pose proof (Z.mod_pos_bound (capacity m) 2).
    destruct (Z.eq_dec (capacity m mod 2) 0) as [E|]; [|lia]. exfalso.
    assert (2 = 1 \/ 2 = capacity m) as [?|?]; [|lia|lia].
    apply Z.mod_divide in E; [|lia]. pose proof (prime_divisors _ Hp 2 E). lia. }
  destruct (decide (Exists (fun i => ~ occupied m (slot m k i)) (seqZ 0 (h + 1)))) as [He|He].
  - apply Exists_exists in He as (i & Hi & Ho). apply elem_of_seqZ in Hi. exists i. split; [lia|exact Ho].
  - exfalso. set (xs := (slot m k) <$> seqZ 0 (h + 1)).
    assert (length xs = Z.to_nat (h + 1)) as Hl by (unfold xs; rewrite length_fmap, length_seqZ; reflexivity).
    assert (NoDup xs) as Hnd.
    { apply NoDup_fmap_2_strong; [|apply NoDup_seqZ]. intros a b Ha Hb E.
      apply elem_of_seqZ in Ha, Hb. destruct (Z.lt_trichotomy a b) as [Hlt|[|Hlt]]; [|assumption|].
      - destruct (probes_distinct m k a b Hp ltac:(lia) ltac:(lia) ltac:(lia) E).
      - symmetry in E. destruct (probes_distinct m k b a Hp ltac:(lia) ltac:(lia) ltac:(lia) E). }
    assert (list_to_set xs ⊆ occ_set m) as Hsub.
    { intros x Hx. apply elem_of_list_to_set, list_elem_of_fmap in Hx as (i & -> & Hi).
      apply (occ_slot _ _ _ _ M). destruct (decide (occupied m (slot m k i))) as [|Hn]; [assumption|].
      destruct He. apply Exists_exists. exists i. auto. }
    apply subseteq_size in Hsub. rewrite size_list_to_set in Hsub by exact Hnd.
    unfold count in Hcnt. lia.
Qed.

(** ** The operations *)

(** [m'] holds what [m] holds, except that the key [k] has the value [v]. *)
Definition updated (m m' : map_t) (k v : Z) : Prop :=
  forall k' v', holds m' k' v' <-> (k' = k /\ v' = v) \/ (k' <> k /\ holds m k' v').

Lemma map_put_ok fuel m k v :
  map_ok fuel m -> no_tombstone m \/ (forall w, ~ holds m k w) -> has_free fuel m k ->
  4 * size m < 3 * capacity m ->
  exists m', map_put fuel k v m = Some m' /\ map_ok fuel m' /\ updated m m' k v
    /\ capacity m' = capacity m /\ capacity_level m' = capacity_level m /\ size m' = size m + 1
    /\ (no_tombstone m -> no_tombstone m')
    /\ ((forall w, ~ holds m k w) -> count m' = count m + 1).
Proof.
  intros M Hk (i0 & Hi0 & Hfree) Hroom. pose proof (mo_fuel _ _ M) as [_ Hfu].
  destruct (insert_slot_from fuel k m 0) as (i & Hi & Ei & Hs & Hp);
    [lia|lia|exists i0; split; [lia|intros Ho; contradiction]|].
  destruct (map_put_at fuel k v m _ Ei) as (m' & E & Ec & El & Es & En).
  exists m'. split; [exact E|].
  split; [apply (put_ok fuel m m' k v i (slot m k i)); assumption || reflexivity|].
  split; [intros k' v'; apply (put_holds fuel m m' k v i (slot m k i)); assumption || reflexivity|].
  split; [exact Ec|]. split; [exact El|].
  split; [apply (put_size fuel m m' M Es Hroom)|].
  split; [apply (put_no_tombstone m m' k v (slot m k i) En)|].
  apply (put_count fuel m m' k v i (slot m k i)); assumption || reflexivity.
Qed.

Lemma too_full_false m :
  0 <= size m -> capacity m < 100000 -> 4 * size m < 3 * capacity m -> too_full m = false.
Proof.
  intros Hs Hc Hr. unfold too_full, LOAD_FACTOR_DIVIDEND_MAX, LOAD_FACTOR_DIVISOR_MAX.
  apply andb_false_iff. right. apply Z.leb_gt.
  rewrite (u32_small (capacity m - size m)), !u32_small by (unfold in_u32; lia). lia.
Qed.

Lemma too_full_room m :
  0 <= size m -> 0 <= capacity m < 100000 -> 4 * size m <= 3 * capacity m + 3 ->
  capacity_level m < 27 -> too_full m = false -> 4 * size m < 3 * capacity m.
Proof.
  intros Hs Hc Hr Hl. unfold too_full, LOAD_FACTOR_DIVIDEND_MAX, LOAD_FACTOR_DIVISOR_MAX.
  rewrite (proj2 (Z.ltb_lt _ _) Hl). simpl. intros H. apply Z.leb_gt in H.
  destruct (Z.le_gt_cases (size m) (capacity m)) as [Hle|Hgt].
  - rewrite (u32_small (capacity m - size m)), !u32_small in H by (unfold in_u32; lia). lia.
  - lia.
Qed.

(** [m'] holds the keys and values of [m]. *)
Definition same_contents (m m' : map_t) : Prop := forall k v, holds m' k v <-> holds m k v.

Lemma occ_set_empty l : occ_set (Map (prime_at l) l 0 ∅) = ∅.
Proof.
  apply set_eq. intros j. rewrite occ_set_spec, elem_of_empty. split; [|contradiction].
  intros [_ H]. unfold occupied, node in H. simpl in H. rewrite lookup_total_empty in H. discriminate H.
Qed.

Lemma empty_ok fuel l :
  3 <= l <= 16 -> prime_at l <= 2 * Z.of_nat fuel -> Z.of_nat fuel < 2 ^ 32 ->
  let m := Map (prime_at l) l 0 ∅ in
  map_ok fuel m /\ no_tombstone m /\ count m = 0 /\ forall k v, ~ holds m k v.
Proof.
  intros Hl Hf Hf2. cbv zeta. destruct (level_prime l Hl) as [_ Hc].
  pose proof (occ_set_empty l) as E.
  assert (count (Map (prime_at l) l 0 ∅) = 0) as Ecnt.
  { unfold count. rewrite E, size_empty. reflexivity. }
  split; [split; simpl|split; [|split; [exact Ecnt|]]].
  - exact Hl.
  - reflexivity.
  - split; assumption.
  - rewrite Ecnt. lia.
  - intros i j Hi. rewrite E in Hi. set_solver.
  - intros j Hj. rewrite E in Hj. set_solver.
  - intros j H. unfold deleted, node in H. simpl in H. rewrite lookup_total_empty in H. discriminate H.
  - intros k v (j & Hj & _). rewrite E in Hj. set_solver.
Qed.

(** The part of the table that the loop of [map_rehash] has copied. *)
Definition prefix (m : map_t) (k : Z) : gset Z := filter (fun j => j < k) (occ_set m).

Lemma prefix_step m k :
  prefix m (k + 1) = (if decide (k ∈ occ_set m) then {[k]} else ∅) ∪ prefix m k
  /\ (k ∉ prefix m k).
Proof.
  unfold prefix. split; [|rewrite elem_of_filter; lia].
  apply set_eq. intros j. rewrite elem_of_union, !elem_of_filter.
  case_decide; rewrite ?elem_of_singleton, ?elem_of_empty; split;
    intros Hj; destruct (Z.eq_dec j k) as [->|]; destruct_and?; destruct_or?; subst; try tauto;
    try (right; split; [lia|assumption]); try (split; [lia|assumption]); destruct_and?; try contradiction;
    try (split; [lia|assumption]).
Qed.

Section rehash.
Context (fuel : nat) (m : map_t) (l : Z) (insert : Z -> Z -> map_t -> option map_t).
Context (M : map_ok fuel m) (Hl : 3 <= l <= 16) (Hf : prime_at l <= 2 * Z.of_nat fuel).
Context (Hhalf : 2 * count m < prime_at l + 1).
Context (Hins : forall k v m', map_ok fuel m' -> 4 * size m' < 3 * capacity m' ->
  insert k v m' = map_put fuel k v m').

(** The table under construction when the nodes before [k] have been copied. *)
Definition copied (k : Z) (m' : map_t) : Prop :=
  map_ok fuel m' /\ no_tombstone m' /\ capacity m' = prime_at l /\ capacity_level m' = l
  /\ size m' = count m' /\ count m' = Z.of_nat (base.size (prefix m k))
  /\ forall key v, holds m' key v <->
       exists j, j ∈ prefix m k /\ mn_key (node m j) = key /\ mn_value (node m j) = v.

Lemma prefix_count k : Z.of_nat (base.size (prefix m k)) <= count m.
Proof. unfold count, prefix. apply inj_le, subseteq_size. intros j. rewrite elem_of_filter. tauto. Qed.

Lemma copied_step k m' :
  copied k m' -> k ∈ occ_set m ->
  exists m2, insert (mn_key (node m k)) (mn_value (node m k)) m' = Some m2 /\ copied (k + 1) m2.
Proof.
  intros (M' & Hnt & Ec & El & Es & Ecnt & Hh) Hk. pose proof (prefix_count k) as Hpc.
  destruct (level_prime l Hl) as [_ Hc].
  assert (forall w, ~ holds m' (mn_key (node m k)) w) as Hno.
  { intros w Hw. apply Hh in Hw as (j & Hj & Ek & _). unfold prefix in Hj.
    apply elem_of_filter in Hj as [Hlt Hj]. pose proof (mo_keys _ _ M j k Hj Hk Ek). lia. }
  destruct (map_put_ok fuel m' (mn_key (node m k)) (mn_value (node m k)) M') as
    (m2 & E & M2 & Hu & Ec2 & El2 & Es2 & Hnt2 & Hcnt2).
  { left. exact Hnt. }
  { apply half_full_has_free; [exact M'|rewrite Ec; lia]. }
  { rewrite Es, Ec. lia. }
  exists m2. rewrite Hins by (assumption || (rewrite Es, Ec; lia)). split; [exact E|].
  destruct (prefix_step m k) as [Ep Hkp]. rewrite decide_True in Ep by exact Hk.
  assert (Z.of_nat (base.size (prefix m (k + 1))) = Z.of_nat (base.size (prefix m k)) + 1) as Eps.
  { rewrite Ep, size_union, size_singleton by set_solver. lia. }
  unfold copied. rewrite Ec2, El2, Es2, (Hcnt2 Hno), Eps.
  split; [exact M2|]. split; [exact (Hnt2 Hnt)|]. split; [exact Ec|]. split; [exact El|].
  split; [lia|]. split; [lia|]. intros key v. rewrite (Hu key v), Hh. setoid_rewrite Ep.
  setoid_rewrite elem_of_union. setoid_rewrite elem_of_singleton. split.
  - intros [[-> ->]|[Hne (j & Hj & E1 & E2)]]; [exists k; auto|exists j; auto].
  - intros (j & [->|Hj] & E1 & E2); [left; auto|]. right. split; [|exists j; auto].
    intros ->. apply (Hno v). apply Hh. exists j. auto.
Qed.

Lemma rehash_ok :
  exists m', map_rehash_with insert m l = Some m' /\ map_ok fuel m' /\ no_tombstone m'
    /\ capacity m' = prime_at l /\ capacity_level m' = l /\ same_contents m m'
    /\ count m' = count m /\ size m' = count m.
Proof.
  unfold map_rehash_with. pose proof (cap_pos _ _ M) as Hc.
  set (body := fun i acc => _ ← acc; _).
  pose proof (for_loop_ind (fun k acc => exists m', acc = Some m' /\ copied k m')
    (Z.to_nat (capacity m)) 0 body (Some (Map (prime_at l) l 0 ∅))) as L.
  rewrite Z.add_0_l, Z2Nat.id in L by lia. destruct L as (m' & E & C).
  - exists (Map (prime_at l) l 0 ∅). split; [reflexivity|].
    destruct (empty_ok fuel l Hl Hf) as (M0 & Hnt & Ecnt & Hno); [apply (mo_fuel _ _ M)|].
    assert (prefix m 0 = ∅) as Ep.
    { apply set_eq. intros j. unfold prefix. rewrite elem_of_filter, occ_set_spec, elem_of_empty.
      split; [lia|contradiction]. }
    split; [exact M0|]. split; [exact Hnt|]. split; [reflexivity|]. split; [reflexivity|].
    split; [symmetry; exact Ecnt|]. rewrite Ep. split; [rewrite Ecnt, size_empty; reflexivity|].
    intros key v. split; [intros H; destruct (Hno key v H)|]. intros (j & Hj & _). set_solver.
  - intros k acc Hk (m1 & -> & C1). unfold body. simpl.
    destruct (is_status m k MAP_OCCUPIED) eqn:Eo.
    + apply copied_step; [exact C1|]. apply occ_set_spec. apply status_true in Eo. split; [lia|exact Eo].
    + exists m1. split; [reflexivity|]. destruct (prefix_step m k) as [Ep _].
      rewrite decide_False in Ep; [|rewrite occ_set_spec; apply status_false in Eo; intros [_ Ho]; contradiction].
      rewrite union_empty_l_L in Ep. unfold copied. rewrite Ep. exact C1.
  - exists m'. split; [exact E|]. destruct C as (M' & Hnt & Ec & El & Es & Ecnt & Hh).
    assert (prefix m (capacity m) = occ_set m) as Ep.
    { apply set_eq. intros j. unfold prefix. rewrite elem_of_filter, occ_set_spec.
      split; [tauto|]. intros [Hr Ho]. split; [lia|tauto]. }
    rewrite Ep in Ecnt, Hh. split; [exact M'|]. split; [exact Hnt|]. split; [exact Ec|].
    split; [exact El|]. split; [exact Hh|]. split; [exact Ecnt|]. rewrite Es. exact Ecnt.
Qed.
End rehash.

Lemma insert_is_put depth fuel k v m :
  map_ok fuel m -> 4 * size m < 3 * capacity m -> map_insert depth fuel k v m = map_put fuel k v m.
Proof.
  intros M Hr. pose proof (cap_pos _ _ M). pose proof (mo_size _ _ M). unfold count in *.
  destruct depth; simpl; rewrite too_full_false by lia; reflexivity.
Qed.

Lemma find_value fuel m k v :
  map_ok fuel m -> holds m k v -> exists j, j ∈ occ_set m /\ mn_key (node m j) = k
    /\ mn_value (node m j) = v /\ _map_find fuel k m = Some j /\ j <> UINT32_MAX.
Proof.
  intros M (j & Hj & <- & Ev). exists j. split; [exact Hj|]. split; [reflexivity|].
  split; [exact Ev|]. split; [apply find_present; assumption|].
  apply occ_set_spec in Hj as [Hr _]. pose proof (cap_pos _ _ M). unfold UINT32_MAX. lia.
Qed.

(** Marking a node as deleted. *)
Definition mark_deleted (j : Z) (m : map_t) : map_t :=
  set_size (u32 (size m - 1)) (upd_node j (fun n => MapNode (mn_key n) (mn_value n) MAP_DELETED) m).

Lemma mark_deleted_ok fuel m k j :
  map_ok fuel m -> j ∈ occ_set m -> mn_key (node m j) = k ->
  map_ok fuel (mark_deleted j m)
  /\ forall k' v', holds (mark_deleted j m) k' v' <-> k' <> k /\ holds m k' v'.
Proof.
  intros M Hj Ek. set (m' := mark_deleted j m). pose proof (cap_pos _ _ M) as Hc.
  assert (forall i, node m' i = if decide (j = i)
            then MapNode (mn_key (node m i)) (mn_value (node m i)) MAP_DELETED else node m i) as En.
  { intros i. unfold m', mark_deleted, node, upd_node. simpl. rewrite upd_lookup. case_decide; subst; reflexivity. }
  assert (forall i, mn_key (node m' i) = mn_key (node m i) /\ mn_value (node m' i) = mn_value (node m i)) as Ekv.
  { intros i. rewrite En. case_decide; auto. }
  assert (occ_set m' = occ_set m ∖ {[j]}) as Eo.
  { apply set_eq. intros i. rewrite elem_of_difference, elem_of_singleton, !occ_set_spec.
    unfold occupied. rewrite En. change (capacity m') with (capacity m).
    case_decide; [subst; simpl; split; [intros [_ H]; discriminate H|tauto]|]. split; [|tauto].
    intros [? ?]. split; [tauto|congruence]. }
  assert (1 + count m' = count m) as Ecnt.
  { unfold count. rewrite Eo, size_difference by set_solver. rewrite size_singleton.
    assert (occ_set m <> ∅) as Hne by set_solver. pose proof (size_non_empty_iff (occ_set m)) as Hs.
    destruct (base.size (occ_set m)) eqn:E; [|lia]. apply size_empty_inv in E. set_solver. }
  pose proof (mo_size _ _ M) as [Hs1 Hs2].
  assert (size m' = size m - 1) as Es.
  { change (size m') with (u32 (size m - 1)). unfold count in *. apply u32_small. unfold in_u32. lia. }
  split.
  - split.
    + apply (mo_level _ _ M).
    + apply (mo_capacity _ _ M).
    + apply (mo_fuel _ _ M).
    + rewrite Es. change (capacity m') with (capacity m). lia.
    + intros a b Ha Hb. rewrite !(proj1 (Ekv _)). rewrite Eo in Ha, Hb.
      apply (mo_keys _ _ M); set_solver.
    + intros a Ha. rewrite Eo, elem_of_difference in Ha. destruct Ha as [Ha _].
      destruct (mo_reach _ _ M a Ha) as (i & Hi & Ei & Hl). exists i. rewrite (proj1 (Ekv a)).
      split; [exact Hi|]. split; [exact Ei|]. intros t Ht. specialize (Hl t Ht).
      change (slot m' (mn_key (node m a)) t) with (slot m (mn_key (node m a)) t).
      unfold live, occupied, deleted in *. rewrite En. case_decide; [right; reflexivity|exact Hl].
  - intros k' v'. unfold holds. rewrite Eo. split.
    + intros (a & Ha & E1 & E2). rewrite elem_of_difference, elem_of_singleton in Ha.
      destruct Ha as [Ha Hne]. destruct (Ekv a) as [E3 E4]. split; [|exists a; split; [exact Ha|split; congruence]].
      intros ->. apply Hne. apply (mo_keys _ _ M); congruence.
    + intros [Hne (a & Ha & E1 & E2)]. destruct (Ekv a) as [E3 E4]. exists a.
      rewrite elem_of_difference, elem_of_singleton. split; [split; [exact Ha|congruence]|split; congruence].
Qed.

Lemma map_find_present fuel m k v : map_ok fuel m -> holds m k v -> map_find fuel k m = Some (1, Some v).
Proof.
  intros M Hv. unfold map_find. destruct (find_value fuel m k v M Hv) as (j & _ & _ & Ev & -> & Hne). simpl.
  rewrite (proj2 (Z.eqb_neq _ _) Hne), Ev. reflexivity.
Qed.

(** A key that is not stored is not found, when some probe of it meets an empty slot. *)
Lemma map_find_absent fuel m k :
  map_ok fuel m -> (forall v, ~ holds m k v) -> (exists i, 0 <= i <= Z.of_nat fuel /\ ~ live m (slot m k i)) ->
  map_find fuel k m = Some (0, None).
Proof. intros M Hno (i & Hi & Hl). unfold map_find. rewrite (find_absent fuel m k i) by assumption. reflexivity. Qed.

(** ** Properties *)

(** [C26] [map_find] returns the value of a stored key, and 0 for a key that is not
    stored when some probe of it meets an empty slot. *)
Theorem map_find_correct fuel m k :
  map_ok fuel m ->
  (forall v, holds m k v -> map_find fuel k m = Some (1, Some v))
  /\ ((forall v, ~ holds m k v) ->
      (exists i, 0 <= i <= Z.of_nat fuel /\ ~ live m (slot m k i)) ->
      map_find fuel k m = Some (0, None)).
Proof.
  intros M. split; [intros v; apply map_find_present, M|]. apply map_find_absent, M.
Qed.

(** The search of an insertion ends, and cannot pass the key by. *)
Definition insert_room (fuel : nat) (m : map_t) (k : Z) : Prop :=
  capacity_level m <= 15 /\ prime_at (capacity_level m + 1) <= 2 * Z.of_nat fuel
  /\ (no_tombstone m \/ (forall w, ~ holds m k w))
  /\ (too_full m = true \/ 2 * count m < capacity m + 1).

Lemma map_insert_ok depth fuel m k v :
  map_ok fuel m -> insert_room fuel m k ->
  exists m', map_insert (S depth) fuel k v m = Some m' /\ map_ok fuel m' /\ updated m m' k v.
Proof.
  intros M (Hl & Hf & Hk & Hroom). pose proof (mo_level _ _ M) as Hl2. pose proof (mo_size _ _ M) as Hs.
  pose proof (cap_pos _ _ M) as Hc. simpl. destruct (too_full m) eqn:Efull.
  - destruct (level_ok (capacity_level m)) as (_ & _ & Hg & _); [lia|].
    rewrite <- (mo_capacity _ _ M) in Hg.
    destruct (rehash_ok fuel m (capacity_level m + 1) (map_insert depth fuel) M) as
      (m1 & -> & M1 & Hnt & Ec1 & El1 & Hsame & Ecnt & Es); [lia|exact Hf|lia| |].
    { intros k' v' m' M' Hr. apply insert_is_put; assumption. }
    simpl. destruct (map_put_ok fuel m1 k v M1 (or_introl Hnt)) as (m' & -> & M' & Hu & _).
    { apply half_full_has_free; [exact M1|]. rewrite Ecnt, Ec1. lia. }
    { rewrite Es, Ec1. lia. }
    exists m'. split; [reflexivity|]. split; [exact M'|]. intros k' v'. rewrite (Hu k' v'), (Hsame k' v').
    reflexivity.
  - destruct Hroom as [|Hhalf]; [discriminate|]. simpl.
    destruct (map_put_ok fuel m k v M Hk) as (m' & -> & M' & Hu & _).
    { apply half_full_has_free; assumption. }
    { apply too_full_room; try assumption; unfold count in *; lia. }
    exists m'. auto.
Qed.

(** The search of a deletion ends, in the table it may have shrunk to. *)
Definition delete_room (fuel : nat) (m : map_t) (k : Z) : Prop :=
  (too_empty m = true -> 2 * count m < prime_at (capacity_level m - 1) + 1
     /\ prime_at (capacity_level m - 1) <= 2 * Z.of_nat fuel)
  /\ (too_empty m = false -> (exists v, holds m k v)
       \/ exists i, 0 <= i <= Z.of_nat fuel /\ ~ live m (slot m k i)).

Lemma map_delete_ok depth fuel m k :
  map_ok fuel m -> delete_room fuel m k ->
  exists m', map_delete depth fuel k m = Some m' /\ map_ok fuel m'
    /\ forall k' v', holds m' k' v' <-> k' <> k /\ holds m k' v'.
Proof.
  intros M [Hshrink Hfind]. pose proof (mo_level _ _ M) as Hl2. unfold map_delete.
  assert (exists m1, (if too_empty m then map_rehash depth fuel m (capacity_level m - 1) else Some m) = Some m1
    /\ map_ok fuel m1 /\ same_contents m m1 /\ ((exists v, holds m1 k v)
        \/ exists i, 0 <= i <= Z.of_nat fuel /\ ~ live m1 (slot m1 k i))) as (m1 & -> & M1 & Hsame & Hf1).
  { destruct (too_empty m) eqn:Ee; [|exists m; split; [reflexivity|]; split; [exact M|]; split;
      [intros k' v'; reflexivity|auto]].
    destruct (Hshrink eq_refl) as [Hh Hf]. unfold map_rehash.
    assert (3 < capacity_level m) as Hl3 by (unfold too_empty in Ee; reflect_bools; assumption).
    destruct (rehash_ok fuel m (capacity_level m - 1) (map_insert depth fuel) M) as
      (m1 & -> & M1 & Hnt & Ec1 & El1 & Hsame & Ecnt & Es); [lia|exact Hf|lia| |].
    { intros k' v' m' M' Hr. apply insert_is_put; assumption. }
    exists m1. split; [reflexivity|]. split; [exact M1|]. split; [exact Hsame|]. right.
    destruct (half_full_has_free fuel m1 k M1) as (i & Hi & Ho); [rewrite Ecnt, Ec1; lia|].
    exists i. split; [exact Hi|]. intros [?|Hd]; [contradiction|apply (Hnt _ Hd)]. }
  simpl. destruct (decide (Exists (fun j => mn_key (node m1 j) = k) (elements (occ_set m1)))) as [He|He].
  - apply Exists_exists in He as (j & Hj & Ej). apply elem_of_elements in Hj.
    assert (holds m1 k (mn_value (node m1 j))) as Hv by (exists j; auto).
    destruct (find_value fuel m1 k _ M1 Hv) as (j' & Hj' & Ej' & _ & -> & Hne). simpl.
    rewrite (proj2 (Z.eqb_neq _ _) Hne). simpl.
    destruct (mark_deleted_ok fuel m1 k j' M1 Hj' Ej') as [M' Hh].
    eexists. split; [reflexivity|]. split; [exact M'|]. intros k' v'. rewrite (Hh k' v'), (Hsame k' v').
    reflexivity.
  - assert (forall v, ~ holds m1 k v) as Hno.
    { intros v (j & Hj & Ej & _). apply He, Exists_exists. exists j. rewrite elem_of_elements. auto. }
    destruct Hf1 as [[v Hv]|(i & Hi & Hli)]; [destruct (Hno v Hv)|].
    rewrite (find_absent fuel m1 k i) by assumption. simpl.
    exists m1. split; [reflexivity|]. split; [exact M1|]. intros k' v'. rewrite (Hsame k' v').
    split; [|tauto]. intros H. split; [|exact H]. intros ->. apply (Hno v'), Hsame, H.
Qed.

(** [C22] [map_insert] refines the insertion in a finite map, growing the table
    when it is three quarters full: it ends, keeps the invariant and changes the
    value of the one key, if no deleted slot can stand before the key (none in
    the table, or the key is new), the table is below half full or about to grow,
    and its level is at most 15 (43669 slots).  Otherwise a key can be stored twice
    ([tombstone_brings_back_old_value]) or no free slot be probed
    ([probes_miss_free_slots]). *)
Theorem map_insert_correct depth fuel m k v :
  map_ok fuel m -> capacity_level m <= 15 ->
  prime_at (capacity_level m + 1) <= 2 * Z.of_nat fuel ->
  no_tombstone m \/ (forall w, ~ holds m k w) ->
  too_full m = true \/ 2 * count m < capacity m + 1 ->
  exists m', map_insert (S depth) fuel k v m = Some m' /\ map_ok fuel m' /\ updated m m' k v.
Proof. intros M Hl Hf Hk Hr. apply map_insert_ok; [exact M|]. split; auto. Qed.

(** [C24] [map_delete] refines the deletion in a finite map, shrinking the table
    when it is a quarter full: it ends, keeps the invariant and removes the one
    key, if the table that does not shrink holds the key or an empty slot on its
    probes, and the entries fill less than half of the table that it shrinks to.
    Otherwise the search need not end ([find_diverges_after_deletions]). *)
Theorem map_delete_correct depth fuel m k :
  map_ok fuel m ->
  (too_empty m = true -> 2 * count m < prime_at (capacity_level m - 1) + 1
     /\ prime_at (capacity_level m - 1) <= 2 * Z.of_nat fuel) ->
  (too_empty m = false -> (exists v, holds m k v)
     \/ exists i, 0 <= i <= Z.of_nat fuel /\ ~ live m (slot m k i)) ->
  exists m', map_delete depth fuel k m = Some m' /\ map_ok fuel m'
    /\ forall k' v', holds m' k' v' <-> k' <> k /\ holds m k' v'.
Proof. intros M Hs Hf. apply map_delete_ok; [exact M|]. split; assumption. Qed.

(** ** Instances *)

Lemma map_init_ok : map_ok 100 map_init /\ no_tombstone map_init /\ count map_init = 0
  /\ forall k v, ~ holds map_init k v.
Proof. apply (empty_ok 100 3); vm_compute; try split; try discriminate; reflexivity. Qed.

Lemma map_insert_correct_witness :
  map_ok 100 map_init /\ no_tombstone map_init /\ 2 * count map_init < capacity map_init + 1
  /\ exists m', map_insert 1 100 5 50 map_init = Some m' /\ holds m' 5 50.
Proof.
  destruct map_init_ok as (M & Hnt & Ecnt & _). split; [exact M|]. split; [exact Hnt|].
  assert (2 * count map_init < capacity map_init + 1) as Hh by (rewrite Ecnt; reflexivity).
  split; [exact Hh|].
  destruct (map_insert_correct 0 100 map_init 5 50 M ltac:(discriminate) ltac:(discriminate)
    (or_introl Hnt) (or_intror Hh)) as (m' & E & _ & Hu).
  exists m'. split; [exact E|]. apply Hu. left. split; reflexivity.
Defined.

(** A table with one entry. *)
Lemma one_entry : exists m, map_insert 1 100 5 50 map_init = Some m /\ map_ok 100 m
  /\ holds m 5 50 /\ capacity_level m = 3.
Proof.
  destruct map_init_ok as (M & Hnt & Ecnt & _).
  destruct (map_put_ok 100 map_init 5 50 M (or_introl Hnt)) as (m & E & M' & Hu & _ & El & _).
  - apply half_full_has_free; [exact M|]. rewrite Ecnt. reflexivity.
  - reflexivity.
  - exists m. rewrite insert_is_put by (exact M || reflexivity). split; [exact E|]. split; [exact M'|].
    split; [apply Hu; auto|exact El].
Qed.

Lemma map_find_correct_witness :
  exists m, map_insert 1 100 5 50 map_init = Some m /\ map_ok 100 m /\ holds m 5 50
    /\ map_find 100 5 m = Some (1, Some 50).
Proof.
  destruct one_entry as (m & E & M & Hh & _). exists m. split; [exact E|]. split; [exact M|].
  split; [exact Hh|]. exact (proj1 (map_find_correct 100 m 5 M) 50 Hh).
Defined.

Lemma map_delete_correct_witness :
  exists m, map_insert 1 100 5 50 map_init = Some m /\ map_ok 100 m /\ holds m 5 50
    /\ exists m', map_delete 1 100 5 m = Some m' /\ ~ holds m' 5 50.
Proof.
  destruct one_entry as (m & E & M & Hh & El). exists m. split; [exact E|]. split; [exact M|].
  split; [exact Hh|].
  destruct (map_delete_correct 1 100 m 5 M) as (m' & Ed & _ & Hd).
  - unfold too_empty. rewrite El. discriminate.
  - intros _. left. exists 50. exact Hh.
  - exists m'. split; [exact Ed|]. intros H. apply Hd in H. destruct H as [H _]. apply H. reflexivity.
Defined.

(** Below half full, the search for a free slot ends: the probe sequence of
    every key visits more than half of the slots, because the capacities are
    prime. *)
Theorem half_full_insert_ends fuel m k :
  map_ok fuel m -> 2 * count m < capacity m + 1 ->
  exists j, insert_slot fuel k 0 m = Some j /\ 0 <= j < capacity m
    /\ (occupied m j -> mn_key (node m j) = k).
Proof.
  intros M Hh. destruct (half_full_has_free fuel m k M Hh) as (i0 & Hi0 & Hfree).
  pose proof (mo_fuel _ _ M) as [_ Hfu]. pose proof (cap_pos _ _ M).
  destruct (insert_slot_from fuel k m 0) as (i & Hi & Ei & Hs & _);
    [lia|lia|exists i0; split; [lia|intros Ho; contradiction]|].
  exists (slot m k i). split; [exact Ei|]. split; [apply slot_range; lia|exact Hs].
Qed.

Lemma half_full_insert_ends_witness :
  map_ok 100 map_init /\ 2 * count map_init < capacity map_init + 1
  /\ exists j, insert_slot 100 12 0 map_init = Some j.
Proof.
  destruct map_init_ok as (M & _ & Ecnt & _). split; [exact M|].
  assert (2 * count map_init < capacity map_init + 1) as Hh by (rewrite Ecnt; reflexivity).
  split; [exact Hh|]. destruct (half_full_insert_ends 100 map_init 12 M Hh) as (j & E & _).
  exists j. exact E.
Defined.

(** ** Runs outside the hypotheses *)

Inductive map_op :=
  | Insert (k v : Z)
  | Delete (k : Z).

Definition run_op (o : map_op) (m : map_t) : option map_t :=
  match o with
  | Insert k v => map_insert 2 100 k v m
  | Delete k => map_delete 2 100 k m
  end.

Definition run (os : list map_op) : option map_t := foldl (fun acc o => m ← acc; run_op o m) (Some map_init) os.

(** [map_insert] stops at a deleted slot without looking for the key behind it:
    the key is stored twice, and deleting it brings the old value back. *)
Lemma tombstone_brings_back_old_value :
  (m ← run [Insert 0 9; Insert 7 1; Delete 0; Insert 7 2; Delete 7]; map_find 100 7 m) = Some (1, Some 1).
Proof. vm_compute. reflexivity. Qed.

(** With four of the seven slots occupied, below the load factor that makes the
    table grow, the probes of key 28 only meet occupied slots until
    [probe_level * probe_level] wraps around, after 2^16 probes. *)
Lemma probes_miss_free_slots :
  match run [Insert 0 1; Insert 7 2; Insert 14 3; Insert 21 4] with
  | Some m => negb (too_full m)
      && for_loop 2000 0 (fun i acc => acc && is_status m (slot m 28 i) MAP_OCCUPIED) true
  | None => false
  end = true.
Proof. vm_compute. reflexivity. Qed.

(** Without an empty slot the search for an absent key never ends. *)
Lemma find_diverges m k fuel i :
  0 < capacity m -> (forall j, 0 <= j < capacity m -> live m j /\ (occupied m j -> mn_key (node m j) <> k)) ->
  map_find_from fuel k i m = None.
Proof.
  intros Hc H. revert i. induction fuel as [|fuel IH]; intros i; simpl;
    destruct (H (slot m k i) (slot_range m k i Hc)) as [Hl Hk];
    (replace (is_status m (slot m k i) MAP_OCCUPIED || is_status m (slot m k i) MAP_DELETED) with true
      by (symmetry; apply orb_true_iff; rewrite !status_true; exact Hl));
    (replace ((mn_key (node m (slot m k i)) =? k) && is_status m (slot m k i) MAP_OCCUPIED) with false);
    try reflexivity; try apply IH;
    symmetry; apply andb_false_iff; rewrite Z.eqb_neq, status_false;
    destruct (Z.eq_dec (mn_status (node m (slot m k i))) MAP_OCCUPIED); auto.
Qed.

(** Seven insertions and deletions leave seven deleted slots and no empty one. *)
Definition seven_tombstones : map_t :=
  default map_init (run [Insert 0 1; Delete 0; Insert 1 1; Delete 1; Insert 2 1; Delete 2;
    Insert 3 1; Delete 3; Insert 4 1; Delete 4; Insert 5 1; Delete 5; Insert 6 1; Delete 6]).

Lemma seven_tombstones_checks :
  (capacity seven_tombstones =? 7)
  && forallb (fun j => is_status seven_tombstones j MAP_DELETED) [0; 1; 2; 3; 4; 5; 6] = true.
Proof. vm_compute. reflexivity. Qed.

#[local] Opaque seven_tombstones.

Lemma find_diverges_after_deletions fuel : map_find fuel 9 seven_tombstones = None.
Proof.
  pose proof seven_tombstones_checks as H. reflect_bools. rewrite forallb_forall in H0.
  unfold map_find, _map_find. rewrite (find_diverges seven_tombstones 9 fuel 0); [simpl; trivial|lia|].
  intros j Hj. specialize (H0 j ltac:(simpl; lia)). apply status_true in H0.
  split; [right; exact H0|]. unfold occupied. rewrite H0. intros Hx. discriminate Hx.
Qed.
