(* ===== verification/Printf.v ===== *)
(** * libc/stdio/printf.c: number formatting and printf

    A buffer is a store of characters indexed by offset; a string in it starts
    at an offset and ends at the first 0.  [printf] reads its format as a list
    of characters, takes its arguments from a list and returns what it prints
    and its return value.  The static flags of the hexadecimal conversion and the
    variable [str], which outlives a conversion, are part of the state. *)

From S2P Require Import Prelude.

(** ** Characters *)

Definition chr_0 : Z := 48.
Definition chr_x : Z := 120.
Definition chr_X : Z := 88.
Definition chr_d : Z := 100.
Definition chr_c : Z := 99.
Definition chr_s : Z := 115.
Definition chr_8 : Z := 56.
Definition chr_minus : Z := 45.
Definition chr_percent : Z := 37.
Definition chr_hash : Z := 35.
Definition chr_space : Z := 32.
Definition INT_MAX : Z := 2147483647.

Notation buffer := (gmap Z Z) (only parsing).

(** ** uint2string, int2string *)

(** The loop [while(i>=0 && n>0)] that writes the digits from the right; [f]
    gives the character of a digit. *)
Definition digit_loop (base : Z) (f : Z -> Z) (fuel : nat) (i n : Z) (buf : buffer)
  : option (Z * Z * buffer) :=
  while fuel (fun '(i, n, _) => (0 <=? i) && (0 <? n))
    (fun '(i, n, buf) => let i := i - 1 in (i, n / base, <[i := f (n mod base)]> buf)) (i, n, buf).

(** The offset of the string, [None] for a null pointer, and the buffer. *)
Definition uint2string (n max_size : Z) (buf : buffer) : option (option Z * buffer) :=
  let i := max_size - 1 in
  let buf := <[i := 0]> buf in
  let '(i, buf) := if n =? 0 then (i - 1, <[i - 1 := chr_0]> buf) else (i, buf) in
  '(i, n, buf) ← digit_loop 10 (fun d => d + chr_0) 11 i n buf;
  Some (if n =? 0 then Some i else None, buf).

Definition int2string (n max_size : Z) (buf : buffer) : option (option Z * buffer) :=
  if n <? 0 then
    let n := n + 1 in
    let num := u32 (0 - n) in
    let num := u32 (num + 1) in
    '(tmp, buf) ← uint2string num (max_size - 1) buf;
    tmp ← tmp;
    let tmp := tmp - 1 in
    Some (Some tmp, <[tmp := chr_minus]> buf)
  else
    let num := n in
    uint2string num max_size buf.

(** ** hex2string *)

Record hex_flags := HexFlags {
  hex_digits_max : Z;
  hex_flag : Z;
  hex_complement : Z;
  format_sign : Z
}.

Definition mapx (d : Z) : Z := if d <? 10 then d + chr_0 else d - 10 + 97.
Definition mapX (d : Z) : Z := if d <? 10 then d + chr_0 else d - 10 + 65.

Definition hex2string (fl : hex_flags) (n max_size : Z) (buf : buffer)
  : option (option Z * buffer) :=
  let i := max_size - 1 in
  let num := 0 in
  let buf := <[i := 0]> buf in
  let '(i, num, buf) :=
    if n =? 0 then (i - 1, num + 1, <[i - 1 := chr_0]> buf) else (i, num, buf) in
  let i0 := i in
  '(i, n, buf) ← digit_loop 16 (fun d => if hex_flag fl =? chr_x then mapx d else mapX d) 9 i n buf;
  let num := num + (i0 - i) in
  '(i, _, buf) ← while 8 (fun '(_, num, _) => num <? hex_digits_max fl)
     (fun '(i, num, buf) => let i := i - 1 in (i, num + 1, <[i := hex_complement fl]> buf)) (i, num, buf);
  let '(i, buf) :=
    if format_sign fl =? chr_hash
    then (i - 2, <[i - 2 := chr_0]> (<[i - 1 := chr_x]> buf)) else (i, buf) in
  Some (if n =? 0 then Some i else None, buf).

(** ** printf *)

Inductive argument :=
  | AInt (n : Z)
  | AStr (s : list Z).

(** The characters of a buffer from an offset up to the first 0. *)
Fixpoint read_string (fuel : nat) (buf : buffer) (i : Z) : list Z :=
  match fuel with
  | O => []
  | S f => if buf !!! i =? 0 then [] else (buf !!! i) :: read_string f buf (i + 1)
  end.

Definition BUF_SIZE : Z := 100.

(** Where [print] sends its characters: whether it could, and the state afterwards;
    [None] when the caller is put to sleep. *)
Class Sink (W : Type) := { sink : list Z -> W -> option (bool * W) }.

(** The state of a call: the flags, the buffer contents behind [str] as the
    string it points to (empty for the null pointer), what is printed to and
    [written]. *)
Record pf_state (W : Type) := PfState {
  pf_flags : hex_flags;
  pf_buf : buffer;
  pf_str : list Z;
  pf_out : W;
  pf_written : Z
}.
Arguments PfState {W}. Arguments pf_flags {W}. Arguments pf_buf {W}. Arguments pf_str {W}. Arguments pf_out {W}. Arguments pf_written {W}.

(** The length of the text before the next directive, at least 1. *)
Fixpoint text_length (fmt : list Z) : nat :=
  match fmt with
  | [] => O
  | c :: fmt' => if c =? chr_percent then O else S (text_length fmt')
  end.

(** A hexadecimal directive: the flags it sets, as the width, the sign and the
    padding character ([None] leaves the last one set), the character [x] or [X],
    and what follows. *)
Definition hex_directive (fmt : list Z) : option (Z * Z * option Z * Z * list Z) :=
  let is_x c := (c =? chr_x) || (c =? chr_X) in
  match fmt with
  | [] => None
  | a :: t =>
    if is_x a then Some (0, chr_space, None, a, t)
    else match t with
    | [] => None
    | b :: t2 =>
      if (a =? chr_0) && is_x b then Some (0, chr_space, None, b, t2)
      else if (a =? chr_0) && (b =? chr_8) && is_x (nth 0 t2 0) then
        Some (8, chr_space, Some chr_0, nth 0 t2 0, tail t2)
      else if (a =? chr_8) && is_x b then Some (8, chr_space, Some chr_space, b, t2)
      else if (a =? chr_hash) && is_x b then Some (0, chr_hash, None, b, t2)
      else if (a =? chr_hash) && (b =? chr_0) && is_x (nth 0 t2 0) then
        Some (0, chr_hash, None, nth 0 t2 0, tail t2)
      else if (a =? chr_hash) && (b =? chr_0) && (nth 0 t2 0 =? chr_8) && is_x (nth 1 t2 0) then
        Some (8, chr_hash, Some chr_0, nth 1 t2 0, tail (tail t2))
      else if (a =? chr_hash) && (b =? chr_8) && is_x (nth 0 t2 0) then
        Some (8, chr_hash, Some chr_space, nth 0 t2 0, tail t2)
      else None
    end
  end.

Section printf.
Context {W : Type} `{Sink W}.
Implicit Types s : pf_state W.

(** [print(data, length)]. *)
Definition print (data : list Z) s : option (bool * pf_state W) :=
  '(ok, w) ← sink data (pf_out s);
  Some (ok, PfState (pf_flags s) (pf_buf s) (pf_str s) w (pf_written s)).

Definition add_written (n : Z) s : pf_state W :=
  PfState (pf_flags s) (pf_buf s) (pf_str s) (pf_out s) (pf_written s + n).

Definition set_str (v : list Z) s : pf_state W :=
  PfState (pf_flags s) (pf_buf s) v (pf_out s) (pf_written s).

(** [str = conversion(n, buf, buf_size)]; a null result is an empty string to
    [strlen]. *)
Definition convert (r : option (option Z * buffer)) s : option (pf_state W) :=
  '(off, buf) ← r;
  Some (PfState (pf_flags s) buf
          (match off with Some i => read_string 100 buf i | None => [] end) (pf_out s) (pf_written s)).

Definition int_arg (args : list argument) : option (Z * list argument) :=
  match args with
  | AInt n :: args => Some (n, args)
  | _ => None
  end.

(** The directive after a [%]: the rest of the format and of the arguments, and
    the new state, or the return value -1 ([inl]). *)
Definition directive (begun fmt : list Z) (args : list argument) (maxrem : Z) s
  : option (pf_state W + list Z * list argument * pf_state W) :=
  match hex_directive fmt with
  | Some (width, sign, pad, x, rest) =>
      '(n, args) ← int_arg args;
      let fl := HexFlags width x
                  (match pad with Some p => p | None => hex_complement (pf_flags s) end) sign in
      let s := PfState fl (pf_buf s) (pf_str s) (pf_out s) (pf_written s) in
      s ← convert (hex2string fl (u32 n) BUF_SIZE (pf_buf s)) s;
      Some (inr (rest, args, s))
  | None =>
    match fmt with
    | [] => Some (inr ([], args, set_str begun s))
    | c :: rest =>
      if c =? chr_c then
        '(n, args) ← int_arg args;
        if maxrem =? 0 then Some (inl s)
        else
          '(ok, s) ← print [u8 n] s;
          Some (if ok : bool then inr (rest, args, add_written 1 s) else inl s)
      else if c =? chr_s then
        match args with
        | AStr v :: args => Some (inr (rest, args, set_str v s))
        | _ => None
        end
      else if c =? chr_d then
        '(n, args) ← int_arg args;
        s ← convert (int2string (s32 n) BUF_SIZE (pf_buf s)) s;
        Some (inr (rest, args, s))
      else Some (inr ([], args, set_str begun s))
    end
  end.

(** The return value and the state at the end; [None] when the arguments do not
    match the format. *)
Fixpoint printf_loop (fuel : nat) (fmt : list Z) (args : list argument) s
  : option (Z * pf_state W) :=
  match fuel with
  | O => match fmt with [] => Some (pf_written s, s) | _ => None end
  | S f =>
    match fmt with
    | [] => Some (pf_written s, s)
    | c0 :: fmt1 =>
      let maxrem := INT_MAX - pf_written s in
      if negb (c0 =? chr_percent) || (nth 0 fmt1 0 =? chr_percent) then
        let '(c, rest) := if c0 =? chr_percent then (chr_percent, tail fmt1) else (c0, fmt1) in
        let amount := S (text_length rest) in
        if maxrem <? Z.of_nat amount then Some (-1, s)
        else
          '(ok, s) ← print (c :: take (text_length rest) rest) s;
          if ok : bool then printf_loop f (drop (text_length rest) rest) args (add_written (Z.of_nat amount) s)
          else Some (-1, s)
      else
        r ← directive fmt fmt1 args maxrem s;
        match r with
        | inl s => Some (-1, s)
        | inr (fmt, args, s) =>
            let len := Z.of_nat (length (pf_str s)) in
            if maxrem <? len then Some (-1, s)
            else
              '(ok, s) ← print (pf_str s) s;
              if ok : bool then printf_loop f fmt args (add_written len s) else Some (-1, s)
        end
    end
  end.

(** The flags are static: a call starts with those of the one before. *)
Definition printf (fmt : list Z) (args : list argument) (fl : hex_flags) (w : W) : option (Z * pf_state W) :=
  printf_loop (length fmt) fmt args (PfState fl ∅ [] w 0).
End printf.
