(* ===== verification/PrintfProofs.v ===== *)
(** * Properties of number formatting and printf

    The conversions write the positional notation of the number, whose value is
    the number again; [printf] prints the concatenation of what its directives
    stand for. *)

From S2P Require Import Prelude Printf.

(** ** Positional notation *)

(** The digits of [n] in base [b], the most significant first; none for 0. *)
Fixpoint digits (fuel : nat) (b n : Z) : list Z :=
  match fuel with
  | O => []
  | S f => if n =? 0 then [] else digits f b (n / b) ++ [n mod b]
  end.

(** The notation of a number: at least one digit. *)
Definition notation (b n : Z) : list Z := if n =? 0 then [0] else digits 32 b n.

Definition value (b : Z) (ds : list Z) : Z := foldl (fun acc d => acc * b + d) 0 ds.

Lemma value_snoc b ds d : value b (ds ++ [d]) = value b ds * b + d.
Proof. unfold value. rewrite foldl_app. reflexivity. Qed.

Lemma div_small n b k : 2 <= b -> 0 <= n < b ^ (Z.of_nat (S k)) -> 0 <= n / b < b ^ Z.of_nat k.
Proof.
  intros Hb Hn. rewrite Nat2Z.inj_succ, Z.pow_succ_r in Hn by lia.
  split; [apply Z.div_pos; lia|]. apply Z.div_lt_upper_bound; lia.
Qed.

Lemma digits_value fuel b n :
  2 <= b -> 0 <= n < b ^ Z.of_nat fuel -> value b (digits fuel b n) = n.
Proof.
  intros Hb. revert n. induction fuel as [|fuel IH]; intros n Hn; simpl digits.
  - change (b ^ Z.of_nat 0) with 1 in Hn. unfold value. simpl. lia.
  - destruct (Z.eqb_spec n 0) as [->|Hne]; [reflexivity|].
    rewrite value_snoc, IH by (apply div_small; assumption).
    pose proof (Z.div_mod n b). lia.
Qed.

Lemma digits_length fuel b n k :
  2 <= b -> 0 <= n < b ^ Z.of_nat k -> (length (digits fuel b n) <= k)%nat.
Proof.
  intros Hb. revert n k. induction fuel as [|fuel IH]; intros n k Hn; simpl; [lia|].
  destruct (Z.eqb_spec n 0); [simpl; lia|]. rewrite length_app. simpl.
  destruct k as [|k]; [change (b ^ Z.of_nat 0) with 1 in Hn; lia|].
  specialize (IH (n / b) k (div_small n b k Hb Hn)). lia.
Qed.

Lemma digits_range fuel b n d : 2 <= b -> 0 <= n -> d ∈ digits fuel b n -> 0 <= d < b.
Proof.
  intros Hb. revert n. induction fuel as [|fuel IH]; intros n Hn; simpl; [set_solver|].
  destruct (Z.eqb_spec n 0); [set_solver|]. rewrite elem_of_app, list_elem_of_singleton.
  intros [Hd | ->]; [apply (IH (n / b)); [apply Z.div_pos; lia|exact Hd]|].
  apply Z.mod_pos_bound. lia.
Qed.

(** The first digit is not 0. *)
Lemma digits_head fuel b n :
  2 <= b -> 0 < n < b ^ Z.of_nat fuel -> exists d ds, digits fuel b n = d :: ds /\ d <> 0.
Proof.
  intros Hb. revert n. induction fuel as [|fuel IH]; intros n Hn; simpl.
  - change (b ^ Z.of_nat 0) with 1 in Hn. lia.
  - rewrite (proj2 (Z.eqb_neq n 0)) by lia.
    destruct (Z.eq_dec (n / b) 0) as [E|E].
    + rewrite E. destruct fuel; simpl; exists (n mod b), []; (split; [reflexivity|]);
        pose proof (Z.div_mod n b); lia.
    + destruct (div_small n b fuel Hb ltac:(lia)) as [H1 H2].
      destruct (IH (n / b)) as (d & ds & -> & Hd); [lia|]. simpl. eauto.
Qed.

Lemma digits_S f b n : n <> 0 -> digits (S f) b n = digits f b (n / b) ++ [n mod b].
Proof. intros Hn. simpl. rewrite (proj2 (Z.eqb_neq n 0)) by assumption. reflexivity. Qed.

Lemma digits_pow f1 f2 b n :
  2 <= b -> 0 <= n < b ^ Z.of_nat f1 -> (f1 <= f2)%nat -> digits f2 b n = digits f1 b n.
Proof.
  intros Hb. revert f2 n. induction f1 as [|f1 IH]; intros f2 n Hn Hle.
  - change (b ^ Z.of_nat 0) with 1 in Hn. assert (n = 0) as -> by lia. destruct f2; reflexivity.
  - destruct f2 as [|f2]; [lia|]. simpl. destruct (n =? 0); [reflexivity|].
    rewrite (IH f2) by (lia || apply div_small; assumption). reflexivity.
Qed.

#[local] Arguments digits : simpl never.

(** ** Strings in a buffer *)

Definition str_at (buf : gmap Z Z) (i : Z) (s : list Z) : Prop :=
  forall k c, s !! k = Some c -> buf !!! (i + Z.of_nat k) = c.

Lemma str_at_cons buf i c s : buf !!! i = c -> str_at buf (i + 1) s -> str_at buf i (c :: s).
Proof.
  intros Hc Hs [|k] c' E; simpl in E; [simplify_eq; f_equal; lia|].
  rewrite <- (Hs k c' E). f_equal. lia.
Qed.

Lemma str_at_uncons buf i c s : str_at buf i (c :: s) -> buf !!! i = c /\ str_at buf (i + 1) s.
Proof.
  intros H. split; [rewrite <- (H 0%nat c eq_refl); f_equal; lia|].
  intros k c' E. rewrite <- (H (S k) c' E). f_equal. lia.
Qed.

Lemma str_at_insert_before buf i c s : str_at buf i s -> str_at (<[i - 1 := c]> buf) (i - 1) (c :: s).
Proof.
  intros H. apply str_at_cons; [apply lookup_total_insert_eq|].
  intros k c' E. rewrite lookup_total_insert_ne by lia. rewrite <- (H k c' E). f_equal. lia.
Qed.

(** What lies in front of a string of a buffer is not changed by a conversion. *)
Definition same_below (i : Z) (b b' : gmap Z Z) : Prop := forall j, j < i -> b' !!! j = b !!! j.

Lemma read_string_at fuel buf i s :
  str_at buf i (s ++ [0]) -> (0 ∉ s) -> (length s < fuel)%nat -> read_string fuel buf i = s.
Proof.
  revert fuel i. induction s as [|c s IH]; intros fuel i H Hz Hl; (destruct fuel as [|fuel]; [simpl in Hl; lia|]); simpl.
  - destruct (str_at_uncons _ _ _ _ H) as [-> _]. reflexivity.
  - destruct (str_at_uncons _ _ _ _ H) as [-> Hs]. apply not_elem_of_cons in Hz as [Hc Hz].
    rewrite (proj2 (Z.eqb_neq c 0)) by congruence. f_equal. apply IH; [exact Hs|exact Hz|simpl in Hl; lia].
Qed.

(** ** The digit loop *)

Lemma digit_loop_0 b f fuel i buf : digit_loop b f fuel i 0 buf = Some (i, 0, buf).
Proof. unfold digit_loop. apply while_false. rewrite andb_false_r. reflexivity. Qed.

Lemma digit_loop_S b f fuel i n buf :
  0 <= i -> 0 < n ->
  digit_loop b f (S fuel) i n buf = digit_loop b f fuel (i - 1) (n / b) (<[i - 1 := f (n mod b)]> buf).
Proof.
  intros Hi Hn. unfold digit_loop. rewrite while_true; [reflexivity|].
  apply andb_true_intro. split; [apply Z.leb_le|apply Z.ltb_lt]; lia.
Qed.

Lemma digit_loop_spec b f fuel k i n buf s :
  2 <= b -> 0 <= n < b ^ Z.of_nat k -> (k <= fuel)%nat -> Z.of_nat k <= i ->
  str_at buf i s ->
  let ds := digits 32 b n in (k <= 32)%nat ->
  exists buf', digit_loop b f fuel i n buf = Some (i - Z.of_nat (length ds), 0, buf')
    /\ str_at buf' (i - Z.of_nat (length ds)) ((f <$> ds) ++ s).
Proof.
  intros Hb Hn Hf Hi Hs. cbv zeta. intros Hk. rewrite (digits_pow k 32 b n) by assumption. clear Hk.
  revert fuel i n buf s Hn Hf Hi Hs. induction k as [|k IH]; intros fuel i n buf s Hn Hf Hi Hs.
  - change (b ^ Z.of_nat 0) with 1 in Hn. assert (n = 0) as -> by lia. exists buf.
    rewrite digit_loop_0. change (digits 0 b 0) with (@nil Z). simpl. rewrite Z.sub_0_r. auto.
  - destruct (Z.eqb_spec n 0) as [->|Hne].
    + exists buf. rewrite digit_loop_0. change (digits (S k) b 0) with (@nil Z). simpl. rewrite Z.sub_0_r. auto.
    + destruct fuel as [|fuel]; [lia|]. rewrite digit_loop_S by lia.
      destruct (IH fuel (i - 1) (n / b) (<[i - 1 := f (n mod b)]> buf) (f (n mod b) :: s))
        as (buf' & E & Hs'); [apply div_small; assumption|lia|lia|apply str_at_insert_before, Hs|].
      exists buf'. rewrite digits_S, length_app by assumption. simpl length.
      replace (i - Z.of_nat (length (digits k b (n / b)) + 1))
        with (i - 1 - Z.of_nat (length (digits k b (n / b)))) by lia.
      split; [exact E|]. rewrite fmap_app, <- app_assoc. exact Hs'.
Qed.

Lemma notation_length b n k :
  2 <= b -> 0 <= n < b ^ Z.of_nat k -> (1 <= k)%nat -> (1 <= length (notation b n) <= k)%nat.
Proof.
  intros Hb Hn Hk. unfold notation. destruct (Z.eqb_spec n 0); [simpl; lia|].
  split; [|apply digits_length; assumption]. rewrite (digits_S 31) by assumption.
  rewrite length_app. simpl length. lia.
Qed.

Definition decimal (n : Z) : list Z := (fun d => d + chr_0) <$> notation 10 n.

Lemma uint2string_spec n max_size buf :
  0 <= n < 2 ^ 32 -> 11 <= max_size ->
  exists i buf', uint2string n max_size buf = Some (Some i, buf')
    /\ str_at buf' i (decimal n ++ [0]) /\ i = max_size - 1 - Z.of_nat (length (decimal n)).
Proof.
  intros Hn Hm. unfold uint2string.
  assert (str_at (<[max_size - 1 := 0]> buf) (max_size - 1) [0]) as Hs.
  { apply str_at_cons; [apply lookup_total_insert_eq|]. intros k c E. discriminate E. }
  unfold decimal, notation. destruct (Z.eqb_spec n 0) as [->|Hne].
  - rewrite digit_loop_0. eexists _, _. split; [reflexivity|]. simpl. split; [|lia]. apply str_at_insert_before, Hs.
  - destruct (digit_loop_spec 10 (fun d => d + chr_0) 11 10 (max_size - 1) n
      (<[max_size - 1 := 0]> buf) [0]) as (buf' & -> & Hs'); [lia|simpl; lia|lia|lia|exact Hs|lia|].
    simpl. eexists _, _. split; [reflexivity|]. rewrite length_fmap. split; [exact Hs'|lia].
Qed.

Definition signed_decimal (n : Z) : list Z :=
  if n <? 0 then chr_minus :: decimal (- n) else decimal n.

Lemma decimal_length n : 0 <= n < 2 ^ 32 -> (1 <= length (decimal n) <= 10)%nat.
Proof. intros Hn. unfold decimal. rewrite length_fmap. apply notation_length; simpl; lia. Qed.

Lemma int2string_spec n max_size buf :
  - 2 ^ 31 <= n < 2 ^ 31 -> 13 <= max_size <= 100 ->
  exists i buf', int2string n max_size buf = Some (Some i, buf')
    /\ str_at buf' i (signed_decimal n ++ [0]) /\ 0 <= i.
Proof.
  intros Hn Hm. unfold int2string, signed_decimal. destruct (Z.ltb_spec n 0) as [Hneg|Hpos].
  - assert (u32 (u32 (0 - (n + 1)) + 1) = - n) as ->.
    { rewrite (u32_small (0 - (n + 1))), u32_small by (unfold in_u32; lia). lia. }
    destruct (uint2string_spec (- n) (max_size - 1) buf) as (i & buf' & -> & Hs & Ei); [lia|lia|].
    pose proof (decimal_length (- n) ltac:(lia)). simpl.
    eexists _, _. split; [reflexivity|]. split; [apply str_at_insert_before, Hs|lia].
  - destruct (uint2string_spec n max_size buf) as (i & buf' & -> & Hs & Ei); [lia|lia|].
    pose proof (decimal_length n ltac:(lia)). exists i, buf'. split; [reflexivity|]. split; [exact Hs|lia].
Qed.

(** ** Hexadecimal *)

Definition hex_digits (fl : hex_flags) (n : Z) : list Z :=
  (fun d => if hex_flag fl =? chr_x then mapx d else mapX d) <$> notation 16 n.

Definition padding (fl : hex_flags) (k : nat) : list Z :=
  replicate (Z.to_nat (hex_digits_max fl) - k) (hex_complement fl).

Definition hex_text (fl : hex_flags) (n : Z) : list Z :=
  (if format_sign fl =? chr_hash then [chr_0; chr_x] else [])
  ++ padding fl (length (hex_digits fl n)) ++ hex_digits fl n.

Lemma pad_loop fl fuel i num buf s :
  0 <= num -> hex_digits_max fl - num <= Z.of_nat fuel -> str_at buf i s ->
  exists num' buf',
    while fuel (fun '(_, num, _) => num <? hex_digits_max fl)
      (fun '(i, num, buf) => let i := i - 1 in (i, num + 1, <[i := hex_complement fl]> buf)) (i, num, buf)
    = Some (i - Z.of_nat (length (padding fl (Z.to_nat num))), num', buf')
    /\ str_at buf' (i - Z.of_nat (length (padding fl (Z.to_nat num)))) (padding fl (Z.to_nat num) ++ s).
Proof.
  unfold padding. revert i num buf s. induction fuel as [|fuel IH]; intros i num buf s Hn Hf Hs.
  - rewrite while_false by (apply Z.ltb_ge; lia).
    replace (Z.to_nat (hex_digits_max fl) - Z.to_nat num)%nat with 0%nat by lia. simpl.
    rewrite Z.sub_0_r. eauto.
  - destruct (Z.lt_ge_cases num (hex_digits_max fl)) as [Hlt|Hge].
    + rewrite while_true by (apply Z.ltb_lt; lia).
      destruct (IH (i - 1) (num + 1) (<[i - 1 := hex_complement fl]> buf) (hex_complement fl :: s))
        as (num' & buf' & E & Hs'); [lia|lia|apply str_at_insert_before, Hs|].
      exists num', buf'.
      replace (Z.to_nat (hex_digits_max fl) - Z.to_nat num)%nat
        with (S (Z.to_nat (hex_digits_max fl) - Z.to_nat (num + 1)))%nat by lia.
      rewrite length_replicate in *. cbn zeta in E |- *.
      replace (i - Z.of_nat (S (Z.to_nat (hex_digits_max fl) - Z.to_nat (num + 1))))
        with (i - 1 - Z.of_nat (Z.to_nat (hex_digits_max fl) - Z.to_nat (num + 1))) by lia.
      split; [exact E|]. rewrite replicate_S_end, <- app_assoc. exact Hs'.
    + rewrite while_false by (apply Z.ltb_ge; lia).
      replace (Z.to_nat (hex_digits_max fl) - Z.to_nat num)%nat with 0%nat by lia. simpl.
      rewrite Z.sub_0_r. eauto.
Qed.

(** The digits of [hex2string], before padding and sign. *)
Lemma hex_digits_spec fl n max_size buf :
  0 <= n < 2 ^ 32 -> 11 <= max_size ->
  let '(i0, num0, buf0) :=
    if n =? 0 then (max_size - 1 - 1, 0 + 1, <[max_size - 1 - 1 := chr_0]> (<[max_size - 1 := 0]> buf))
    else (max_size - 1, 0, <[max_size - 1 := 0]> buf) in
  exists i buf', digit_loop 16 (fun d => if hex_flag fl =? chr_x then mapx d else mapX d) 9 i0 n buf0
      = Some (i, 0, buf')
    /\ str_at buf' i (hex_digits fl n ++ [0])
    /\ i = max_size - 1 - Z.of_nat (length (hex_digits fl n))
    /\ num0 + (i0 - i) = Z.of_nat (length (hex_digits fl n)).
Proof.
  intros Hn Hm.
  assert (str_at (<[max_size - 1 := 0]> buf) (max_size - 1) [0]) as Hs.
  { apply str_at_cons; [apply lookup_total_insert_eq|]. intros k c E. discriminate E. }
  unfold hex_digits, notation. destruct (Z.eqb_spec n 0) as [->|Hne].
  - rewrite digit_loop_0. eexists _, _. split; [reflexivity|].
    assert ((fun d => if hex_flag fl =? chr_x then mapx d else mapX d) <$> [0] = [chr_0]) as ->.
    { simpl. destruct (hex_flag fl =? chr_x); reflexivity. }
    simpl. split; [apply str_at_insert_before, Hs|lia].
  - destruct (digit_loop_spec 16 (fun d => if hex_flag fl =? chr_x then mapx d else mapX d) 9 8 (max_size - 1) n
      (<[max_size - 1 := 0]> buf) [0]) as (buf' & E & Hs'); [lia|simpl; lia|lia|lia|exact Hs|lia|].
    eexists _, _. split; [exact E|]. rewrite length_fmap. split; [exact Hs'|]. lia.
Qed.

Lemma hex2string_spec fl n max_size buf :
  0 <= n < 2 ^ 32 -> 11 <= max_size -> 0 <= hex_digits_max fl <= 8 ->
  exists i buf', hex2string fl n max_size buf = Some (Some i, buf')
    /\ str_at buf' i (hex_text fl n ++ [0]) /\ 0 <= i.
Proof.
  intros Hn Hm Hd. unfold hex2string. pose proof (hex_digits_spec fl n max_size buf Hn Hm) as H.
  assert ((1 <= length (hex_digits fl n) <= 8)%nat) as Hl.
  { unfold hex_digits. rewrite length_fmap. apply notation_length; simpl; lia. }
  cbv zeta. destruct (if n =? 0 then _ else _) as [[i0 num0] buf0].
  destruct H as (i & buf' & -> & Hs & Ei & En). simpl mbind. rewrite En.
  destruct (pad_loop fl 8 i (Z.of_nat (length (hex_digits fl n))) buf' _ ltac:(lia) ltac:(lia) Hs)
    as (num' & buf2 & E2 & Hs2). cbv zeta in E2. rewrite E2. clear E2. simpl.
  rewrite Nat2Z.id in Hs2 |- *. set (p := padding fl (length (hex_digits fl n))) in *.
  assert (length p <= 8 - length (hex_digits fl n))%nat as Hp.
  { unfold p, padding. rewrite length_replicate. lia. }
  unfold hex_text. fold p. destruct (format_sign fl =? chr_hash).
  - eexists _, _. split; [reflexivity|]. split; [|lia]. rewrite <- !app_assoc. simpl.
    replace (i - Z.of_nat (length p) - 2) with (i - Z.of_nat (length p) - 1 - 1) by lia.
    apply str_at_insert_before, str_at_insert_before. exact Hs2.
  - eexists _, _. split; [reflexivity|]. simpl. rewrite <- app_assoc. split; [exact Hs2|lia].
Qed.

(** ** Formats *)

Inductive hex_kind := Plain | Zero | Wide8 | Wide08.

(** The pieces of a format, with their arguments: text, [%%] with the text after
    it, and the directives. *)
Inductive token :=
  | Text (c : Z) (s : list Z)
  | Pct (s : list Z)
  | Dec (n : Z)
  | Str (s : list Z)
  | Hex (sharp : bool) (k : hex_kind) (upper : bool) (n : Z).

Definition x_char (upper : bool) : Z := if upper then chr_X else chr_x.

Definition hex_prefix (sharp : bool) (k : hex_kind) : list Z :=
  (if sharp then [chr_hash] else [])
  ++ match k with Plain => [] | Zero => [chr_0] | Wide8 => [chr_8] | Wide08 => [chr_0; chr_8] end.

Definition unparse (t : token) : list Z :=
  match t with
  | Text c s => c :: s
  | Pct s => chr_percent :: chr_percent :: s
  | Dec _ => [chr_percent; chr_d]
  | Str _ => [chr_percent; chr_s]
  | Hex sharp k upper _ =>
      chr_percent :: hex_prefix sharp k ++ [x_char upper]
  end.

Definition arguments (t : token) : list argument :=
  match t with
  | Dec n | Hex _ _ _ n => [AInt n]
  | Str s => [AStr s]
  | _ => []
  end.

Definition kind_flags (sharp : bool) (k : hex_kind) (upper : bool) : hex_flags :=
  HexFlags (match k with Wide8 | Wide08 => 8 | _ => 0 end) (x_char upper)
    (match k with Wide08 => chr_0 | _ => chr_space end) (if sharp then chr_hash else chr_space).

(** What a piece of the format stands for. *)
Definition render (t : token) : list Z :=
  match t with
  | Text c s => c :: s
  | Pct s => chr_percent :: s
  | Dec n => signed_decimal n
  | Str s => s
  | Hex sharp k upper n => hex_text (kind_flags sharp k upper) n
  end.

Definition token_ok (t : token) : Prop :=
  match t with
  | Text c s => c <> chr_percent /\ (chr_percent ∉ s)
  | Pct s => chr_percent ∉ s
  | Dec n => - 2 ^ 31 <= n < 2 ^ 31
  | Str _ => True
  | Hex _ _ _ n => 0 <= n < 2 ^ 32
  end.

Definition is_text (t : token) : bool := match t with Text _ _ => true | _ => false end.

(** Text that follows text is one piece. *)
Fixpoint tokens_ok (ts : list token) : Prop :=
  match ts with
  | [] => True
  | t :: ts' => token_ok t /\ tokens_ok ts'
      /\ match t, ts' with
         | (Text _ _ | Pct _), u :: _ => is_text u = false
         | _, _ => True
         end
  end.

Definition format_of (ts : list token) : list Z := mjoin (unparse <$> ts).
Definition args_of (ts : list token) : list argument := mjoin (arguments <$> ts).
Definition output_of (ts : list token) : list Z := mjoin (render <$> ts).

(** ** The directives *)

Lemma signed_decimal_nonzero n : (0 ∉ signed_decimal n) /\ (- 2 ^ 31 <= n < 2 ^ 31 -> (length (signed_decimal n) <= 11)%nat).
Proof.
  assert (forall m, 0 <= m -> (0 ∉ decimal m)) as Hd.
  { intros m Hm Hin. unfold decimal, notation in Hin. apply list_elem_of_fmap in Hin as (d & E & Hin).
    unfold chr_0 in E. destruct (m =? 0); [apply list_elem_of_singleton in Hin; lia|].
    apply digits_range in Hin; lia. }
  unfold signed_decimal. destruct (Z.ltb_spec n 0) as [Hneg|Hpos].
  - split; [apply not_elem_of_cons; split; [discriminate|apply Hd; lia]|].
    intros Hn. pose proof (decimal_length (- n) ltac:(lia)). simpl. lia.
  - split; [apply Hd; lia|]. intros Hn. pose proof (decimal_length n ltac:(lia)). lia.
Qed.

Lemma hex_text_nonzero fl n :
  0 <= n < 2 ^ 32 -> 0 <= hex_digits_max fl <= 8 -> hex_complement fl <> 0 ->
  (0 ∉ hex_text fl n) /\ (length (hex_text fl n) <= 18)%nat.
Proof.
  intros Hn Hd Hc. unfold hex_text.
  assert ((1 <= length (hex_digits fl n) <= 8)%nat) as Hl.
  { unfold hex_digits. rewrite length_fmap. apply notation_length; simpl; lia. }
  assert (0 ∉ hex_digits fl n) as Hz.
  { unfold hex_digits. intros Hin. apply list_elem_of_fmap in Hin as (d & E & Hin).
    assert (0 <= d < 16) as Hr.
    { unfold notation in Hin. destruct (n =? 0); [apply list_elem_of_singleton in Hin; lia|].
      apply digits_range in Hin; lia. }
    unfold mapx, mapX, chr_0 in E. destruct (hex_flag fl =? chr_x), (Z.ltb_spec d 10); lia. }
  assert (0 ∉ padding fl (length (hex_digits fl n))) as Hp.
  { unfold padding. intros Hin. apply elem_of_replicate in Hin as [E _]. congruence. }
  split.
  - rewrite !not_elem_of_app. split; [|auto]. destruct (_ =? chr_hash); set_solver.
  - rewrite !length_app. unfold padding at 1. rewrite length_replicate.
    destruct (_ =? chr_hash); simpl; lia.
Qed.

(** Without a width the padding character does not matter. *)
Lemma hex_text_plain x c1 c2 sg n :
  hex_text (HexFlags 0 x c1 sg) n = hex_text (HexFlags 0 x c2 sg) n.
Proof. reflexivity. Qed.

(** ** Sinks

    A sink that takes what it is given: [sent] is its state afterwards, however the
    characters are cut into calls. *)
Class SinkLaws (W : Type) `{Sink W} := {
  accepts : W -> Prop;
  sent : list Z -> W -> W;
  sink_accepts d w : accepts w -> sink d w = Some (true, sent d w);
  sent_accepts d w : accepts w -> accepts (sent d w);
  sent_nil w : accepts w -> sent [] w = w;
  sent_app d d' w : accepts w -> sent (d ++ d') w = sent d' (sent d w)
}.

(** The characters themselves. *)
#[export] Instance text_sink : Sink (list Z) := {| sink d out := Some (true, out ++ d) |}.
#[export] Instance text_sink_laws : SinkLaws (list Z) := {|
  accepts _ := True;
  sent d out := out ++ d;
  sink_accepts _ _ _ := eq_refl;
  sent_accepts _ _ _ := Logic.I;
  sent_nil w _ := app_nil_r w;
  sent_app d d' w _ := app_assoc w d d'
|}.

Section sink.
Context {W : Type} `{SinkLaws W}.
Implicit Types s st : pf_state W.

#[local] Arguments read_string : simpl never.

Lemma convert_spec r s i buf t :
  r = Some (Some i, buf) -> str_at buf i (t ++ [0]) -> (0 ∉ t) -> (length t < 100)%nat ->
  convert r s = Some (PfState (pf_flags s) buf t (pf_out s) (pf_written s)).
Proof.
  intros -> Hs Hz Hl. unfold convert. simpl. rewrite (read_string_at 100 buf i t Hs Hz Hl). reflexivity.
Qed.

(** A directive makes [str] the text of its token and prints nothing itself. *)
Definition converted (t : token) s s' : Prop :=
  pf_str s' = render t /\ pf_out s' = pf_out s /\ pf_written s' = pf_written s.

Lemma hex_directive_spec sharp k upper rest :
  exists pad, hex_directive (hex_prefix sharp k ++ x_char upper :: rest)
  = Some (hex_digits_max (kind_flags sharp k upper), format_sign (kind_flags sharp k upper), pad,
          x_char upper, rest)
  /\ (hex_digits_max (kind_flags sharp k upper) = 0
      \/ pad = Some (hex_complement (kind_flags sharp k upper))).
Proof. destruct sharp, k, upper; eexists; (split; [reflexivity|]); auto. Qed.

Lemma hex_directive_token begun sharp k upper n rest args maxrem s :
  0 <= n < 2 ^ 32 ->
  exists s', directive begun (hex_prefix sharp k ++ x_char upper :: rest) (AInt n :: args) maxrem s = Some (inr (rest, args, s'))
    /\ converted (Hex sharp k upper n) s s'.
Proof.
  intros Hn. destruct (hex_directive_spec sharp k upper rest) as (pad & E & Hpad).
  unfold directive. rewrite E. cbn [int_arg mbind option_bind]. rewrite u32_small by exact Hn.
  set (fl := HexFlags _ _ _ _).
  assert (0 <= hex_digits_max fl <= 8) as Hd by (destruct k; simpl; lia).
  assert (hex_text fl n = render (Hex sharp k upper n)) as Et.
  { simpl. destruct Hpad as [Hw|Hp].
    - destruct k; try discriminate Hw; apply hex_text_plain.
    - subst pad. destruct k; reflexivity. }
  assert (hex_complement (kind_flags sharp k upper) <> 0) as Hc by (destruct k; discriminate).
  assert ((0 ∉ hex_text fl n) /\ (length (hex_text fl n) <= 18)%nat) as [Hz Hl].
  { rewrite Et. apply hex_text_nonzero; [exact Hn|exact Hd|exact Hc]. }
  destruct (hex2string_spec fl n BUF_SIZE (pf_buf s)) as (i & buf' & E2 & Hs & _);
    [exact Hn|discriminate|exact Hd|].
  rewrite (convert_spec _ _ i buf' (hex_text fl n) E2 Hs Hz) by lia. simpl.
  eexists. split; [reflexivity|]. split; [exact Et|]. split; reflexivity.
Qed.

Lemma dec_directive_token begun n rest args maxrem s :
  - 2 ^ 31 <= n < 2 ^ 31 ->
  exists s', directive begun (chr_d :: rest) (AInt n :: args) maxrem s = Some (inr (rest, args, s'))
    /\ converted (Dec n) s s'.
Proof.
  intros Hn.
  assert (hex_directive (chr_d :: rest) = None) as E by (destruct rest; reflexivity).
  assert (s32 n = n) as Es.
  { unfold s32, u32. destruct (Z.lt_ge_cases n 0).
    - replace (n mod 4294967296) with (n + 4294967296).
      + rewrite (proj2 (Z.ltb_ge _ _)); lia.
      + apply Z.mod_unique with (q := -1); lia.
    - rewrite Z.mod_small by lia. rewrite (proj2 (Z.ltb_lt _ _)); lia. }
  destruct (int2string_spec n BUF_SIZE (pf_buf s)) as (i & buf' & E2 & Hs & _);
    [exact Hn|unfold BUF_SIZE; lia|].
  destruct (signed_decimal_nonzero n) as [Hz Hl]. specialize (Hl Hn).
  unfold directive. rewrite E. cbn [Z.eqb chr_d chr_c chr_s Pos.eqb int_arg mbind option_bind].
  rewrite Es. rewrite (convert_spec _ s i buf' (signed_decimal n) E2 Hs Hz) by lia. simpl.
  eexists. split; [reflexivity|]. split; [reflexivity|]. split; reflexivity.
Qed.

(** ** The loop *)

Lemma text_length_app (s : list Z) rest :
  (chr_percent ∉ s) -> match rest with [] => True | c :: _ => c = chr_percent end ->
  text_length (s ++ rest) = length s.
Proof.
  intros Hs Hr. induction s as [|c s IH]; simpl.
  - destruct rest as [|c rest]; [reflexivity|]. subst c. reflexivity.
  - apply not_elem_of_cons in Hs as [Hc Hs]. rewrite (proj2 (Z.eqb_neq c _)) by congruence.
    f_equal. apply IH, Hs.
Qed.

(** The format after a piece of text starts with a [%], or is empty. *)
Lemma format_start t ts :
  tokens_ok (t :: ts) -> match t with Text _ _ | Pct _ => True | _ => False end ->
  match format_of ts with [] => True | c :: _ => c = chr_percent end.
Proof.
  intros (_ & _ & Hadj) Ht. destruct ts as [|u ts]; [exact I|].
  destruct t, u; try contradiction; try discriminate Hadj; reflexivity.
Qed.

(** What a step of the loop leaves when its piece is printed. *)
Definition printed (d : list Z) s s' : Prop :=
  pf_out s' = sent d (pf_out s) /\ pf_written s' = pf_written s + Z.of_nat (length d).

Lemma print_accepts d s :
  accepts (pf_out s) -> exists s', print d s = Some (true, s') /\ printed d s (add_written (Z.of_nat (length d)) s').
Proof. intros Ha. unfold print. rewrite (sink_accepts d _ Ha). eexists. split; [reflexivity|]. split; reflexivity. Qed.

(** A piece of text, printed at once. *)
Lemma printf_text f c0 fmt1 c d rest args st :
  (c0 <> chr_percent /\ c = c0 /\ fmt1 = d ++ rest)
  \/ (c0 = chr_percent /\ c = chr_percent /\ fmt1 = chr_percent :: d ++ rest) ->
  (chr_percent ∉ d) -> match rest with [] => True | c :: _ => c = chr_percent end ->
  pf_written st + Z.of_nat (S (length d)) <= INT_MAX -> accepts (pf_out st) ->
  exists st', printf_loop (S f) (c0 :: fmt1) args st = printf_loop f rest args st' /\ printed (c :: d) st st'.
Proof.
  intros Hc Hs Hr Hw Ha. simpl printf_loop at 1.
  assert (negb (c0 =? chr_percent) || (nth 0 fmt1 0 =? chr_percent) = true) as ->.
  { destruct Hc as [(Hc & _)|(-> & _ & ->)]; [rewrite (proj2 (Z.eqb_neq _ _) Hc)|]; reflexivity. }
  assert ((if c0 =? chr_percent then (chr_percent, tail fmt1) else (c0, fmt1)) = (c, d ++ rest)) as ->.
  { destruct Hc as [(Hc & -> & ->)|(-> & -> & ->)]; [rewrite (proj2 (Z.eqb_neq _ _) Hc)|]; reflexivity. }
  rewrite text_length_app by assumption.
  rewrite (proj2 (Z.ltb_ge _ _)) by lia.
  rewrite drop_app_length, take_app_length. destruct (print_accepts (c :: d) st Ha) as (s' & -> & P).
  eexists. split; [reflexivity|exact P].
Qed.

(** A directive, converted and printed. *)
Lemma printf_directive f t body rest args st :
  (forall begun maxrem, exists s', directive begun (body ++ rest) (arguments t ++ args) maxrem st
     = Some (inr (rest, args, s')) /\ converted t st s') ->
  nth 0 (body ++ rest) 0 <> chr_percent ->
  pf_written st + Z.of_nat (length (render t)) <= INT_MAX -> accepts (pf_out st) ->
  exists st', printf_loop (S f) (chr_percent :: body ++ rest) (arguments t ++ args) st = printf_loop f rest args st'
    /\ printed (render t) st st'.
Proof.
  intros Hd Hn Hw Ha. simpl printf_loop. rewrite (proj2 (Z.eqb_neq _ _) Hn). simpl orb.
  destruct (Hd (chr_percent :: body ++ rest) (INT_MAX - pf_written st)) as (s' & -> & E1 & E2 & E3).
  simpl mbind. cbv beta iota. rewrite E1. rewrite (proj2 (Z.ltb_ge _ _)) by lia. rewrite <- E2 in Ha.
  destruct (print_accepts (render t) s' Ha) as (s2 & -> & P). unfold printed in P. rewrite E2, E3 in P.
  eexists. split; [reflexivity|exact P].
Qed.

Lemma hex_start sharp k upper rest : nth 0 (hex_prefix sharp k ++ x_char upper :: rest) 0 <> chr_percent.
Proof. destruct sharp, k, upper; discriminate. Qed.

Lemma token_step f t ts args st :
  tokens_ok (t :: ts) -> pf_written st + Z.of_nat (length (render t)) <= INT_MAX -> accepts (pf_out st) ->
  exists st', printf_loop (S f) (unparse t ++ format_of ts) (arguments t ++ args) st
      = printf_loop f (format_of ts) args st'
    /\ printed (render t) st st'.
Proof.
  intros Hok Hw Ha. pose proof (format_start t ts Hok) as Hst. destruct Hok as (Ht & _).
  destruct t as [c s|s|n|s|sharp k upper n]; simpl in Ht.
  - destruct Ht as [Hc Hs].
    apply (printf_text f c (s ++ format_of ts) c s); [left; auto|exact Hs|exact (Hst I)|exact Hw|exact Ha].
  - apply (printf_text f chr_percent (chr_percent :: s ++ format_of ts) chr_percent s);
      [right; auto|exact Ht|exact (Hst I)|exact Hw|exact Ha].
  - apply (printf_directive f (Dec n) [chr_d]); [|discriminate|exact Hw|exact Ha].
    intros begun maxrem. apply dec_directive_token, Ht.
  - apply (printf_directive f (Str s) [chr_s]); [|discriminate|exact Hw|exact Ha].
    intros begun maxrem. exists (set_str s st). split; [|repeat split].
    destruct (format_of ts); reflexivity.
  - unfold unparse. rewrite <- app_comm_cons, <- app_assoc.
    change ([x_char upper] ++ format_of ts) with (x_char upper :: format_of ts).
    assert (hex_prefix sharp k ++ x_char upper :: format_of ts
            = (hex_prefix sharp k ++ [x_char upper]) ++ format_of ts) as E
      by (rewrite <- app_assoc; reflexivity).
    rewrite E. apply (printf_directive f (Hex sharp k upper n) (hex_prefix sharp k ++ [x_char upper]));
      rewrite <- ?E; [|apply hex_start|exact Hw|exact Ha].
    intros begun maxrem. apply hex_directive_token, Ht.
Qed.

Lemma printf_tokens ts fuel st :
  tokens_ok ts -> (length (format_of ts) <= fuel)%nat ->
  pf_written st + Z.of_nat (length (output_of ts)) <= INT_MAX -> accepts (pf_out st) ->
  exists st', printf_loop fuel (format_of ts) (args_of ts) st
      = Some (pf_written st + Z.of_nat (length (output_of ts)), st')
    /\ pf_out st' = sent (output_of ts) (pf_out st).
Proof.
  revert fuel st. induction ts as [|t ts IH]; intros fuel st Hok Hf Hw Ha.
  - exists st. unfold output_of. simpl. rewrite Z.add_0_r, (sent_nil _ Ha). destruct fuel; auto.
  - change (format_of (t :: ts)) with (unparse t ++ format_of ts) in *.
    change (args_of (t :: ts)) with (arguments t ++ args_of ts).
    change (output_of (t :: ts)) with (render t ++ output_of ts) in *.
    rewrite length_app in Hf. rewrite length_app, Nat2Z.inj_add in *.
    assert ((1 <= length (unparse t))%nat) as Hu by (destruct t; simpl; lia).
    destruct fuel as [|fuel]; [lia|].
    destruct (token_step fuel t ts (args_of ts) st Hok ltac:(lia) Ha) as (st1 & -> & E1 & E2).
    destruct (IH fuel st1) as (st' & E & Eo); [apply Hok|lia|rewrite E2; lia|rewrite E1; apply sent_accepts, Ha|].
    exists st'. rewrite E, E2. split; [do 2 f_equal; lia|]. rewrite Eo, E1, sent_app by exact Ha. reflexivity.
Qed.

(** A call whose format begins with text prints before it does anything else. *)
Lemma printf_first c fmt args fl (w w' : W) :
  c <> chr_percent -> Z.of_nat (S (length fmt)) <= INT_MAX -> (forall d, sink d w = sink d w') ->
  printf (c :: fmt) args fl w = printf (c :: fmt) args fl w'.
Proof.
  intros Hc Hl Hs. unfold printf. cbn [length printf_loop]. rewrite (proj2 (Z.eqb_neq _ _) Hc). cbn [negb orb].
  assert (text_length fmt <= length fmt)%nat by (clear; induction fmt as [|x fmt IH]; simpl; [|destruct (_ =? _)]; lia).
  cbn [pf_written]. rewrite (proj2 (Z.ltb_ge _ _)) by lia. unfold print. cbn [pf_out]. rewrite Hs. reflexivity.
Qed.

Lemma printf_ok ts fl (w : W) :
  tokens_ok ts -> Z.of_nat (length (output_of ts)) <= INT_MAX -> accepts w ->
  exists st, printf (format_of ts) (args_of ts) fl w = Some (Z.of_nat (length (output_of ts)), st)
    /\ pf_out st = sent (output_of ts) w.
Proof. intros Hok Hw Ha. exact (printf_tokens ts _ (PfState fl ∅ [] w 0) Hok (le_n _) Hw Ha). Qed.
End sink.

(** ** Properties *)

(** [C34] [uint2string] writes the decimal notation of its argument: the string at
    the offset it returns lies inside the buffer, is the notation without leading
    zeros followed by a 0, and its value is the number. *)
Theorem uint2string_correct n max_size buf :
  0 <= n < 2 ^ 32 -> 11 <= max_size ->
  exists i buf', uint2string n max_size buf = Some (Some i, buf')
    /\ 0 <= i /\ i + Z.of_nat (length (decimal n)) = max_size - 1
    /\ str_at buf' i (decimal n ++ [0])
    /\ value 10 ((fun c => c - chr_0) <$> decimal n) = n
    /\ (n <> 0 -> nth 0 (decimal n) 0 <> chr_0).
Proof.
  intros Hn Hm. destruct (uint2string_spec n max_size buf Hn Hm) as (i & buf' & E & Hs & Ei).
  pose proof (decimal_length n Hn). exists i, buf'. split; [exact E|]. split; [lia|]. split; [lia|].
  split; [exact Hs|]. unfold decimal, notation. split.
  - rewrite <- list_fmap_compose. rewrite (list_fmap_ext _ id) by (intros; unfold compose, id; lia).
    rewrite list_fmap_id. destruct (Z.eqb_spec n 0) as [->|]; [reflexivity|].
    apply digits_value; simpl; lia.
  - intros Hne. rewrite (proj2 (Z.eqb_neq n 0)) by assumption.
    destruct (digits_head 32 10 n) as (d & ds & -> & Hd); [lia|simpl; lia|].
    simpl. unfold chr_0. lia.
Qed.

Lemma uint2string_correct_witness :
  exists i buf', uint2string 4294967295 11 ∅ = Some (Some i, buf') /\ i = 0
    /\ decimal 4294967295 = [52; 50; 57; 52; 57; 54; 55; 50; 57; 53].
Proof.
  destruct (uint2string_correct 4294967295 11 ∅ ltac:(lia) ltac:(lia)) as (i & buf' & E & _ & Hi & _).
  exists i, buf'. split; [exact E|].
  assert (decimal 4294967295 = [52; 50; 57; 52; 57; 54; 55; 50; 57; 53]) as Ed by reflexivity.
  split; [rewrite Ed in Hi; simpl in Hi; lia|exact Ed].
Defined.

(** [printf] on a format made of text, [%%], [%d], [%s] and the hexadecimal
    directives with their matching arguments prints the concatenation of what the
    pieces stand for and returns the number of characters, for every number an
    [int] can hold. *)
Lemma printf_correct ts fl :
  tokens_ok ts -> Z.of_nat (length (output_of ts)) <= INT_MAX ->
  exists st, printf (format_of ts) (args_of ts) fl [] = Some (Z.of_nat (length (output_of ts)), st)
    /\ pf_out st = output_of ts.
Proof. intros Hok Hw. exact (printf_ok (W := list Z) ts fl [] Hok Hw Logic.I). Qed.

(** ["n=%d, %#08x%%\n"] on -2147483648 and 48879. *)
Definition sample : list token :=
  [Text 110 [61]; Dec (-2147483648); Text 44 [32]; Hex true Wide08 false 48879; Pct [10]].

Lemma printf_correct_witness :
  exists st, printf (format_of sample) (args_of sample) (HexFlags 0 chr_x chr_0 chr_hash) [] = Some (27, st)
    /\ pf_out st = [110; 61; 45; 50; 49; 52; 55; 52; 56; 51; 54; 52; 56; 44; 32;
                    48; 120; 48; 48; 48; 48; 98; 101; 101; 102; 37; 10].
Proof.
  destruct (printf_correct sample (HexFlags 0 chr_x chr_0 chr_hash)) as (st & E & Eo).
  - unfold sample, tokens_ok, token_ok. repeat split; try lia; try discriminate;
      apply (bool_decide_unpack _); vm_compute; exact I.
  - vm_compute. discriminate.
  - exists st. split; [exact E|exact Eo].
Defined.

(** After [%c] the string of the last conversion is printed again: ["%d%c"] on 7
    and '!' prints "7!7". *)
Lemma char_prints_last_string_again :
  (pf_out ∘ snd) <$> printf [chr_percent; chr_d; chr_percent; chr_c] [AInt 7; AInt 33]
    (HexFlags 0 chr_x chr_0 chr_hash) [] = Some [55; 33; 55].
Proof. vm_compute. reflexivity. Qed.

(** When the buffer is too small [uint2string] writes in front of it: the test
    [i >= 0] comes before the decrement. *)
Lemma uint2string_writes_before_buffer :
  match uint2string 5 1 ∅ with
  | Some (Some i, buf) => (i =? -1) && (buf !!! (-1) =? 53)
  | _ => false
  end = true.
Proof. vm_compute. reflexivity. Qed.
