(* ===== verification/Layout.v ===== *)
(** * Text on a scrolling screen

    What the two terminals of the kernel have in common: a text is laid out on an
    unbounded page of [cols] columns, and a screen of [rows] rows shows the end of
    that page.  A terminal is given by its cursor and by what its cells show; the
    lemmas of this file follow a character and a new line from the page to the
    screen, and each terminal only has to prove what its own code does to cells. *)

From S2P Require Import Prelude.

(** ** The page a text is laid out on *)

(** The line and column of the next character and the character at each place,
    [None] where nothing was written. *)
Record page := Page { pg_line : Z; pg_col : Z; pg_char : Z -> Z -> option Z }.

Definition blank_page : page := Page 0 0 (fun _ _ => None).

Definition page_newline (p : page) : page := Page (pg_line p + 1) 0 (pg_char p).

Definition page_mark (c : Z) (p : page) : page :=
  Page (pg_line p) (pg_col p + 1)
    (fun l x => if (l =? pg_line p) && (x =? pg_col p) then Some c else pg_char p l x).

Section screen.
Context (rows cols : Z).

Definition page_put (c : Z) (p : page) : page :=
  if c =? 10 then page_newline p
  else let p := page_mark c p in if pg_col p =? cols then page_newline p else p.

Definition lay_out (text : list Z) : page := foldl (fun p c => page_put c p) blank_page text.

(** The first line on the screen. *)
Definition top (p : page) : Z := Z.max 0 (pg_line p - (rows - 1)).

(** ** Screens *)

Context {T : Type} (row col : T -> Z) (cell : T -> Z -> Z -> option Z -> Prop).
(** What else the terminal relies on. *)
Context (inv : T -> Prop).
Implicit Types t : T.

Definition on_screen (y x : Z) : Prop := 0 <= y < rows /\ 0 <= x < cols.

(** The screen shows the last [rows] lines of the page, with the cursor in its
    row; the column may still be behind the last one. *)
Record shows_lines t (p : page) : Prop := {
  sl_inv : inv t;
  sl_line : 0 <= pg_line p;
  sl_row : row t = pg_line p - top p;
  sl_cells : forall y x, on_screen y x -> cell t y x (pg_char p (top p + y) x);
  sl_blank : forall l x, pg_line p < l -> pg_char p l x = None
}.

Record shows t (p : page) : Prop := {
  sh_lines : shows_lines t p;
  sh_col : 0 <= pg_col p < cols;
  sh_column : col t = pg_col p
}.

(** What a new line does to the cells: nothing, or one line up. *)
Definition scrolled t t' : Prop :=
  inv t' /\
  if row t + 1 =? rows then
    row t' = rows - 1
    /\ (forall y x o, on_screen y x -> y < rows - 1 -> cell t (y + 1) x o -> cell t' y x o)
    /\ (forall x, 0 <= x < cols -> cell t' (rows - 1) x None)
  else row t' = row t + 1 /\ (forall y x o, on_screen y x -> cell t y x o -> cell t' y x o).

Lemma newline_shows t t' p :
  1 <= rows -> 1 <= cols -> shows_lines t p -> scrolled t t' -> col t' = 0 -> shows t' (page_newline p).
Proof.
  intros Hr Hc [_ L1 L2 L3 L4] [Hi Hs] Hcol. split; [|simpl; lia|exact Hcol].
  assert (forall l x, pg_line p < l -> pg_char p l x = None) as Hb by exact L4.
  unfold scrolled, top, on_screen in *. destruct (Z.eqb_spec (row t + 1) rows) as [E|E].
  - destruct Hs as (H1 & H2 & H3). split; simpl; unfold top, on_screen; simpl; try lia; [exact Hi| |].
    + intros y x Hyx. destruct (Z.eq_dec y (rows - 1)) as [->|Hy].
      * rewrite Hb by lia. apply H3. lia.
      * apply H2; [exact Hyx|lia|].
        replace (Z.max 0 (pg_line p + 1 - (rows - 1)) + y) with (Z.max 0 (pg_line p - (rows - 1)) + (y + 1)) by lia.
        apply L3. lia.
    + intros l x Hl. apply Hb. lia.
  - destruct Hs as [H1 H2]. split; simpl; unfold top, on_screen; simpl; try lia; [exact Hi| |].
    + intros y x Hyx. apply H2; [exact Hyx|].
      replace (Z.max 0 (pg_line p + 1 - (rows - 1))) with (Z.max 0 (pg_line p - (rows - 1))) by lia. apply L3, Hyx.
    + intros l x Hl. apply Hb. lia.
Qed.

(** What a character does: its cell, and the column. *)
Definition marked (c : Z) t t' : Prop :=
  inv t' /\ row t' = row t /\ col t' = col t + 1
  /\ cell t' (row t) (col t) (Some c)
  /\ (forall y x o, on_screen y x -> (y, x) <> (row t, col t) -> cell t y x o -> cell t' y x o).

Lemma marked_shows c t t' p :
  shows t p -> marked c t t' -> shows_lines t' (page_mark c p) /\ col t' = pg_col (page_mark c p).
Proof.
  intros [[_ L1 L2 L3 L4] S2 S3] (M0 & M1 & M2 & M3 & M4). split; [|simpl; lia]. split; simpl.
  - exact M0.
  - exact L1.
  - rewrite M1. exact L2.
  - intros y x Hyx. change (top (page_mark c p)) with (top p).
    destruct (decide ((y, x) = (row t, col t))) as [E|E].
    + injection E as -> ->. rewrite L2, S3. replace (top p + (pg_line p - top p)) with (pg_line p) by lia.
      rewrite !Z.eqb_refl. rewrite L2, S3 in M3. exact M3.
    + replace ((top p + y =? pg_line p) && (x =? pg_col p)) with false; [apply M4; [exact Hyx|exact E|apply L3, Hyx]|].
      symmetry. apply andb_false_iff. rewrite !Z.eqb_neq. destruct (Z.eq_dec x (pg_col p)) as [->|]; [left|right; assumption].
      intros E2. apply E. f_equal; lia.
  - intros l x Hl. rewrite (proj2 (Z.eqb_neq l _)) by lia. apply L4, Hl.
Qed.

(** A screen whose operations do that shows a whole text. *)
Lemma put_shows c t t' p :
  1 <= rows -> 1 <= cols -> shows t p ->
  (c = 10 -> scrolled t t' /\ col t' = 0) ->
  (c <> 10 -> exists t1, marked c t t1 /\
     if col t1 =? cols then scrolled t1 t' /\ col t' = 0 else t' = t1) ->
  shows t' (page_put c p).
Proof.
  intros Hr Hcl S Hnl Hch. unfold page_put. destruct (Z.eqb_spec c 10) as [E|E].
  - destruct (Hnl E) as [H1 H2]. apply (newline_shows t); [exact Hr|exact Hcl|apply S|exact H1|exact H2].
  - destruct (Hch E) as (t1 & M & Ht). destruct (marked_shows c t t1 p S M) as [L Ec]. cbv zeta. rewrite <- Ec.
    destruct (Z.eqb_spec (col t1) cols) as [E2|E2].
    + destruct Ht as [H1 H2]. apply (newline_shows t1); assumption.
    + subst t'. split; [exact L| |exact Ec]. destruct S as [_ S2 S3]. destruct M as (_ & _ & M2 & _). simpl in Ec |- *. lia.
Qed.

Lemma write_shows (put : Z -> T -> T) text t p :
  (forall c t p, c ∈ text -> shows t p -> shows (put c t) (page_put c p)) ->
  shows t p -> shows (foldl (fun t c => put c t) t text) (foldl (fun p c => page_put c p) p text).
Proof.
  revert t p. induction text as [|c text IH]; intros t p Hp S; [exact S|]. simpl. apply IH.
  - intros d t1 p1 Hd. apply Hp. right. exact Hd.
  - apply Hp; [apply list_elem_of_here|exact S].
Qed.

Lemma blank_shows t :
  inv t -> row t = 0 -> col t = 0 -> 1 <= rows -> 1 <= cols -> (forall y x, on_screen y x -> cell t y x None) -> shows t blank_page.
Proof.
  intros Hi Hr Hc H1 H2 Hcell. split; [|simpl; lia|exact Hc]. split; simpl; auto; [lia|]. unfold top. simpl. lia.
Qed.

(** The cursor stays inside the screen. *)
Lemma shows_row t p : 1 <= rows -> shows t p -> 0 <= row t < rows.
Proof. intros Hr [[_ L1 L2 _ _] _ _]. rewrite L2. unfold top. lia. Qed.
End screen.
