(* ===== verification/Tty.v ===== *)
(** * kernel/arch/i386/tty.c: the VGA text terminal

    The screen is the array of 80 x 25 sixteen-bit entries at [terminal_buffer],
    indexed from 0; the writes to the cursor ports are recorded in order.  The
    rows that [memcpy] copies do not overlap, so a row is copied entry by entry. *)

From S2P Require Import Prelude Layout.

Definition VGA_WIDTH : Z := 80.
Definition VGA_HEIGHT : Z := 25.
Definition VGA_COLOR_BLACK : Z := 0.
Definition VGA_COLOR_LIGHT_GREY : Z := 7.

Definition vga_entry_color (fg bg : Z) : Z := u8 (Z.lor fg (Z.shiftl bg 4)).
Definition vga_entry (uc color : Z) : Z := u16 (Z.lor uc (Z.shiftl color 8)).

Record terminal := Terminal {
  terminal_row : Z;
  terminal_column : Z;
  terminal_color : Z;
  terminal_buffer : gmap Z Z;
  ports : list (Z * Z)
}.

Definition put_entry (i v : Z) (t : terminal) : terminal :=
  Terminal (terminal_row t) (terminal_column t) (terminal_color t)
    (<[i := v]> (terminal_buffer t)) (ports t).
Definition set_row (v : Z) (t : terminal) : terminal :=
  Terminal v (terminal_column t) (terminal_color t) (terminal_buffer t) (ports t).
Definition set_column (v : Z) (t : terminal) : terminal :=
  Terminal (terminal_row t) v (terminal_color t) (terminal_buffer t) (ports t).
Definition outb (port value : Z) (t : terminal) : terminal :=
  Terminal (terminal_row t) (terminal_column t) (terminal_color t) (terminal_buffer t)
    (ports t ++ [(port, u8 value)]).

Definition terminal_initialize (t : terminal) : terminal :=
  let t := Terminal 0 0 (vga_entry_color VGA_COLOR_LIGHT_GREY VGA_COLOR_BLACK) (terminal_buffer t) (ports t) in
  for_loop (Z.to_nat VGA_HEIGHT) 0
    (fun y t => for_loop (Z.to_nat VGA_WIDTH) 0
       (fun x t => put_entry (y * VGA_WIDTH + x) (vga_entry 32 (terminal_color t)) t) t) t.

Definition terminal_setcolor (color : Z) (t : terminal) : terminal :=
  Terminal (terminal_row t) (terminal_column t) color (terminal_buffer t) (ports t).

Definition terminal_putentryat (c color x y : Z) (t : terminal) : terminal :=
  put_entry (y * VGA_WIDTH + x) (vga_entry c color) t.

Definition terminal_roll (t : terminal) : terminal :=
  let t := for_loop (Z.to_nat (VGA_HEIGHT - 1)) 0
    (fun i t => for_loop (Z.to_nat VGA_WIDTH) 0
       (fun x t => put_entry (i * VGA_WIDTH + x) (terminal_buffer t !!! ((i + 1) * VGA_WIDTH + x)) t) t) t in
  for_loop (Z.to_nat VGA_WIDTH) 0
    (fun j t => put_entry (VGA_WIDTH * (VGA_HEIGHT - 1) + j) (vga_entry 32 (terminal_color t)) t) t.

Definition terminal_cursor_move (t : terminal) : terminal :=
  let cursorLocation := u16 (terminal_row t * VGA_WIDTH + terminal_column t) in
  let t := outb 0x3D4 14 t in
  let t := outb 0x3D5 (Z.shiftr cursorLocation 8) t in
  let t := outb 0x3D4 15 t in
  outb 0x3D5 cursorLocation t.

Definition terminal_newline (t : terminal) : terminal :=
  let t := set_row (terminal_row t + 1) t in
  let t := if terminal_row t =? VGA_HEIGHT
           then set_row (VGA_HEIGHT - 1) (terminal_roll t) else t in
  let t := set_column 0 t in
  terminal_cursor_move t.

Definition terminal_putchar (c : Z) (t : terminal) : terminal :=
  let uc := u8 c in
  if uc =? 10 then terminal_newline t
  else
    let t := terminal_putentryat uc (terminal_color t) (terminal_column t) (terminal_row t) t in
    let t := set_column (terminal_column t + 1) t in
    if terminal_column t =? VGA_WIDTH then terminal_newline t else t.

Definition terminal_write (data : list Z) (t : terminal) : terminal :=
  terminal_cursor_move (foldl (fun t c => terminal_putchar c t) t data).

(** ** What the screen shows *)

(** The entry of a place of the page, a space where nothing was written. *)
Definition entry_shows (t : terminal) (y x : Z) (o : option Z) : Prop :=
  terminal_buffer t !!! (y * VGA_WIDTH + x) = vga_entry (default 32 o) (terminal_color t).

Abbreviation tty_shows := (shows VGA_HEIGHT VGA_WIDTH terminal_row terminal_column entry_shows (fun _ => True)).

(** ** Loops over rows *)

(** What an operation does to the entries; it leaves the rest alone. *)
Definition cells_of (f : Z -> Z) (t t' : terminal) : Prop :=
  terminal_row t' = terminal_row t /\ terminal_column t' = terminal_column t
  /\ terminal_color t' = terminal_color t /\ ports t' = ports t
  /\ forall i, terminal_buffer t' !!! i = f i.

Lemma put_entry_buffer i v t j :
  terminal_buffer (put_entry i v t) !!! j = if decide (i = j) then v else terminal_buffer t !!! j.
Proof. apply (lookup_total_insert (M := gmap Z)). Qed.

(** A loop over the columns of row [y] that writes [g x], where [g] does not
    depend on the entries the loop has changed. *)
Lemma row_loop (y n : Z) (v : Z -> terminal -> Z) (g : Z -> Z) t :
  0 <= n ->
  (forall x t', 0 <= x < n ->
     cells_of (fun i => if (y <=? i) && (i <? y + x) then g (i - y) else terminal_buffer t !!! i) t t' ->
     v x t' = g x) ->
  cells_of (fun i => if (y <=? i) && (i <? y + n) then g (i - y) else terminal_buffer t !!! i) t
    (for_loop (Z.to_nat n) 0 (fun x t => put_entry (y + x) (v x t) t) t).
Proof.
  intros Hn Hv.
  pose proof (for_loop_ind (fun k t' => 0 <= k <= n -> cells_of
    (fun i => if (y <=? i) && (i <? y + k) then g (i - y) else terminal_buffer t !!! i) t t')
    (Z.to_nat n) 0 (fun x t => put_entry (y + x) (v x t) t) t) as L.
  rewrite Z.add_0_l, Z2Nat.id in L by lia. apply L; [| |lia].
  - intros _. repeat split. intros i. case_bools; simpl; try lia; reflexivity.
  - intros k t1 Hk IH Hk2. specialize (IH ltac:(lia)). rewrite (Hv k t1 ltac:(lia) IH).
    destruct IH as (E1 & E2 & E3 & E4 & E5). repeat (split; [assumption|]).
    intros i. rewrite put_entry_buffer, E5. case_decide as Ei.
    + subst i. case_bools; simpl; try lia. f_equal. lia.
    + case_bools; simpl; try lia; reflexivity.
Qed.

Lemma cells_trans f g h t1 t2 t3 :
  cells_of f t1 t2 -> cells_of g t2 t3 -> (forall i, g i = h i) -> cells_of h t1 t3.
Proof.
  intros (A1 & A2 & A3 & A4 & A5) (B1 & B2 & B3 & B4 & B5) E.
  split; [congruence|]. split; [congruence|]. split; [congruence|]. split; [congruence|].
  intros i. rewrite B5. apply E.
Qed.

Lemma terminal_roll_spec t :
  cells_of (fun i => if (0 <=? i) && (i <? 1920) then terminal_buffer t !!! (i + 80)
                     else if (1920 <=? i) && (i <? 2000) then vga_entry 32 (terminal_color t)
                     else terminal_buffer t !!! i) t (terminal_roll t).
Proof.
  unfold terminal_roll. unfold VGA_WIDTH, VGA_HEIGHT in *. change (25 - 1) with 24.
  set (t1 := for_loop (Z.to_nat 24) 0 _ t).
  assert (cells_of (fun i => if (0 <=? i) && (i <? 1920) then terminal_buffer t !!! (i + 80)
                             else terminal_buffer t !!! i) t t1) as H1.
  { pose proof (for_loop_ind (fun k t' => 0 <= k <= 24 -> cells_of
      (fun i => if (0 <=? i) && (i <? k * 80) then terminal_buffer t !!! (i + 80)
                else terminal_buffer t !!! i) t t') (Z.to_nat 24) 0
      (fun i t => for_loop (Z.to_nat 80) 0
         (fun x t => put_entry (i * 80 + x) (terminal_buffer t !!! ((i + 1) * 80 + x)) t) t) t) as L.
    change (0 + Z.of_nat (Z.to_nat 24)) with 24 in L. apply L; [| |lia]; clear L.
    - intros _. repeat split. intros i. case_bools; simpl; try lia; reflexivity.
    - intros k t' Hk IH Hk2. specialize (IH ltac:(lia)).
      pose proof (row_loop (k * 80) 80 (fun x t => terminal_buffer t !!! ((k + 1) * 80 + x))
        (fun x => terminal_buffer t !!! ((k + 1) * 80 + x)) t') as R.
      specialize (R ltac:(lia)).
      eapply cells_trans; [exact IH|apply R|].
      + intros x t2 Hx (_ & _ & _ & _ & E). rewrite E. case_bools; simpl; try lia.
        destruct IH as (_ & _ & _ & _ & E'). rewrite E'. case_bools; simpl; try lia; reflexivity.
      + intros i. destruct IH as (_ & _ & _ & _ & E'). rewrite E'.
        case_bools; simpl; try lia; try reflexivity. f_equal. lia. }
  clearbody t1. pose proof (row_loop 1920 80 (fun _ t => vga_entry 32 (terminal_color t))
    (fun _ => vga_entry 32 (terminal_color t)) t1) as R.
  eapply cells_trans; [exact H1|apply R; [lia|]|].
  - intros x t2 _ (_ & _ & E & _). destruct H1 as (_ & _ & E1 & _). congruence.
  - intros i. destruct H1 as (_ & _ & _ & _ & E1). rewrite E1.
    case_bools; simpl; try lia; reflexivity.
Qed.

Lemma terminal_initialize_shows t : tty_shows (terminal_initialize t) blank_page.
Proof.
  unfold terminal_initialize, VGA_WIDTH, VGA_HEIGHT.
  set (t0 := Terminal 0 0 _ _ _).
  pose proof (for_loop_ind (fun k t' => 0 <= k <= 25 -> cells_of
    (fun i => if (0 <=? i) && (i <? k * 80) then vga_entry 32 (terminal_color t0)
              else terminal_buffer t0 !!! i) t0 t') (Z.to_nat 25) 0
    (fun y t => for_loop (Z.to_nat 80) 0
       (fun x t => put_entry (y * 80 + x) (vga_entry 32 (terminal_color t)) t) t) t0) as L.
  change (0 + Z.of_nat (Z.to_nat 25)) with 25 in L.
  cbv zeta. fold t0.
  cbv beta in L. match goal with |- shows _ _ _ _ _ _ ?l _ => set (t1 := l) in L |- * end. clearbody t1.
  destruct L as (E1 & E2 & E3 & E4 & E5); [| |lia|].
  - intros _. repeat split. intros i. case_bools; simpl; try lia; reflexivity.
  - intros k t' Hk IH Hk2. specialize (IH ltac:(lia)).
    eapply cells_trans; [exact IH|apply (row_loop (k * 80) 80 (fun _ t => vga_entry 32 (terminal_color t))
      (fun _ => vga_entry 32 (terminal_color t0)) t'); [lia|]|].
    + intros x t2 _ (_ & _ & E & _). destruct IH as (_ & _ & E0 & _). congruence.
    + intros i. destruct IH as (_ & _ & _ & _ & E'). rewrite E'.
      case_bools; simpl; try lia; reflexivity.
  - apply blank_shows; try assumption; try lia; try exact I.
    intros y x [Hy Hx]. unfold entry_shows, VGA_WIDTH. rewrite E5, E3. case_bools; simpl; try lia; reflexivity.
Qed.

(** ** Steps *)

Lemma terminal_newline_eq t :
  let t1 := set_row (terminal_row t + 1) t in
  terminal_newline t
  = terminal_cursor_move (set_column 0
      (if terminal_row t + 1 =? VGA_HEIGHT then set_row (VGA_HEIGHT - 1) (terminal_roll t1) else t1)).
Proof. reflexivity. Qed.

Lemma newline_scrolls t :
  scrolled VGA_HEIGHT VGA_WIDTH terminal_row entry_shows (fun _ => True) t (terminal_newline t) /\ terminal_column (terminal_newline t) = 0.
Proof.
  rewrite terminal_newline_eq. cbv zeta. split; [|reflexivity]. unfold scrolled. split; [exact I|].
  pose proof (terminal_roll_spec (set_row (terminal_row t + 1) t)) as R. revert R.
  generalize (terminal_roll (set_row (terminal_row t + 1) t)). intros t2 (_ & _ & E3 & _ & E5).
  change (terminal_color (set_row (terminal_row t + 1) t)) with (terminal_color t) in E3, E5.
  change (terminal_buffer (set_row (terminal_row t + 1) t)) with (terminal_buffer t) in E5.
  destruct (Z.eqb_spec (terminal_row t + 1) VGA_HEIGHT) as [E|E]; [|split; [reflexivity|auto]].
  split; [reflexivity|]. unfold entry_shows, on_screen, VGA_HEIGHT, VGA_WIDTH in *. cbn [terminal_buffer terminal_color terminal_cursor_move outb set_column set_row]. split.
  - intros y x o Hyx Hy Hc. rewrite E5, E3. case_bools; simpl; try lia.
    replace (y * 80 + x + 80) with ((y + 1) * 80 + x) by lia. exact Hc.
  - intros x Hx. rewrite E5, E3. case_bools; simpl; try lia.
Qed.

Lemma putchar_shows t p c :
  0 <= c < 256 -> tty_shows t p -> tty_shows (terminal_putchar c t) (page_put VGA_WIDTH c p).
Proof.
  intros Hc S. apply (put_shows _ _ _ _ _ _ c t); [unfold VGA_HEIGHT; lia|unfold VGA_WIDTH; lia|exact S| |];
    intros Hnl; unfold terminal_putchar; rewrite u8_small by exact Hc.
  - rewrite (proj2 (Z.eqb_eq c 10) Hnl). apply newline_scrolls.
  - rewrite (proj2 (Z.eqb_neq c 10) Hnl). cbv zeta.
    set (t1 := set_column _ _). exists t1. split.
    + split; [exact I|]. split; [reflexivity|]. split; [reflexivity|]. destruct S as [_ S2 S3].
      unfold entry_shows, t1. cbn [set_column terminal_putentryat put_entry terminal_buffer terminal_color]. split.
      * apply (lookup_total_insert_eq (M := gmap Z)).
      * intros y x o [Hy Hx] Hne Ho. rewrite (lookup_total_insert_ne (M := gmap Z)); [exact Ho|].
        intros E. apply Hne. unfold VGA_WIDTH in *. f_equal; lia.
    + destruct (Z.eqb_spec (terminal_column t1) VGA_WIDTH); [apply newline_scrolls|reflexivity].
Qed.

(** The two bytes of the cursor position, as they are sent to the ports. *)
Definition cursor_bytes (t : terminal) : list (Z * Z) :=
  let pos := terminal_row t * VGA_WIDTH + terminal_column t in
  [(0x3D4, 14); (0x3D5, pos / 256); (0x3D4, 15); (0x3D5, pos mod 256)].

(** ** Property *)

(** [C35] After a text has been written to the initialised terminal, the screen
    shows the last 25 lines of that text, broken at line feeds and after 80
    characters and blank elsewhere; the cursor stands behind the text, inside the
    screen, and its position has been sent to the ports. *)
Theorem terminal_write_shows text t0 :
  (forall c, c ∈ text -> 0 <= c < 256) ->
  let t := terminal_write text (terminal_initialize t0) in
  tty_shows t (lay_out VGA_WIDTH text)
  /\ 0 <= terminal_row t < VGA_HEIGHT
  /\ exists before, ports t = before ++ cursor_bytes t.
Proof.
  intros Hc. cbv zeta. unfold terminal_write.
  assert (tty_shows (foldl (fun t c => terminal_putchar c t) (terminal_initialize t0) text) (lay_out VGA_WIDTH text)) as S.
  { apply (write_shows _ _ _ _ _ _ terminal_putchar); [|apply terminal_initialize_shows].
    intros c t p Hi. apply putchar_shows, Hc, Hi. }
  set (t := foldl _ _ _) in *. assert (0 <= terminal_row t < VGA_HEIGHT) as Hr
    by (eapply shows_row; [|exact S]; unfold VGA_HEIGHT; lia).
  destruct S as [[L0 L1 L2 L3 L4] S2 S3]. split; [split; [split|..]; assumption|]. split; [exact Hr|].
  exists (ports t). unfold terminal_cursor_move, cursor_bytes, outb. simpl. rewrite <- !app_assoc. simpl.
  assert (0 <= terminal_column t < 80) as Hcol by (rewrite S3; exact S2). unfold VGA_HEIGHT, VGA_WIDTH in *.
  unfold u16. rewrite (Z.mod_small _ 65536) by lia. rewrite Z.shiftr_div_pow2 by lia. change (2 ^ 8) with 256.
  rewrite (u8_small (_ / 256)); [reflexivity|].
  split; [apply Z.div_pos; lia|]. apply Z.div_lt_upper_bound; lia.
Qed.

(** Two lines, the second one wrapped. *)
Definition sample_text : list Z := [72; 105; 10] ++ replicate 81 120.

Lemma terminal_write_shows_witness :
  let t := terminal_write sample_text (terminal_initialize (Terminal 0 0 0 ∅ [])) in
  pg_line (lay_out VGA_WIDTH sample_text) = 2 /\ terminal_row t = 2 /\ terminal_column t = 1
  /\ terminal_buffer t !!! (1 * 80 + 79) = vga_entry 120 (terminal_color t).
Proof.
  destruct (terminal_write_shows sample_text (Terminal 0 0 0 ∅ [])) as ([[_ _ L2 L3 _] _ S3] & _).
  - intros c Hc. unfold sample_text in Hc. rewrite elem_of_app, elem_of_replicate, !elem_of_cons in Hc.
    destruct Hc as [[->|[->|[->|Hc]]]|[-> _]]; try lia. apply elem_of_nil in Hc. contradiction.
  - split; [vm_compute; reflexivity|].
    split; [rewrite L2; vm_compute; reflexivity|].
    split; [rewrite S3; vm_compute; reflexivity|].
    refine (eq_trans (L3 1 79 _) _); [split; vm_compute; split; [discriminate|reflexivity|discriminate|reflexivity]|].
    f_equal; vm_compute; reflexivity.
Defined.
