(* ===== verification/Gdt.v ===== *)
(** * kernel/arch/i386/gdt.c: the segment descriptors

    [gdt_set_gate] scatters a base, a limit and the flags over the eight bytes of
    a descriptor.  The reading of those bytes by the processor is stated on the
    64-bit number they form, and the gates are shown to read back as intended.
    The little-endian lemmas are shared with Interrupts.v. *)

From S2P Require Import Prelude.

(** ** Little-endian numbers *)

Fixpoint le_num (bs : list Z) : Z :=
  match bs with [] => 0 | b :: bs => b + 256 * le_num bs end.

(** The [n] bytes of a number, the lowest first: how a field of a packed struct
    is stored. *)
Fixpoint le_bytes (n : nat) (x : Z) : list Z :=
  match n with O => [] | Datatypes.S n => x mod 256 :: le_bytes n (x / 256) end.

(** [n] bytes of the number [d], from byte [i] on. *)
Definition field (d : Z) (i n : nat) : Z := (d / 256 ^ Z.of_nat i) mod 256 ^ Z.of_nat n.

Lemma le_num_app bs cs : le_num (bs ++ cs) = le_num bs + 256 ^ Z.of_nat (length bs) * le_num cs.
Proof.
  induction bs as [|b bs IH]; [simpl; lia|]. cbn [le_num app length]. rewrite IH.
  rewrite Nat2Z.inj_succ, Z.pow_succ_r by lia. lia.
Qed.

Lemma le_num_range bs : Forall in_u8 bs -> 0 <= le_num bs < 256 ^ Z.of_nat (length bs).
Proof.
  induction 1 as [|b bs Hb _ IH]; [simpl; lia|]. cbn [le_num length].
  rewrite Nat2Z.inj_succ, Z.pow_succ_r by lia. unfold in_u8 in Hb. lia.
Qed.

Lemma le_num_bytes n x : 0 <= x < 256 ^ Z.of_nat n -> le_num (le_bytes n x) = x.
Proof.
  revert x. induction n as [|n IH]; intros x Hx; [simpl in *; lia|].
  rewrite Nat2Z.inj_succ, Z.pow_succ_r in Hx by lia. cbn [le_num le_bytes].
  pose proof (Z.div_mod x 256 ltac:(lia)). rewrite IH; [lia|].
  split; [apply Z.div_pos; lia|]. apply Z.div_lt_upper_bound; lia.
Qed.

Lemma le_bytes_range n x : Forall in_u8 (le_bytes n x).
Proof.
  revert x. induction n as [|n IH]; intros x; constructor; [|apply IH].
  apply Z.mod_pos_bound. lia.
Qed.

Lemma le_bytes_length n x : length (le_bytes n x) = n.
Proof. revert x. induction n; intros x; simpl; auto. Qed.

(** A field that lies between other bytes is read back. *)
Lemma field_read before bs after :
  Forall in_u8 before -> Forall in_u8 bs ->
  field (le_num (before ++ bs ++ after)) (length before) (length bs) = le_num bs.
Proof.
  intros Hb Hs. pose proof (le_num_range _ Hb). pose proof (le_num_range _ Hs).
  unfold field. rewrite !le_num_app.
  rewrite Z.add_comm, Z.mul_comm, Z.div_add_l, (Z.div_small (le_num before)), Z.add_0_r by lia.
  rewrite Z.mul_comm, Z.mod_add by lia. apply Z.mod_small. lia.
Qed.

(** ** The code *)

Definition GDT_LENGTH : Z := 5.

Record gdt_entry_t := GdtEntry {
  limit_low : Z;
  base_low : Z;
  base_middle : Z;
  access : Z;
  granularity : Z;
  base_high : Z
}.
#[export] Instance gdt_entry_zero : Inhabited gdt_entry_t := populate (GdtEntry 0 0 0 0 0 0).

Record gdt_ptr_t := GdtPtr { ptr_limit : Z; ptr_base : Z }.

(** [loaded] is the register that [gdt_flush] loads. *)
Record gdt := Gdt { gdt_entries : gmap Z gdt_entry_t; gdt_ptr : gdt_ptr_t; loaded : option gdt_ptr_t }.

(** The assignments [gdt_entries[num].field = v]. *)
Definition set_base_low v e := GdtEntry (limit_low e) v (base_middle e) (access e) (granularity e) (base_high e).
Definition set_base_middle v e := GdtEntry (limit_low e) (base_low e) v (access e) (granularity e) (base_high e).
Definition set_base_high v e := GdtEntry (limit_low e) (base_low e) (base_middle e) (access e) (granularity e) v.
Definition set_limit_low v e := GdtEntry v (base_low e) (base_middle e) (access e) (granularity e) (base_high e).
Definition set_granularity v e := GdtEntry (limit_low e) (base_low e) (base_middle e) (access e) v (base_high e).
Definition set_access v e := GdtEntry (limit_low e) (base_low e) (base_middle e) v (granularity e) (base_high e).

Definition gdt_set_gate (num base limit acc gran : Z) (g : gdt) : gdt :=
  let m := gdt_entries g in
  let m := upd num (set_base_low (u16 (Z.land base 0xFFFF))) m in
  let m := upd num (set_base_middle (u8 (Z.land (Z.shiftr base 16) 0xFF))) m in
  let m := upd num (set_base_high (u8 (Z.land (Z.shiftr base 24) 0xFF))) m in
  let m := upd num (set_limit_low (u16 (Z.land limit 0xFFFF))) m in
  let m := upd num (set_granularity (u8 (Z.land (Z.shiftr limit 16) 0x0F))) m in
  let m := upd num (fun e => set_granularity (u8 (Z.lor (granularity e) (Z.land gran 0xF0))) e) m in
  let m := upd num (set_access (u8 acc)) m in
  Gdt m (gdt_ptr g) (loaded g).

(** [addr] is the address of the array [gdt_entries]. *)
Definition init_gdt (addr : Z) (g : gdt) : gdt :=
  let g := Gdt (gdt_entries g) (GdtPtr (8 * GDT_LENGTH - 1) addr) (loaded g) in
  let g := gdt_set_gate 0 0 0 0 0 g in
  let g := gdt_set_gate 1 0 0xFFFFFFFF 0x9A 0xCF g in
  let g := gdt_set_gate 2 0 0xFFFFFFFF 0x92 0xCF g in
  let g := gdt_set_gate 3 0 0xFFFFFFFF 0xFA 0xCF g in
  let g := gdt_set_gate 4 0 0xFFFFFFFF 0xF2 0xCF g in
  Gdt (gdt_entries g) (gdt_ptr g) (Some (gdt_ptr g)).

(** ** The processor's reading of a descriptor *)

(** The bytes of the packed struct. *)
Definition gdt_entry_bytes (e : gdt_entry_t) : list Z :=
  le_bytes 2 (limit_low e) ++ le_bytes 2 (base_low e) ++ le_bytes 1 (base_middle e)
  ++ le_bytes 1 (access e) ++ le_bytes 1 (granularity e) ++ le_bytes 1 (base_high e).

Definition descriptor (e : gdt_entry_t) : Z := le_num (gdt_entry_bytes e).

Definition d_base (d : Z) : Z := field d 2 3 + 256 ^ 3 * field d 7 1.
Definition d_access (d : Z) : Z := field d 5 1.
Definition d_flags (d : Z) : Z := field d 6 1 / 16.
(** The raw 20-bit limit, and the last byte of the segment, which with the
    granularity flag is counted in pages. *)
Definition d_limit (d : Z) : Z := field d 0 2 + 65536 * (field d 6 1 mod 16).
Definition d_last (d : Z) : Z :=
  if Z.testbit (d_flags d) 3 then d_limit d * 4096 + 4095 else d_limit d.
Definition d_present (d : Z) : bool := Z.testbit (d_access d) 7.
Definition d_privilege (d : Z) : Z := (d_access d / 32) mod 4.
Definition d_code (d : Z) : bool := Z.testbit (d_access d) 3.

Lemma descriptor_fields e :
  in_u16 (limit_low e) -> in_u16 (base_low e) -> in_u8 (base_middle e) -> in_u8 (access e) ->
  in_u8 (granularity e) -> in_u8 (base_high e) ->
  let d := descriptor e in
  field d 0 2 = limit_low e /\ field d 2 3 = base_low e + 65536 * base_middle e
  /\ field d 5 1 = access e /\ field d 6 1 = granularity e /\ field d 7 1 = base_high e.
Proof.
  intros H1 H2 H3 H4 H5 H6. cbv zeta. unfold descriptor, gdt_entry_bytes.
  pose proof (fun n x => le_bytes_range n x) as R.
  set (b1 := le_bytes 2 (limit_low e)). set (b2 := le_bytes 2 (base_low e)).
  set (b3 := le_bytes 1 (base_middle e)). set (b4 := le_bytes 1 (access e)).
  set (b5 := le_bytes 1 (granularity e)). set (b6 := le_bytes 1 (base_high e)).
  repeat split.
  - refine (eq_trans (field_read [] b1 _ (Forall_nil_2 _) (R 2%nat _)) _). apply le_num_bytes. exact H1.
  - replace (b1 ++ b2 ++ b3 ++ b4 ++ b5 ++ b6) with (b1 ++ (b2 ++ b3) ++ b4 ++ b5 ++ b6)
      by (rewrite <- !app_assoc; reflexivity).
    refine (eq_trans (field_read b1 (b2 ++ b3) _ _ _) _); [apply R|apply Forall_app_2; apply R|].
    rewrite le_num_app. unfold b2, b3. rewrite le_num_bytes, le_num_bytes, le_bytes_length by assumption.
    reflexivity.
  - replace (b1 ++ b2 ++ b3 ++ b4 ++ b5 ++ b6) with ((b1 ++ b2 ++ b3) ++ b4 ++ b5 ++ b6)
      by (rewrite <- !app_assoc; reflexivity).
    refine (eq_trans (field_read (b1 ++ b2 ++ b3) b4 _ _ _) _); [repeat apply Forall_app_2; apply R|apply R|].
    apply le_num_bytes. exact H4.
  - replace (b1 ++ b2 ++ b3 ++ b4 ++ b5 ++ b6) with ((b1 ++ b2 ++ b3 ++ b4) ++ b5 ++ b6)
      by (rewrite <- !app_assoc; reflexivity).
    refine (eq_trans (field_read (b1 ++ b2 ++ b3 ++ b4) b5 _ _ _) _); [repeat apply Forall_app_2; apply R|apply R|].
    apply le_num_bytes. exact H5.
  - replace (b1 ++ b2 ++ b3 ++ b4 ++ b5 ++ b6) with ((b1 ++ b2 ++ b3 ++ b4 ++ b5) ++ b6 ++ [])
      by (rewrite app_nil_r, <- !app_assoc; reflexivity).
    refine (eq_trans (field_read (b1 ++ b2 ++ b3 ++ b4 ++ b5) b6 _ _ _) _); [repeat apply Forall_app_2; apply R|apply R|].
    apply le_num_bytes. exact H6.
Qed.

(** ** The gate that is written *)

(** The entry [gdt_set_gate] leaves, in arithmetic. *)
Definition gate_entry (base limit acc gran : Z) : gdt_entry_t :=
  GdtEntry (limit mod 65536) (base mod 65536) (base / 65536 mod 256) acc
    (limit / 65536 mod 16 + 16 * (gran / 16)) (base / 16777216 mod 256).

Lemma nibbles a b : 0 <= a < 16 -> in_u8 b -> Z.lor a (Z.land b 0xF0) = a + 16 * (b / 16).
Proof.
  intros Ha Hb. assert (Z.land b 0xF0 = 16 * (b / 16)) as ->.
  { change 0xF0 with (Z.ldiff (Z.ones 8) (Z.ones 4)).
    rewrite Z.mul_comm. change 16 with (2 ^ 4). rewrite <- Z.shiftr_div_pow2, <- Z.shiftl_mul_pow2 by lia.
    rewrite <- Z.ldiff_ones_r by lia. apply Z.bits_inj'. intros k Hk.
    rewrite Z.land_spec, !Z.ldiff_spec. destruct (Z.lt_ge_cases k 8).
    - rewrite (Z.ones_spec_low 8) by lia. reflexivity.
    - rewrite (testbit_small b 8 k) by (unfold in_u8 in Hb; lia). reflexivity. }
  replace (16 * (b / 16)) with (Z.shiftl (b / 16) 4) by (rewrite Z.shiftl_mul_pow2; lia).
  pose proof (Z.add_lor_land a (Z.shiftl (b / 16) 4)).
  enough (Z.land a (Z.shiftl (b / 16) 4) = 0) by lia.
  apply Z.bits_inj'. intros k Hk. rewrite Z.land_spec, Z.bits_0, Z.shiftl_spec by lia.
  destruct (Z.lt_ge_cases k 4).
  - rewrite (Z.testbit_neg_r _ (k - 4)) by lia. apply andb_false_r.
  - rewrite (testbit_small a 4 k) by lia. reflexivity.
Qed.

Lemma gdt_set_gate_ne num base limit acc gran g j :
  j <> num -> gdt_entries (gdt_set_gate num base limit acc gran g) !!! j = gdt_entries g !!! j.
Proof.
  intros Hj. cbn [gdt_set_gate gdt_entries gdt_ptr loaded]. rewrite !upd_ne by auto. reflexivity.
Qed.

Lemma gdt_set_gate_eq num base limit acc gran g :
  in_u32 base -> in_u32 limit -> in_u8 acc -> in_u8 gran ->
  gdt_entries (gdt_set_gate num base limit acc gran g) !!! num = gate_entry base limit acc gran.
Proof.
  intros Hb Hl Ha Hg.
  cbn [gdt_set_gate gdt_entries gdt_ptr loaded]. rewrite !upd_eq.
  destruct (gdt_entries g !!! num). unfold gate_entry.
  cbn [set_base_low set_base_middle set_base_high set_limit_low set_granularity set_access limit_low base_low base_middle access granularity base_high].
  change 0xFFFF with (Z.ones 16). change 0xFF with (Z.ones 8).
  change (Z.land (Z.shiftr limit 16) 15) with (Z.land (Z.shiftr limit 16) (Z.ones 4)).
  rewrite !Z.land_ones, !Z.shiftr_div_pow2 by lia.
  change (2 ^ 16) with 65536. change (2 ^ 8) with 256. change (2 ^ 24) with 16777216. change (2 ^ 4) with 16.
  assert (forall x, u8 (x mod 256) = x mod 256) as E8 by (intros x; apply Z.mod_mod; lia).
  assert (forall x, u16 (x mod 65536) = x mod 65536) as E16 by (intros x; apply Z.mod_mod; lia).
  pose proof (Z.mod_pos_bound (limit / 65536) 16 ltac:(lia)).
  assert (0 <= gran / 16 < 16) by (unfold in_u8 in Hg; split; [apply Z.div_pos; lia|apply Z.div_lt_upper_bound; lia]).
  rewrite !E8, !E16, (u8_small acc), (u8_small (_ mod 16)), nibbles by (unfold in_u8 in *; lia).
  rewrite u8_small by (unfold in_u8; lia). reflexivity.
Qed.

Lemma gate_entry_read base limit acc gran :
  in_u32 base -> in_u8 acc -> in_u8 gran ->
  let d := descriptor (gate_entry base limit acc gran) in
  d_base d = base /\ d_limit d = limit mod 2 ^ 20 /\ d_access d = acc /\ d_flags d = gran / 16.
Proof.
  intros Hb Ha Hg d. unfold in_u32, in_u8 in Hb, Ha, Hg.
  pose proof (Z.mod_pos_bound (limit / 65536) 16 ltac:(lia)).
  pose proof (Z.mod_pos_bound limit 65536 ltac:(lia)).
  assert (0 <= gran / 16 < 16) by (split; [apply Z.div_pos; lia|apply Z.div_lt_upper_bound; lia]).
  destruct (descriptor_fields (gate_entry base limit acc gran)) as (F1 & F2 & F3 & F4 & F5);
    try (cbn [gate_entry limit_low base_low base_middle access granularity base_high];
      first [apply Z.mod_pos_bound; lia|unfold in_u8; lia]).
  fold d in F1, F2, F3, F4, F5. clearbody d. cbn in F1, F2, F3, F4, F5.
  unfold d_base, d_limit, d_access, d_flags. rewrite F1, F2, F3, F4, F5.
  rewrite (Z.mul_comm 16 (gran / 16)), Z.mod_add, Z.div_add, (Z.mod_small (limit / 65536 mod 16)),
    (Z.div_small (limit / 65536 mod 16)) by lia.
  split; [|split; [|split; [reflexivity|lia]]].
  - change (256 ^ 3) with 16777216. clear - Hb.
    assert (base / 16777216 = base / 65536 / 256) as -> by (rewrite Z.div_div by lia; reflexivity).
    pose proof (Z.div_mod base 65536 ltac:(lia)). pose proof (Z.div_mod (base / 65536) 256 ltac:(lia)).
    assert (0 <= base / 65536 / 256 < 256).
    { rewrite Z.div_div by lia. split; [apply Z.div_pos; lia|apply Z.div_lt_upper_bound; lia]. }
    rewrite (Z.mod_small (base / 65536 / 256)) by lia. lia.
  - change (2 ^ 20) with (65536 * 16). rewrite Z.rem_mul_r by lia. reflexivity.
Qed.

(** A present segment over the whole address space. *)
Definition flat (e : gdt_entry_t) (code : bool) (privilege : Z) : Prop :=
  let d := descriptor e in
  d_base d = 0 /\ d_last d = 2 ^ 32 - 1 /\ d_present d = true
  /\ d_code d = code /\ d_privilege d = privilege.

Lemma init_gdt_entries addr g :
  let m := gdt_entries (init_gdt addr g) in
  m !!! 0 = gate_entry 0 0 0 0 /\ m !!! 1 = gate_entry 0 0xFFFFFFFF 0x9A 0xCF
  /\ m !!! 2 = gate_entry 0 0xFFFFFFFF 0x92 0xCF /\ m !!! 3 = gate_entry 0 0xFFFFFFFF 0xFA 0xCF
  /\ m !!! 4 = gate_entry 0 0xFFFFFFFF 0xF2 0xCF.
Proof.
  cbv zeta. unfold init_gdt. cbn [gdt_entries].
  repeat split; repeat rewrite gdt_set_gate_ne by discriminate;
    apply gdt_set_gate_eq; unfold in_u32, in_u8; lia.
Qed.

(** ** Property *)

(** [C31] The processor reads back from a gate what [gdt_set_gate] was given: the
    base, the low 20 bits of the limit, the access byte and the four flags, and
    no other descriptor changes.  [init_gdt] loads a table of five descriptors,
    the first one null and the others flat segments of 4 GiB: code and data for
    the kernel, code and data for privilege level 3. *)
Theorem gdt_correct addr g :
  (forall num base limit acc gran,
     in_u32 base -> in_u32 limit -> in_u8 acc -> in_u8 gran ->
     let g' := gdt_set_gate num base limit acc gran g in
     let d := descriptor (gdt_entries g' !!! num) in
     d_base d = base /\ d_limit d = limit mod 2 ^ 20 /\ d_access d = acc /\ d_flags d = gran / 16
     /\ forall j, j <> num -> gdt_entries g' !!! j = gdt_entries g !!! j)
  /\ (let m := gdt_entries (init_gdt addr g) in
      loaded (init_gdt addr g) = Some (GdtPtr 39 addr)
      /\ descriptor (m !!! 0) = 0
      /\ flat (m !!! 1) true 0 /\ flat (m !!! 2) false 0
      /\ flat (m !!! 3) true 3 /\ flat (m !!! 4) false 3).
Proof.
  split.
  - intros num base limit acc gran Hb Hl Ha Hg. cbv zeta.
    rewrite gdt_set_gate_eq by assumption.
    destruct (gate_entry_read base limit acc gran Hb Ha Hg) as (D1 & D2 & D3 & D4).
    repeat (split; [assumption|]). intros j Hj. apply gdt_set_gate_ne, Hj.
  - cbv zeta. destruct (init_gdt_entries addr g) as (-> & -> & -> & -> & ->).
    split; [reflexivity|]. repeat split; vm_compute; reflexivity.
Qed.
