(* ===== verification/Interrupts.v ===== *)
(** * kernel/arch/i386/idt.c and kernel/kernel/interrupt.c: interrupt dispatch

    The gates of the interrupt descriptor table, the programming of the two
    8259A controllers and the dispatch of an interrupt to the registered handler.
    Function pointers are addresses, 0 being the null pointer; what the code does
    to the outside, the calls of handlers included, is a list of events, in order;
    the handlers that print are in Console.v.  The last part reads the table
    and the port writes the way the processor and the controllers do. *)

From S2P Require Import Prelude Gdt.

(** ** The code *)

Record pt_regs := PtRegs { int_no : Z; err_code : Z; eip : Z }.

Inductive event :=
  | Outb (port value : Z)
  | Flush (limit base : Z)
  | Called (handler : Z) (regs : pt_regs).

Record idt_entry_t := IdtEntry { base_lo : Z; sel : Z; always0 : Z; flags : Z; base_hi : Z }.
#[export] Instance idt_entry_zero : Inhabited idt_entry_t := populate (IdtEntry 0 0 0 0 0).

Record idt := Idt {
  idt_entries : gmap Z idt_entry_t;
  interrupt_handlers : gmap Z Z;
  events : list event
}.

Definition emit (e : event) (s : idt) : idt :=
  Idt (idt_entries s) (interrupt_handlers s) (events s ++ [e]).

Definition register_interrupt_handler (n h : Z) (s : idt) : idt :=
  Idt (idt_entries s) (<[u8 n := h]> (interrupt_handlers s)) (events s).

Definition idt_set_gate (num base selector flag : Z) (s : idt) : idt :=
  let num := u8 num in
  let m := idt_entries s in
  let m := upd num (fun e => IdtEntry (u16 (Z.land base 0xFFFF)) (sel e) (always0 e) (flags e) (base_hi e)) m in
  let m := upd num (fun e => IdtEntry (base_lo e) (sel e) (always0 e) (flags e)
                                      (u16 (Z.land (Z.shiftr base 16) 0xFFFF))) m in
  let m := upd num (fun e => IdtEntry (base_lo e) selector (always0 e) (flags e) (base_hi e)) m in
  let m := upd num (fun e => IdtEntry (base_lo e) (sel e) 0 (flags e) (base_hi e)) m in
  let m := upd num (fun e => IdtEntry (base_lo e) (sel e) (always0 e) flag (base_hi e)) m in
  Idt m (interrupt_handlers s) (events s).

Section code.
(** The addresses of the stubs [isr0] ... [isr255], of the two handlers and of
    the table, as the linker places them. *)
Context (isr : Z -> Z) (isr_handler255_addr page_fault_addr idt_addr : Z).

Definition init_interrupt_handlers (s : idt) : idt :=
  let s := Idt (idt_entries s) ∅ (events s) in
  let s := register_interrupt_handler 255 isr_handler255_addr s in
  register_interrupt_handler 14 page_fault_addr s.

(** The gates 0 ... 31 and 32 ... 47 are set one by one in the source. *)
Definition init_idt (s : idt) : idt :=
  let s := init_interrupt_handlers s in
  let s := Idt ∅ (interrupt_handlers s) (events s) in
  let s := for_loop 32 0 (fun n => idt_set_gate n (isr n) 0x08 0x8E) s in
  let s := emit (Outb 0x20 0x11) s in
  let s := emit (Outb 0xA0 0x11) s in
  let s := emit (Outb 0x21 0x20) s in
  let s := emit (Outb 0xA1 0x28) s in
  let s := emit (Outb 0x21 0x04) s in
  let s := emit (Outb 0xA1 0x02) s in
  let s := emit (Outb 0x21 0x01) s in
  let s := emit (Outb 0xA1 0x01) s in
  let s := emit (Outb 0x21 0x0) s in
  let s := emit (Outb 0xA1 0x0) s in
  let s := for_loop 16 32 (fun n => idt_set_gate n (isr n) 0x08 0x8E) s in
  let s := idt_set_gate 255 (isr 255) 0x08 0x8E s in
  emit (Flush (8 * 256 - 1) idt_addr) s.
End code.

Definition isr_handler (regs : pt_regs) (s : idt) : idt :=
  let n := u8 (Z.land (int_no regs) 0xFF) in
  let s := if (32 <=? n) && (n <? 40) then emit (Outb 0x20 0x20) s else s in
  let s := if (40 <=? n) && (n <=? 47)
           then emit (Outb 0xA0 0x20) (emit (Outb 0x20 0x20) s) else s in
  if interrupt_handlers s !!! n =? 0 then s
  else emit (Called (interrupt_handlers s !!! n) regs) s.

(** ** The processor's reading of a gate *)

Definition idt_entry_bytes (e : idt_entry_t) : list Z :=
  le_bytes 2 (base_lo e) ++ le_bytes 2 (sel e) ++ le_bytes 1 (always0 e)
  ++ le_bytes 1 (flags e) ++ le_bytes 2 (base_hi e).
Definition gate (e : idt_entry_t) : Z := le_num (idt_entry_bytes e).

Definition g_offset (d : Z) : Z := field d 0 2 + 65536 * field d 6 2.
Definition g_selector (d : Z) : Z := field d 2 2.
Definition g_attributes (d : Z) : Z := field d 5 1.

(** A present 32-bit interrupt gate of privilege 0 into the kernel's code
    segment, which is what the vector's entry must be to reach [target]. *)
Definition reaches (e : idt_entry_t) (target : Z) : Prop :=
  g_offset (gate e) = target /\ g_selector (gate e) = 8 /\ g_attributes (gate e) = 142.

(** ** The interrupt controllers *)

(** An 8259A takes four initialisation words after a first byte with bit 4 set
    to its command port: that one, the vector of its first line, the cascade
    wiring, the mode; then a byte to the data port is the mask of the lines.  A
    command byte 0x20 ends the interrupt in service. *)
Record pic := Pic { pic_left : list Z; pic_vector : Z; pic_cascade : Z; pic_mode : Z; pic_mask : Z; pic_eois : Z }.
Definition pic0 : pic := Pic [] 0 0 0 255 0.

Definition pic_command (v : Z) (p : pic) : pic :=
  if Z.testbit v 4 then Pic [2; 3; 4] (pic_vector p) (pic_cascade p) (pic_mode p) 0 (pic_eois p)
  else if v =? 0x20 then Pic (pic_left p) (pic_vector p) (pic_cascade p) (pic_mode p) (pic_mask p) (pic_eois p + 1)
  else p.

Definition pic_data (v : Z) (p : pic) : pic :=
  match pic_left p with
  | 2 :: l => Pic l v (pic_cascade p) (pic_mode p) (pic_mask p) (pic_eois p)
  | 3 :: l => Pic l (pic_vector p) v (pic_mode p) (pic_mask p) (pic_eois p)
  | _ :: l => Pic l (pic_vector p) (pic_cascade p) v (pic_mask p) (pic_eois p)
  | [] => Pic [] (pic_vector p) (pic_cascade p) (pic_mode p) v (pic_eois p)
  end.

(** The two controllers see the writes to their ports. *)
Definition pics_step (ps : pic * pic) (e : event) : pic * pic :=
  match e with
  | Outb 0x20 v => (pic_command v ps.1, ps.2)
  | Outb 0x21 v => (pic_data v ps.1, ps.2)
  | Outb 0xA0 v => (ps.1, pic_command v ps.2)
  | Outb 0xA1 v => (ps.1, pic_data v ps.2)
  | _ => ps
  end.

Definition pics (es : list event) : pic * pic := foldl pics_step (pic0, pic0) es.

(** The vector an unmasked line raises; the lines 8 ... 15 are on the second
    controller, which must be wired to line 2 of the first. *)
Definition irq_vector (ps : pic * pic) (irq : Z) : option Z :=
  let '(m, s) := ps in
  if negb (bool_decide (pic_left m = []) && bool_decide (pic_left s = [])) then None
  else if irq <? 8 then
    if Z.testbit (pic_mask m) irq then None else Some (pic_vector m + irq)
  else if Z.testbit (pic_mask s) (irq - 8) || Z.testbit (pic_mask m) 2
          || negb ((pic_cascade m =? 4) && (pic_cascade s =? 2)) then None
  else Some (pic_vector s + (irq - 8)).

(** ** Gates *)

Lemma idt_set_gate_ne num base selector flag s j :
  j <> u8 num -> idt_entries (idt_set_gate num base selector flag s) !!! j = idt_entries s !!! j.
Proof. intros Hj. cbn [idt_set_gate idt_entries]. rewrite !upd_ne by auto. reflexivity. Qed.

Lemma idt_set_gate_eq num base s :
  in_u32 base ->
  idt_entries (idt_set_gate num base 0x08 0x8E s) !!! u8 num
  = IdtEntry (base mod 65536) 8 0 142 (base / 65536).
Proof.
  intros Hb. cbn [idt_set_gate idt_entries]. rewrite !upd_eq.
  cbn [base_lo sel always0 flags base_hi]. change 0xFFFF with (Z.ones 16).
  rewrite !Z.land_ones, Z.shiftr_div_pow2 by lia. change (2 ^ 16) with 65536.
  unfold u16. rewrite !Z.mod_mod by lia. f_equal. apply Z.mod_small. unfold in_u32 in Hb.
  split; [apply Z.div_pos; lia|apply Z.div_lt_upper_bound; lia].
Qed.

Lemma gate_fields lo hi :
  in_u16 lo -> in_u16 hi -> reaches (IdtEntry lo 8 0 142 hi) (lo + 65536 * hi).
Proof.
  intros Hl Hh. unfold reaches, g_offset, g_selector, g_attributes, gate, idt_entry_bytes.
  cbn [base_lo sel always0 flags base_hi].
  set (b1 := le_bytes 2 lo). set (b5 := le_bytes 2 hi).
  pose proof (le_bytes_range 2 lo : Forall in_u8 b1) as R1.
  pose proof (le_bytes_range 2 hi : Forall in_u8 b5) as R5.
  assert (forall bs, Forall in_u8 bs -> Forall in_u8 (b1 ++ bs)) as R by (intros; apply Forall_app_2; auto).
  assert (Forall in_u8 (le_bytes 2 8 ++ le_bytes 1 0 ++ le_bytes 1 142)) as R3
    by (repeat apply Forall_app_2; apply le_bytes_range).
  repeat split.
  - f_equal; [|f_equal].
    + refine (eq_trans (field_read [] b1 _ (Forall_nil_2 _) R1) _). apply le_num_bytes. exact Hl.
    + replace (b1 ++ le_bytes 2 8 ++ le_bytes 1 0 ++ le_bytes 1 142 ++ b5)
        with ((b1 ++ le_bytes 2 8 ++ le_bytes 1 0 ++ le_bytes 1 142) ++ b5 ++ [])
        by (rewrite app_nil_r, <- !app_assoc; reflexivity).
      refine (eq_trans (field_read _ b5 [] (R _ R3) R5) _). apply le_num_bytes. exact Hh.
  - refine (eq_trans (field_read b1 (le_bytes 2 8) _ R1 (le_bytes_range _ _)) _). reflexivity.
  - replace (b1 ++ le_bytes 2 8 ++ le_bytes 1 0 ++ le_bytes 1 142 ++ b5)
      with ((b1 ++ le_bytes 2 8 ++ le_bytes 1 0) ++ le_bytes 1 142 ++ b5)
      by (rewrite <- !app_assoc; reflexivity).
    refine (eq_trans (field_read _ (le_bytes 1 142) b5 (R _ _) (le_bytes_range _ _)) _);
      [repeat apply Forall_app_2; apply le_bytes_range|reflexivity].
Qed.

Lemma set_gate_reaches n base s :
  in_u8 n -> in_u32 base -> reaches (idt_entries (idt_set_gate n base 0x08 0x8E s) !!! n) base.
Proof.
  intros Hn Hb. pose proof (idt_set_gate_eq n base s Hb) as E0. rewrite (u8_small n Hn) in E0.
  rewrite E0. pose proof (Z.div_mod base 65536 ltac:(lia)) as E.
  unfold in_u32 in Hb. replace base with (base mod 65536 + 65536 * (base / 65536)) at 3 by lia.
  apply gate_fields; unfold in_u16; [apply Z.mod_pos_bound; lia|].
  split; [apply Z.div_pos; lia|apply Z.div_lt_upper_bound; lia].
Qed.

(** A run of consecutive gates. *)
Lemma set_gates_loop isr (Hisr : forall n, in_u32 (isr n)) len first s :
  0 <= first -> first + Z.of_nat len <= 256 ->
  let s' := for_loop len first (fun n => idt_set_gate n (isr n) 0x08 0x8E) s in
  interrupt_handlers s' = interrupt_handlers s /\ events s' = events s
  /\ (forall n, first <= n < first + Z.of_nat len -> reaches (idt_entries s' !!! n) (isr n))
  /\ (forall n, ~ first <= n < first + Z.of_nat len -> idt_entries s' !!! n = idt_entries s !!! n).
Proof.
  intros Hf Hl. apply (for_loop_ind (fun k s' =>
    interrupt_handlers s' = interrupt_handlers s /\ events s' = events s
    /\ (forall n, first <= n < k -> reaches (idt_entries s' !!! n) (isr n))
    /\ (forall n, ~ first <= n < k -> idt_entries s' !!! n = idt_entries s !!! n))).
  - repeat split; intros; lia.
  - intros k s' Hk (E1 & E2 & E3 & E4). split; [exact E1|]. split; [exact E2|].
    assert (u8 k = k) as Ek by (apply u8_small; unfold in_u8; lia). split; intros n Hn.
    + destruct (Z.eq_dec n k) as [->|]; [apply set_gate_reaches; [unfold in_u8; lia|apply Hisr]|].
      rewrite idt_set_gate_ne by lia. apply E3. lia.
    + rewrite idt_set_gate_ne by lia. apply E4. lia.
Qed.

(** What [init_idt] sends to the controllers; whatever their state was, the lines
    are then routed to the vectors from 32 on, if nothing else is sent. *)
Definition pic_words : list event :=
  [Outb 0x20 0x11; Outb 0xA0 0x11; Outb 0x21 0x20; Outb 0xA1 0x28; Outb 0x21 0x04;
   Outb 0xA1 0x02; Outb 0x21 0x01; Outb 0xA1 0x01; Outb 0x21 0x0; Outb 0xA1 0x0].

Lemma pics_initialised m s :
  foldl pics_step (m, s) pic_words = (Pic [] 32 4 1 0 (pic_eois m), Pic [] 40 2 1 0 (pic_eois s)).
Proof. reflexivity. Qed.

Lemma lines_routed es es' irq :
  (forall ps, foldl pics_step ps es' = ps) -> 0 <= irq < 16 ->
  irq_vector (pics (es ++ pic_words ++ es')) irq = Some (32 + irq).
Proof.
  intros He Hirq. unfold pics. rewrite !foldl_app. destruct (foldl pics_step (pic0, pic0) es) as [m sl].
  rewrite pics_initialised, He. simpl. destruct (Z.ltb_spec irq 8); simpl; rewrite Z.testbit_0_l; simpl; f_equal; lia.
Qed.

Lemma init_idt_ok isr h255 pf addr s0 :
  (forall n, in_u32 (isr n)) ->
  let s := init_idt isr h255 pf addr s0 in
  (forall n, 0 <= n < 48 \/ n = 255 -> reaches (idt_entries s !!! n) (isr n))
  /\ (forall n, 48 <= n < 255 -> Z.testbit (g_attributes (gate (idt_entries s !!! n))) 7 = false)
  /\ events s = events s0 ++ pic_words ++ [Flush (8 * 256 - 1) addr]
  /\ interrupt_handlers s = <[14 := pf]> (<[255 := h255]> ∅).
Proof.
  intros Hisr. cbv zeta. unfold init_idt.
  match goal with |- context [for_loop 32 0 ?f ?x] =>
    pose proof (set_gates_loop isr Hisr 32 0 x ltac:(lia) ltac:(lia)) as A;
    generalize dependent (for_loop 32 0 f x) end.
  intros l1 (A1 & A2 & A3 & A4).
  match goal with |- context [for_loop 16 32 ?f ?x] =>
    pose proof (set_gates_loop isr Hisr 16 32 x ltac:(lia) ltac:(lia)) as B;
    generalize dependent (for_loop 16 32 f x) end.
  intros l2 (B1 & B2 & B3 & B4). unfold emit in B1, B4. cbn [idt_entries interrupt_handlers] in B1, B4.
  change (Z.of_nat 32) with 32 in *. change (Z.of_nat 16) with 16 in *.
  assert (forall n, n <> 255 -> idt_entries (idt_set_gate 255 (isr 255) 0x08 0x8E l2) !!! n = idt_entries l2 !!! n)
    as C by (intros n Hn; apply idt_set_gate_ne; exact Hn).
  cbn [emit idt_entries interrupt_handlers].
  split; [|split; [|split]].
  - intros n Hn. destruct (Z.eq_dec n 255) as [->|].
    { apply (set_gate_reaches 255); [unfold in_u8; lia|apply Hisr]. }
    rewrite C by assumption. destruct (Z.lt_ge_cases n 32).
    + rewrite B4 by lia. apply A3. lia.
    + apply B3. lia.
  - intros n Hn. rewrite C, B4, A4 by lia. reflexivity.
  - unfold emit, idt_set_gate. cbn [events]. rewrite B2. unfold emit. cbn [events]. rewrite A2. rewrite <- !app_assoc. reflexivity.
  - cbn [idt_set_gate interrupt_handlers]. rewrite B1, A1. reflexivity.
Qed.

(** ** Properties *)

(** [C21] After [init_idt], whatever the state before: the vectors 0 ... 47 and 255
    have a present interrupt gate into the kernel's code segment at the stub of
    that number, every other vector has a gate marked absent, each of the sixteen
    interrupt lines raises the vector 32 + line, for which there is thus a gate,
    and the only handlers are those of the page fault and of vector 255. *)
Theorem init_idt_routes isr h255 pf addr s0 :
  (forall n, in_u32 (isr n)) ->
  let s := init_idt isr h255 pf addr s0 in
  (forall n, 0 <= n < 48 \/ n = 255 -> reaches (idt_entries s !!! n) (isr n))
  /\ (forall n, 48 <= n < 255 -> Z.testbit (g_attributes (gate (idt_entries s !!! n))) 7 = false)
  /\ (forall irq, 0 <= irq < 16 -> irq_vector (pics (events s)) irq = Some (32 + irq))
  /\ interrupt_handlers s = <[14 := pf]> (<[255 := h255]> ∅).
Proof.
  intros Hisr. cbv zeta. destruct (init_idt_ok isr h255 pf addr s0 Hisr) as (R & A & E & Hh).
  split; [exact R|]. split; [exact A|]. split; [|exact Hh].
  intros irq Hirq. rewrite E. apply lines_routed; [|exact Hirq]. intros [? ?]. reflexivity.
Qed.

Lemma init_idt_routes_witness :
  let s := init_idt (fun n => 0x100000 + 16 * (n mod 256)) 5 6 7 (Idt ∅ ∅ []) in
  reaches (idt_entries s !!! 33) (0x100000 + 16 * 33)
  /\ irq_vector (pics (events s)) 1 = Some 33.
Proof.
  destruct (init_idt_routes (fun n => 0x100000 + 16 * (n mod 256)) 5 6 7 (Idt ∅ ∅ [])) as (R & _ & V & _).
  - intros n. pose proof (Z.mod_pos_bound n 256 ltac:(lia)). unfold in_u32. lia.
  - split; [apply (R 33); lia|apply (V 1); lia].
Defined.

(** One more end-of-interrupt command at a controller. *)
Definition ended (b : bool) (p : pic) : pic :=
  if b then Pic (pic_left p) (pic_vector p) (pic_cascade p) (pic_mode p) (pic_mask p) (pic_eois p + 1) else p.

(** [C23] Dispatching an interrupt ends it at the controllers it came through, the
    first one for the vectors 32 ... 47 and the second one as well for 40 ... 47,
    then calls the handler last registered for its vector with the saved
    registers, once, and does nothing else; without a handler it only ends it. *)
Theorem isr_handler_correct n h regs s :
  in_u8 n -> h <> 0 -> int_no regs mod 256 = n ->
  let s1 := register_interrupt_handler n h s in
  let s2 := isr_handler regs s1 in
  exists es, events s2 = events s ++ es ++ [Called h regs]
    /\ pics (events s ++ es)
       = (ended ((32 <=? n) && (n <? 48)) (pics (events s)).1, ended ((40 <=? n) && (n <? 48)) (pics (events s)).2)
    /\ (forall e, e ∈ es -> exists port, e = Outb port 0x20)
    /\ idt_entries s2 = idt_entries s /\ interrupt_handlers s2 = interrupt_handlers s1
    /\ (forall k, k <> n -> interrupt_handlers s1 !!! k = interrupt_handlers s !!! k)
    /\ (interrupt_handlers s !!! n = 0 -> isr_handler regs s
        = Idt (idt_entries s) (interrupt_handlers s) (events s ++ es)).
Proof.
  intros Hn Hh Hr. cbv zeta. unfold isr_handler.
  change 0xFF with (Z.ones 8). rewrite Z.land_ones by lia. change (2 ^ 8) with 256.
  rewrite Hr, u8_small by exact Hn. unfold register_interrupt_handler. rewrite (u8_small n Hn).
  assert (forall k, k <> n -> <[n := h]> (interrupt_handlers s) !!! k = interrupt_handlers s !!! k) as Hk
    by (intros k Hkn; apply (lookup_total_insert_ne (M := gmap Z)); auto).
  set (s1 := Idt (idt_entries s) (<[n := h]> (interrupt_handlers s)) (events s)).
  assert (interrupt_handlers s1 !!! n = h) as He by apply (lookup_total_insert_eq (M := gmap Z)).
  assert (events s1 = events s) as Hs by reflexivity.
  assert (idt_entries s1 = idt_entries s) as Hi by reflexivity.
  change (<[n := h]> (interrupt_handlers s)) with (interrupt_handlers s1) in Hk |- *.
  clearbody s1.
  assert (forall es, pics (events s ++ es) = foldl pics_step (pics (events s)) es) as Hp
    by (intros es; apply foldl_app).
  destruct (pics (events s)) as [m sl] eqn:Ep.
  exists ((if (32 <=? n) && (n <? 48) then [Outb 0x20 0x20] else [])
          ++ (if (40 <=? n) && (n <? 48) then [Outb 0xA0 0x20] else [])).
  rewrite Hp. unfold in_u8 in Hn. unfold emit. destruct s as [entries handlers es], s1 as [entries1 handlers1 es1].
  simpl in *. subst entries1 es1.
  case_bools; try lia; simpl in *; try congruence; rewrite ?He;
    rewrite <- ?app_assoc, ?app_nil_r; simpl;
    (split; [reflexivity|]; split; [reflexivity|]; split; [set_solver|]; split; [reflexivity|];
     split; [reflexivity|]; split; [exact Hk|]; intros E0; try contradiction; rewrite ?app_nil_r; reflexivity).
Qed.

Lemma isr_handler_correct_witness :
  let regs := PtRegs 44 0 0 in
  let s := isr_handler regs (register_interrupt_handler 44 7 (Idt ∅ ∅ [])) in
  exists es, events s = es ++ [Called 7 regs] /\ (pic_eois (pics es).1, pic_eois (pics es).2) = (1, 1).
Proof.
  destruct (isr_handler_correct 44 7 (PtRegs 44 0 0) (Idt ∅ ∅ [])) as (es & E & P & _).
  - unfold in_u8. lia.
  - discriminate.
  - reflexivity.
  - exists es. split; [exact E|]. simpl app in P. rewrite P. reflexivity.
Defined.
