(* ===== verification/Kmm.v ===== *)
(** * kernel/kernel/kmm.c: the slice allocator behind [kmalloc]

    Eight size classes, each a list of managers.  A manager fills one page: 408
    allocators in three doubly linked lists (free, partially full, full), each
    allocator owning one page cut into slices of the class.  Up to 256 bytes the
    free slices of a page are linked through a byte in front of each slice; above
    that [first_avai] is a bitmap.

    A manager is a record kept at the address of its page, an allocator is named
    by its address in that page, and [bytes] is the memory of the slice pages.
    The frame allocator is reached through the interface [FrameSource], which
    [KmmPmm] instantiates with [Pmm]. *)

From S2P Require Import Prelude.

Definition PAGE_FRAME_SIZE : Z := 4096.
Definition PAGE_OFFSET : Z := 0xC0000000.
Definition PAGE_MASK : Z := 0xFFFFF000.
Definition PAGE_SLICE_LEVEL : Z := 8.
Definition BUDDY_MAXLEVEL : Z := 11.
Definition MAX_ALLOC : Z := Z.shiftl 1 (BUDDY_MAXLEVEL - 1) * PAGE_FRAME_SIZE.

(** The struct [page_slice_allocator_t] is packed: 2 + 2 + 1 + 1 + 4 bytes. *)
Definition SIZEOF_ALLOCATOR : Z := 10.
Definition NUM_OF_ALLOC_PER_MANAGER : Z := (PAGE_FRAME_SIZE - 2 - 2 - 2 - 2 - 4) / SIZEOF_ALLOCATOR.
Definition END_FLAG : Z := NUM_OF_ALLOC_PER_MANAGER.
(** The offset of [allocs] in the packed manager, and the size of a pointer. *)
Definition ALLOCS_OFFSET : Z := 12.
Definition SIZEOF_PTR : Z := 4.

Inductive kma_mode := KMA_MODE_LINKED | KMA_MODE_BITMAP.

Definition slice_sizes : list Z := [16; 32; 64; 128; 256; 512; 1024; 2048].
Definition slice_size_of (i : Z) : Z := slice_sizes !!! Z.to_nat i.

Definition is_linked_mode (slice_size : Z) : bool := slice_size <=? 256.

(** ** What [kmm.c] calls of pmm.c

    Frames are named by the physical address of their [page_frame_t]. *)
Class FrameSource (P : Type) := {
  fs_physic_alloc : Z -> P -> option (Z * P);
  fs_frame_alloc : Z -> P -> option (Z * P);
  fs_physic_free : Z -> P -> option (Z * P);
  (** [frame->physic_addr], [frame->allocator] and its assignment. *)
  fs_physic_addr : P -> Z -> Z;
  fs_allocator : P -> Z -> Z;
  fs_set_allocator : Z -> Z -> P -> P;
  (** [&frames[(physic_addr - base) / PAGE_FRAME_SIZE]]. *)
  fs_frame_at : P -> Z -> Z
}.

Record page_slice_allocator := Allocator {
  prev_allocator : Z;
  next_allocator : Z;
  first_avai : Z;
  avai_num : Z;
  target_page : Z
}.
#[export] Instance allocator_zero : Inhabited page_slice_allocator := populate (Allocator 0 0 0 0 0).

Record manager := Manager {
  slice_size : Z;
  mg_free : Z;
  mg_p_full : Z;
  mg_full : Z;
  mg_next : Z;
  allocs : gmap Z page_slice_allocator
}.
#[export] Instance manager_zero : Inhabited manager := populate (Manager 0 0 0 0 0 ∅).

Record kmm (P : Type) := Kmm {
  alloc_ms : gmap Z Z;
  managers : gmap Z manager;
  bytes : gmap Z Z;
  pool : P
}.
Arguments Kmm {P}. Arguments alloc_ms {P}. Arguments managers {P}.
Arguments bytes {P}. Arguments pool {P}.

(** ** Field writes *)

Definition set_prev v a := Allocator v (next_allocator a) (first_avai a) (avai_num a) (target_page a).
Definition set_next v a := Allocator (prev_allocator a) v (first_avai a) (avai_num a) (target_page a).
Definition set_first v a := Allocator (prev_allocator a) (next_allocator a) v (avai_num a) (target_page a).
Definition set_avai v a := Allocator (prev_allocator a) (next_allocator a) (first_avai a) v (target_page a).
Definition set_target v a := Allocator (prev_allocator a) (next_allocator a) (first_avai a) (avai_num a) v.

Definition set_slice_size v m := Manager v (mg_free m) (mg_p_full m) (mg_full m) (mg_next m) (allocs m).
Definition set_free v m := Manager (slice_size m) v (mg_p_full m) (mg_full m) (mg_next m) (allocs m).
Definition set_p_full v m := Manager (slice_size m) (mg_free m) v (mg_full m) (mg_next m) (allocs m).
Definition set_full v m := Manager (slice_size m) (mg_free m) (mg_p_full m) v (mg_next m) (allocs m).
Definition set_mg_next v m := Manager (slice_size m) (mg_free m) (mg_p_full m) (mg_full m) v (allocs m).
Definition upd_alloc k f m :=
  Manager (slice_size m) (mg_free m) (mg_p_full m) (mg_full m) (mg_next m) (upd k f (allocs m)).

(** ** The three lists of a manager *)

(** Move allocator [k] from the head of the free list to that of the partially
    full list ([kmalloc_helper], once a page of it is used). *)
Definition free_to_p_full (k : Z) (m : manager) : manager :=
  let free_next_index := next_allocator (allocs m !!! k) in
  let m := if free_next_index =? END_FLAG then m
           else upd_alloc free_next_index (set_prev (prev_allocator (allocs m !!! k))) m in
  let m := set_free free_next_index m in
  let pfull_first_index := mg_p_full m in
  let m := upd_alloc k (set_next pfull_first_index) m in
  let m := if pfull_first_index =? END_FLAG then m
           else
             let m := upd_alloc k (set_prev (prev_allocator (allocs m !!! pfull_first_index))) m in
             upd_alloc pfull_first_index (set_prev k) m in
  set_p_full k m.

(** The same from the partially full to the full list, after its last slice. *)
Definition p_full_to_full (k : Z) (m : manager) : manager :=
  let pfull_next_index := next_allocator (allocs m !!! k) in
  let m := if pfull_next_index =? END_FLAG then m
           else upd_alloc pfull_next_index (set_prev (prev_allocator (allocs m !!! k))) m in
  let m := set_p_full pfull_next_index m in
  let full_first_index := mg_full m in
  let m := upd_alloc k (set_next full_first_index) m in
  let m := if full_first_index =? END_FLAG then m
           else
             let m := upd_alloc k (set_prev (prev_allocator (allocs m !!! full_first_index))) m in
             upd_alloc full_first_index (set_prev k) m in
  set_full k m.

(** [kfree]: out of the partially full list, to the front of the free list. *)
Definition p_full_to_free (k : Z) (m : manager) : manager :=
  let prev := prev_allocator (allocs m !!! k) in
  let next := next_allocator (allocs m !!! k) in
  let m := if next =? END_FLAG then m else upd_alloc next (set_prev prev) m in
  let m := if prev =? END_FLAG then set_p_full next m else upd_alloc prev (set_next next) m in
  let m := upd_alloc k (set_next (mg_free m)) m in
  let m := upd_alloc k (set_prev END_FLAG) m in
  let m := if mg_free m =? END_FLAG then m else upd_alloc (mg_free m) (set_prev k) m in
  set_free k m.

(** [kfree]: out of the full list, to the front of the partially full list. *)
Definition full_to_p_full (k : Z) (m : manager) : manager :=
  let prev := prev_allocator (allocs m !!! k) in
  let next := next_allocator (allocs m !!! k) in
  let m := if next =? END_FLAG then m else upd_alloc next (set_prev prev) m in
  let m := if prev =? END_FLAG then set_full next m else upd_alloc prev (set_next next) m in
  let m := upd_alloc k (set_next (mg_p_full m)) m in
  let m := upd_alloc k (set_prev END_FLAG) m in
  let m := if mg_p_full m =? END_FLAG then m else upd_alloc (mg_p_full m) (set_prev k) m in
  set_p_full k m.

Definition init_allocator_manager (m : manager) : manager :=
  let blank prev next (_ : page_slice_allocator) := Allocator (u16 prev) (u16 next) 0 0 0 in
  let m := upd_alloc 0 (blank END_FLAG 1) m in
  let m := for_loop (Z.to_nat (NUM_OF_ALLOC_PER_MANAGER - 2)) 1
             (fun i => upd_alloc i (blank (i - 1) (i + 1))) m in
  upd_alloc (NUM_OF_ALLOC_PER_MANAGER - 1) (blank (NUM_OF_ALLOC_PER_MANAGER - 2) END_FLAG) m.

Section operations.
Context {P : Type} `{FrameSource P}.
Implicit Types s : kmm P.

Definition upd_manager (a : Z) (f : manager -> manager) s : kmm P :=
  Kmm (alloc_ms s) (upd a f (managers s)) (bytes s) (pool s).
Definition set_alloc_ms (i a : Z) s : kmm P :=
  Kmm (<[i := a]> (alloc_ms s)) (managers s) (bytes s) (pool s).
Definition set_pool (p : P) s : kmm P := Kmm (alloc_ms s) (managers s) (bytes s) p.
Definition set_bytes (b : gmap Z Z) s : kmm P := Kmm (alloc_ms s) (managers s) b (pool s).

Definition load s (a : Z) : Z := bytes s !!! a.
Definition store (a v : Z) s : kmm P := set_bytes (<[a := u8 v]> (bytes s)) s.
(** A 32-bit store, the low byte first. *)
Definition store32 (a v : Z) s : kmm P :=
  store (a + 3) (v / 16777216) (store (a + 2) (v / 65536) (store (a + 1) (v / 256) (store a v s))).

(** [&manager->allocs[k]] and the allocator at such an address. *)
Definition allocator_ptr (m k : Z) : Z := u32 (m + ALLOCS_OFFSET + SIZEOF_ALLOCATOR * k).
Definition manager_of (a : Z) : Z := Z.land a PAGE_MASK.
Definition index_of (a : Z) : Z := u16 (u32 (a - (manager_of a + ALLOCS_OFFSET)) / SIZEOF_ALLOCATOR).
Definition alloc_of s (m k : Z) : page_slice_allocator := allocs (managers s !!! m) !!! k.

(** The physical address of the page of an allocator; [target_page] is the
    virtual address of its frame. *)
Definition target_addr s (a : page_slice_allocator) : Z :=
  fs_physic_addr (pool s) (u32 (target_page a - PAGE_OFFSET)).

Definition alloc_one_page_mem_virtual s : option (Z * kmm P) :=
  '(p, pl) ← fs_physic_alloc PAGE_FRAME_SIZE (pool s);
  Some (u32 (p + PAGE_OFFSET), set_pool pl s).

Definition alloc_one_page_virtual s : option (Z * kmm P) :=
  '(p, pl) ← fs_frame_alloc 1 (pool s);
  Some (u32 (p + PAGE_OFFSET), set_pool pl s).

(** A page that becomes the first manager of its class in the list [next]. *)
Definition new_manager (i next : Z) s : option (Z * kmm P) :=
  '(m, s) ← alloc_one_page_mem_virtual s;
  let s := upd_manager m (set_slice_size (u16 (slice_size_of i))) s in
  let s := upd_manager m (set_mg_next next) s in
  let s := upd_manager m (set_p_full END_FLAG) s in
  let s := upd_manager m (set_full END_FLAG) s in
  let s := upd_manager m (set_free 0) s in
  Some (m, s).

Definition init_kmm s : option (kmm P) :=
  for_loop (Z.to_nat PAGE_SLICE_LEVEL) 0
    (fun i acc =>
       s ← acc;
       '(m, s) ← new_manager i 0 s;
       let s := upd_manager m init_allocator_manager s in
       Some (set_alloc_ms i m s)) (Some s).

(** ** One page of slices *)

Definition real_slice_size (size : Z) : Z := size + 1.

Definition init_linked_page (m k size : Z) s : option (kmm P) :=
  let page_addr := u32 (target_addr s (alloc_of s m k) + PAGE_OFFSET) in
  let s := store32 page_addr (allocator_ptr m k) s in
  '(_, _, last, s) ← while 256
     (fun '(addr, _, _, _) => u32 (addr + real_slice_size size) <=? u32 (page_addr + PAGE_FRAME_SIZE))
     (fun '(addr, i, _, s) => (u32 (addr + real_slice_size size), u8 (i + 1), addr, store addr (i + 1) s))
     (u32 (page_addr + SIZEOF_PTR), 0, 0, s);
  Some (store last 0xFF s).

(** [bits] slices, the first one in the highest bit. *)
Definition first_clear (bitmap bits : Z) : option Z :=
  while 8 (fun i => (i <? bits) && negb (Z.land (Z.shiftr bitmap (7 - i)) 1 =? 0)) (fun i => i + 1) 0.

(** The address handed out, and whether it was the page's last free slice. *)
Definition get_slice_addr (m k size : Z) (mode : kma_mode) s : option (bool * Z * kmm P) :=
  let a := alloc_of s m k in
  match mode with
  | KMA_MODE_LINKED =>
      let ret_addr := u32 (u32 (target_addr s a + PAGE_OFFSET) + SIZEOF_PTR + first_avai a * real_slice_size size) in
      let next_avail := load s ret_addr in
      let s := store ret_addr 0xFF s in
      let addr := u32 (ret_addr + 1) in
      let s := upd_manager m (upd_alloc k (set_first next_avail)) s in
      Some (next_avail =? 0xFF, addr, s)
  | KMA_MODE_BITMAP =>
      let bitmap := first_avai a in
      let bits := PAGE_FRAME_SIZE / size in
      i ← first_clear bitmap bits;
      let addr := u32 (u32 (target_addr s a + PAGE_OFFSET) + i * size) in
      let bitmap := u8 (Z.lor bitmap (Z.shiftl 1 (7 - i))) in
      let s := upd_manager m (upd_alloc k (set_first bitmap)) s in
      Some (Z.shiftr bitmap (8 - bits) =? Z.shiftr 0xFF (8 - bits), addr, s)
  end.

(** ** [kmalloc] *)

(** The branch of [kmalloc_helper] that serves from a partially full page. *)
Definition alloc_p_full (m size : Z) (mode : kma_mode) s : option (Z * kmm P) :=
  let k := mg_p_full (managers s !!! m) in
  '(last, addr, s) ← get_slice_addr m k size mode s;
  let s := if last : bool then upd_manager m (p_full_to_full k) s else s in
  let s := upd_manager m (upd_alloc k (fun a => set_avai (u8 (avai_num a - 1)) a)) s in
  Some (addr, s).

(** A page for an allocator that has none. *)
Definition attach_page (m k size : Z) (mode : kma_mode) s : option (kmm P) :=
  '(new_page, s) ← alloc_one_page_virtual s;
  let s := set_pool (fs_set_allocator (u32 (new_page - PAGE_OFFSET)) (allocator_ptr m k) (pool s)) s in
  let s := upd_manager m (upd_alloc k (set_target new_page)) s in
  let s := upd_manager m (upd_alloc k (set_avai (u8 (PAGE_FRAME_SIZE / size)))) s in
  match mode with
  | KMA_MODE_LINKED =>
      let s := upd_manager m (upd_alloc k (set_avai (u8 ((PAGE_FRAME_SIZE - SIZEOF_PTR) / real_slice_size size)))) s in
      init_linked_page m k size s
  | KMA_MODE_BITMAP => Some s
  end.

(** The branch that starts a free allocator and hands out its first slice. *)
Definition alloc_free (m size : Z) (mode : kma_mode) s : option (Z * kmm P) :=
  let k := mg_free (managers s !!! m) in
  s ← (if target_page (alloc_of s m k) =? 0 then attach_page m k size mode s else Some s);
  let addr := u32 (target_addr s (alloc_of s m k) + PAGE_OFFSET) in
  let '(addr, s) :=
    match mode with
    | KMA_MODE_LINKED =>
        let addr := u32 (addr + SIZEOF_PTR) in
        let next_avail := load s addr in
        let s := store addr 0xFF s in
        (u32 (addr + 1), upd_manager m (upd_alloc k (set_first next_avail)) s)
    | KMA_MODE_BITMAP => (addr, upd_manager m (upd_alloc k (set_first 0x80)) s)
    end in
  let s := upd_manager m (free_to_p_full k) s in
  let s := upd_manager m (upd_alloc k (fun a => set_avai (u8 (avai_num a - 1)) a)) s in
  Some (addr, s).

(** The recursion follows the list of managers; [None] when [fuel] of them are
    not enough. *)
Fixpoint kmalloc_helper (fuel : nat) (m i : Z) (mode : kma_mode) s : option (Z * kmm P) :=
  match fuel with
  | O => None
  | S fuel =>
      '(m, s) ← (if m =? 0 then
                   '(m, s) ← new_manager i (alloc_ms s !!! i) s;
                   let s := set_alloc_ms i m s in
                   Some (m, upd_manager m init_allocator_manager s)
                 else Some (m, s));
      let size := slice_size (managers s !!! m) in
      if negb (mg_p_full (managers s !!! m) =? END_FLAG) then alloc_p_full m size mode s
      else if negb (mg_free (managers s !!! m) =? END_FLAG) then alloc_free m size mode s
      else kmalloc_helper fuel (mg_next (managers s !!! m)) i mode s
  end.

(** The first size class a request fits in. *)
Definition size_class (byte_size : Z) : option Z :=
  while 8 (fun i => (i <? PAGE_SLICE_LEVEL) && negb (byte_size <=? slice_size_of i)) (fun i => i + 1) 0.

Definition kmalloc (fuel : nat) (byte_size : Z) s : option (Z * kmm P) :=
  if MAX_ALLOC <? byte_size then Some (0, s)
  else
    i ← size_class byte_size;
    if i <? PAGE_SLICE_LEVEL then
      if i <=? 4 then kmalloc_helper fuel (alloc_ms s !!! i) i KMA_MODE_LINKED s
      else kmalloc_helper fuel (alloc_ms s !!! i) i KMA_MODE_BITMAP s
    else
      '(p, pl) ← fs_physic_alloc byte_size (pool s);
      Some (u32 (p + PAGE_OFFSET), set_pool pl s).

(** ** [kfree] *)

(** The slice goes back into its page; the number of slices of the page. *)
Definition put_slice (addr m k : Z) s : Z * kmm P :=
  let size := slice_size (managers s !!! m) in
  if is_linked_mode size then
    let index := u16 (u32 (addr - Z.land addr PAGE_MASK - SIZEOF_PTR)) in
    let index := index / real_slice_size size in
    let sum := u8 ((PAGE_FRAME_SIZE - SIZEOF_PTR) / real_slice_size size) in
    let s := store addr (first_avai (alloc_of s m k)) s in
    (sum, upd_manager m (upd_alloc k (set_first (u8 index))) s)
  else
    let index := u16 (addr - Z.land addr PAGE_MASK) / size in
    let sum := u8 (PAGE_FRAME_SIZE / size) in
    let bitmap := u8 (Z.lxor (first_avai (alloc_of s m k)) (Z.shiftl 1 (7 - index))) in
    (sum, upd_manager m (upd_alloc k (set_first bitmap)) s).

Definition kfree (addr : Z) s : option (kmm P) :=
  if addr =? 0 then Some s
  else
    let page_physic_addr := u32 (Z.land addr PAGE_MASK - PAGE_OFFSET) in
    let frame := fs_frame_at (pool s) page_physic_addr in
    let allocator := fs_allocator (pool s) frame in
    let m := manager_of allocator in
    let k := index_of allocator in
    let s := upd_manager m (upd_alloc k (fun a => set_avai (u8 (avai_num a + 1)) a)) s in
    let '(sum, s) := put_slice addr m k s in
    if sum =? avai_num (alloc_of s m k) then
      let s := set_pool (fs_set_allocator frame 0 (pool s)) s in
      let s := upd_manager m (upd_alloc k (set_target 0)) s in
      '(_, pl) ← fs_physic_free page_physic_addr (pool s);
      let s := set_pool pl s in
      let s := upd_manager m (upd_alloc k (set_avai 0)) s in
      Some (upd_manager m (p_full_to_free k) s)
    else if avai_num (alloc_of s m k) =? 1 then Some (upd_manager m (full_to_p_full k) s)
    else Some s.
End operations.
