(* ===== verification/KmmLists.v ===== *)
(** * The three lists of a slice manager

    In every manager the 408 allocators are split over the free, the partially
    full and the full list, each a doubly linked list with null links at both
    ends.  The four moves of kmm.c take an allocator from one list to the front
    of another and leave everything but the links alone. *)

From S2P Require Import Prelude Chain Kmm.

Definition nx (m : manager) (k : Z) : Z := next_allocator (allocs m !!! k).
Definition pv (m : manager) (k : Z) : Z := prev_allocator (allocs m !!! k).

Definition chain (m : manager) (h : Z) (xs : list Z) : Prop :=
  dchain (nx m) (pv m) END_FLAG END_FLAG h xs.

Record mlists (m : manager) (F Q U : list Z) : Prop := {
  ml_free : chain m (mg_free m) F;
  ml_p_full : chain m (mg_p_full m) Q;
  ml_full : chain m (mg_full m) U;
  ml_nodup : NoDup (F ++ Q ++ U);
  ml_mem : forall k, k ∈ F ++ Q ++ U <-> 0 <= k < END_FLAG
}.

(** What the moves leave alone. *)
Definition same_data (m m' : manager) : Prop :=
  slice_size m' = slice_size m /\ mg_next m' = mg_next m
  /\ forall k, first_avai (allocs m' !!! k) = first_avai (allocs m !!! k)
       /\ avai_num (allocs m' !!! k) = avai_num (allocs m !!! k)
       /\ target_page (allocs m' !!! k) = target_page (allocs m !!! k).

Lemma same_data_trans a b c : same_data a b -> same_data b c -> same_data a c.
Proof.
  intros (E1 & E2 & E3) (F1 & F2 & F3). split; [congruence|]. split; [congruence|].
  intros k. destruct (E3 k) as (? & ? & ?), (F3 k) as (? & ? & ?). repeat split; congruence.
Qed.

(** The new links after a move of [k] to the front of the list that starts at [h]. *)
Definition links_moved (k h : Z) (m m' : manager) : Prop :=
  (forall x, x <> END_FLAG ->
     nx m' x = if decide (x = k) then h else if decide (x = pv m k) then nx m k else nx m x)
  /\ (forall x, x <> END_FLAG ->
     pv m' x = if decide (x = k) then END_FLAG else if decide (x = h) then k
               else if decide (x = nx m k) then pv m k else pv m x).

Lemma allocs_upd i f m k :
  allocs (upd_alloc i f m) !!! k = if decide (i = k) then f (allocs m !!! k) else allocs m !!! k.
Proof. apply upd_lookup. Qed.

(** Case analysis on the links an update touches. *)
Ltac links :=
  repeat first
    [ rewrite allocs_upd
    | progress cbn [set_free set_p_full set_full allocs mg_free mg_p_full mg_full slice_size mg_next] ];
  repeat case_decide; subst; cbn [prev_allocator next_allocator first_avai avai_num target_page
    set_prev set_next] in *; try congruence; auto.

Section moves.
Context (m : manager) (k : Z) (Hk : k <> END_FLAG).
Context (Hnk : nx m k <> k) (Hpk : pv m k <> k).

(** All four moves: the goal is settled by cases on which of the touched links
    are null. *)
Ltac links_cases :=
  (split; [split; intros x Hx; links|]);
  (split; [split; [reflexivity|]; split; [reflexivity|]; intros x; split; [|split]; links|]);
  (split; [links|]); (split; links).

Lemma free_to_p_full_links :
  pv m k = END_FLAG -> mg_p_full m <> k ->
  (mg_p_full m <> END_FLAG -> pv m (mg_p_full m) = END_FLAG /\ mg_p_full m <> nx m k) ->
  let m' := free_to_p_full k m in
  links_moved k (mg_p_full m) m m' /\ same_data m m'
  /\ mg_free m' = nx m k /\ mg_p_full m' = k /\ mg_full m' = mg_full m.
Proof.
  intros Hp Hh Hph m'. unfold m', free_to_p_full, links_moved, same_data, nx, pv in *. clear m'.
  destruct (Z.eqb_spec (next_allocator (allocs m !!! k)) END_FLAG) as [En|En];
    cbn [set_free mg_p_full upd_alloc mg_free mg_full slice_size mg_next];
    destruct (Z.eqb_spec (mg_p_full m) END_FLAG) as [Eh|Eh];
    try (destruct (Hph Eh) as [Hq1 Hq2]); clear Hph; links_cases.
Qed.

Lemma p_full_to_full_links :
  pv m k = END_FLAG -> mg_full m <> k ->
  (mg_full m <> END_FLAG -> pv m (mg_full m) = END_FLAG /\ mg_full m <> nx m k) ->
  let m' := p_full_to_full k m in
  links_moved k (mg_full m) m m' /\ same_data m m'
  /\ mg_p_full m' = nx m k /\ mg_full m' = k /\ mg_free m' = mg_free m.
Proof.
  intros Hp Hh Hph m'. unfold m', p_full_to_full, links_moved, same_data, nx, pv in *. clear m'.
  destruct (Z.eqb_spec (next_allocator (allocs m !!! k)) END_FLAG) as [En|En];
    cbn [set_p_full mg_p_full upd_alloc mg_free mg_full slice_size mg_next];
    destruct (Z.eqb_spec (mg_full m) END_FLAG) as [Eh|Eh];
    try (destruct (Hph Eh) as [Hq1 Hq2]); clear Hph; links_cases.
Qed.

Lemma p_full_to_free_links :
  mg_free m <> k -> (mg_free m <> END_FLAG -> mg_free m <> nx m k /\ mg_free m <> pv m k) ->
  (pv m k <> END_FLAG -> pv m k <> nx m k) ->
  let m' := p_full_to_free k m in
  links_moved k (mg_free m) m m' /\ same_data m m'
  /\ mg_p_full m' = (if pv m k =? END_FLAG then nx m k else mg_p_full m)
  /\ mg_free m' = k /\ mg_full m' = mg_full m.
Proof.
  intros Hh Hph Hpn m'. unfold m', p_full_to_free, links_moved, same_data, nx, pv in *. clear m'.
  destruct (Z.eqb_spec (next_allocator (allocs m !!! k)) END_FLAG) as [En|En];
    destruct (Z.eqb_spec (prev_allocator (allocs m !!! k)) END_FLAG) as [Ep|Ep];
    cbn [set_p_full set_free mg_p_full upd_alloc mg_free mg_full slice_size mg_next];
    destruct (Z.eqb_spec (mg_free m) END_FLAG) as [Eh|Eh];
    try (destruct (Hph Eh) as [Hq1 Hq2]); clear Hph; try specialize (Hpn Ep); links_cases.
Qed.

Lemma full_to_p_full_links :
  mg_p_full m <> k -> (mg_p_full m <> END_FLAG -> mg_p_full m <> nx m k /\ mg_p_full m <> pv m k) ->
  (pv m k <> END_FLAG -> pv m k <> nx m k) ->
  let m' := full_to_p_full k m in
  links_moved k (mg_p_full m) m m' /\ same_data m m'
  /\ mg_full m' = (if pv m k =? END_FLAG then nx m k else mg_full m)
  /\ mg_p_full m' = k /\ mg_free m' = mg_free m.
Proof.
  intros Hh Hph Hpn m'. unfold m', full_to_p_full, links_moved, same_data, nx, pv in *. clear m'.
  destruct (Z.eqb_spec (next_allocator (allocs m !!! k)) END_FLAG) as [En|En];
    destruct (Z.eqb_spec (prev_allocator (allocs m !!! k)) END_FLAG) as [Ep|Ep];
    cbn [set_p_full set_full mg_p_full upd_alloc mg_free mg_full slice_size mg_next];
    destruct (Z.eqb_spec (mg_p_full m) END_FLAG) as [Eh|Eh];
    try (destruct (Hph Eh) as [Hq1 Hq2]); clear Hph; try specialize (Hpn Ep); links_cases.
Qed.
End moves.

(** ** The moves on the lists *)

(** What the chains say about the links an operation reads. *)
Lemma chain_facts m hA A1 k A2 hB B :
  chain m hA (A1 ++ k :: A2) -> chain m hB B ->
  NoDup ((A1 ++ k :: A2) ++ B) -> END_FLAG ∉ (A1 ++ k :: A2) ++ B ->
  (k <> END_FLAG /\ nx m k <> k /\ pv m k <> k /\ hB <> k)
  /\ (hB <> END_FLAG -> pv m hB = END_FLAG /\ hB <> nx m k /\ hB <> pv m k)
  /\ (pv m k <> END_FLAG -> pv m k <> nx m k)
  /\ (match A1 with [] => pv m k = END_FLAG /\ hA = k | _ => pv m k <> END_FLAG end).
Proof.
  unfold chain. intros HA HB Hnd Hz.
  apply NoDup_app in Hnd as (HndA & Hd & _). rewrite not_elem_of_app in Hz. destruct Hz as [HzA HzB].
  assert (k ∈ A1 ++ k :: A2) as HkA by set_solver.
  apply NoDup_app in HndA as (_ & HdA & HndA). apply NoDup_cons in HndA as [HkA2 _].
  assert (hB = END_FLAG \/ hB ∈ B /\ pv m hB = END_FLAG) as HhB.
  { destruct B; simpl in HB; [auto|]. destruct HB as (-> & E & _). right. split; [left|exact E]. }
  assert (pv m k = END_FLAG \/ pv m k ∈ A1) as Hpk
    by (destruct (dchain_pv _ _ _ _ _ _ _ _ HA) as [[_ ?]|[_ ?]]; auto).
  pose proof (dchain_nx _ _ _ _ _ _ _ _ HA) as Hnk.
  assert (k ∉ A1) as HkA1 by (intros E; apply (HdA k E); left).
  assert (k <> END_FLAG) as Hk by (intros ->; auto).
  split; [|split; [|split]].
  - split; [exact Hk|]. split; [destruct Hnk; [congruence|intros E; congruence]|].
    split; [destruct Hpk; [congruence|intros E; congruence]|].
    destruct HhB as [E|[E _]]; [congruence|]. intros ->. exact (Hd k HkA E).
  - intros Hh. destruct HhB as [E|[Hin E]]; [contradiction|]. split; [exact E|].
    split; intros Eh.
    + destruct Hnk as [Ez|Ez]; [congruence|]. apply (Hd hB); [rewrite Eh; set_solver|exact Hin].
    + destruct Hpk as [Ez|Ez]; [congruence|]. apply (Hd hB); [rewrite Eh; set_solver|exact Hin].
  - intros Hp. destruct Hpk as [E|Hin]; [contradiction|]. intros E. rewrite E in *.
    destruct Hnk as [Ez|Ez]; [contradiction|]. apply (HdA _ Hin). right. exact Ez.
  - destruct A1 as [|x A1]; simpl in HA.
    + destruct HA as (-> & E & _). auto.
    + destruct (dchain_pv _ _ _ _ _ _ (x :: A1) _ HA) as [[E _]|[_ Hin]]; [discriminate|].
      intros E. rewrite E in Hin. apply HzA, elem_of_app. left. exact Hin.
Qed.

Lemma links_moved_chains m m' k hA A1 A2 hB B hC C :
  links_moved k hB m m' -> chain m hA (A1 ++ k :: A2) -> chain m hB B -> chain m hC C ->
  NoDup ((A1 ++ k :: A2) ++ B ++ C) -> END_FLAG ∉ (A1 ++ k :: A2) ++ B ++ C ->
  chain m' (match A1 with [] => nx m k | _ => hA end) (A1 ++ A2) /\ chain m' k (k :: B) /\ chain m' hC C.
Proof.
  intros [Hn Hp] HA HB HC Hnd Hz. rewrite app_assoc in Hnd, Hz.
  apply NoDup_app in Hnd as (Hnd & Hdis & _). rewrite not_elem_of_app in Hz. destruct Hz as [Hz HzC].
  destruct (dchain_move END_FLAG (nx m) (pv m) (nx m') (pv m') hA A1 k A2 hB B HA HB Hnd Hz Hn Hp)
    as (M1 & M2 & M3).
  split; [exact M1|]. split; [exact M2|]. apply M3; [exact HC|exact HzC|].
  intros x Hx Hin. exact (Hdis x Hin Hx).
Qed.

Lemma mlists_end m F Q U : mlists m F Q U -> END_FLAG ∉ F ++ Q ++ U.
Proof. intros L Hin. apply (ml_mem _ _ _ _ L) in Hin. lia. Qed.

(** The lists in another order. *)
Lemma mlists_perm m F Q U xs :
  mlists m F Q U -> xs ≡ₚ F ++ Q ++ U ->
  NoDup xs /\ END_FLAG ∉ xs /\ forall k, k ∈ xs <-> 0 <= k < END_FLAG.
Proof.
  intros L E. pose proof (mlists_end _ _ _ _ L). destruct L as [_ _ _ Hnd Hm].
  split; [rewrite E; exact Hnd|]. split; [rewrite E; assumption|]. intros k. rewrite E. apply Hm.
Qed.

Ltac lists_moved L xs :=
  destruct (mlists_perm _ _ _ _ xs L ltac:(solve_Permutation)) as (Hnd & Hz & Hm).

Ltac after_move M :=
  destruct M as (? & ? & ?); split;
    [assumption|assumption|assumption
    |match goal with H : NoDup _ |- _ => revert H; apply NoDup_Permutation_proper; solve_Permutation end
    |let k := fresh "k" in intros k; match goal with H : forall k, k ∈ _ <-> _ |- _ => rewrite <- H end;
       clear; set_solver].

Lemma free_to_p_full_lists m k F Q U :
  mlists m (k :: F) Q U ->
  mlists (free_to_p_full k m) F (k :: Q) U /\ same_data m (free_to_p_full k m).
Proof.
  intros L. lists_moved L (([] ++ k :: F) ++ Q ++ U). pose proof L as [HF HQ HU _ _].
  destruct (chain_facts m (mg_free m) [] k F (mg_p_full m) Q HF HQ) as ((K1 & K2 & K3 & K4) & K5 & _ & K6).
  { rewrite app_assoc in Hnd. apply NoDup_app in Hnd as (? & _ & _). assumption. }
  { rewrite app_assoc, not_elem_of_app in Hz. apply Hz. }
  destruct (free_to_p_full_links m k K1 K2 K3 (proj1 K6) K4) as (Ln & Sd & E1 & E2 & E3).
  { intros Hq. destruct (K5 Hq) as (? & ? & _). auto. }
  split; [|exact Sd].
  pose proof (links_moved_chains _ _ k _ [] F _ Q _ U Ln HF HQ HU Hnd Hz) as M.
  rewrite <- E1 in M. rewrite <- E2 in M at 2. rewrite <- E3 in M. after_move M.
Qed.

Lemma p_full_to_full_lists m k F Q U :
  mlists m F (k :: Q) U ->
  mlists (p_full_to_full k m) F Q (k :: U) /\ same_data m (p_full_to_full k m).
Proof.
  intros L. lists_moved L (([] ++ k :: Q) ++ U ++ F). pose proof L as [HF HQ HU _ _].
  destruct (chain_facts m (mg_p_full m) [] k Q (mg_full m) U HQ HU) as ((K1 & K2 & K3 & K4) & K5 & _ & K6).
  { rewrite app_assoc in Hnd. apply NoDup_app in Hnd as (? & _ & _). assumption. }
  { rewrite app_assoc, not_elem_of_app in Hz. apply Hz. }
  destruct (p_full_to_full_links m k K1 K2 K3 (proj1 K6) K4) as (Ln & Sd & E1 & E2 & E3).
  { intros Hq. destruct (K5 Hq) as (? & ? & _). auto. }
  split; [|exact Sd].
  pose proof (links_moved_chains _ _ k _ [] Q _ U _ F Ln HQ HU HF Hnd Hz) as M.
  rewrite <- E1 in M. rewrite <- E2 in M at 2. rewrite <- E3 in M. after_move M.
Qed.

(** The head after unlinking, as kfree computes it. *)
Lemma unlinked_head m h (A1 : list Z) k :
  match A1 with [] => pv m k = END_FLAG /\ h = k | _ => pv m k <> END_FLAG end ->
  match A1 with [] => nx m k | _ => h end = if pv m k =? END_FLAG then nx m k else h.
Proof. destruct A1; [intros [-> _]; reflexivity|]. intros Hp. apply Z.eqb_neq in Hp. rewrite Hp. reflexivity. Qed.

Lemma p_full_to_free_lists m k F Q1 Q2 U :
  mlists m F (Q1 ++ k :: Q2) U ->
  mlists (p_full_to_free k m) (k :: F) (Q1 ++ Q2) U /\ same_data m (p_full_to_free k m).
Proof.
  intros L. lists_moved L ((Q1 ++ k :: Q2) ++ F ++ U). pose proof L as [HF HQ HU _ _].
  destruct (chain_facts m (mg_p_full m) Q1 k Q2 (mg_free m) F HQ HF) as ((K1 & K2 & K3 & K4) & K5 & K6 & K7).
  { rewrite app_assoc in Hnd. apply NoDup_app in Hnd as (? & _ & _). assumption. }
  { rewrite app_assoc, not_elem_of_app in Hz. apply Hz. }
  destruct (p_full_to_free_links m k K1 K2 K3 K4) as (Ln & Sd & E1 & E2 & E3).
  { intros Hq. destruct (K5 Hq) as (_ & ? & ?). auto. }
  { exact K6. }
  split; [|exact Sd].
  pose proof (links_moved_chains _ _ k _ Q1 Q2 _ F _ U Ln HQ HF HU Hnd Hz) as M.
  rewrite (unlinked_head m _ Q1 k K7), <- E1, <- E3 in M. rewrite <- E2 in M at 2. after_move M.
Qed.

Lemma full_to_p_full_lists m k F Q U1 U2 :
  mlists m F Q (U1 ++ k :: U2) ->
  mlists (full_to_p_full k m) F (k :: Q) (U1 ++ U2) /\ same_data m (full_to_p_full k m).
Proof.
  intros L. lists_moved L ((U1 ++ k :: U2) ++ Q ++ F). pose proof L as [HF HQ HU _ _].
  destruct (chain_facts m (mg_full m) U1 k U2 (mg_p_full m) Q HU HQ) as ((K1 & K2 & K3 & K4) & K5 & K6 & K7).
  { rewrite app_assoc in Hnd. apply NoDup_app in Hnd as (? & _ & _). assumption. }
  { rewrite app_assoc, not_elem_of_app in Hz. apply Hz. }
  destruct (full_to_p_full_links m k K1 K2 K3 K4) as (Ln & Sd & E1 & E2 & E3).
  { intros Hq. destruct (K5 Hq) as (_ & ? & ?). auto. }
  { exact K6. }
  split; [|exact Sd].
  pose proof (links_moved_chains _ _ k _ U1 U2 _ Q _ F Ln HU HQ HF Hnd Hz) as M.
  rewrite (unlinked_head m _ U1 k K7), <- E1, <- E3 in M. rewrite <- E2 in M at 2. after_move M.
Qed.

(** Fields that are not links may be written without touching the lists. *)
Lemma mlists_data m m' F Q U :
  (forall k, nx m' k = nx m k /\ pv m' k = pv m k) ->
  mg_free m' = mg_free m -> mg_p_full m' = mg_p_full m -> mg_full m' = mg_full m ->
  mlists m F Q U -> mlists m' F Q U.
Proof.
  intros E E1 E2 E3 [H1 H2 H3 H4 H5]. unfold chain in *. split; unfold chain; rewrite ?E1, ?E2, ?E3;
    try assumption; (eapply dchain_ext; [eassumption|]; intros x _; apply E).
Qed.

(** ** A new manager *)

Lemma seq_chain (next prev : Z -> Z) (n : nat) a p :
  (forall k, a <= k < a + Z.of_nat n -> next k = k + 1) ->
  (0 < Z.of_nat n -> prev a = p) -> (forall k, a < k < a + Z.of_nat n -> prev k = k - 1) ->
  dchain next prev (a + Z.of_nat n) p a (seqZ a (Z.of_nat n)).
Proof.
  revert a p. induction n as [|n IH]; intros a p Hn H0 Hp; [simpl; lia|].
  rewrite seqZ_cons by lia. simpl. split; [reflexivity|]. split; [apply H0; lia|].
  rewrite Hn by lia. replace (Z.pred (Z.of_nat (S n))) with (Z.of_nat n) by lia.
  replace (a + Z.of_nat (S n)) with (Z.succ a + Z.of_nat n) by lia. change (a + 1) with (Z.succ a).
  apply IH; [intros k Hk; apply Hn; lia|intros ?; rewrite Hp by lia; lia|intros k Hk; apply Hp; lia].
Qed.

Definition fresh_alloc (k : Z) : page_slice_allocator :=
  Allocator (if k =? 0 then END_FLAG else k - 1) (k + 1) 0 0 0.

Lemma init_allocs m k :
  0 <= k < END_FLAG -> allocs (init_allocator_manager m) !!! k = fresh_alloc k.
Proof.
  intros Hk. unfold init_allocator_manager. change NUM_OF_ALLOC_PER_MANAGER with 408.
  change END_FLAG with 408 in *. rewrite allocs_upd. unfold fresh_alloc.
  case_decide as E; [subst k; reflexivity|].
  match goal with |- context [for_loop ?n 1 ?f ?x] =>
    pose proof (for_loop_ind (fun j s => forall k, 0 <= k < j -> allocs s !!! k = fresh_alloc k) n 1 f x) as L;
    generalize dependent (for_loop n 1 f x) end.
  intros m' L. change (1 + Z.of_nat (Z.to_nat (408 - 2))) with 407 in L. apply L; [| |lia].
  - intros j Hj. rewrite allocs_upd. replace j with 0 by lia. reflexivity.
  - intros j s Hj IH i Hi. rewrite allocs_upd. case_decide as Ei; [|apply IH; lia]. subst i.
    unfold fresh_alloc. rewrite !u16_small by (unfold in_u16; lia).
    rewrite (proj2 (Z.eqb_neq j 0)) by lia. reflexivity.
Qed.

(** The fields of a manager other than its allocators. *)
Definition same_heads (m m' : manager) : Prop :=
  mg_free m' = mg_free m /\ mg_p_full m' = mg_p_full m /\ mg_full m' = mg_full m
  /\ slice_size m' = slice_size m /\ mg_next m' = mg_next m.

Lemma same_heads_upd k f m m0 : same_heads m0 m -> same_heads m0 (upd_alloc k f m).
Proof. exact (fun H => H). Qed.

Lemma same_heads_loop n i g m m0 :
  same_heads m0 m -> same_heads m0 (for_loop n i (fun k => upd_alloc k (g k)) m).
Proof.
  intros H. apply (for_loop_ind (fun _ s => same_heads m0 s)); [exact H|].
  intros k s _. apply same_heads_upd.
Qed.

Lemma init_allocator_manager_fields m : same_heads m (init_allocator_manager m).
Proof.
  unfold init_allocator_manager. apply same_heads_upd.
  apply (same_heads_loop _ _ (fun i _ => Allocator (u16 (i - 1)) (u16 (i + 1)) 0 0 0)).
  apply same_heads_upd. repeat split.
Qed.

Lemma init_lists m :
  mg_free m = 0 -> mg_p_full m = END_FLAG -> mg_full m = END_FLAG ->
  mlists (init_allocator_manager m) (seqZ 0 END_FLAG) [] [].
Proof.
  intros Ef Ep Eu. destruct (init_allocator_manager_fields m) as (E1 & E2 & E3 & _).
  pose proof (init_allocs m) as Hi. generalize dependent (init_allocator_manager m). intros m' E1 E2 E3 Hi.
  split; unfold chain; rewrite ?E1, ?E2, ?E3, ?Ef, ?Ep, ?Eu; try reflexivity.
  - apply (seq_chain (nx m') (pv m') 408 0 END_FLAG); unfold nx, pv; change (0 + Z.of_nat 408) with END_FLAG.
    + intros k Hk. rewrite Hi by exact Hk. reflexivity.
    + intros _. rewrite Hi by (change END_FLAG with 408; lia). reflexivity.
    + intros k Hk. rewrite Hi by lia. unfold fresh_alloc. rewrite (proj2 (Z.eqb_neq k 0)) by lia. reflexivity.
  - rewrite !app_nil_r. apply NoDup_seqZ.
  - intros k. rewrite !app_nil_r, elem_of_seqZ. lia.
Qed.

Lemma mlists_upd_data m k f F Q U :
  (forall a, next_allocator (f a) = next_allocator a /\ prev_allocator (f a) = prev_allocator a) ->
  mlists m F Q U -> mlists (upd_alloc k f m) F Q U.
Proof.
  intros Hf. apply mlists_data; try reflexivity. intros j. unfold nx, pv. rewrite allocs_upd.
  case_decide; [apply Hf|auto].
Qed.

(** Taking the head of a list from the field that points to it. *)
Lemma head_of_list m h xs :
  chain m h xs -> END_FLAG ∉ xs -> h <> END_FLAG -> exists ys, xs = h :: ys.
Proof.
  intros Hc Hz Hh. destruct xs as [|x xs]; [destruct Hh; exact Hc|].
  destruct Hc as (-> & _). eauto.
Qed.
