(* ===== verification/KmmPages.v ===== *)
(** * One page of slices

    What [first_avai] and the bytes in front of the slices say about which
    slices of a page are free, in the linked and in the bitmap layout, and what
    taking and returning a slice does to it. *)

From S2P Require Import Prelude Kmm.

(** ** Layout *)

(** The slices of a page of the class. *)
Definition slice_count (size : Z) : Z :=
  if is_linked_mode size then (PAGE_FRAME_SIZE - SIZEOF_PTR) / real_slice_size size
  else PAGE_FRAME_SIZE / size.

(** The byte in front of a slice in the linked layout. *)
Definition header (b size i : Z) : Z := b + SIZEOF_PTR + i * real_slice_size size.

(** The address handed out for slice [i] of the page at [b]. *)
Definition slice_addr (b size i : Z) : Z :=
  if is_linked_mode size then header b size i + 1 else b + i * size.

Lemma slice_size_cases size :
  size ∈ slice_sizes ->
  size = 16 \/ size = 32 \/ size = 64 \/ size = 128 \/ size = 256
  \/ size = 512 \/ size = 1024 \/ size = 2048.
Proof. unfold slice_sizes. rewrite !elem_of_cons, elem_of_nil. tauto. Qed.

(** Facts of arithmetic about a class, by cases. *)
Ltac by_class H :=
  apply slice_size_cases in H; destruct H as [->|[->|[->|[->|[->|[->|[->| ->]]]]]]].

Lemma slice_count_bounds size :
  size ∈ slice_sizes ->
  2 <= slice_count size <= 240
  /\ (if is_linked_mode size then SIZEOF_PTR + slice_count size * real_slice_size size <= PAGE_FRAME_SIZE
      else slice_count size * size = PAGE_FRAME_SIZE /\ slice_count size <= 8).
Proof. intros H. by_class H; vm_compute; intuition discriminate. Qed.

(** A slice lies inside its page, and two slices of a page are apart. *)
Lemma slice_inside size b i :
  size ∈ slice_sizes -> 0 <= i < slice_count size ->
  b <= slice_addr b size i /\ slice_addr b size i + size <= b + PAGE_FRAME_SIZE.
Proof.
  intros Hs Hi. destruct (slice_count_bounds size Hs) as [Hc Hl]. unfold slice_addr, header.
  assert (0 < size) by (by_class Hs; lia).
  destruct (is_linked_mode size); unfold real_slice_size, SIZEOF_PTR in *; [nia|].
  destruct Hl as [<- _]. nia.
Qed.

Lemma header_inside size b i :
  size ∈ slice_sizes -> is_linked_mode size = true -> 0 <= i < slice_count size ->
  b + SIZEOF_PTR <= header b size i /\ header b size i + real_slice_size size <= b + PAGE_FRAME_SIZE.
Proof.
  intros Hs Hl Hi. destruct (slice_count_bounds size Hs) as [_ Hc]. rewrite Hl in Hc. unfold header.
  assert (0 < real_slice_size size) by (unfold real_slice_size; by_class Hs; lia). nia.
Qed.

Lemma slice_apart size b i j :
  size ∈ slice_sizes -> i < j -> slice_addr b size i + size <= slice_addr b size j.
Proof.
  intros Hs Hij. assert (0 < size) by (by_class Hs; lia).
  unfold slice_addr, header, real_slice_size. destruct (is_linked_mode size); nia.
Qed.

(** ** The free slices of a page *)

(** Following the bytes in front of the slices from [f] visits [xs]. *)
Fixpoint slice_chain (rd : Z -> Z) (b size f : Z) (xs : list Z) : Prop :=
  match xs with
  | [] => f = 0xFF
  | x :: xs => f = x /\ slice_chain rd b size (rd (header b size x)) xs
  end.

(** [xs] are the free slices of the page at [b] whose allocator has
    [first_avai = f]; in the linked layout the byte in front of a slice in use
    is 0xFF. *)
Record page_state (size b : Z) (rd : Z -> Z) (f : Z) (xs : list Z) : Prop := {
  ps_nodup : NoDup xs;
  ps_range : forall x, x ∈ xs -> 0 <= x < slice_count size;
  ps_byte : 0 <= f < 256;
  ps_links : is_linked_mode size = true ->
    slice_chain rd b size f xs
    /\ forall x, 0 <= x < slice_count size -> x ∉ xs -> rd (header b size x) = 0xFF;
  ps_bits : is_linked_mode size = false ->
    forall x, 0 <= x < slice_count size -> Z.testbit f (7 - x) = negb (bool_decide (x ∈ xs))
}.

Lemma slice_chain_ext rd rd' b size f xs :
  slice_chain rd b size f xs ->
  (forall x, x ∈ xs -> rd' (header b size x) = rd (header b size x)) ->
  slice_chain rd' b size f xs.
Proof.
  revert f. induction xs as [|x xs IH]; simpl; intros f; [auto|]. intros [-> H] E.
  split; [reflexivity|]. rewrite (E x) by left. apply IH; [exact H|].
  intros y Hy. apply E. right. exact Hy.
Qed.

(** A page has at most 240 free slices. *)
Lemma page_state_length size b rd f xs :
  size ∈ slice_sizes -> page_state size b rd f xs -> Z.of_nat (length xs) <= 240.
Proof.
  intros Hs S. destruct (slice_count_bounds size Hs) as [Hc _].
  assert (length xs <= length (seqZ 0 (slice_count size)))%nat as Hl.
  { apply submseteq_length, NoDup_submseteq; [apply (ps_nodup _ _ _ _ _ S)|].
    intros x Hx. apply elem_of_seqZ. pose proof (ps_range _ _ _ _ _ S x Hx). lia. }
  rewrite length_seqZ in Hl. lia.
Qed.

(** Only the bytes in front of the slices matter. *)
Lemma page_state_ext size b rd rd' f xs :
  page_state size b rd f xs ->
  (is_linked_mode size = true -> forall x, 0 <= x < slice_count size ->
     rd' (header b size x) = rd (header b size x)) ->
  page_state size b rd' f xs.
Proof.
  intros [H1 H2 H3 H4 H5] E. split; auto. intros Hl. destruct (H4 Hl) as [Hc Hu]. split.
  - eapply slice_chain_ext; [exact Hc|]. intros x Hx. apply (E Hl), H2, Hx.
  - intros x Hx Hn. rewrite (E Hl x Hx). auto.
Qed.

Lemma header_inj b size i j : 0 < size -> header b size i = header b size j -> i = j.
Proof. unfold header, real_slice_size. nia. Qed.

(** Taking the first free slice of a linked page. *)
Lemma take_linked size b rd rd' x xs f :
  size ∈ slice_sizes -> is_linked_mode size = true ->
  page_state size b rd f (x :: xs) ->
  (forall y, rd' (header b size y) = if decide (y = x) then 0xFF else rd (header b size y)) ->
  (forall y, in_u8 (rd y)) ->
  f = x /\ page_state size b rd' (rd (header b size x)) xs
  /\ (rd (header b size x) =? 0xFF) = bool_decide (xs = []).
Proof.
  intros Hs Hl [H1 H2 H3 H4 H5] E Hb. destruct (slice_count_bounds size Hs) as [Hc _].
  destruct (H4 Hl) as [[Ef Hch] Hu]. split; [exact Ef|].
  apply NoDup_cons in H1 as [Hx Hnd]. split; [split|].
  - exact Hnd.
  - intros y Hy. apply H2. right. exact Hy.
  - apply Hb.
  - intros _. split.
    + eapply slice_chain_ext; [exact Hch|]. intros y Hy. rewrite E. apply decide_False. congruence.
    + intros y Hy Hny. rewrite E. case_decide as Ey; [reflexivity|]. apply Hu; [exact Hy|].
      rewrite not_elem_of_cons. auto.
  - intros Hf. congruence.
  - destruct xs as [|y xs]; simpl in Hch.
    + rewrite Hch. reflexivity.
    + destruct Hch as [-> _]. rewrite bool_decide_eq_false_2 by discriminate.
      apply Z.eqb_neq. specialize (H2 y ltac:(right; left)). lia.
Qed.

(** Returning a slice to a linked page that had no free one. *)
Lemma put_linked size b rd i f :
  size ∈ slice_sizes -> is_linked_mode size = true -> 0 <= i < slice_count size ->
  page_state size b rd f [] -> f = 0xFF /\ page_state size b rd i [i].
Proof.
  intros Hs Hl Hi [_ _ _ H4 _]. destruct (slice_count_bounds size Hs) as [Hc _].
  destruct (H4 Hl) as [Hf Hu]. split; [exact Hf|]. split.
  - apply NoDup_singleton.
  - intros x Hx. apply list_elem_of_singleton in Hx. subst x. exact Hi.
  - lia.
  - intros _. split.
    + simpl. split; [reflexivity|]. apply Hu; [exact Hi|]. apply not_elem_of_nil.
    + intros x Hx Hn. apply Hu; [exact Hx|]. apply not_elem_of_nil.
  - congruence.
Qed.

(** ** The bitmap, by exhaustion of the bytes *)

Definition byte_range : list Z := seqZ 0 256.
Definition bit_indices : list Z := [0; 1; 2; 3; 4; 5; 6; 7].

Definition bits_check (f bits : Z) : bool :=
  match first_clear f bits with
  | None => false
  | Some i =>
      (0 <=? i) && (i <=? bits) && ((i =? bits) || negb (Z.testbit f (7 - i)))
      && forallb (fun j => (i <=? j) || Z.testbit f (7 - j)) bit_indices
  end
  && eqb (Z.shiftr f (8 - bits) =? Z.shiftr 0xFF (8 - bits))
         (forallb (fun j => (bits <=? j) || Z.testbit f (7 - j)) bit_indices)
  && forallb (fun i =>
       let g := u8 (Z.lor f (Z.shiftl 1 (7 - i))) in
       let h := u8 (Z.lxor f (Z.shiftl 1 (7 - i))) in
       (0 <=? g) && (g <? 256) && (0 <=? h) && (h <? 256)
       && forallb (fun j => eqb (Z.testbit g (7 - j)) ((i =? j) || Z.testbit f (7 - j))
                            && eqb (Z.testbit h (7 - j)) (xorb (i =? j) (Z.testbit f (7 - j)))) bit_indices)
     bit_indices.

Lemma bits_checked : forallb (fun f => forallb (bits_check f) [2; 4; 8]) byte_range = true.
Proof. vm_compute. reflexivity. Qed.

Lemma bit_index i : 0 <= i < 8 -> In i bit_indices.
Proof. unfold bit_indices. simpl. lia. Qed.

Lemma eqb_eq_iff a b : eqb a b = true -> a = b.
Proof. destruct a, b; simpl; congruence. Qed.

(** The search, the test for a full page, and setting and clearing one bit. *)
Lemma bits_spec f bits :
  0 <= f < 256 -> bits = 2 \/ bits = 4 \/ bits = 8 ->
  (exists i, first_clear f bits = Some i /\ 0 <= i <= bits
     /\ (i < bits -> Z.testbit f (7 - i) = false) /\ forall j, 0 <= j < i -> Z.testbit f (7 - j) = true)
  /\ ((Z.shiftr f (8 - bits) =? Z.shiftr 0xFF (8 - bits)) = true
      <-> forall j, 0 <= j < bits -> Z.testbit f (7 - j) = true)
  /\ forall i, 0 <= i < 8 ->
       let g := u8 (Z.lor f (Z.shiftl 1 (7 - i))) in
       let h := u8 (Z.lxor f (Z.shiftl 1 (7 - i))) in
       0 <= g < 256 /\ 0 <= h < 256 /\ forall j, 0 <= j < 8 ->
         Z.testbit g (7 - j) = (i =? j) || Z.testbit f (7 - j)
         /\ Z.testbit h (7 - j) = xorb (i =? j) (Z.testbit f (7 - j)).
Proof.
  intros Hf Hb. pose proof bits_checked as H. rewrite forallb_forall in H.
  specialize (H f). rewrite forallb_forall in H.
  assert (bits_check f bits = true) as C.
  { apply H; [apply list_elem_of_In, elem_of_seqZ; lia|]. simpl. intuition auto. }
  clear H. unfold bits_check in C. apply andb_prop in C as [C C3]. apply andb_prop in C as [C1 C2].
  apply eqb_eq_iff in C2. split; [|split].
  - destruct (first_clear f bits) as [i|]; [|discriminate C1]. exists i.
    apply andb_prop in C1 as [C1 C4]. rewrite forallb_forall in C4. reflect_bools.
    split; [reflexivity|]. split; [lia|]. split.
    + intros Hi. destruct H0; reflect_bools; [lia|assumption].
    + intros j Hj. specialize (C4 j (bit_index j ltac:(lia))). reflect_bools. destruct C4; reflect_bools; [lia|assumption].
  - rewrite C2, forallb_forall. split.
    + intros Hall j Hj. specialize (Hall j (bit_index j ltac:(lia))). reflect_bools.
      destruct Hall; reflect_bools; [lia|assumption].
    + intros Hall j Hj. apply orb_true_iff. destruct (Z.leb_spec bits j); [auto|right].
      apply Hall. unfold bit_indices in Hj. simpl in Hj. lia.
  - intros i Hi. rewrite forallb_forall in C3. specialize (C3 i (bit_index i Hi)). cbv zeta in *.
    apply andb_prop in C3 as [C3 C4]. reflect_bools. split; [lia|]. split; [lia|]. intros j Hj.
    rewrite forallb_forall in C4. specialize (C4 j (bit_index j Hj)). apply andb_prop in C4 as [A B].
    apply eqb_eq_iff in A, B. auto.
Qed.

Lemma bitmap_counts size :
  size ∈ slice_sizes -> is_linked_mode size = false ->
  slice_count size = PAGE_FRAME_SIZE / size
  /\ (slice_count size = 2 \/ slice_count size = 4 \/ slice_count size = 8).
Proof. intros H. by_class H; vm_compute; intuition discriminate. Qed.

(** A list of free slices without one of them. *)
Definition without (i : Z) (xs : list Z) : list Z := filter (fun x => x <> i) xs.

Lemma elem_of_without i xs x : x ∈ without i xs <-> x ∈ xs /\ x <> i.
Proof. unfold without. rewrite list_elem_of_filter. tauto. Qed.

Lemma without_perm i xs : NoDup xs -> i ∈ xs -> xs ≡ₚ i :: without i xs.
Proof.
  intros Hnd Hi. apply NoDup_Permutation; [exact Hnd| |].
  - apply NoDup_cons. split; [rewrite elem_of_without; tauto|]. apply NoDup_filter, Hnd.
  - intros x. rewrite elem_of_cons, elem_of_without. destruct (decide (x = i)) as [->|]; tauto.
Qed.

Section bitmap.
Context (size b : Z) (rd : Z -> Z).
Context (Hs : size ∈ slice_sizes) (Hm : is_linked_mode size = false).

Lemma bitmap_state f xs :
  0 <= f < 256 -> NoDup xs -> (forall x, x ∈ xs -> 0 <= x < slice_count size) ->
  (forall x, 0 <= x < slice_count size -> Z.testbit f (7 - x) = negb (bool_decide (x ∈ xs))) ->
  page_state size b rd f xs.
Proof. intros. split; auto. congruence. Qed.

(** Taking the first free slice of a bitmap page. *)
Lemma take_bitmap f xs :
  page_state size b rd f xs -> xs <> [] ->
  exists i, first_clear f (PAGE_FRAME_SIZE / size) = Some i /\ i ∈ xs /\
    let f' := u8 (Z.lor f (Z.shiftl 1 (7 - i))) in
    page_state size b rd f' (without i xs)
    /\ (Z.shiftr f' (8 - PAGE_FRAME_SIZE / size) =? Z.shiftr 0xFF (8 - PAGE_FRAME_SIZE / size))
       = bool_decide (without i xs = []).
Proof.
  intros [H1 H2 H3 _ H5] Hne. specialize (H5 Hm). destruct (bitmap_counts size Hs Hm) as [Ec Hc].
  rewrite <- Ec in *. set (bits := slice_count size) in *.
  destruct (bits_spec f bits H3 Hc) as ((i & Ei & Hi & Hcl & Hset) & _ & Hw). exists i.
  assert (i ∈ xs) as Hin.
  { destruct xs as [|x xs]; [contradiction|]. pose proof (H2 x ltac:(left)) as Hx.
    pose proof (H5 x Hx) as E. rewrite bool_decide_eq_true_2 in E by left.
    assert (i <= x) by (destruct (Z.lt_ge_cases x i); [rewrite Hset in E by lia; discriminate|lia]).
    specialize (H5 i ltac:(lia)). rewrite Hcl in H5 by lia. symmetry in H5. apply negb_false_iff in H5.
    apply bool_decide_eq_true_1 in H5. exact H5. }
  split; [exact Ei|]. split; [exact Hin|]. pose proof (H2 i Hin) as Hib.
  destruct (Hw i ltac:(lia)) as (Hg & _ & Hbit). cbv zeta. split.
  - apply bitmap_state; [exact Hg|apply NoDup_filter, H1| |].
    + intros x Hx. apply elem_of_without in Hx. apply H2, Hx.
    + intros x Hx. destruct (Hbit x ltac:(lia)) as [-> _]. rewrite H5 by exact Hx.
      destruct (Z.eqb_spec i x) as [<-|Hne']; simpl.
      * rewrite bool_decide_eq_false_2; [reflexivity|]. rewrite elem_of_without. tauto.
      * f_equal. apply bool_decide_ext. rewrite elem_of_without. split; [auto|tauto].
  - apply eq_true_iff_eq. rewrite bool_decide_eq_true.
    destruct (bits_spec _ bits Hg Hc) as (_ & -> & _). split.
    + intros Hall. destruct (without i xs) as [|y ys] eqn:E; [reflexivity|exfalso].
      assert (y ∈ without i xs) as Hy by (rewrite E; left). apply elem_of_without in Hy as [Hy Hyi].
      pose proof (H2 y Hy). specialize (Hall y ltac:(lia)). destruct (Hbit y ltac:(lia)) as [Eb _].
      rewrite Eb, H5, bool_decide_eq_true_2 in Hall by auto.
      rewrite (proj2 (Z.eqb_neq i y)) in Hall by congruence. discriminate.
    + intros E j Hj. destruct (Hbit j ltac:(lia)) as [-> _]. rewrite H5 by lia.
      destruct (Z.eqb_spec i j); [reflexivity|]. simpl. apply negb_true_iff, bool_decide_eq_false_2.
      intros Hin'. assert (j ∈ without i xs) as Hj' by (apply elem_of_without; auto).
      rewrite E in Hj'. apply elem_of_nil in Hj'. exact Hj'.
Qed.

(** Returning a slice to a bitmap page. *)
Lemma put_bitmap f xs i :
  page_state size b rd f xs -> 0 <= i < slice_count size -> i ∉ xs ->
  page_state size b rd (u8 (Z.lxor f (Z.shiftl 1 (7 - i)))) (i :: xs).
Proof.
  intros [H1 H2 H3 _ H5] Hi Hn. specialize (H5 Hm). destruct (bitmap_counts size Hs Hm) as [_ Hc].
  destruct (bits_spec f (slice_count size) H3 Hc) as (_ & _ & Hw).
  destruct (Hw i ltac:(lia)) as (_ & Hh & Hbit). apply bitmap_state; [exact Hh| | |].
  - apply NoDup_cons. auto.
  - intros x [->|Hx]%elem_of_cons; [exact Hi|apply H2, Hx].
  - intros x Hx. destruct (Hbit x ltac:(lia)) as [_ ->]. rewrite H5 by exact Hx.
    destruct (Z.eqb_spec i x) as [<-|Hne].
    + rewrite bool_decide_eq_false_2 by exact Hn. rewrite bool_decide_eq_true_2 by left. reflexivity.
    + rewrite xorb_false_l. f_equal. apply bool_decide_ext. rewrite elem_of_cons. split; [auto|].
      intros [->|]; [contradiction|assumption].
Qed.
End bitmap.
