(* ===== verification/KmmSpec.v ===== *)
(** * The contract of [kmalloc]

    What the slice allocator expects of the frame allocator ([FrameSourceLaws]),
    its invariant ([kmm_ok]) and what it is for: a set of live blocks ([live])
    that never overlap.  The ghost state of the invariant is the list of managers
    of each class and the list of free slices of each allocator. *)

From S2P Require Import Prelude Chain Kmm KmmLists KmmPages.

(** ** The frame allocator, as a client sees it *)

(** A page below 1 GiB, so that it has an address above [PAGE_OFFSET]. *)
Definition page_addr (q : Z) : Prop := 0 < q /\ (PAGE_FRAME_SIZE | q) /\ q + PAGE_FRAME_SIZE < 2 ^ 30.

(** The constant part of the frame table and the owners of the frames. *)
Definition fs_same {P} `{FrameSource P} (p p' : P) : Prop :=
  forall x, fs_physic_addr p' x = fs_physic_addr p x /\ fs_frame_at p' x = fs_frame_at p x
    /\ fs_allocator p' x = fs_allocator p x.

(** [fs_single p q]: the page at [q] is handed out, as a block of its own. *)
Class FrameSourceLaws (P : Type) `{FrameSource P} := {
  fs_ok : P -> Prop;
  fs_single : P -> Z -> Prop;
  fs_releasable : P -> Prop;
  fs_page p q : fs_ok p -> fs_single p q ->
    page_addr q /\ 0 < fs_frame_at p q < 2 ^ 30 /\ fs_physic_addr p (fs_frame_at p q) = q;
  fs_frame_alloc_ok p : fs_ok p ->
    exists f p', fs_frame_alloc 1 p = Some (f, p') /\
      ((f = 0 /\ p' = p)
       \/ (exists q, fs_ok p' /\ fs_frame_at p' q = f /\ ~ fs_single p q /\ fs_same p p'
             /\ forall r, fs_single p' r <-> fs_single p r \/ r = q));
  fs_physic_alloc_ok p : fs_ok p ->
    exists q p', fs_physic_alloc PAGE_FRAME_SIZE p = Some (q, p') /\
      ((q = 0 /\ p' = p)
       \/ (fs_ok p' /\ ~ fs_single p q /\ fs_same p p'
             /\ forall r, fs_single p' r <-> fs_single p r \/ r = q));
  fs_set_allocator_ok p q v : fs_ok p -> fs_single p q -> in_u32 v ->
    let p' := fs_set_allocator (fs_frame_at p q) v p in
    fs_ok p' /\ (forall r, fs_single p' r <-> fs_single p r)
    /\ (fs_releasable p -> fs_releasable p')
    /\ (forall x, fs_physic_addr p' x = fs_physic_addr p x /\ fs_frame_at p' x = fs_frame_at p x)
    /\ fs_allocator p' (fs_frame_at p q) = v
    /\ (forall r, fs_single p r -> r <> q ->
          fs_allocator p' (fs_frame_at p r) = fs_allocator p (fs_frame_at p r));
  fs_physic_free_ok p q : fs_ok p -> fs_releasable p -> fs_single p q ->
    exists v p', fs_physic_free q p = Some (v, p') /\ fs_ok p' /\ fs_same p p'
      /\ (forall r, fs_single p' r <-> fs_single p r /\ r <> q)
}.

(** ** The invariant *)

Definition mode_of (size : Z) : kma_mode := if is_linked_mode size then KMA_MODE_LINKED else KMA_MODE_BITMAP.

(** Where an allocator belongs, by its page and its free slices. *)
Definition sorted_ok (M : manager) (X : Z -> list Z) (F Q U : list Z) (k : Z) : Prop :=
  (k ∈ F <-> target_page (allocs M !!! k) = 0)
  /\ (k ∈ Q <-> target_page (allocs M !!! k) <> 0 /\ X k <> [])
  /\ (k ∈ U <-> target_page (allocs M !!! k) <> 0 /\ X k = []).

(** The lists of a manager sort its allocators. *)
Definition lists_ok (M : manager) (X : Z -> list Z) : Prop :=
  exists F Q U, mlists M F Q U /\ forall k, 0 <= k < END_FLAG -> sorted_ok M X F Q U k.

(** Following [mg_next] from [m] visits the managers [ms], up to the null pointer. *)
Fixpoint manager_chain (mgrs : gmap Z manager) (m : Z) (ms : list Z) : Prop :=
  match ms with
  | [] => m = 0
  | x :: ms => m = x /\ x <> 0 /\ manager_chain mgrs (mg_next (mgrs !!! x)) ms
  end.

Section invariant.
Context {P : Type} `{FrameSourceLaws P}.
Implicit Types s : kmm P.

(** The physical page of an allocator, and its address. *)
Definition page_of s (m k : Z) : Z := target_addr s (alloc_of s m k).
Definition base_of s (m k : Z) : Z := page_of s m k + PAGE_OFFSET.
Definition attached s (m k : Z) : Prop := target_page (alloc_of s m k) <> 0.

(** An allocator with a page of which the slices [xs] are free. *)
Record alloc_ok s (size m k : Z) (xs : list Z) : Prop := {
  ao_single : fs_single (pool s) (page_of s m k);
  ao_frame : target_page (alloc_of s m k) = fs_frame_at (pool s) (page_of s m k) + PAGE_OFFSET;
  ao_owner : fs_allocator (pool s) (fs_frame_at (pool s) (page_of s m k)) = allocator_ptr m k;
  ao_num : avai_num (alloc_of s m k) = Z.of_nat (length xs);
  ao_state : page_state size (base_of s m k) (load s) (first_avai (alloc_of s m k)) xs
}.

Record manager_ok s (size m : Z) (X : Z -> list Z) : Prop := {
  mo_single : fs_single (pool s) (m - PAGE_OFFSET);
  mo_size : slice_size (managers s !!! m) = size;
  mo_lists : lists_ok (managers s !!! m) X;
  mo_alloc : forall k, 0 <= k < END_FLAG -> attached s m k -> alloc_ok s size m k (X k)
}.

Definition is_class (i : Z) : Prop := 0 <= i < PAGE_SLICE_LEVEL.

(** [Ms i] are the managers of class [i], [X m k] the free slices of allocator
    [k] of manager [m]. *)
Record kmm_ok s (Ms : Z -> list Z) (X : Z -> Z -> list Z) : Prop := {
  ko_pool : fs_ok (pool s);
  ko_bytes : forall a, in_u8 (load s a);
  ko_chain : forall i, is_class i -> manager_chain (managers s) (alloc_ms s !!! i) (Ms i);
  ko_nodup : forall i, is_class i -> NoDup (Ms i);
  ko_apart : forall i j m, is_class i -> is_class j -> m ∈ Ms i -> m ∈ Ms j -> i = j;
  ko_manager : forall i m, is_class i -> m ∈ Ms i -> manager_ok s (slice_size_of i) m (X m);
  ko_pages : forall i j m m' k, is_class i -> is_class j -> m ∈ Ms i -> m' ∈ Ms j ->
    0 <= k < END_FLAG -> attached s m k -> page_of s m k <> m' - PAGE_OFFSET
}.

(** The ghost lists with those of one allocator replaced. *)
Definition put (X : Z -> Z -> list Z) (m k : Z) (xs : list Z) (a b : Z) : list Z :=
  if decide (a = m /\ b = k) then xs else X a b.

(** The managers with [m] in front of those of class [i]. *)
Definition cons_ms (Ms : Z -> list Z) (i m j : Z) : list Z := if decide (j = i) then m :: Ms j else Ms j.

(** A manager in which only the data of allocator [k], and links, may differ. *)
Definition same_but (k : Z) (M M' : manager) : Prop :=
  slice_size M' = slice_size M /\ mg_next M' = mg_next M
  /\ forall j, j <> k -> target_page (allocs M' !!! j) = target_page (allocs M !!! j)
       /\ first_avai (allocs M' !!! j) = first_avai (allocs M !!! j)
       /\ avai_num (allocs M' !!! j) = avai_num (allocs M !!! j).

(** ** Live blocks *)

(** Slice [x] of allocator [k] of manager [m] of class [i] is handed out. *)
Definition slot s (Ms : Z -> list Z) (X : Z -> Z -> list Z) (i m k x : Z) : Prop :=
  is_class i /\ m ∈ Ms i /\ 0 <= k < END_FLAG /\ attached s m k
  /\ 0 <= x < slice_count (slice_size_of i) /\ x ∉ X m k.

(** The block of [size] bytes at [a] is handed out. *)
Definition live s (Ms : Z -> list Z) (X : Z -> Z -> list Z) (a size : Z) : Prop :=
  exists i m k x, slot s Ms X i m k x /\ size = slice_size_of i
    /\ a = slice_addr (base_of s m k) size x.

(** No other slot of its allocator is handed out. *)
Definition last_slot s (Ms : Z -> list Z) (X : Z -> Z -> list Z) (i m k x : Z) : Prop :=
  forall y, slot s Ms X i m k y -> y = x.

(** From [s] to [s'] exactly one slot is handed out more, the others stay where
    they are and keep their contents. *)
Record served s Ms X s' Ms' X' (i m k x : Z) : Prop := {
  sv_new : slot s' Ms' X' i m k x;
  sv_fresh : ~ slot s Ms X i m k x;
  sv_slots : forall j m' k' x', slot s' Ms' X' j m' k' x'
    <-> slot s Ms X j m' k' x' \/ (j = i /\ m' = m /\ k' = k /\ x' = x);
  sv_base : forall j m' k' x', slot s Ms X j m' k' x' -> base_of s' m' k' = base_of s m' k';
  sv_bytes : forall j m' k' x' c, slot s Ms X j m' k' x' ->
    let a := slice_addr (base_of s m' k') (slice_size_of j) x' in
    a <= c < a + slice_size_of j -> load s' c = load s c
}.

(** There is no frame for a new page of slices, or none for a new manager and
    its first page. *)
Definition exhausted (p : P) : Prop :=
  fs_frame_alloc 1 p = Some (0, p)
  \/ exists q p', fs_physic_alloc PAGE_FRAME_SIZE p = Some (q, p')
       /\ (q = 0 \/ fs_frame_alloc 1 p' = Some (0, p')).

(** Two ranges of memory that do not overlap. *)
Definition apart (a n b k : Z) : Prop := a + n <= b \/ b + k <= a.

(** ** Pages *)

(** A page other than [q] is as it was. *)
Definition keeps (p p' : P) (q : Z) : Prop :=
  forall r, fs_single p r -> r <> q ->
    fs_single p' r /\ fs_frame_at p' r = fs_frame_at p r
    /\ fs_physic_addr p' (fs_frame_at p r) = fs_physic_addr p (fs_frame_at p r)
    /\ fs_allocator p' (fs_frame_at p r) = fs_allocator p (fs_frame_at p r).

Definition in_page (q c : Z) : Prop := q + PAGE_OFFSET <= c < q + PAGE_OFFSET + PAGE_FRAME_SIZE.
End invariant.

Lemma is_class_size i : is_class i -> slice_size_of i ∈ slice_sizes.
Proof.
  intros Hi. unfold is_class, PAGE_SLICE_LEVEL in Hi. unfold slice_size_of.
  apply list_elem_of_lookup_total_2. simpl. lia.
Qed.

Lemma is_class_cases i :
  is_class i -> i = 0 \/ i = 1 \/ i = 2 \/ i = 3 \/ i = 4 \/ i = 5 \/ i = 6 \/ i = 7.
Proof. unfold is_class, PAGE_SLICE_LEVEL. lia. Qed.

(** Two pages that share an address are the same. *)
Lemma page_addr_same q r c : page_addr q -> page_addr r -> in_page q c -> in_page r c -> q = r.
Proof.
  unfold page_addr, in_page, PAGE_FRAME_SIZE. intros (_ & [a ->] & _) (_ & [b ->] & _) Hq Hr. lia.
Qed.
