(* ===== verification/KmmProofs.v ===== *)
(** * Proofs about the slice allocator *)

From S2P Require Import Prelude Chain Kmm KmmLists KmmPages KmmSpec.

Section proofs.
Context {P : Type} `{FrameSourceLaws P}.
Implicit Types s : kmm P.

(** ** Addresses *)

Lemma allocator_ptr_range m k :
  page_addr (m - PAGE_OFFSET) -> 0 <= k < END_FLAG ->
  allocator_ptr m k = m + ALLOCS_OFFSET + SIZEOF_ALLOCATOR * k
  /\ 0 <= allocator_ptr m k < 2 ^ 32 /\ manager_of (allocator_ptr m k) = m
  /\ index_of (allocator_ptr m k) = k.
Proof.
  intros (Hq & [a Ha] & Hr) Hk. change END_FLAG with 408 in Hk.
  unfold PAGE_OFFSET, PAGE_FRAME_SIZE in *. unfold allocator_ptr, ALLOCS_OFFSET, SIZEOF_ALLOCATOR.
  assert (u32 (m + 12 + 10 * k) = m + 12 + 10 * k) as E by (apply u32_small; unfold in_u32; lia).
  rewrite E. assert (manager_of (m + 12 + 10 * k) = m) as Em.
  { unfold manager_of, PAGE_MASK. rewrite land_page_mask by (unfold in_u32; lia).
    replace (m + 12 + 10 * k) with (12 + 10 * k + (a + 0xC0000) * 4096) by lia.
    rewrite Z.mod_add, Z.mod_small by lia. lia. }
  split; [reflexivity|]. split; [lia|]. split; [exact Em|].
  unfold index_of. rewrite Em. unfold ALLOCS_OFFSET, SIZEOF_ALLOCATOR.
  replace (m + 12 + 10 * k - (m + 12)) with (k * 10) by lia.
  rewrite u32_small by (unfold in_u32; lia). rewrite Z.div_mul by lia. apply u16_small. unfold in_u16. lia.
Qed.

Lemma load_store s a v c : load (store a v s) c = if decide (a = c) then u8 v else load s c.
Proof. apply (lookup_total_insert (M := gmap Z)). Qed.

(** The page of an allocator, from the address of its frame. *)
Lemma frame_back (p : P) q :
  fs_ok p -> fs_single p q -> u32 (fs_frame_at p q + PAGE_OFFSET - PAGE_OFFSET) = fs_frame_at p q
  /\ u32 (fs_frame_at p q + PAGE_OFFSET) = fs_frame_at p q + PAGE_OFFSET
  /\ fs_frame_at p q + PAGE_OFFSET <> 0.
Proof.
  intros Hok Hs. destruct (fs_page p q Hok Hs) as (_ & Hf & _). unfold PAGE_OFFSET.
  replace (fs_frame_at p q + 3221225472 - 3221225472) with (fs_frame_at p q) by lia.
  rewrite !u32_small by (unfold in_u32; lia). lia.
Qed.

(** ** Frame rule for one allocator *)

Lemma alloc_ok_frame s s' size m k xs q :
  fs_ok (pool s) -> alloc_ok s size m k xs -> keeps (pool s) (pool s') q -> page_of s m k <> q ->
  page_addr q ->
  target_page (alloc_of s' m k) = target_page (alloc_of s m k) ->
  first_avai (alloc_of s' m k) = first_avai (alloc_of s m k) ->
  avai_num (alloc_of s' m k) = avai_num (alloc_of s m k) ->
  (forall c, ~ in_page q c -> load s' c = load s c) -> size ∈ slice_sizes ->
  page_of s' m k = page_of s m k /\ alloc_ok s' size m k xs.
Proof.
  intros Hok [A1 A2 A3 A4 A5] Hk Hq Hqa Et Ef En Hb Hs.
  destruct (Hk _ A1 Hq) as (K1 & K2 & K3 & K4).
  destruct (frame_back _ _ Hok A1) as [Eb _].
  destruct (fs_page _ _ Hok A1) as (Hr & _ & Epa).
  assert (page_of s' m k = page_of s m k) as Ep.
  { unfold page_of at 1, target_addr. rewrite Et, A2, Eb, K3. exact Epa. }
  split; [exact Ep|]. split; rewrite ?Ep, ?Et, ?Ef, ?En; try assumption.
  - rewrite K2. exact A2.
  - rewrite K2, K4. exact A3.
  - unfold base_of in *. rewrite Ep. apply (page_state_ext _ _ _ _ _ _ A5).
    intros Hl x Hx. apply Hb. intros Hin. apply Hq.
    apply (page_addr_same _ _ (header (page_of s m k + PAGE_OFFSET) size x) Hr Hqa); [|exact Hin].
    pose proof (header_inside size (page_of s m k + PAGE_OFFSET) x Hs Hl Hx).
    assert (0 < real_slice_size size) by (unfold real_slice_size; by_class Hs; lia).
    unfold in_page, SIZEOF_PTR in *. lia.
Qed.

(** The owner of a page is unique. *)
Lemma owner_unique s size size' m k xs m' k' xs' :
  page_addr (m - PAGE_OFFSET) -> page_addr (m' - PAGE_OFFSET) ->
  0 <= k < END_FLAG -> 0 <= k' < END_FLAG ->
  alloc_ok s size m k xs -> alloc_ok s size' m' k' xs' -> page_of s m k = page_of s m' k' ->
  m = m' /\ k = k'.
Proof.
  intros Hm Hm' Hk Hk' A A' E. pose proof (ao_owner _ _ _ _ _ A) as O. rewrite E, (ao_owner _ _ _ _ _ A') in O.
  destruct (allocator_ptr_range m k Hm Hk) as (_ & _ & M & I).
  destruct (allocator_ptr_range m' k' Hm' Hk') as (_ & _ & M' & I'). rewrite O in M', I'.
  split; congruence.
Qed.

Lemma put_eq X m k xs : put X m k xs m k = xs.
Proof. unfold put. rewrite decide_True by auto. reflexivity. Qed.

Lemma put_ne X m k xs a b : a <> m \/ b <> k -> put X m k xs a b = X a b.
Proof. intros Hn. unfold put. apply decide_False. intros [-> ->]. destruct Hn; auto. Qed.

(** The manager chains depend on the next pointers only. *)
Lemma manager_chain_ext mg mg' m ms :
  manager_chain mg m ms -> (forall x, x ∈ ms -> mg_next (mg' !!! x) = mg_next (mg !!! x)) ->
  manager_chain mg' m ms.
Proof.
  revert m. induction ms as [|x ms IH]; simpl; intros m; [auto|]. intros (-> & Hx & Hc) E.
  split; [reflexivity|]. split; [exact Hx|]. rewrite E by left. apply IH; [exact Hc|].
  intros y Hy. apply E. right. exact Hy.
Qed.

Lemma manager_page s Ms X i m :
  kmm_ok s Ms X -> is_class i -> m ∈ Ms i -> page_addr (m - PAGE_OFFSET).
Proof.
  intros K Hi Hm. apply (fs_page _ _ (ko_pool _ _ _ K)). apply (mo_single _ _ _ _ (ko_manager _ _ _ K i m Hi Hm)).
Qed.

(** Replacing the data of one allocator, its page [q] and the frame of [q]. *)
Lemma kmm_update s s' Ms X i m k xs q :
  kmm_ok s Ms X -> is_class i -> m ∈ Ms i -> 0 <= k < END_FLAG ->
  fs_ok (pool s') -> (forall a, in_u8 (load s' a)) -> alloc_ms s' = alloc_ms s ->
  (forall m', m' <> m -> managers s' !!! m' = managers s !!! m') ->
  same_but k (managers s !!! m) (managers s' !!! m) ->
  lists_ok (managers s' !!! m) (put X m k xs m) ->
  page_addr q -> keeps (pool s) (pool s') q -> (forall c, ~ in_page q c -> load s' c = load s c) ->
  (forall j m', is_class j -> m' ∈ Ms j -> m' - PAGE_OFFSET <> q) ->
  (forall j m' k', is_class j -> m' ∈ Ms j -> 0 <= k' < END_FLAG -> m' <> m \/ k' <> k ->
     attached s m' k' -> page_of s m' k' <> q) ->
  (attached s' m k -> alloc_ok s' (slice_size_of i) m k xs /\ page_of s' m k = q) ->
  kmm_ok s' Ms (put X m k xs)
  /\ (forall j m' k', is_class j -> m' ∈ Ms j -> 0 <= k' < END_FLAG -> m' <> m \/ k' <> k ->
       attached s m' k' <-> attached s' m' k')
  /\ (forall j m' k', is_class j -> m' ∈ Ms j -> 0 <= k' < END_FLAG -> m' <> m \/ k' <> k ->
       attached s m' k' -> page_of s' m' k' = page_of s m' k').
Proof.
  intros K Hi Hm Hk Hok Hby Ems Hmg (Esz & Enx & Hsame) Hl Hqa Hkeep Hbytes Hqm Hqa2 Hnew.
  assert (forall j m' k', m' ∈ Ms j -> m' <> m \/ k' <> k ->
    target_page (alloc_of s' m' k') = target_page (alloc_of s m' k')
    /\ first_avai (alloc_of s' m' k') = first_avai (alloc_of s m' k')
    /\ avai_num (alloc_of s' m' k') = avai_num (alloc_of s m' k')) as Hdata.
  { intros j m' k' _ Hn. unfold alloc_of. destruct (Z.eq_dec m' m) as [->|Hne].
    - apply Hsame. destruct Hn; [contradiction|assumption].
    - rewrite Hmg by exact Hne. auto. }
  assert (forall j m' k', is_class j -> m' ∈ Ms j -> 0 <= k' < END_FLAG -> m' <> m \/ k' <> k ->
    attached s m' k' ->
    page_of s' m' k' = page_of s m' k' /\ alloc_ok s' (slice_size_of j) m' k' (X m' k')) as Hold.
  { intros j m' k' Hj Hm' Hk' Hn Ha. destruct (Hdata j m' k' Hm' Hn) as (D1 & D2 & D3).
    apply (alloc_ok_frame s s' _ m' k' _ q); try assumption; [| | |apply is_class_size; exact Hj].
    - apply (ko_pool _ _ _ K).
    - apply (mo_alloc _ _ _ _ (ko_manager _ _ _ K j m' Hj Hm')); assumption.
    - apply (Hqa2 j); assumption. }
  assert (forall j m' k', m' ∈ Ms j -> m' <> m \/ k' <> k -> attached s m' k' <-> attached s' m' k') as Hatt.
  { intros j m' k' Hm' Hn. unfold attached. destruct (Hdata j m' k' Hm' Hn) as (-> & _). reflexivity. }
  split; [|split; [intros j m' k' _ Hm' _ Hn; apply (Hatt j); assumption|]].
  2:{ intros j m' k' Hj Hm' Hk' Hn Ha. apply (Hold j); assumption. }
  split; try assumption.
  - intros j Hj. rewrite Ems. apply (manager_chain_ext (managers s)); [apply (ko_chain _ _ _ K j Hj)|].
    intros x _. destruct (Z.eq_dec x m) as [->|Hne]; [exact Enx|]. rewrite Hmg by exact Hne. reflexivity.
  - apply (ko_nodup _ _ _ K).
  - apply (ko_apart _ _ _ K).
  - intros j m' Hj Hm'. pose proof (ko_manager _ _ _ K j m' Hj Hm') as [M1 M2 M3 M4].
    assert (fs_single (pool s') (m' - PAGE_OFFSET)) as Hs'
      by (apply (Hkeep _ M1), (Hqm j); assumption).
    destruct (Z.eq_dec m' m) as [->|Hne].
    + assert (j = i) as -> by (apply (ko_apart _ _ _ K j i m); assumption).
      split; [exact Hs'|rewrite Esz; exact M2|exact Hl|]. intros k' Hk' Ha.
      destruct (Z.eq_dec k' k) as [->|Hne]; [rewrite put_eq; apply Hnew, Ha|].
      rewrite put_ne by auto. apply (Hold i); auto. apply (Hatt i); auto.
    + split; [exact Hs'|rewrite Hmg by exact Hne; exact M2| |].
      * rewrite Hmg by exact Hne. destruct M3 as (F & Q & U & L & HL). exists F, Q, U.
        split; [exact L|]. intros k' Hk'. unfold sorted_ok. rewrite put_ne by auto. apply (HL k' Hk').
      * intros k' Hk' Ha. rewrite put_ne by auto. apply (Hold j); auto. apply (Hatt j); auto.
  - intros j1 j2 m1 m2 k1 Hj1 Hj2 Hm1 Hm2 Hk1 Ha.
    destruct (decide (m1 = m /\ k1 = k)) as [[-> ->]|Hn].
    + destruct (Hnew Ha) as [_ ->]. intros E. apply (Hqm j2 m2 Hj2 Hm2). congruence.
    + assert (m1 <> m \/ k1 <> k) as Hn2 by (destruct (Z.eq_dec m1 m), (Z.eq_dec k1 k); tauto).
      assert (attached s m1 k1) as Ha1 by (apply (Hatt j1 m1 k1 Hm1 Hn2), Ha).
      destruct (Hold j1 m1 k1 Hj1 Hm1 Hk1 Hn2 Ha1) as [-> _].
      apply (ko_pages _ _ _ K j1 j2); assumption.
Qed.

(** ** Lists after an update of one allocator *)

Lemma sorted_update M M' X X' F Q U F' Q' U' k :
  (forall j, 0 <= j < END_FLAG -> sorted_ok M X F Q U j) ->
  (forall j, j <> k -> target_page (allocs M' !!! j) = target_page (allocs M !!! j) /\ X' j = X j
     /\ (j ∈ F' <-> j ∈ F) /\ (j ∈ Q' <-> j ∈ Q) /\ (j ∈ U' <-> j ∈ U)) ->
  sorted_ok M' X' F' Q' U' k ->
  forall j, 0 <= j < END_FLAG -> sorted_ok M' X' F' Q' U' j.
Proof.
  intros HS Hj Hk j Hr. destruct (Z.eq_dec j k) as [->|Hne]; [exact Hk|].
  unfold sorted_ok. destruct (Hj j Hne) as (-> & -> & -> & -> & ->). apply (HS j Hr).
Qed.

(** ** Taking a slice of a page *)

Lemma mode_of_linked size : is_linked_mode size = true -> mode_of size = KMA_MODE_LINKED.
Proof. unfold mode_of. intros ->. reflexivity. Qed.

Lemma mode_of_bitmap size : is_linked_mode size = false -> mode_of size = KMA_MODE_BITMAP.
Proof. unfold mode_of. intros ->. reflexivity. Qed.

Lemma page_base q :
  page_addr q -> u32 (q + PAGE_OFFSET) = q + PAGE_OFFSET /\ q + PAGE_OFFSET + 2 * PAGE_FRAME_SIZE <= 2 ^ 32.
Proof.
  unfold page_addr, PAGE_OFFSET, PAGE_FRAME_SIZE. intros (H1 & [a ->] & H2).
  split; [apply u32_small; unfold in_u32; lia|lia].
Qed.

Lemma alloc_page s size m k xs :
  fs_ok (pool s) -> alloc_ok s size m k xs -> page_addr (page_of s m k).
Proof. intros Hok A. apply (fs_page _ _ Hok (ao_single _ _ _ _ _ A)). Qed.

(** What [get_slice_addr] does to a page with a free slice. *)
Lemma get_slice_ok s size m k xs :
  fs_ok (pool s) -> (forall a, in_u8 (load s a)) -> size ∈ slice_sizes ->
  alloc_ok s size m k xs -> xs <> [] ->
  exists x xs' f' bts, x ∈ xs /\ xs ≡ₚ x :: xs' /\
    let s1 := upd_manager m (upd_alloc k (set_first f')) (set_bytes bts s) in
    get_slice_addr m k size (mode_of size) s
      = Some (bool_decide (xs' = []), slice_addr (base_of s m k) size x, s1)
    /\ page_state size (base_of s m k) (load s1) f' xs'
    /\ (forall a, in_u8 (load s1 a))
    /\ (forall c, (is_linked_mode size = true -> c <> header (base_of s m k) size x) -> load s1 c = load s c).
Proof.
  intros Hok Hby Hs A Hne. pose proof (alloc_page _ _ _ _ _ Hok A) as Hq.
  destruct (page_base _ Hq) as [Eb Hb]. destruct (slice_count_bounds size Hs) as [Hcnt Hcl].
  pose proof (ao_state _ _ _ _ _ A) as S. unfold get_slice_addr. fold (page_of s m k).
  rewrite Eb. change (page_of s m k + PAGE_OFFSET) with (base_of s m k) in *.
  assert (0 < real_slice_size size) as Hrs by (unfold real_slice_size; clear -Hs; by_class Hs; lia).
  assert (0 < base_of s m k) as Hpos by (unfold base_of, PAGE_OFFSET; destruct Hq; lia).
  destruct (is_linked_mode size) eqn:Hl.
  - destruct xs as [|x xs]; [contradiction|]. pose proof (ps_range _ _ _ _ _ S x ltac:(left)) as Hx.
    pose proof (header_inside size (base_of s m k) x Hs Hl Hx) as Hh.
    destruct (take_linked size (base_of s m k) (load s) (load (store (header (base_of s m k) size x) 0xFF s)) x xs _ Hs Hl S)
      as (Ef & S' & Efl).
    { intros y. rewrite load_store. destruct (Z.eq_dec y x) as [->|Hyx].
      - rewrite !decide_True by reflexivity. reflexivity.
      - rewrite !decide_False; [reflexivity|exact Hyx|].
        intros E. apply Hyx. apply (header_inj (base_of s m k) size); [|congruence].
        unfold real_slice_size in Hrs. clear -Hs. by_class Hs; lia. }
    { exact Hby. }
    exists x, xs, (load s (header (base_of s m k) size x)), (<[header (base_of s m k) size x := u8 0xFF]> (bytes s)).
    split; [left|]. split; [reflexivity|]. cbv zeta. rewrite (mode_of_linked _ Hl).
    unfold SIZEOF_PTR in Hh. rewrite Ef. unfold SIZEOF_PTR.
    replace (base_of s m k + 4 + x * real_slice_size size) with (header (base_of s m k) size x)
      by (unfold header, SIZEOF_PTR; lia).
    rewrite u32_small by (unfold in_u32, PAGE_FRAME_SIZE in *; lia).
    rewrite u32_small by (unfold in_u32, PAGE_FRAME_SIZE in *; lia).
    rewrite Efl. unfold slice_addr. rewrite Hl. split; [reflexivity|]. split; [exact S'|]. split.
    + intros a. change (in_u8 (load (store (header (base_of s m k) size x) 0xFF s) a)).
      rewrite load_store. case_decide; [apply u8_range|apply Hby].
    + intros c Hc. change (load (store (header (base_of s m k) size x) 0xFF s) c = load s c).
      rewrite load_store. apply decide_False. intros E. apply (Hc eq_refl). congruence.
  - destruct (take_bitmap size (base_of s m k) (load s) Hs Hl _ xs S Hne) as (x & Ex & Hin & S' & Efl).
    pose proof (ps_range _ _ _ _ _ S x Hin) as Hx.
    exists x, (without x xs), (u8 (Z.lor (first_avai (alloc_of s m k)) (Z.shiftl 1 (7 - x)))), (bytes s).
    split; [exact Hin|]. split; [apply without_perm; [apply (ps_nodup _ _ _ _ _ S)|exact Hin]|].
    cbv zeta. rewrite (mode_of_bitmap _ Hl), Ex. simpl mbind. rewrite Efl.
    assert (0 <= x * size /\ x * size < PAGE_FRAME_SIZE) as Hxs.
    { destruct Hcl as [Hcl _]. assert (0 < size) by (clear -Hs; by_class Hs; lia). nia. }
    unfold slice_addr. rewrite Hl. unfold PAGE_FRAME_SIZE in Hxs, Hb.
    rewrite u32_small by (unfold in_u32; lia). destruct s as [ms mg by' p].
    split; [reflexivity|]. split; [exact S'|]. split; [exact Hby|reflexivity].
Qed.

(** ** Serving from a partially full page *)

Lemma keeps_refl p q : keeps p p q.
Proof. intros r Hr _. auto. Qed.

Lemma managers_upd s m f a : managers (upd_manager m f s) !!! a = if decide (m = a) then f (managers s !!! a) else managers s !!! a.
Proof. apply upd_lookup. Qed.

(** A manager other than [m] owns no page of [m], and no manager is a slice page. *)
Lemma others_apart s Ms X i m k :
  kmm_ok s Ms X -> is_class i -> m ∈ Ms i -> 0 <= k < END_FLAG -> attached s m k ->
  (forall j m', is_class j -> m' ∈ Ms j -> m' - PAGE_OFFSET <> page_of s m k)
  /\ (forall j m' k', is_class j -> m' ∈ Ms j -> 0 <= k' < END_FLAG -> m' <> m \/ k' <> k ->
       attached s m' k' -> page_of s m' k' <> page_of s m k).
Proof.
  intros K Hi Hm Hk Ha. split.
  - intros j m' Hj Hm' E. apply (ko_pages _ _ _ K i j m m' k); auto.
  - intros j m' k' Hj Hm' Hk' Hn Ha' E.
    pose proof (mo_alloc _ _ _ _ (ko_manager _ _ _ K i m Hi Hm) k Hk Ha) as A.
    pose proof (mo_alloc _ _ _ _ (ko_manager _ _ _ K j m' Hj Hm') k' Hk' Ha') as A'.
    destruct (owner_unique _ _ _ _ _ _ _ _ _ (manager_page _ _ _ _ _ K Hj Hm')
      (manager_page _ _ _ _ _ K Hi Hm) Hk' Hk A' A E). tauto.
Qed.

(** The slices of other allocators are in other pages. *)
Lemma slot_in_page s Ms X j m k x c :
  kmm_ok s Ms X -> slot s Ms X j m k x ->
  let a := slice_addr (base_of s m k) (slice_size_of j) x in
  a <= c < a + slice_size_of j -> in_page (page_of s m k) c /\ page_addr (page_of s m k).
Proof.
  intros K (Hj & Hm & Hk & Ha & Hx & _) a Hc.
  pose proof (mo_alloc _ _ _ _ (ko_manager _ _ _ K j m Hj Hm) k Hk Ha) as A.
  destruct (slice_inside _ (base_of s m k) x (is_class_size j Hj) Hx). unfold a in Hc.
  split; [unfold in_page; unfold base_of in *; lia|]. apply (alloc_page _ _ _ _ _ (ko_pool _ _ _ K) A).
Qed.

(** A write in front of slice [y] spares every slice of the page. *)
Lemma slice_not_header size b x y c :
  size ∈ slice_sizes -> is_linked_mode size = true ->
  slice_addr b size x <= c < slice_addr b size x + size -> c <> header b size y.
Proof.
  intros Hs Hl. unfold slice_addr, header, real_slice_size. rewrite Hl. intros Hc ->.
  assert (0 < size) by (clear -Hs; by_class Hs; lia). assert (x < y \/ y <= x) as [?|?] by lia; nia.
Qed.

(** Reading an allocator after updates of its data. *)
Lemma same_but_trans k a b c : same_but k a b -> same_but k b c -> same_but k a c.
Proof.
  intros (E1 & E2 & E3) (F1 & F2 & F3). split; [congruence|]. split; [congruence|].
  intros j Hj. destruct (E3 j Hj) as (? & ? & ?), (F3 j Hj) as (? & ? & ?). repeat split; congruence.
Qed.

Lemma same_but_upd k f M : same_but k M (upd_alloc k f M).
Proof.
  split; [reflexivity|]. split; [reflexivity|]. intros j Hj.
  rewrite allocs_upd, decide_False by auto. auto.
Qed.

Lemma same_but_data k M M' : same_data M M' -> same_but k M M'.
Proof.
  intros (E1 & E2 & E3). split; [exact E1|]. split; [exact E2|].
  intros j _. destruct (E3 j) as (? & ? & ?). auto.
Qed.

Definition dec_avai (a : page_slice_allocator) : page_slice_allocator := set_avai (u8 (avai_num a - 1)) a.
Definition inc_avai (a : page_slice_allocator) : page_slice_allocator := set_avai (u8 (avai_num a + 1)) a.

Lemma not_in_disjoint k (xs ys : list Z) : NoDup (k :: xs ++ ys) -> k ∉ xs /\ k ∉ ys.
Proof. intros [Hk _]%NoDup_cons. rewrite not_elem_of_app in Hk. exact Hk. Qed.

(** The manager after a slice of allocator [k] was taken; [xs] are left. *)
Lemma manager_take M X X' F Q U k f' xs :
  mlists M F (k :: Q) U -> (forall j, 0 <= j < END_FLAG -> sorted_ok M X F (k :: Q) U j) ->
  0 <= k < END_FLAG -> (forall j, X' j = if decide (j = k) then xs else X j) ->
  let M1 := upd_alloc k (set_first f') M in
  let M3 := upd_alloc k dec_avai (if bool_decide (xs = []) then p_full_to_full k M1 else M1) in
  lists_ok M3 X' /\ same_but k M M3
  /\ target_page (allocs M3 !!! k) = target_page (allocs M !!! k)
  /\ first_avai (allocs M3 !!! k) = f'
  /\ avai_num (allocs M3 !!! k) = u8 (avai_num (allocs M !!! k) - 1).
Proof.
  intros L HS Hk HX M1 M3.
  assert (mlists M1 F (k :: Q) U) as L1 by (apply mlists_upd_data; [intros []; split; reflexivity|exact L]).
  assert (same_but k M M1) as SB1 by apply same_but_upd.
  assert (allocs M1 !!! k = set_first f' (allocs M !!! k)) as E1
    by (unfold M1; rewrite allocs_upd; apply decide_True; reflexivity).
  destruct (HS k Hk) as (KF & KQ & KU).
  assert (target_page (allocs M !!! k) <> 0) as Ht by (apply (proj1 KQ); left).
  assert (k ∉ Q /\ k ∉ U /\ k ∉ F) as (NQ & NU & NF).
  { pose proof (ml_nodup _ _ _ _ L) as Hnd. apply NoDup_app in Hnd as (_ & Hd & Hnd).
    destruct (not_in_disjoint k Q U Hnd). split; [assumption|]. split; [assumption|].
    intros HF. apply (Hd k HF). left. }
  set (M2 := if bool_decide (xs = []) then p_full_to_full k M1 else M1) in *.
  assert (exists Q' U', mlists M2 F Q' U' /\ same_data M1 M2
    /\ (forall j, j <> k -> (j ∈ Q' <-> j ∈ k :: Q) /\ (j ∈ U' <-> j ∈ U))
    /\ (k ∈ Q' <-> xs <> []) /\ (k ∈ U' <-> xs = [])) as (Q' & U' & L2 & D2 & Hj & HkQ & HkU).
  { unfold M2. case_bool_decide as Ex.
    - destruct (p_full_to_full_lists M1 k F Q U L1) as [L2 D2]. exists Q, (k :: U).
      split; [exact L2|]. split; [exact D2|]. split; [set_solver|]. split; [tauto|]. split; [auto|intros _; left].
    - exists (k :: Q), U. split; [exact L1|]. split; [split; [reflexivity|]; split; [reflexivity|auto]|].
      split; [tauto|]. split; [split; [auto|left]|tauto]. }
  clearbody M2. assert (same_but k M M3) as SB.
  { apply (same_but_trans _ _ M1 _ SB1), (same_but_trans _ _ M2); [apply same_but_data, D2|apply same_but_upd]. }
  assert (allocs M3 !!! k = dec_avai (allocs M2 !!! k)) as E3
    by (unfold M3; rewrite allocs_upd; apply decide_True; reflexivity).
  destruct (proj2 (proj2 D2) k) as (T1 & T2 & T3). rewrite E1 in T1, T2, T3.
  rewrite E3. unfold dec_avai. cbn [set_avai target_page first_avai avai_num].
  rewrite T1, T2, T3. cbn [set_first target_page first_avai avai_num].
  split; [|split; [exact SB|repeat split; reflexivity]].
  exists F, Q', U'. split.
  { apply mlists_upd_data; [intros []; split; reflexivity|exact L2]. }
  apply (sorted_update M M3 X X' F (k :: Q) U F Q' U' k HS).
  - intros j Hjk. destruct (proj2 (proj2 SB) j Hjk) as (-> & _). rewrite HX, decide_False by exact Hjk.
    destruct (Hj j Hjk) as [-> ->]. tauto.
  - unfold sorted_ok. rewrite E3. unfold dec_avai. cbn [set_avai target_page]. rewrite T3.
    cbn [set_first target_page]. rewrite HX, decide_True by reflexivity. tauto.
Qed.

(** What a single allocator looks like, from the data. *)
Lemma page_of_data s s' m k :
  target_page (alloc_of s' m k) = target_page (alloc_of s m k) -> pool s' = pool s ->
  page_of s' m k = page_of s m k.
Proof. intros Et Ep. unfold page_of, target_addr. rewrite Et, Ep. reflexivity. Qed.

(** The slots after an update of allocator [k] of [m]. *)
Lemma slot_put s s' Ms X i m k xs j m' k' x' :
  is_class i -> m ∈ Ms i -> (forall j, is_class j -> m ∈ Ms j -> j = i) ->
  (m' <> m \/ k' <> k -> is_class j -> m' ∈ Ms j -> 0 <= k' < END_FLAG ->
     attached s m' k' <-> attached s' m' k') ->
  slot s' Ms (put X m k xs) j m' k' x'
  <-> (m' <> m \/ k' <> k) /\ slot s Ms X j m' k' x'
      \/ (j = i /\ m' = m /\ k' = k) /\ 0 <= k < END_FLAG /\ attached s' m k
         /\ 0 <= x' < slice_count (slice_size_of i) /\ x' ∉ xs.
Proof.
  intros Hi Hm Hu Ha. unfold slot.
  destruct (decide (m' = m /\ k' = k)) as [[-> ->]|Hn].
  - rewrite put_eq. split.
    + intros (Hj & Hmj & Hk & Hat & Hx & Hxs). right. rewrite <- (Hu j Hj Hmj). auto.
    + intros [[[?|?] _]|[(-> & _) H1]]; try contradiction. tauto.
  - assert (m' <> m \/ k' <> k) as Hn' by (destruct (Z.eq_dec m' m), (Z.eq_dec k' k); tauto).
    rewrite put_ne by exact Hn'. specialize (Ha Hn'). split.
    + intros (Hj & Hmj & Hk & Hat & Hx). left. split; [exact Hn'|]. rewrite Ha by assumption. tauto.
    + intros [[_ (Hj & Hmj & Hk & Hat & Hx)]|[(_ & -> & ->) _]]; [|tauto].
      rewrite <- Ha by assumption. tauto.
Qed.

(** The slices in use in allocator [k] before an operation that serves slice
    [x] and leaves [xs]: all but [x], or none if it had no page. *)
Lemma served_intro s s' Ms X i m k xs x :
  kmm_ok s Ms X -> is_class i -> m ∈ Ms i -> 0 <= k < END_FLAG ->
  attached s' m k -> 0 <= x < slice_count (slice_size_of i) -> x ∉ xs ->
  (forall j m' k', is_class j -> m' ∈ Ms j -> 0 <= k' < END_FLAG -> m' <> m \/ k' <> k ->
     attached s m' k' <-> attached s' m' k') ->
  (forall j m' k', is_class j -> m' ∈ Ms j -> 0 <= k' < END_FLAG -> m' <> m \/ k' <> k ->
     attached s m' k' -> page_of s' m' k' = page_of s m' k' /\ page_of s m' k' <> page_of s' m k) ->
  page_addr (page_of s' m k) ->
  (forall c, ~ in_page (page_of s' m k) c -> load s' c = load s c) ->
  (attached s m k -> X m k ≡ₚ x :: xs /\ page_of s m k = page_of s' m k
     /\ forall y c, y ∉ X m k -> let a := slice_addr (base_of s m k) (slice_size_of i) y in
          a <= c < a + slice_size_of i -> load s' c = load s c) ->
  (~ attached s m k -> forall y, 0 <= y < slice_count (slice_size_of i) -> y ∉ xs <-> y = x) ->
  served s Ms X s' Ms (put X m k xs) i m k x.
Proof.
  intros K Hi Hm Hk Ha' Hx Hxs Hatt Hpg Hq Hby Hold Hnew.
  assert (forall j, is_class j -> m ∈ Ms j -> j = i) as Hu
    by (intros j Hj Hmj; apply (ko_apart _ _ _ K j i m); assumption).
  pose proof (fun j m' k' x' => slot_put s s' Ms X i m k xs j m' k' x' Hi Hm Hu
    (fun Hn Hj Hm' Hk' => Hatt j m' k' Hj Hm' Hk' Hn)) as SP.
  assert (forall y, 0 <= y < slice_count (slice_size_of i) ->
            y ∉ xs <-> (attached s m k /\ y ∉ X m k) \/ y = x) as Hy.
  { intros y Hr. destruct (decide (target_page (alloc_of s m k) = 0)) as [Hna|Ha].
    - assert (~ attached s m k) as Hna' by (intros E; contradiction).
      rewrite (Hnew Hna' y Hr). tauto.
    - destruct (Hold Ha) as (Hp & _). rewrite Hp, not_elem_of_cons. unfold attached.
      destruct (Z.eq_dec y x) as [->|]; tauto. }
  split.
  - apply SP. right. auto 10.
  - intros (_ & _ & _ & Ha & _ & Hn). destruct (Hold Ha) as (Hp & _). apply Hn. rewrite Hp. left.
  - intros j m' k' x'. rewrite SP. unfold slot at 2. split.
    + intros [[Hn Hs]|[(-> & -> & ->) (_ & _ & Hr & Hn)]]; [left; exact Hs|].
      apply Hy in Hn; [|exact Hr]. destruct Hn as [[? ?]| ->]; [left; tauto|right; tauto].
    + intros [Hs|(-> & -> & -> & ->)]; [|right; auto 10].
      destruct (decide (m' = m /\ k' = k)) as [[-> ->]|Hn].
      * right. destruct Hs as (Hj & Hmj & _ & Ha & Hr & Hn). rewrite <- (Hu j Hj Hmj) in *.
        split; [auto|]. split; [exact Hk|]. split; [exact Ha'|]. split; [exact Hr|]. apply Hy; [exact Hr|auto].
      * left. split; [destruct (Z.eq_dec m' m), (Z.eq_dec k' k); tauto|exact Hs].
  - intros j m' k' x' (Hj & Hmj & Hkj & Ha & _). unfold base_of. f_equal.
    destruct (decide (m' = m /\ k' = k)) as [[-> ->]|Hn].
    + destruct (Hold Ha) as (_ & -> & _). reflexivity.
    + apply (Hpg j); try assumption. destruct (Z.eq_dec m' m), (Z.eq_dec k' k); tauto.
  - intros j m' k' x' c Hs a Hc. pose proof (slot_in_page _ _ _ _ _ _ _ c K Hs Hc) as [Hin Hqa].
    destruct Hs as (Hj & Hmj & Hkj & Ha & _ & Hxn).
    destruct (decide (m' = m /\ k' = k)) as [[-> ->]|Hn].
    + pose proof (Hu j Hj Hmj). subst j. destruct (Hold Ha) as (_ & _ & Hb). apply (Hb x' c Hxn). exact Hc.
    + apply Hby. intros Hin'. destruct (Hpg j m' k' Hj Hmj Hkj) as [_ Hd]; [|exact Ha|].
      * destruct (Z.eq_dec m' m), (Z.eq_dec k' k); tauto.
      * apply Hd. apply (page_addr_same _ _ c); assumption.
Qed.

(** A slice of the partially full allocator [k] is taken: [f'] is its first free
    slice afterwards and [xs] are the free ones. *)
Definition slice_taken (m k f' : Z) (bts : gmap Z Z) (xs : list Z) s : kmm P :=
  let s1 := upd_manager m (upd_alloc k (set_first f')) (set_bytes bts s) in
  upd_manager m (upd_alloc k dec_avai) (if bool_decide (xs = []) then upd_manager m (p_full_to_full k) s1 else s1).

Lemma slice_taken_fields m k f' bts xs s (s3 := slice_taken m k f' bts xs s) :
  managers s3 !!! m = upd_alloc k dec_avai (if bool_decide (xs = [])
            then p_full_to_full k (upd_alloc k (set_first f') (managers s !!! m))
            else upd_alloc k (set_first f') (managers s !!! m))
  /\ (forall m', m' <> m -> managers s3 !!! m' = managers s !!! m')
  /\ pool s3 = pool s /\ alloc_ms s3 = alloc_ms s /\ bytes s3 = bts.
Proof.
  unfold s3, slice_taken. cbv zeta. split; [|split].
  - rewrite managers_upd, decide_True by reflexivity. f_equal.
    destruct (bool_decide _); rewrite ?managers_upd, ?decide_True by reflexivity; reflexivity.
  - intros m' Hne'. rewrite managers_upd, decide_False by auto.
    destruct (bool_decide _); rewrite ?managers_upd, ?decide_False by auto; reflexivity.
  - destruct (bool_decide _); repeat split; reflexivity.
Qed.

Lemma alloc_p_full_ok s Ms X i m :
  kmm_ok s Ms X -> is_class i -> m ∈ Ms i -> mg_p_full (managers s !!! m) <> END_FLAG ->
  exists k x s' X', alloc_p_full m (slice_size_of i) (mode_of (slice_size_of i)) s
      = Some (slice_addr (base_of s' m k) (slice_size_of i) x, s')
    /\ kmm_ok s' Ms X' /\ served s Ms X s' Ms X' i m k x.
Proof.
  intros K Hi Hm Hp. pose proof (ko_manager _ _ _ K i m Hi Hm) as Mo.
  destruct (mo_lists _ _ _ _ Mo) as (F & Q0 & U & L & HS).
  pose proof (mlists_end _ _ _ _ L) as Hend. rewrite !not_elem_of_app in Hend.
  destruct (head_of_list _ _ _ (ml_p_full _ _ _ _ L) (proj1 (proj2 Hend)) Hp) as (Q & ->).
  set (k := mg_p_full (managers s !!! m)) in *. set (size := slice_size_of i) in *.
  assert (0 <= k < END_FLAG) as Hk by (apply (ml_mem _ _ _ _ L); set_solver).
  destruct (HS k Hk) as (_ & HQ & _). destruct HQ as [HQ _]. destruct (HQ ltac:(left)) as [Ha Hne].
  pose proof (mo_alloc _ _ _ _ Mo k Hk Ha) as A. pose proof (is_class_size i Hi) as Hs. fold size in Hs.
  destruct (get_slice_ok s size m k (X m k) (ko_pool _ _ _ K) (ko_bytes _ _ _ K) Hs A Hne)
    as (x & xs & f' & bts & Hx & Hperm & G). cbv zeta in G.
  set (s1 := upd_manager m (upd_alloc k (set_first f')) (set_bytes bts s)) in *.
  destruct G as (Eg & S' & Hby' & Hb').
  set (s3 := slice_taken m k f' bts xs s).
  assert (alloc_p_full m size (mode_of size) s = Some (slice_addr (base_of s m k) size x, s3)) as Ealloc.
  { unfold alloc_p_full. fold k. rewrite Eg. reflexivity. }
  destruct (manager_take (managers s !!! m) (X m) (put X m k xs m) F Q U k f' xs L HS Hk) as (LO & SB & D1 & D2 & D3).
  { intros j. unfold put. destruct (decide (j = k)); [rewrite decide_True by auto|rewrite decide_False by tauto]; reflexivity. }
  destruct (slice_taken_fields m k f' bts xs s) as (EM & Hmg & Ep & Ems & Ebt). fold s3 in EM, Hmg, Ep, Ems, Ebt.
  rewrite <- EM in LO, SB, D1, D2, D3.
  clearbody s3.
  assert (page_of s3 m k = page_of s m k) as Epg by (apply page_of_data; [exact D1|exact Ep]).
  destruct (others_apart s Ms X i m k K Hi Hm Hk Ha) as [Hqm Hqa].
  pose proof (alloc_page _ _ _ _ _ (ko_pool _ _ _ K) A) as Hq.
  assert (attached s3 m k) as Ha3 by (unfold attached, alloc_of; rewrite D1; exact Ha).
  assert (forall c, load s3 c = load s1 c) as Hld by (intros c; unfold load; rewrite Ebt; reflexivity).
  assert (length (X m k) = S (length xs)) as Hlen by (rewrite Hperm; reflexivity).
  pose proof (ps_nodup _ _ _ _ _ (ao_state _ _ _ _ _ A)) as Hnd. rewrite Hperm in Hnd.
  apply NoDup_cons in Hnd as [Hxs _].
  pose proof (ps_range _ _ _ _ _ (ao_state _ _ _ _ _ A) x Hx) as Hxr.
  assert (forall c, ~ in_page (page_of s m k) c -> load s3 c = load s c) as Hout.
  { intros c Hc. rewrite Hld. apply Hb'. intros Hl ->. apply Hc.
    pose proof (header_inside size (base_of s m k) x Hs Hl Hxr).
    assert (0 < real_slice_size size) by (unfold real_slice_size; clear -Hs; by_class Hs; lia).
    unfold in_page, base_of, SIZEOF_PTR in *. lia. }
  destruct (kmm_update s s3 Ms X i m k xs (page_of s m k) K Hi Hm Hk) as (K3 & Hatt & Hpg); try assumption.
  { rewrite Ep. apply (ko_pool _ _ _ K). }
  { intros c. rewrite Hld. apply Hby'. }
  { rewrite Ep. apply keeps_refl. }
  { intros _. split; [|exact Epg]. destruct A as [A1 A2 A3 A4 A5]. fold size.
    split; rewrite ?Epg, ?Ep; unfold alloc_of; rewrite ?D1, ?D2, ?D3; try assumption.
    - unfold alloc_of in A4. rewrite A4, Hlen.
      replace (Z.of_nat (S (length xs)) - 1) with (Z.of_nat (length xs)) by lia. apply u8_small.
      assert (Z.of_nat (S (length xs)) <= 240); [|unfold in_u8; lia].
      rewrite <- Hlen. apply (page_state_length _ _ _ _ _ Hs A5).
    - unfold base_of. rewrite Epg. apply (page_state_ext _ _ _ _ _ _ S'). intros _ y _. apply Hld. }
  exists k, x, s3, (put X m k xs). split; [unfold base_of; rewrite Epg; exact Ealloc|]. split; [exact K3|].
  apply served_intro; try assumption; rewrite ?Epg; try assumption.
  - intros j m' k' Hj Hm' Hk' Hn Ha'. split; [apply (Hpg j); assumption|apply (Hqa j); assumption].
  - intros _. split; [exact Hperm|]. split; [reflexivity|]. intros y c _ a Hc. rewrite Hld. apply Hb'.
    intros Hl. apply (slice_not_header size (base_of s m k) y x c Hs Hl). exact Hc.
  - intros Hna. contradiction.
Qed.

(** ** A new page of linked slices *)

Lemma store_bytes a v s : store a v s = set_bytes (<[a := u8 v]> (bytes s)) s.
Proof. reflexivity. Qed.

(** States that differ in the bytes of the page at [b] at most. *)
Definition in_bytes (b : Z) s s' : Prop :=
  s' = set_bytes (bytes s') s
  /\ (forall c, ~ b <= c < b + PAGE_FRAME_SIZE -> load s' c = load s c)
  /\ ((forall a, in_u8 (load s a)) -> forall a, in_u8 (load s' a)).

Lemma in_bytes_refl b s : in_bytes b s s.
Proof. split; [destruct s; reflexivity|]. split; [reflexivity|auto]. Qed.

Lemma in_bytes_store b s s' a v :
  in_bytes b s s' -> b <= a < b + PAGE_FRAME_SIZE -> in_bytes b s (store a v s').
Proof.
  intros (E & Ho & Hb) Ha. split; [|split].
  - rewrite E. reflexivity.
  - intros c Hc. rewrite load_store, decide_False by (intros ->; auto). apply Ho, Hc.
  - intros Hall c. rewrite load_store. case_decide; [apply u8_range|apply Hb, Hall].
Qed.

(** The numbers in front of the slices, before the last one is overwritten. *)
Lemma header_loop b size s0 :
  size ∈ slice_sizes -> is_linked_mode size = true -> 0 < b -> b + 2 * PAGE_FRAME_SIZE <= 2 ^ 32 ->
  exists s', while 256
     (fun '(addr, _, _, _) => u32 (addr + real_slice_size size) <=? u32 (b + PAGE_FRAME_SIZE))
     (fun '(addr, i, _, s) => (u32 (addr + real_slice_size size), u8 (i + 1), addr, store addr (i + 1) s))
     (u32 (b + SIZEOF_PTR), 0, 0, s0)
   = Some (header b size (slice_count size), slice_count size, header b size (slice_count size - 1), s')
   /\ in_bytes b s0 s'
   /\ forall x, 0 <= x < slice_count size -> load s' (header b size x) = x + 1.
Proof.
  intros Hs Hl Hb0 Hb. destruct (slice_count_bounds size Hs) as [Hn Hf]. rewrite Hl in Hf.
  set (n := slice_count size) in *.
  assert (17 <= real_slice_size size <= 257) as Hr by (unfold real_slice_size; clear -Hs Hl; by_class Hs; lia || discriminate Hl).
  assert (PAGE_FRAME_SIZE < SIZEOF_PTR + (n + 1) * real_slice_size size) as Hfull
    by (unfold n; clear -Hs Hl; by_class Hs; first [discriminate Hl|vm_compute; reflexivity]).
  assert (forall j, header b size (j + 1) = header b size j + real_slice_size size) as HS
    by (intros j; unfold header; lia).
  assert (forall x y, header b size x = header b size y -> x = y) as Hinj.
  { intros x y. apply header_inj. unfold real_slice_size in Hr. lia. }
  assert (forall j, 0 <= j <= n -> b + SIZEOF_PTR <= header b size j
            /\ header b size j <= b + PAGE_FRAME_SIZE /\ (j < n -> header b size j < b + PAGE_FRAME_SIZE)) as Hrange.
  { intros j Hj. unfold header, SIZEOF_PTR, PAGE_FRAME_SIZE in *. nia. }
  destruct (while_total
    (fun '(addr, i, last, s) => addr = header b size i /\ 0 <= i <= n
       /\ last = (if i =? 0 then 0 else header b size (i - 1)) /\ in_bytes b s0 s
       /\ forall x, 0 <= x < i -> load s (header b size x) = x + 1)
    (fun '(_, i, _, _) => n - i) 256
    (fun '(addr, _, _, _) => u32 (addr + real_slice_size size) <=? u32 (b + PAGE_FRAME_SIZE))
    (fun '(addr, i, _, s) => (u32 (addr + real_slice_size size), u8 (i + 1), addr, store addr (i + 1) s))
    (u32 (b + SIZEOF_PTR), 0, 0, s0)) as ([[[addr i] last] s'] & E & (I1 & I2 & I3 & I4 & I5) & Hc).
  - split; [unfold header; rewrite u32_small by (unfold in_u32, SIZEOF_PTR, PAGE_FRAME_SIZE in *; lia); lia|].
    split; [lia|]. split; [reflexivity|]. split; [apply in_bytes_refl|lia].
  - intros [[[addr i] last] s] (-> & Hi & -> & Hin & Hld) Hc. destruct (Hrange i Hi) as (R1 & R2 & _).
    rewrite (u32_small (b + PAGE_FRAME_SIZE)) in Hc by (unfold in_u32, PAGE_FRAME_SIZE in *; lia).
    rewrite (u32_small (header b size i + real_slice_size size)) in Hc |- *
      by (unfold in_u32, SIZEOF_PTR, PAGE_FRAME_SIZE in *; lia). reflect_bools.
    assert (i < n) as Hlt.
    { destruct (Z.lt_ge_cases i n); [assumption|]. assert (i = n) as -> by lia.
      unfold header in Hc. unfold PAGE_FRAME_SIZE, SIZEOF_PTR in *. lia. }
    rewrite (u8_small (i + 1)) by (unfold in_u8; lia). split; [|lia].
    split; [rewrite HS; reflexivity|]. split; [lia|].
    split; [rewrite (proj2 (Z.eqb_neq (i + 1) 0)) by lia; f_equal; lia|].
    split; [apply in_bytes_store; [exact Hin|]; destruct (Hrange i Hi) as (A & _ & B); specialize (B Hlt);
            unfold SIZEOF_PTR in A; lia|].
    intros x Hx. rewrite load_store. case_decide as Ex.
    + apply Hinj in Ex. subst x. apply u8_small. unfold in_u8. lia.
    + apply Hld. destruct (Z.eq_dec x i) as [->|]; [contradiction|lia].
  - intros [[[addr i] last] s] (_ & Hi & _). lia.
  - lia.
  - rewrite I1 in Hc. destruct (Hrange i I2) as (R1 & R2 & _).
    rewrite (u32_small (b + PAGE_FRAME_SIZE)) in Hc by (unfold in_u32, PAGE_FRAME_SIZE in *; lia).
    rewrite (u32_small (header b size i + real_slice_size size)) in Hc
      by (unfold in_u32, SIZEOF_PTR, PAGE_FRAME_SIZE in *; lia). reflect_bools.
    assert (i = n) as ->.
    { destruct (Z.eq_dec i n); [assumption|]. destruct (Hrange (i + 1) ltac:(lia)) as (_ & R3 & _).
      rewrite HS in R3. lia. }
    rewrite (proj2 (Z.eqb_neq n 0)) in I3 by lia. subst addr last. exists s'. auto.
Qed.

Lemma seq_slice_chain rd b size n j :
  (forall x, j <= x < j + Z.of_nat n -> rd (header b size x) = if x =? j + Z.of_nat n - 1 then 0xFF else x + 1) ->
  slice_chain rd b size (if Z.of_nat n =? 0 then 0xFF else j) (seqZ j (Z.of_nat n)).
Proof.
  revert j. induction n as [|n IH]; intros j Hrd; [reflexivity|].
  rewrite (proj2 (Z.eqb_neq _ 0)) by lia. rewrite seqZ_cons by lia. split; [reflexivity|].
  rewrite Hrd by lia. replace (Z.pred (Z.of_nat (S n))) with (Z.of_nat n) by lia.
  replace (if j =? j + Z.of_nat (S n) - 1 then 0xFF else j + 1)
    with (if Z.of_nat n =? 0 then 0xFF else Z.succ j).
  - apply IH. intros x Hx. rewrite Hrd by lia.
    replace (Z.succ j + Z.of_nat n - 1) with (j + Z.of_nat (S n) - 1) by lia. reflexivity.
  - destruct (Z.eqb_spec (Z.of_nat n) 0), (Z.eqb_spec j (j + Z.of_nat (S n) - 1)); lia.
Qed.

Lemma init_linked_page_ok s m k size :
  size ∈ slice_sizes -> is_linked_mode size = true -> page_addr (page_of s m k) ->
  exists s', init_linked_page m k size s = Some s' /\ in_bytes (base_of s m k) s s'
    /\ page_state size (base_of s m k) (load s') 0 (seqZ 0 (slice_count size)).
Proof.
  intros Hs Hl Hq. destruct (page_base _ Hq) as [Eb Hb]. unfold init_linked_page. fold (page_of s m k).
  rewrite Eb. change (page_of s m k + PAGE_OFFSET) with (base_of s m k) in *. set (b := base_of s m k) in *.
  assert (0 < b) as Hb0 by (unfold b, base_of, PAGE_OFFSET; destruct Hq; lia).
  set (s0 := store32 b (allocator_ptr m k) s).
  assert (in_bytes b s s0) as H32.
  { unfold s0, store32. repeat (apply in_bytes_store; [|unfold PAGE_FRAME_SIZE; lia]). apply in_bytes_refl. }
  clearbody s0. destruct (header_loop b size s0 Hs Hl Hb0 Hb) as (s1 & -> & Hin & Hld). simpl.
  destruct (slice_count_bounds size Hs) as [Hn _]. set (n := slice_count size) in *.
  pose proof (header_inside size b (n - 1) Hs Hl ltac:(unfold n; lia)) as Hh.
  assert (0 < real_slice_size size) as Hr by (unfold real_slice_size; clear -Hs; by_class Hs; lia).
  exists (store (header b size (n - 1)) 255 s1). split; [reflexivity|]. split.
  - apply in_bytes_store; [|unfold SIZEOF_PTR in Hh; lia].
    destruct H32 as (E1 & O1 & B1), Hin as (E2 & O2 & B2). split; [rewrite E2, E1; reflexivity|].
    split; [|auto]. intros c Hc. rewrite O2, O1 by exact Hc. reflexivity.
  - split.
    + apply NoDup_seqZ.
    + intros x Hx. apply elem_of_seqZ in Hx. unfold n in *. lia.
    + lia.
    + intros _. split.
      * pose proof (seq_slice_chain (load (store (header b size (n - 1)) 255 s1)) b size (Z.to_nat n) 0) as C.
        rewrite Z2Nat.id in C by lia. rewrite (proj2 (Z.eqb_neq n 0)) in C by lia. apply C.
        intros x Hx. rewrite load_store. destruct (Z.eqb_spec x (0 + n - 1)) as [->|Hne].
        { rewrite decide_True by (f_equal; lia). reflexivity. }
        rewrite decide_False; [apply Hld; lia|]. intros E. apply Hne.
        apply header_inj in E; [lia|]. unfold real_slice_size in Hr. clear -Hs. by_class Hs; lia.
      * intros x Hx Hn'. destruct Hn'. apply elem_of_seqZ. lia.
    + congruence.
Qed.

(** ** Starting a free allocator *)

Lemma upd_upd {A} `{Inhabited A} i (f g : A -> A) (m : gmap Z A) : upd i f (upd i g m) = upd i (fun a => f (g a)) m.
Proof.
  apply map_eq. intros j. unfold upd. destruct (Z.eq_dec i j) as [->|Hne].
  - rewrite !lookup_insert_eq. f_equal. rewrite lookup_total_insert_eq. reflexivity.
  - rewrite !lookup_insert_ne by exact Hne. reflexivity.
Qed.

Lemma upd_ext {A} `{Inhabited A} i (f g : A -> A) (m : gmap Z A) : f (m !!! i) = g (m !!! i) -> upd i f m = upd i g m.
Proof. unfold upd. intros ->. reflexivity. Qed.

Lemma upd_manager_twice m f g s : upd_manager m f (upd_manager m g s) = upd_manager m (fun M => f (g M)) s.
Proof. unfold upd_manager. cbn [alloc_ms managers bytes pool]. rewrite upd_upd. reflexivity. Qed.

Lemma upd_alloc_twice k f g M : upd_alloc k f (upd_alloc k g M) = upd_alloc k (fun a => f (g a)) M.
Proof. unfold upd_alloc. cbn [allocs slice_size mg_free mg_p_full mg_full mg_next]. rewrite upd_upd. reflexivity. Qed.

(** The manager after its first free allocator got its data from [f] and served
    a slice. *)
Lemma manager_start M X X' F Q U k f :
  mlists M (k :: F) Q U -> (forall j, 0 <= j < END_FLAG -> sorted_ok M X (k :: F) Q U j) ->
  0 <= k < END_FLAG -> (forall j, j <> k -> X' j = X j) -> X' k <> [] ->
  (forall a, next_allocator (f a) = next_allocator a /\ prev_allocator (f a) = prev_allocator a) ->
  target_page (f (allocs M !!! k)) <> 0 ->
  let M3 := upd_alloc k dec_avai (free_to_p_full k (upd_alloc k f M)) in
  lists_ok M3 X' /\ same_but k M M3
  /\ target_page (allocs M3 !!! k) = target_page (f (allocs M !!! k))
  /\ first_avai (allocs M3 !!! k) = first_avai (f (allocs M !!! k))
  /\ avai_num (allocs M3 !!! k) = u8 (avai_num (f (allocs M !!! k)) - 1).
Proof.
  intros L HS Hk HX Hne Hf Ht. set (M1 := upd_alloc k f M). intros M3.
  assert (mlists M1 (k :: F) Q U) as L1 by (apply mlists_upd_data; [exact Hf|exact L]).
  assert (allocs M1 !!! k = f (allocs M !!! k)) as E1
    by (unfold M1; rewrite allocs_upd; apply decide_True; reflexivity).
  destruct (free_to_p_full_lists M1 k F Q U L1) as [L2 D2]. fold M1 in M3.
  set (M2 := free_to_p_full k M1) in *. clearbody M2.
  assert (same_but k M M3) as SB.
  { apply (same_but_trans _ _ M1); [apply same_but_upd|]. apply (same_but_trans _ _ M2);
      [apply same_but_data, D2|apply same_but_upd]. }
  assert (allocs M3 !!! k = dec_avai (allocs M2 !!! k)) as E3
    by (unfold M3; rewrite allocs_upd; apply decide_True; reflexivity).
  destruct (proj2 (proj2 D2) k) as (T1 & T2 & T3). rewrite E1 in T1, T2, T3.
  rewrite E3. unfold dec_avai. cbn [set_avai target_page first_avai avai_num]. rewrite T1, T2, T3.
  split; [|split; [exact SB|repeat split; reflexivity]].
  pose proof (ml_nodup _ _ _ _ L) as Hnd. cbn [app] in Hnd. apply NoDup_cons in Hnd as [Hn _].
  rewrite !not_elem_of_app in Hn. destruct Hn as (NF & NQ & NU).
  exists F, (k :: Q), U. split.
  { apply mlists_upd_data; [intros []; split; reflexivity|exact L2]. }
  apply (sorted_update M M3 X X' (k :: F) Q U F (k :: Q) U k HS).
  - intros j Hjk. destruct (proj2 (proj2 SB) j Hjk) as (-> & _). rewrite HX by exact Hjk.
    rewrite !elem_of_cons. tauto.
  - unfold sorted_ok. rewrite E3. unfold dec_avai. cbn [set_avai target_page]. rewrite T3.
    rewrite elem_of_cons. tauto.
Qed.

(** An allocator as [attach_page] leaves it. *)
Definition attached_data (n t : Z) (a : page_slice_allocator) : page_slice_allocator :=
  Allocator (prev_allocator a) (next_allocator a) (first_avai a) n t.

Lemma slice_count_linked size :
  is_linked_mode size = true -> slice_count size = (PAGE_FRAME_SIZE - SIZEOF_PTR) / real_slice_size size.
Proof. unfold slice_count. intros ->. reflexivity. Qed.

Lemma slice_count_bitmap size : is_linked_mode size = false -> slice_count size = PAGE_FRAME_SIZE / size.
Proof. unfold slice_count. intros ->. reflexivity. Qed.

(** The pool after a frame [q] was taken and given an owner. *)
Lemma take_frame (p : P) ptr :
  fs_ok p -> in_u32 ptr -> fs_frame_alloc 1 p <> Some (0, p) ->
  exists q p1, let f := fs_frame_at p1 q in let p2 := fs_set_allocator f ptr p1 in
    fs_frame_alloc 1 p = Some (f, p1) /\ fs_ok p2 /\ ~ fs_single p q /\ keeps p p2 q
    /\ fs_single p2 q /\ fs_frame_at p2 q = f /\ fs_physic_addr p2 f = q /\ fs_allocator p2 f = ptr.
Proof.
  intros Hok Hptr Hne. destruct (fs_frame_alloc_ok p Hok) as (f & p1 & E & [[-> ->]|(q & Hok1 & Ef & Hf & Hs & Hg)]).
  { contradiction. }
  exists q, p1. cbv zeta. rewrite Ef. assert (fs_single p1 q) as Hq by (apply Hg; auto).
  destruct (fs_page p1 q Hok1 Hq) as (_ & _ & Epa). rewrite Ef in Epa.
  destruct (fs_set_allocator_ok p1 q ptr Hok1 Hq Hptr) as (Hok2 & Hs2 & _ & Hx & Ho & Hoo). rewrite Ef in *.
  split; [exact E|]. split; [exact Hok2|]. split; [exact Hf|]. split.
  - intros r Hr Hrq. destruct (Hx (fs_frame_at p r)) as [X1 _], (Hx r) as [_ X2].
    destruct (Hs (fs_frame_at p r)) as (S1 & _ & S3), (Hs r) as (_ & S2 & _).
    split; [apply Hs2, Hg; auto|]. split; [congruence|]. split; [congruence|].
    rewrite <- S2, Hoo by (try apply Hg; auto). rewrite S2. exact S3.
  - split; [apply Hs2, Hq|]. destruct (Hx q) as [_ ->], (Hx f) as [-> _]. auto.
Qed.

Lemma attach_page_ok s m k size :
  fs_ok (pool s) -> (forall a, in_u8 (load s a)) -> size ∈ slice_sizes ->
  page_addr (m - PAGE_OFFSET) -> 0 <= k < END_FLAG -> fs_frame_alloc 1 (pool s) <> Some (0, pool s) ->
  exists q s', let t := fs_frame_at (pool s') q + PAGE_OFFSET in
    attach_page m k size (mode_of size) s = Some s'
    /\ fs_ok (pool s') /\ ~ fs_single (pool s) q /\ keeps (pool s) (pool s') q
    /\ fs_single (pool s') q /\ fs_allocator (pool s') (fs_frame_at (pool s') q) = allocator_ptr m k
    /\ alloc_ms s' = alloc_ms s
    /\ managers s' = upd m (upd_alloc k (attached_data (slice_count size) t)) (managers s)
    /\ page_of s' m k = q /\ t <> 0
    /\ (forall c, ~ in_page q c -> load s' c = load s c) /\ (forall a, in_u8 (load s' a))
    /\ (is_linked_mode size = true -> page_state size (q + PAGE_OFFSET) (load s') 0 (seqZ 0 (slice_count size))).
Proof.
  intros Hok Hby Hs Hm Hk Hne. destruct (allocator_ptr_range m k Hm Hk) as (_ & Hptr & _).
  destruct (take_frame (pool s) (allocator_ptr m k) Hok Hptr Hne) as (q & p1 & E & Hok2 & Hf & Hkp & Hq & Hat & Hpa & Ho).
  set (f := fs_frame_at p1 q) in *. set (p2 := fs_set_allocator f (allocator_ptr m k) p1) in *.
  destruct (frame_back p2 q Hok2 Hq) as (B1 & B2 & B3). rewrite Hat in B1, B2, B3.
  destruct (slice_count_bounds size Hs) as [Hn _].
  set (n := slice_count size) in *. set (t := f + PAGE_OFFSET) in *.
  set (sA := upd_manager m (upd_alloc k (attached_data n t)) (set_pool p2 s)).
  assert (page_of sA m k = q) as Epg.
  { unfold page_of, target_addr, alloc_of, sA. rewrite managers_upd, decide_True, allocs_upd, decide_True by reflexivity.
    cbn [target_page attached_data pool upd_manager set_pool]. rewrite B1. exact Hpa. }
  destruct (is_linked_mode size) eqn:Hl.
  - assert (page_addr (page_of sA m k)) as Hqa by (rewrite Epg; apply (fs_page _ _ Hok2 Hq)).
    destruct (init_linked_page_ok sA m k size Hs Hl Hqa) as (s' & Ei & (Eb & Ho' & Hb') & Hps).
    assert (pool s' = p2 /\ alloc_ms s' = alloc_ms s /\ managers s' = managers sA) as (Ep & Em & Emg)
      by (rewrite Eb; repeat split; reflexivity).
    exists q, s'. rewrite Ep, Hat. cbv zeta. split.
    { unfold attach_page, alloc_one_page_virtual. rewrite E. cbn [mbind option_bind]. change (f + PAGE_OFFSET) with t.
      rewrite (mode_of_linked _ Hl), B2. cbn [pool set_pool]. rewrite B1. fold p2. rewrite !upd_manager_twice. rewrite <- (slice_count_linked _ Hl). fold n.
      rewrite (u8_small n) by (unfold in_u8; lia). rewrite <- Ei. f_equal. unfold sA, upd_manager. f_equal.
      apply upd_ext. rewrite !upd_alloc_twice. reflexivity. }
    split; [exact Hok2|]. split; [exact Hf|]. split; [exact Hkp|]. split; [exact Hq|]. split; [exact Ho|].
    split; [exact Em|]. split; [exact Emg|]. split.
    { rewrite <- Epg. unfold page_of, target_addr, alloc_of. rewrite Ep, Emg. reflexivity. }
    split; [exact B3|]. split; [|split; [apply Hb', Hby|]].
    + intros c Hc. rewrite Ho'; [reflexivity|]. unfold base_of. rewrite Epg. exact Hc.
    + intros _. unfold base_of in Hps. rewrite Epg in Hps. exact Hps.
  - exists q, sA. cbn [pool sA upd_manager set_pool]. rewrite Hat. cbv zeta. split.
    { unfold attach_page, alloc_one_page_virtual. rewrite E. cbn [mbind option_bind]. change (f + PAGE_OFFSET) with t.
      rewrite (mode_of_bitmap _ Hl), B2. cbn [pool set_pool]. rewrite B1. fold p2. rewrite !upd_manager_twice. rewrite <- (slice_count_bitmap _ Hl). fold n.
      rewrite (u8_small n) by (unfold in_u8; lia). f_equal. unfold sA, upd_manager. f_equal.
      apply upd_ext. rewrite !upd_alloc_twice. reflexivity. }
    do 9 (split; [assumption || reflexivity|]). split; [reflexivity|]. split; [exact Hby|discriminate].
Qed.

(** The first slice of a new page, and the free ones that are left. *)
Definition first_slice (size b : Z) s : Z * Z * kmm P :=
  if is_linked_mode size
  then (load s (header b size 0), header b size 0 + 1, store (header b size 0) 0xFF s)
  else (0x80, b, s).

Lemma first_slice_ok s s' q size v addr :
  size ∈ slice_sizes -> page_addr q ->
  (is_linked_mode size = true -> page_state size (q + PAGE_OFFSET) (load s) 0 (seqZ 0 (slice_count size))) ->
  (forall a, in_u8 (load s a)) -> first_slice size (q + PAGE_OFFSET) s = (v, addr, s') ->
  addr = slice_addr (q + PAGE_OFFSET) size 0
  /\ page_state size (q + PAGE_OFFSET) (load s') v (seqZ 1 (slice_count size - 1))
  /\ in_bytes (q + PAGE_OFFSET) s s'.
Proof.
  intros Hs Hq Hps Hby. destruct (slice_count_bounds size Hs) as [Hn _]. set (n := slice_count size) in *.
  unfold first_slice, slice_addr. set (b := q + PAGE_OFFSET) in *. destruct (is_linked_mode size) eqn:Hl.
  - intros [= <- <- <-]. split; [reflexivity|].
    pose proof (header_inside size b 0 Hs Hl ltac:(fold n; lia)) as Hh.
    assert (0 < real_slice_size size) as Hr by (unfold real_slice_size; clear -Hs; by_class Hs; lia).
    specialize (Hps eq_refl). rewrite seqZ_cons in Hps by lia.
    destruct (take_linked size b (load s) (load (store (header b size 0) 255 s)) 0 _ _ Hs Hl Hps) as (_ & S & _).
    + intros y. rewrite load_store. destruct (Z.eq_dec y 0) as [->|Hy]; [rewrite !decide_True by reflexivity; reflexivity|].
      rewrite !decide_False; [reflexivity|exact Hy|]. intros E. apply Hy.
      apply (header_inj b size); [unfold real_slice_size in Hr; clear -Hs; by_class Hs; lia|congruence].
    + exact Hby.
    + split; [exact S|]. apply in_bytes_store; [apply in_bytes_refl|unfold SIZEOF_PTR in Hh; lia].
  - intros [= <- <- <-]. split; [lia|]. split; [|apply in_bytes_refl].
    destruct (bitmap_counts size Hs Hl) as [_ Hc]. fold n in Hc.
    apply bitmap_state; [exact Hl|lia|apply NoDup_seqZ| |].
    + intros x Hx. apply elem_of_seqZ in Hx. fold n. lia.
    + fold n. intros x Hx. change 0x80 with (2 ^ 7). rewrite Z.pow2_bits_eqb by lia.
      destruct (Z.eqb_spec 7 (7 - x)) as [E|E].
      * rewrite bool_decide_eq_false_2; [reflexivity|]. rewrite elem_of_seqZ. lia.
      * rewrite bool_decide_eq_true_2; [reflexivity|]. apply elem_of_seqZ. lia.
Qed.

(** The manager after the first slice of a page is taken: [v] is its first free
    slice, and its allocator goes to the partly full list. *)
Definition first_taken (m k v : Z) s : kmm P :=
  upd_manager m (upd_alloc k dec_avai) (upd_manager m (free_to_p_full k) (upd_manager m (upd_alloc k (set_first v)) s)).

Lemma first_taken_fields m k v s (s' := first_taken m k v s) :
  managers s' !!! m = upd_alloc k dec_avai (free_to_p_full k (upd_alloc k (set_first v) (managers s !!! m)))
  /\ (forall m', m' <> m -> managers s' !!! m' = managers s !!! m')
  /\ pool s' = pool s /\ alloc_ms s' = alloc_ms s /\ forall c, load s' c = load s c.
Proof.
  unfold s', first_taken. split; [|split; [|repeat split; reflexivity]].
  - rewrite !managers_upd, !decide_True by reflexivity. reflexivity.
  - intros m' Hne. rewrite !managers_upd, !decide_False by auto. reflexivity.
Qed.

Lemma alloc_free_run s m size q v addr sA sB (k := mg_free (managers s !!! m)) :
  size ∈ slice_sizes -> target_page (alloc_of s m k) = 0 -> attach_page m k size (mode_of size) s = Some sA ->
  page_of sA m k = q -> page_addr q -> first_slice size (q + PAGE_OFFSET) sA = (v, addr, sB) ->
  alloc_free m size (mode_of size) s = Some (addr, first_taken m k v sB).
Proof.
  intros Hs HF Ea Epg Hq Ef. unfold alloc_free. fold k. rewrite HF. cbn [Z.eqb]. rewrite Ea. cbn [mbind option_bind].
  fold (page_of sA m k). rewrite Epg, (proj1 (page_base q Hq)). unfold first_slice, mode_of in *.
  destruct (slice_count_bounds size Hs) as [Hn _].
  destruct (is_linked_mode size) eqn:Hl; [|injection Ef as <- <- <-; reflexivity].
  pose proof (header_inside size (q + PAGE_OFFSET) 0 Hs Hl ltac:(lia)) as Hh.
  destruct (page_base q Hq) as [_ Hb2].
  assert (0 < real_slice_size size) by (unfold real_slice_size; clear -Hs; by_class Hs; lia).
  assert (0 < q) by apply Hq. unfold SIZEOF_PTR, PAGE_OFFSET, PAGE_FRAME_SIZE in Hh, Hb2.
  replace (u32 (q + PAGE_OFFSET + SIZEOF_PTR)) with (header (q + PAGE_OFFSET) size 0)
    by (rewrite u32_small; unfold header, in_u32, SIZEOF_PTR, PAGE_OFFSET in *; lia).
  rewrite (u32_small (_ + 1)) by (unfold in_u32, PAGE_OFFSET in *; lia).
  injection Ef as <- <- <-. reflexivity.
Qed.

Lemma alloc_free_ok s Ms X i m :
  kmm_ok s Ms X -> is_class i -> m ∈ Ms i -> mg_free (managers s !!! m) <> END_FLAG ->
  fs_frame_alloc 1 (pool s) <> Some (0, pool s) ->
  exists k x s' X', alloc_free m (slice_size_of i) (mode_of (slice_size_of i)) s
      = Some (slice_addr (base_of s' m k) (slice_size_of i) x, s')
    /\ kmm_ok s' Ms X' /\ served s Ms X s' Ms X' i m k x.
Proof.
  intros K Hi Hm Hp Hnx. pose proof (ko_manager _ _ _ K i m Hi Hm) as Mo.
  destruct (mo_lists _ _ _ _ Mo) as (F0 & Q & U & L & HS).
  pose proof (mlists_end _ _ _ _ L) as Hend. rewrite !not_elem_of_app in Hend.
  destruct (head_of_list _ _ _ (ml_free _ _ _ _ L) (proj1 Hend) Hp) as (F & ->).
  set (k := mg_free (managers s !!! m)) in *. set (size := slice_size_of i) in *.
  assert (0 <= k < END_FLAG) as Hk by (apply (ml_mem _ _ _ _ L); set_solver).
  destruct (HS k Hk) as (HF & _ & _). destruct HF as [HF _]. specialize (HF ltac:(left)).
  pose proof (is_class_size i Hi) as Hs. fold size in Hs.
  pose proof (manager_page _ _ _ _ _ K Hi Hm) as Hmp.
  destruct (attach_page_ok s m k size (ko_pool _ _ _ K) (ko_bytes _ _ _ K) Hs Hmp Hk Hnx)
    as (q & sA & Ea & Hok & Hfr & Hkp & Hsq & Ho & Ems & Emg & Epg & Ht & Hout & Hby & Hps). cbv zeta in *.
  set (t := fs_frame_at (pool sA) q + PAGE_OFFSET) in *. set (n := slice_count size) in *.
  destruct (fs_page _ _ Hok Hsq) as (Hq & _ & _).
  destruct (first_slice size (q + PAGE_OFFSET) sA) as [[v addr] sB] eqn:Ef.
  destruct (first_slice_ok sA sB q size v addr Hs Hq Hps Hby Ef) as (Eaddr & Sx & (EB & HoB & HbB)).
  set (f := fun a => set_first v (attached_data n t a)).
  set (sC := first_taken m k v sB).
  assert (managers sB = managers sA /\ pool sB = pool sA /\ alloc_ms sB = alloc_ms sA) as (MB & PB & AB)
    by (rewrite EB; repeat split; reflexivity).
  set (xs := seqZ 1 (n - 1)) in *. destruct (slice_count_bounds size Hs) as [Hn _]. fold n in Hn.
  pose proof (alloc_free_run s m size q v addr sA sB Hs HF Ea Epg Hq Ef : _ = Some (_, sC)) as Ealloc.
  destruct (manager_start (managers s !!! m) (X m) (put X m k xs m) F Q U k f L HS Hk) as (LO & SB & D1 & D2 & D3).
  { intros j Hj. apply put_ne. auto. }
  { rewrite put_eq. unfold xs. rewrite seqZ_cons by lia. discriminate. }
  { intros []. split; reflexivity. }
  { exact Ht. }
  destruct (first_taken_fields m k v sB) as (EM & Hmg & PC & AC & Hld). fold sC in EM, Hmg, PC, AC, Hld.
  rewrite PB in PC. rewrite AB, Ems in AC.
  rewrite MB, Emg, upd_lookup, decide_True, upd_alloc_twice in EM by reflexivity. fold f in EM.
  assert (forall m', m' <> m -> managers sC !!! m' = managers s !!! m') as Hmg'
    by (intros m' Hne'; rewrite Hmg by exact Hne'; rewrite MB, Emg, upd_lookup, decide_False by auto; reflexivity).
  clear Hmg. rename Hmg' into Hmg.
  rewrite <- EM in LO, SB, D1, D2, D3.
  clearbody sC.
  assert (page_of sC m k = q) as EpgC.
  { rewrite <- Epg. unfold page_of, target_addr. rewrite PC. unfold alloc_of. rewrite D1, Emg.
    rewrite upd_lookup, decide_True, allocs_upd, decide_True by reflexivity. reflexivity. }
  assert (attached sC m k) as HaC by (unfold attached, alloc_of; rewrite D1; exact Ht).
  assert (~ attached s m k) as Hna by (intros E; apply E; exact HF).
  assert (forall c, ~ in_page q c -> load sC c = load s c) as HoutC.
  { intros c Hc. rewrite Hld, HoB by exact Hc. apply Hout, Hc. }
  destruct (kmm_update s sC Ms X i m k xs q K Hi Hm Hk) as (KC & Hatt & Hpg); try assumption.
  { rewrite PC. exact Hok. }
  { intros c. rewrite Hld. apply HbB, Hby. }
  { rewrite PC. exact Hkp. }
  { intros j m' Hj Hm' E. apply Hfr. rewrite <- E. apply (mo_single _ _ _ _ (ko_manager _ _ _ K j m' Hj Hm')). }
  { intros j m' k' Hj Hm' Hk' _ Ha' E. apply Hfr. rewrite <- E.
    apply (ao_single _ _ _ _ _ (mo_alloc _ _ _ _ (ko_manager _ _ _ K j m' Hj Hm') k' Hk' Ha')). }
  { intros _. split; [|exact EpgC]. fold size. split; rewrite ?EpgC, ?PC; try assumption.
    - unfold alloc_of. rewrite D3. cbn [f set_first attached_data avai_num]. unfold xs. rewrite length_seqZ.
      rewrite Z2Nat.id by lia. apply u8_small. unfold in_u8. lia.
    - unfold alloc_of, base_of. rewrite D2, EpgC. cbn [f set_first first_avai].
      apply (page_state_ext _ _ _ _ _ _ Sx). intros _ y _. apply Hld. }
  exists k, 0, sC, (put X m k xs). split; [unfold base_of; rewrite EpgC, Ealloc, Eaddr; reflexivity|].
  split; [exact KC|]. apply served_intro; rewrite ?EpgC; try assumption; try contradiction.
  - fold size n. lia.
  - unfold xs. rewrite elem_of_seqZ. lia.
  - intros j m' k' Hj Hm' Hk' Hn' Ha'. split; [apply (Hpg j); assumption|]. intros E. apply Hfr. rewrite <- E.
    apply (ao_single _ _ _ _ _ (mo_alloc _ _ _ _ (ko_manager _ _ _ K j m' Hj Hm') k' Hk' Ha')).
  - intros _ y Hy. fold size n in Hy. unfold xs. rewrite elem_of_seqZ. lia.
Qed.

(** ** A new manager *)

(** The steps of [kmalloc_helper] and [init_kmm] that add a manager. *)
Definition add_manager (i : Z) s : option (Z * kmm P) :=
  '(m, s) ← new_manager i (alloc_ms s !!! i) s;
  Some (m, upd_manager m init_allocator_manager (set_alloc_ms i m s)).

Lemma same_keeps p p' q :
  fs_same p p' -> (forall r, fs_single p' r <-> fs_single p r \/ r = q) -> keeps p p' q.
Proof.
  intros Hs Hg r Hr Hne. destruct (Hs r) as (_ & R2 & _), (Hs (fs_frame_at p r)) as (F1 & _ & F3).
  split; [apply Hg; auto|]. auto.
Qed.

Lemma cons_ms_in Ms i m j x : x ∈ cons_ms Ms i m j <-> x ∈ Ms j \/ (j = i /\ x = m).
Proof.
  unfold cons_ms. case_decide as E; [rewrite elem_of_cons|]; [tauto|].
  split; [auto|]. intros [?|[? _]]; [assumption|contradiction].
Qed.

Section added.
Context s Ms X i q (p' : P) (K : kmm_ok s Ms X) (Hi : is_class i) (Hq : page_addr q).
Context (Hok : fs_ok p') (Hf : ~ fs_single (pool s) q) (Hsame : fs_same (pool s) p').
Context (Hg : forall r, fs_single p' r <-> fs_single (pool s) r \/ r = q).
Let m := q + PAGE_OFFSET.
Let M0 := Manager (u16 (slice_size_of i)) 0 END_FLAG END_FLAG (alloc_ms s !!! i) (allocs (managers s !!! m)).

(** The state with the page [q] as a manager in front of the list of its class. *)
Record added (s1 : kmm P) : Prop := {
  ad_manager : managers s1 !!! m = init_allocator_manager M0;
  ad_others m' : m' <> m -> managers s1 !!! m' = managers s !!! m';
  ad_pool : pool s1 = p';
  ad_ms : alloc_ms s1 = <[i := m]> (alloc_ms s);
  ad_load c : load s1 c = load s c
}.

Context s1 (AD : added s1).

Lemma added_apart j m' : is_class j -> m' ∈ Ms j -> m' <> m.
Proof.
  intros Hj Hm' ->. apply Hf. replace q with (m - PAGE_OFFSET) by (unfold m; lia).
  apply (mo_single _ _ _ _ (ko_manager _ _ _ K j m Hj Hm')).
Qed.

Lemma added_positive : m <> 0.
Proof. unfold m, PAGE_OFFSET. destruct Hq. lia. Qed.

Lemma added_empty k : 0 <= k < END_FLAG -> target_page (alloc_of s1 m k) = 0.
Proof. intros Hk. unfold alloc_of. rewrite (ad_manager _ AD), init_allocs by exact Hk. reflexivity. Qed.

Lemma added_attached j m' k : is_class j -> m' ∈ Ms j -> attached s1 m' k <-> attached s m' k.
Proof. intros Hj Hm'. unfold attached, alloc_of. rewrite (ad_others _ AD) by (apply (added_apart j); assumption). reflexivity. Qed.

Lemma added_old j m' k : is_class j -> m' ∈ Ms j -> 0 <= k < END_FLAG -> attached s m' k ->
  page_of s1 m' k = page_of s m' k /\ alloc_ok s1 (slice_size_of j) m' k (X m' k).
Proof.
  intros Hj Hm' Hk Ha. pose proof (mo_alloc _ _ _ _ (ko_manager _ _ _ K j m' Hj Hm') k Hk Ha) as A.
  apply (alloc_ok_frame s s1 _ m' k _ q); try assumption;
    try (unfold alloc_of; rewrite (ad_others _ AD) by (apply (added_apart j); assumption); reflexivity).
  - apply (ko_pool _ _ _ K).
  - rewrite (ad_pool _ AD). exact (same_keeps _ _ _ Hsame Hg).
  - intros Eq2. apply Hf. rewrite <- Eq2. apply (ao_single _ _ _ _ _ A).
  - intros c _. apply (ad_load _ AD).
  - apply is_class_size, Hj.
Qed.

Lemma added_fields :
  let M := managers s1 !!! m in
  slice_size M = slice_size_of i /\ mg_free M = 0 /\ mg_p_full M = END_FLAG /\ mg_next M = alloc_ms s !!! i /\ lists_ok M (X m).
Proof.
  cbv zeta. pose proof added_empty as Ht. unfold alloc_of in Ht. rewrite (ad_manager _ AD) in *.
  destruct (init_allocator_manager_fields M0) as (I1 & I2 & I3 & I4 & I5). pose proof (init_lists M0 eq_refl eq_refl eq_refl) as ML.
  unfold M0 in I1, I2, I4, I5. cbn [mg_free mg_p_full slice_size mg_next] in I1, I2, I4, I5. fold M0 in I1, I2, I4, I5.
  split; [rewrite I4; apply u16_small; unfold in_u16; pose proof (is_class_size i Hi) as Hs; clear -Hs; by_class Hs; lia|].
  split; [exact I1|]. split; [exact I2|]. split; [exact I5|].
  exists (seqZ 0 END_FLAG), [], []. split; [exact ML|]. intros k Hk. unfold sorted_ok.
  rewrite (Ht k Hk), elem_of_seqZ, elem_of_nil. split; [split; [reflexivity|lia]|]. tauto.
Qed.

Lemma added_chain j : is_class j -> manager_chain (managers s1) (alloc_ms s1 !!! j) (cons_ms Ms i m j).
Proof.
  intros Hj. pose proof (ko_chain _ _ _ K j Hj) as C. rewrite (ad_ms _ AD). unfold cons_ms.
  assert (manager_chain (managers s1) (alloc_ms s !!! j) (Ms j)) as C1.
  { apply (manager_chain_ext _ _ _ _ C). intros x Hx. rewrite (ad_others _ AD) by (apply (added_apart j); assumption). reflexivity. }
  case_decide as Eji.
  - subst j. rewrite (lookup_total_insert_eq (M := gmap Z)). simpl. destruct added_fields as (_ & _ & _ & -> & _).
    split; [reflexivity|]. split; [exact added_positive|exact C1].
  - rewrite (lookup_total_insert_ne (M := gmap Z)) by auto. exact C1.
Qed.

Lemma added_manager j x : is_class j -> x ∈ cons_ms Ms i m j -> manager_ok s1 (slice_size_of j) x (X x).
Proof.
  intros Hj Hx. apply cons_ms_in in Hx. destruct Hx as [Hx|[-> ->]].
  - pose proof (ko_manager _ _ _ K j x Hj Hx) as [M1 M2 M3 M4]. pose proof (added_apart j x Hj Hx) as Hxm. split.
    + rewrite (ad_pool _ AD). apply Hg. auto.
    + rewrite (ad_others _ AD) by exact Hxm. exact M2.
    + rewrite (ad_others _ AD) by exact Hxm. exact M3.
    + intros k Hk Ha. apply (added_old j); try assumption. apply (added_attached j); assumption.
  - destruct added_fields as (Es & _ & _ & _ & L). split; [|exact Es|exact L|].
    + rewrite (ad_pool _ AD). apply Hg. right. unfold m. lia.
    + intros k Hk Ha. destruct (Ha (added_empty k Hk)).
Qed.

Lemma added_ok : kmm_ok s1 (cons_ms Ms i m) X.
Proof.
  split; [rewrite (ad_pool _ AD); exact Hok|intros a; rewrite (ad_load _ AD); apply (ko_bytes _ _ _ K)|exact added_chain| | |exact added_manager|].
  - intros j Hj. unfold cons_ms. case_decide; [|apply (ko_nodup _ _ _ K j Hj)].
    apply NoDup_cons. split; [intros Hin; exact (added_apart j m Hj Hin eq_refl)|apply (ko_nodup _ _ _ K j Hj)].
  - intros j1 j2 x H1 H2 X1 X2. apply cons_ms_in in X1, X2.
    destruct X1 as [X1|[-> ->]], X2 as [X2|[-> E2]]; try reflexivity.
    + apply (ko_apart _ _ _ K j1 j2 x); assumption.
    + subst x. destruct (added_apart j1 m H1 X1 eq_refl).
    + destruct (added_apart j2 m H2 X2 eq_refl).
  - intros j1 j2 x y k H1 H2 X1 X2 Hk Ha. apply cons_ms_in in X1.
    destruct X1 as [X1|[-> ->]]; [|destruct (Ha (added_empty k Hk))]. apply (added_attached j1) in Ha; [|assumption..].
    destruct (added_old j1 x k H1 X1 Hk Ha) as [-> _]. apply cons_ms_in in X2.
    destruct X2 as [X2|[-> ->]]; [apply (ko_pages _ _ _ K j1 j2); assumption|].
    intros E. apply Hf. replace q with (m - PAGE_OFFSET) by (unfold m; lia). rewrite <- E.
    apply (ao_single _ _ _ _ _ (mo_alloc _ _ _ _ (ko_manager _ _ _ K j1 x H1 X1) k Hk Ha)).
Qed.

Lemma added_slots j m' k x : slot s1 (cons_ms Ms i m) X j m' k x <-> slot s Ms X j m' k x.
Proof.
  unfold slot. rewrite cons_ms_in. split.
  - intros (Hj & [Hx|[-> ->]] & Hk & Ha & Hy); [|destruct (Ha (added_empty k Hk))].
    apply (added_attached j) in Ha; [|assumption..]. auto.
  - intros (Hj & Hx & Hk & Ha & Hy). apply (added_attached j) in Ha; [|assumption..]. auto 10.
Qed.
End added.

Lemma add_manager_ok s Ms X i q p' :
  kmm_ok s Ms X -> is_class i -> fs_physic_alloc PAGE_FRAME_SIZE (pool s) = Some (q, p') -> q <> 0 ->
  exists m s1, add_manager i s = Some (m, s1) /\ m <> 0 /\ pool s1 = p'
    /\ kmm_ok s1 (cons_ms Ms i m) X
    /\ mg_p_full (managers s1 !!! m) = END_FLAG /\ mg_free (managers s1 !!! m) = 0
    /\ (forall j m' k x, slot s1 (cons_ms Ms i m) X j m' k x <-> slot s Ms X j m' k x)
    /\ (forall j m' k x, slot s Ms X j m' k x -> base_of s1 m' k = base_of s m' k)
    /\ (forall c, load s1 c = load s c).
Proof.
  intros K Hi Eq Hq0.
  destruct (fs_physic_alloc_ok (pool s) (ko_pool _ _ _ K)) as (q' & p1 & E & [[-> _]|(Hok & Hf & Hsame & Hg)]);
    rewrite Eq in E; injection E as Eq' Ep'; [contradiction|]. subst q' p1.
  destruct (fs_page p' q Hok ltac:(apply Hg; auto)) as (Hq & _ & _). destruct (page_base q Hq) as [Eb _].
  exists (q + PAGE_OFFSET). eexists. split.
  { unfold add_manager, new_manager, alloc_one_page_mem_virtual. rewrite Eq. cbn [mbind option_bind]. rewrite Eb. reflexivity. }
  match goal with |- _ /\ pool ?x = _ /\ _ => assert (added s i q p' x) as AD end.
  { split; try reflexivity.
    - rewrite !managers_upd, !decide_True by reflexivity. change (managers (set_alloc_ms ?a ?b ?x)) with (managers x).
      rewrite !managers_upd, !decide_True by reflexivity. reflexivity.
    - intros m' Hne. rewrite managers_upd, decide_False by auto. change (managers (set_alloc_ms ?a ?b ?x)) with (managers x).
      rewrite !managers_upd, !decide_False by auto. reflexivity. }
  match type of AD with added _ _ _ _ ?x => generalize dependent x end. intros s1 AD.
  split; [exact (added_positive q Hq)|]. split; [exact (ad_pool _ _ _ _ _ AD)|].
  split; [exact (added_ok s Ms X i q p' K Hi Hq Hok Hf Hsame Hg s1 AD)|].
  destruct (added_fields s X i q p' Hi s1 AD) as (_ & F2 & F3 & _). split; [exact F3|]. split; [exact F2|].
  split; [exact (added_slots s Ms X i q p' K Hf s1 AD)|]. split; [|exact (ad_load _ _ _ _ _ AD)].
  intros j x k y (Hj & Hx & Hk & Ha & Hy). unfold base_of.
  f_equal. eapply (added_old s Ms X i q p'); eassumption.
Qed.

(** ** [kmalloc_helper] *)

Lemma served_after s0 Ms0 s Ms X s' Ms' X' i m k x :
  (forall j m' k' x', slot s Ms X j m' k' x' <-> slot s0 Ms0 X j m' k' x') ->
  (forall j m' k' x', slot s0 Ms0 X j m' k' x' -> base_of s m' k' = base_of s0 m' k') ->
  (forall c, load s c = load s0 c) ->
  served s Ms X s' Ms' X' i m k x -> served s0 Ms0 X s' Ms' X' i m k x.
Proof.
  intros Hs Hb Hl [S1 S2 S3 S4 S5]. split.
  - exact S1.
  - rewrite <- Hs. exact S2.
  - intros j m' k' x'. rewrite S3, Hs. reflexivity.
  - intros j m' k' x' Hsl. rewrite <- (Hb _ _ _ _ Hsl). apply (S4 j m' k' x'), Hs, Hsl.
  - intros j m' k' x' c Hsl a Hc. rewrite <- Hl. apply (S5 j m' k' x' c); [apply Hs, Hsl|].
    rewrite (Hb _ _ _ _ Hsl). exact Hc.
Qed.

Definition helper_result fuel m i s Ms X : Prop :=
  exists mm k x s' Ms' X',
    kmalloc_helper fuel m i (mode_of (slice_size_of i)) s
      = Some (slice_addr (base_of s' mm k) (slice_size_of i) x, s')
    /\ kmm_ok s' Ms' X' /\ served s Ms X s' Ms' X' i mm k x.

Lemma helper_manager fuel i m s Ms X :
  kmm_ok s Ms X -> is_class i -> m ∈ Ms i -> m <> 0 -> fs_frame_alloc 1 (pool s) <> Some (0, pool s) ->
  (mg_p_full (managers s !!! m) = END_FLAG -> mg_free (managers s !!! m) = END_FLAG ->
     helper_result fuel (mg_next (managers s !!! m)) i s Ms X) ->
  helper_result (S fuel) m i s Ms X.
Proof.
  intros K Hi Hm H0m Hx Hrec. unfold helper_result in *. cbn [kmalloc_helper].
  rewrite (proj2 (Z.eqb_neq m 0) H0m). cbn [mbind option_bind].
  rewrite (mo_size _ _ _ _ (ko_manager _ _ _ K i m Hi Hm)).
  destruct (Z.eqb_spec (mg_p_full (managers s !!! m)) END_FLAG) as [Ep|Ep]; cbn [negb].
  - destruct (Z.eqb_spec (mg_free (managers s !!! m)) END_FLAG) as [Ef|Ef]; cbn [negb]; [auto|].
    destruct (alloc_free_ok s Ms X i m K Hi Hm Ef Hx) as (k & x & s' & X' & E & K' & Sv).
    exists m, k, x, s', Ms, X'. auto.
  - destruct (alloc_p_full_ok s Ms X i m K Hi Hm Ep) as (k & x & s' & X' & E & K' & Sv).
    exists m, k, x, s', Ms, X'. auto.
Qed.

Lemma kmalloc_helper_ok fuel i s Ms X pre ms m :
  kmm_ok s Ms X -> is_class i -> ~ exhausted (pool s) -> Ms i = pre ++ ms ->
  manager_chain (managers s) m ms -> (length ms + 2 <= fuel)%nat ->
  helper_result fuel m i s Ms X.
Proof.
  intros K Hi Hx. revert fuel pre m. induction ms as [|y ms IH]; intros fuel pre m Hms Hc Hf.
  - simpl in Hc. subst m. destruct fuel as [|fuel]; [simpl in Hf; lia|].
    destruct (fs_physic_alloc_ok (pool s) (ko_pool _ _ _ K)) as (q & p' & Eq & _).
    assert (q <> 0) as Hq by (intros ->; apply Hx; right; exists 0, p'; auto).
    destruct (add_manager_ok s Ms X i q p' K Hi Eq Hq) as (m & s1 & Ea & Hm0 & Ep & K1 & Epf & Efr & Hsl & Hba & Hld).
    assert (m ∈ cons_ms Ms i m i) as Hin by (apply cons_ms_in; auto).
    destruct (alloc_free_ok s1 (cons_ms Ms i m) X i m K1 Hi Hin) as (k & x & s' & X' & E & K' & Sv).
    { rewrite Efr. discriminate. }
    { rewrite Ep. intros E. apply Hx. right. exists q, p'. auto. }
    exists m, k, x, s', (cons_ms Ms i m), X'. split; [|split; [exact K'|]].
    + cbn [kmalloc_helper Z.eqb]. unfold add_manager in Ea.
      destruct (new_manager i (alloc_ms s !!! i) s) as [[m1 s2]|]; [|discriminate Ea].
      cbn [mbind option_bind] in Ea |- *. injection Ea as Em Es. subst m1. rewrite Es, Epf, Efr.
      rewrite (mo_size _ _ _ _ (ko_manager _ _ _ K1 i m Hi Hin)). cbn. exact E.
    + apply (served_after s Ms s1 (cons_ms Ms i m)); assumption.
  - destruct Hc as (-> & Hy & Hc). destruct fuel as [|fuel]; [simpl in Hf; lia|].
    apply helper_manager; try assumption.
    + rewrite Hms. apply elem_of_app. right. left.
    + intros E. apply Hx. left. exact E.
    + intros _ _. apply (IH fuel (pre ++ [y])); [rewrite Hms, <- app_assoc; reflexivity|exact Hc|simpl in Hf; lia].
Qed.

(** ** Blocks do not overlap *)

Lemma slots_disjoint s Ms X i m k x j m' k' x' :
  kmm_ok s Ms X -> slot s Ms X i m k x -> slot s Ms X j m' k' x' ->
  (i = j /\ m = m' /\ k = k' /\ x = x')
  \/ apart (slice_addr (base_of s m k) (slice_size_of i) x) (slice_size_of i)
           (slice_addr (base_of s m' k') (slice_size_of j) x') (slice_size_of j).
Proof.
  intros K S1 S2.
  pose proof (slot_in_page s Ms X i m k x) as P1. pose proof (slot_in_page s Ms X j m' k' x') as P2.
  destruct S1 as (Hi & Hm & Hk & Ha & Hx & Hn), S2 as (Hj & Hm' & Hk' & Ha' & Hx' & Hn').
  destruct (decide (m = m' /\ k = k')) as [[-> ->]|Hne].
  - assert (i = j) as -> by (apply (ko_apart _ _ _ K i j m'); assumption).
    destruct (Z.lt_trichotomy x x') as [Hlt|[->|Hlt]]; [right; left|left; auto|right; right];
      apply slice_apart; auto using is_class_size.
  - right. pose proof (is_class_size i Hi) as Hsi. pose proof (is_class_size j Hj) as Hsj.
    assert (0 < slice_size_of i) by (clear -Hsi; by_class Hsi; lia).
    assert (0 < slice_size_of j) by (clear -Hsj; by_class Hsj; lia).
    destruct (slice_inside _ (base_of s m k) x Hsi Hx) as [I1 I2].
    destruct (slice_inside _ (base_of s m' k') x' Hsj Hx') as [I3 I4].
    pose proof (mo_alloc _ _ _ _ (ko_manager _ _ _ K i m Hi Hm) k Hk Ha) as A.
    pose proof (alloc_page _ _ _ _ _ (ko_pool _ _ _ K) A) as Q1.
    pose proof (mo_alloc _ _ _ _ (ko_manager _ _ _ K j m' Hj Hm') k' Hk' Ha') as A'.
    pose proof (alloc_page _ _ _ _ _ (ko_pool _ _ _ K) A') as Q2.
    assert (page_of s m k <> page_of s m' k') as Hp.
    { destruct (others_apart s Ms X j m' k' K Hj Hm' Hk' Ha') as [_ O]. apply (O i); try assumption.
      destruct (Z.eq_dec m m'), (Z.eq_dec k k'); tauto. }
    unfold apart, base_of in *. destruct Q1 as (_ & [a Ea] & _), Q2 as (_ & [b Eb] & _).
    rewrite Ea, Eb in *. unfold PAGE_FRAME_SIZE in *. lia.
Qed.

(** ** The size class of a request *)

Lemma size_class_ok b :
  0 <= b -> exists i, size_class b = Some i /\ 0 <= i <= PAGE_SLICE_LEVEL
    /\ (i < PAGE_SLICE_LEVEL <-> b <= 2048)
    /\ (i < PAGE_SLICE_LEVEL -> b <= slice_size_of i)
    /\ (forall j, 0 <= j < i -> slice_size_of j < b).
Proof.
  intros Hb. unfold PAGE_SLICE_LEVEL.
  destruct (while_total (fun i => 0 <= i <= 8 /\ forall j, 0 <= j < i -> slice_size_of j < b) (fun i => 8 - i) 8
    (fun i => (i <? PAGE_SLICE_LEVEL) && negb (b <=? slice_size_of i)) (fun i => i + 1) 0) as (i & E & (Hi & Hj) & Hc).
  - split; [lia|]. intros j Hj. lia.
  - intros i (Hi & Hj) Hc. unfold PAGE_SLICE_LEVEL in Hc. reflect_bools. split; [|lia]. split; [lia|].
    intros j Hr. destruct (Z.eq_dec j i) as [->|]; [lia|apply Hj; lia].
  - intros i (Hi & _). lia.
  - lia.
  - exists i. split; [exact E|]. split; [exact Hi|]. unfold PAGE_SLICE_LEVEL in Hc.
    assert (i < 8 -> b <= slice_size_of i) as Hle by (intros Hlt; reflect_bools; destruct Hc; reflect_bools; lia).
    split; [|auto]. split.
    + intros Hlt. specialize (Hle Hlt). pose proof (is_class_size i ltac:(unfold is_class, PAGE_SLICE_LEVEL; lia)) as Hs.
      apply slice_size_cases in Hs. lia.
    + intros Hb2. destruct (Z.eq_dec i 8) as [->|]; [|lia]. specialize (Hj 7 ltac:(lia)).
      change (slice_size_of 7) with 2048 in Hj. lia.
Qed.

Lemma class_mode i : is_class i -> (i <=? 4) = is_linked_mode (slice_size_of i).
Proof. intros Hi. apply is_class_cases in Hi. destruct Hi as [->|[->|[->|[->|[->|[->|[->| ->]]]]]]]; reflexivity. Qed.

(** ** Returning a slice *)

(** An allocator whose data [f] sets, and which one of the moves put elsewhere. *)
Lemma manager_moved M M' X X' F Q U F' Q' U' k f :
  (forall j, 0 <= j < END_FLAG -> sorted_ok M X F Q U j) ->
  same_data (upd_alloc k f M) M' -> mlists M' F' Q' U' -> (forall j, j <> k -> X' j = X j) ->
  (forall j, j <> k -> (j ∈ F' <-> j ∈ F) /\ (j ∈ Q' <-> j ∈ Q) /\ (j ∈ U' <-> j ∈ U)) ->
  (k ∈ F' <-> target_page (f (allocs M !!! k)) = 0) ->
  (k ∈ Q' <-> target_page (f (allocs M !!! k)) <> 0 /\ X' k <> []) ->
  (k ∈ U' <-> target_page (f (allocs M !!! k)) <> 0 /\ X' k = []) ->
  lists_ok M' X' /\ same_but k M M'
  /\ target_page (allocs M' !!! k) = target_page (f (allocs M !!! k))
  /\ first_avai (allocs M' !!! k) = first_avai (f (allocs M !!! k))
  /\ avai_num (allocs M' !!! k) = avai_num (f (allocs M !!! k)).
Proof.
  intros HS D L HX Hj KF KQ KU.
  assert (same_but k M M') as SB
    by (apply (same_but_trans _ _ (upd_alloc k f M)); [apply same_but_upd|apply same_but_data, D]).
  destruct (proj2 (proj2 D) k) as (T1 & T2 & T3). rewrite allocs_upd, decide_True in T1, T2, T3 by reflexivity.
  split; [|split; [exact SB|auto]]. exists F', Q', U'. split; [exact L|].
  apply (sorted_update M M' X X' F Q U F' Q' U' k HS).
  - intros j Hjk. destruct (proj2 (proj2 SB) j Hjk) as (-> & _). rewrite HX by exact Hjk.
    destruct (Hj j Hjk) as (? & ? & ?). auto.
  - unfold sorted_ok. rewrite T3. auto.
Qed.

Lemma nodup_split k (xs ys zs rest : list Z) :
  NoDup (rest ++ (xs ++ k :: ys) ++ zs) -> k ∉ rest /\ k ∉ xs /\ k ∉ ys /\ k ∉ zs.
Proof.
  intros Hnd. assert (NoDup (k :: rest ++ xs ++ ys ++ zs)) as H1.
  { revert Hnd. apply NoDup_Permutation_proper. solve_Permutation. }
  apply NoDup_cons in H1 as [H1 _]. rewrite !not_elem_of_app in H1. tauto.
Qed.

(** The three outcomes for the lists when allocator [k] gets a slice back. *)
Lemma manager_put M X X' F Q U k f :
  mlists M F Q U -> (forall j, 0 <= j < END_FLAG -> sorted_ok M X F Q U j) ->
  0 <= k < END_FLAG -> target_page (allocs M !!! k) <> 0 -> (forall j, j <> k -> X' j = X j) ->
  (forall a, next_allocator (f a) = next_allocator a /\ prev_allocator (f a) = prev_allocator a) ->
  let M1 := upd_alloc k f M in
  let ok M' := lists_ok M' X' /\ same_but k M M'
    /\ target_page (allocs M' !!! k) = target_page (f (allocs M !!! k))
    /\ first_avai (allocs M' !!! k) = first_avai (f (allocs M !!! k))
    /\ avai_num (allocs M' !!! k) = avai_num (f (allocs M !!! k)) in
  (X k <> [] -> target_page (f (allocs M !!! k)) = 0 -> ok (p_full_to_free k M1))
  /\ (X k = [] -> X' k <> [] -> target_page (f (allocs M !!! k)) <> 0 -> ok (full_to_p_full k M1))
  /\ (X k <> [] -> X' k <> [] -> target_page (f (allocs M !!! k)) <> 0 -> ok M1).
Proof.
  intros L HS Hk Ht HX Hf M1 ok. destruct (HS k Hk) as (KF & KQ & KU).
  assert (mlists M1 F Q U) as L1 by (apply mlists_upd_data; [exact Hf|exact L]).
  pose proof (ml_nodup _ _ _ _ L) as Hnd. assert (k ∉ F) as NF by tauto.
  split; [|split].
  - intros Hne Ht'. assert (k ∈ Q) as Hin by tauto. apply list_elem_of_split in Hin as (Q1 & Q2 & ->).
    destruct (p_full_to_free_lists M1 k F Q1 Q2 U L1) as [L2 D2].
    destruct (nodup_split k Q1 Q2 U F Hnd) as (_ & N1 & N2 & NU).
    apply (manager_moved M _ X X' F (Q1 ++ k :: Q2) U (k :: F) (Q1 ++ Q2) U k f HS D2 L2 HX).
    + intros j Hj. set_solver.
    + split; [auto|intros _; left].
    + set_solver.
    + tauto.
  - intros He Hne Ht'. assert (k ∈ U) as Hin by tauto. apply list_elem_of_split in Hin as (U1 & U2 & ->).
    destruct (full_to_p_full_lists M1 k F Q U1 U2 L1) as [L2 D2].
    assert (k ∉ Q) as NQ by tauto.
    assert (k ∉ U1 ++ U2) as NU.
    { assert (NoDup ((F ++ Q) ++ (U1 ++ k :: U2) ++ [])) as Hnd2 by (rewrite app_nil_r, <- app_assoc; exact Hnd).
      destruct (nodup_split k U1 U2 [] (F ++ Q) Hnd2) as (_ & N1 & N2 & _). set_solver. }
    apply (manager_moved M _ X X' F Q (U1 ++ k :: U2) F (k :: Q) (U1 ++ U2) k f HS D2 L2 HX).
    + intros j Hj. set_solver.
    + tauto.
    + split; [auto|intros _; left].
    + tauto.
  - intros Hne Hne' Ht'. assert (k ∈ Q /\ k ∉ U) as [HQ NU] by tauto.
    apply (manager_moved M M1 X X' F Q U F Q U k f HS); try assumption.
    + split; [reflexivity|]. split; [reflexivity|]. auto.
    + tauto.
    + tauto.
    + tauto.
    + tauto.
Qed.

(** ** [kfree] *)

Lemma slot_ext s Ms X1 X2 i m k x :
  (forall a b, X1 a b = X2 a b) -> slot s Ms X1 i m k x <-> slot s Ms X2 i m k x.
Proof. intros E. unfold slot. rewrite E. reflexivity. Qed.

Lemma served_ext s Ms X s' Ms' X1 X2 i m k x :
  (forall a b, X1 a b = X2 a b) ->
  served s Ms X s' Ms' X1 i m k x -> served s Ms X s' Ms' X2 i m k x.
Proof.
  intros E [S1 S2 S3 S4 S5]. split; try assumption.
  - apply (slot_ext _ _ _ _ _ _ _ _ E), S1.
  - intros j m' k' x'. rewrite <- (slot_ext _ _ _ _ _ _ _ _ E). apply S3.
Qed.

(** The arithmetic of [kfree] on a block address. *)
Lemma block_address q size x :
  page_addr q -> size ∈ slice_sizes -> 0 <= x < slice_count size ->
  let a := slice_addr (q + PAGE_OFFSET) size x in
  0 < a < 2 ^ 32 /\ Z.land a PAGE_MASK = q + PAGE_OFFSET /\ u32 (q + PAGE_OFFSET - PAGE_OFFSET) = q
  /\ (is_linked_mode size = true ->
        u16 (u32 (a - (q + PAGE_OFFSET) - SIZEOF_PTR)) / real_slice_size size = x)
  /\ (is_linked_mode size = false -> u16 (a - (q + PAGE_OFFSET)) / size = x).
Proof.
  intros Hq Hs Hx a. destruct (slice_inside size (q + PAGE_OFFSET) x Hs Hx) as [I1 I2]. fold a in I1, I2.
  assert (16 <= size <= 2048) as Hsz by (clear -Hs; by_class Hs; lia).
  destruct Hq as (Hq0 & [c ->] & Hq2). unfold PAGE_OFFSET, PAGE_FRAME_SIZE, PAGE_MASK in *.
  split; [lia|]. split.
  { rewrite land_page_mask by (unfold in_u32; lia).
    replace a with ((a - (c * 4096 + 0xC0000000)) + (c + 0xC0000) * 4096) at 2 by lia.
    rewrite Z.mod_add, Z.mod_small by lia. lia. }
  split; [rewrite u32_small by (unfold in_u32; lia); lia|].
  split; intros Hl; unfold a, slice_addr, header in *; rewrite Hl in *; unfold SIZEOF_PTR in *.
  - replace (c * 4096 + 3221225472 + 4 + x * real_slice_size size + 1 - (c * 4096 + 3221225472) - 4)
      with (1 + x * real_slice_size size) by lia. unfold real_slice_size in *.
    rewrite u32_small by (unfold in_u32; lia). rewrite u16_small by (unfold in_u16; lia).
    rewrite Z.div_add by lia. rewrite Z.div_small by lia. lia.
  - replace (c * 4096 + 3221225472 + x * size - (c * 4096 + 3221225472)) with (x * size) by lia.
    rewrite u16_small by (unfold in_u16; lia). apply Z.div_mul. lia.
Qed.

Lemma put_slice_ok s m k size x xs :
  size ∈ slice_sizes -> slice_size (managers s !!! m) = size -> page_addr (page_of s m k) ->
  (forall a, in_u8 (load s a)) ->
  page_state size (base_of s m k) (load s) (first_avai (alloc_of s m k)) xs ->
  0 <= x < slice_count size -> x ∉ xs ->
  let a := slice_addr (base_of s m k) size x in
  exists f' bts, let s' := upd_manager m (upd_alloc k (set_first f')) (set_bytes bts s) in
    put_slice a m k s = (slice_count size, s')
    /\ (forall c, c <> a -> load s' c = load s c) /\ (forall c, in_u8 (load s' c))
    /\ (is_linked_mode size = true -> xs = [] -> page_state size (base_of s m k) (load s') f' [x])
    /\ (is_linked_mode size = false -> page_state size (base_of s m k) (load s') f' (x :: xs)).
Proof.
  intros Hs Esz Hq Hby S Hx Hn a. destruct (block_address _ size x Hq Hs Hx) as (Ha & Em & _ & Hi1 & Hi2).
  fold (base_of s m k) in Em, Hi1, Hi2. fold a in Ha, Em, Hi1, Hi2.
  change (page_of s m k + PAGE_OFFSET) with (base_of s m k) in *.
  destruct (slice_count_bounds size Hs) as [Hc _]. unfold put_slice. rewrite Esz, Em.
  destruct (is_linked_mode size) eqn:Hl.
  - exists x, (<[a := u8 (first_avai (alloc_of s m k))]> (bytes s)). cbv zeta.
    rewrite (Hi1 eq_refl), (u8_small x) by (unfold in_u8; lia).
    rewrite <- (slice_count_linked _ Hl), u8_small by (unfold in_u8; lia). split; [reflexivity|].
    assert (forall c, load (upd_manager m (upd_alloc k (set_first x))
              (set_bytes (<[a:=u8 (first_avai (alloc_of s m k))]> (bytes s)) s)) c
            = if decide (a = c) then u8 (first_avai (alloc_of s m k)) else load s c) as Hld
      by (intros c; apply (load_store s a (first_avai (alloc_of s m k)) c)).
    split; [intros c Hca; rewrite Hld; apply decide_False; congruence|].
    split; [intros c; rewrite Hld; case_decide; [apply u8_range|apply Hby]|].
    split; [|discriminate]. intros _ ->.
    destruct (put_linked size (base_of s m k) (load s) x _ Hs Hl Hx S) as [_ S2].
    apply (page_state_ext _ _ _ _ _ _ S2). intros _ y Hy. rewrite Hld. apply decide_False. intros E.
    assert (0 < size) by (clear -Hs; by_class Hs; lia).
    apply (slice_not_header size (base_of s m k) x y a Hs Hl); [unfold a; lia|exact E].
  - exists (u8 (Z.lxor (first_avai (alloc_of s m k)) (Z.shiftl 1 (7 - x)))), (bytes s). cbv zeta.
    rewrite (Hi2 eq_refl), <- (slice_count_bitmap _ Hl), u8_small by (unfold in_u8; lia).
    split; [destruct s; reflexivity|]. split; [reflexivity|]. split; [exact Hby|]. split; [discriminate|].
    intros _. apply (put_bitmap size (base_of s m k) (load s) Hs Hl); assumption.
Qed.

(** All slices of a page but one. *)
Lemma all_but_one n xs x :
  NoDup xs -> (forall y, y ∈ xs -> 0 <= y < n) -> 0 <= x < n -> x ∉ xs -> Z.of_nat (length xs) + 1 = n ->
  forall y, 0 <= y < n -> y ∉ xs <-> y = x.
Proof.
  intros Hnd Hr Hx Hn Hlen y Hy. split; [|intros ->; exact Hn]. intros Hyn.
  destruct (Z.eq_dec y x) as [|Hne]; [assumption|exfalso].
  assert (length (y :: x :: xs) <= length (seqZ 0 n))%nat as Hl.
  { apply submseteq_length, NoDup_submseteq.
    - apply NoDup_cons. split; [set_solver|]. apply NoDup_cons. auto.
    - intros z. rewrite !elem_of_cons, elem_of_seqZ. intros [->|[->|Hz]]; [lia|lia|]. specialize (Hr z Hz). lia. }
  rewrite length_seqZ in Hl. simpl in Hl. lia.
Qed.

(** The situations in which a slice of a linked page is put back properly: the
    page had no free slice, or has no slice in use afterwards.  In between, the
    list of its free slices is cut off (see [KmmRuns]). *)
Definition returnable (i : Z) (xs : list Z) : Prop :=
  is_linked_mode (slice_size_of i) = true ->
  xs = [] \/ Z.of_nat (length xs) + 1 = slice_count (slice_size_of i).

(** The pool after a page is released. *)
Lemma release_frame (p : P) q :
  fs_ok p -> fs_releasable p -> fs_single p q ->
  exists v p2, fs_physic_free q (fs_set_allocator (fs_frame_at p q) 0 p) = Some (v, p2)
    /\ fs_ok p2 /\ keeps p p2 q /\ (forall r, fs_single p2 r <-> fs_single p r /\ r <> q).
Proof.
  intros Hok Hr Hq. destruct (fs_set_allocator_ok p q 0 Hok Hq ltac:(unfold in_u32; lia))
    as (Hok1 & Hs1 & Hr1 & Hx1 & _ & Ho1).
  destruct (fs_physic_free_ok _ q Hok1 (Hr1 Hr) (proj2 (Hs1 q) Hq)) as (v & p2 & E & Hok2 & Hsame & Hs2).
  exists v, p2. split; [exact E|]. split; [exact Hok2|]. split; [|intros r; rewrite Hs2, Hs1; reflexivity]. intros r Hrs Hne.
  destruct (Hsame r) as (_ & A1 & _), (Hsame (fs_frame_at p r)) as (A2 & _ & A3).
  destruct (Hx1 r) as [_ B1], (Hx1 (fs_frame_at p r)) as [B2 _].
  split; [apply Hs2; split; [apply Hs1, Hrs|exact Hne]|]. split; [congruence|]. split; [congruence|].
  rewrite A3. apply Ho1; assumption.
Qed.

Section free.
Context s Ms X i m k x (K : kmm_ok s Ms X) (S : slot s Ms X i m k x).
Context (Hret : returnable i (X m k)).
Let size := slice_size_of i.
Let a := slice_addr (base_of s m k) size x.
Let M := managers s !!! m.
Let Hi : is_class i. Proof. apply S. Qed.
Let Hm : m ∈ Ms i. Proof. apply S. Qed.
Let Hk : 0 <= k < END_FLAG. Proof. apply S. Qed.
Let Ha : attached s m k. Proof. apply S. Qed.
Let Hx : 0 <= x < slice_count size. Proof. apply S. Qed.
Let Hxn : x ∉ X m k. Proof. apply S. Qed.
Let Hs : size ∈ slice_sizes. Proof. apply is_class_size, Hi. Qed.
Let A : alloc_ok s size m k (X m k).
Proof. apply (mo_alloc _ _ _ _ (ko_manager _ _ _ K i m Hi Hm) k Hk Ha). Qed.
Let Hq : page_addr (page_of s m k). Proof. apply (alloc_page _ _ _ _ _ (ko_pool _ _ _ K) A). Qed.

(** The slot is the last one of its allocator when all other slices are free. *)
Lemma last_slot_length : last_slot s Ms X i m k x <-> Z.of_nat (length (X m k)) + 1 = slice_count size.
Proof.
  pose proof (ps_nodup _ _ _ _ _ (ao_state _ _ _ _ _ A)) as Hnd. pose proof (ps_range _ _ _ _ _ (ao_state _ _ _ _ _ A)) as Hr.
  split.
  - intros Hlast. assert (x :: X m k ≡ₚ seqZ 0 (slice_count size)) as Hp.
    { apply NoDup_Permutation; [apply NoDup_cons; auto|apply NoDup_seqZ|]. intros y. rewrite elem_of_cons, elem_of_seqZ.
      split; [intros [->|Hy]; [lia|specialize (Hr y Hy); lia]|]. intros Hy.
      destruct (decide (y ∈ X m k)) as [Hin|Hn]; [right; exact Hin|left]. apply Hlast. repeat (split; try assumption); lia. }
    apply Permutation_length in Hp. rewrite length_seqZ in Hp. simpl in Hp. lia.
  - intros Hl y (_ & _ & _ & _ & Hy & Hyn). exact (proj1 (all_but_one _ _ _ Hnd Hr Hx Hxn Hl y Hy) Hyn).
Qed.

(** What is common to the three outcomes: from the new manager and the new
    data of [k] to the invariant and the slots. *)
Lemma free_finish s' xs f bts :
  fs_ok (pool s') -> keeps (pool s) (pool s') (page_of s m k) ->
  alloc_ms s' = alloc_ms s -> bytes s' = bts ->
  (forall m', m' <> m -> managers s' !!! m' = managers s !!! m') ->
  lists_ok (managers s' !!! m) (put X m k xs m) -> same_but k M (managers s' !!! m) ->
  target_page (allocs (managers s' !!! m) !!! k) = target_page (f (allocs M !!! k)) ->
  first_avai (allocs (managers s' !!! m) !!! k) = first_avai (f (allocs M !!! k)) ->
  avai_num (allocs (managers s' !!! m) !!! k) = avai_num (f (allocs M !!! k)) ->
  (forall c, c <> a -> load (set_bytes bts s) c = load s c) ->
  (forall c, in_u8 (load (set_bytes bts s) c)) ->
  (target_page (f (allocs M !!! k)) <> 0 -> pool s' = pool s
     /\ target_page (f (allocs M !!! k)) = target_page (allocs M !!! k) /\ xs = x :: X m k
     /\ avai_num (f (allocs M !!! k)) = Z.of_nat (length xs)
     /\ page_state size (base_of s m k) (load (set_bytes bts s)) (first_avai (f (allocs M !!! k))) xs) ->
  (target_page (f (allocs M !!! k)) = 0 -> Z.of_nat (length (X m k)) + 1 = slice_count size) ->
  kmm_ok s' Ms (put X m k xs) /\ served s' Ms (put X m k xs) s Ms X i m k x.
Proof.
  intros Hok Hkp Ems Ebt Hmg LO SB D1 D2 D3 Hout Hby Hatt Hall.
  destruct (others_apart s Ms X i m k K Hi Hm Hk Ha) as [Hqm Hqa].
  assert (forall c, load s' c = load (set_bytes bts s) c) as Hld by (intros c; unfold load; rewrite Ebt; reflexivity).
  assert (in_page (page_of s m k) a) as Hain.
  { apply (slot_in_page s Ms X i m k x a K S). fold size a. assert (0 < size) by (clear -Hs; by_class Hs; lia). lia. }
  assert (forall c, ~ in_page (page_of s m k) c -> load s' c = load s c) as Hout'.
  { intros c Hc. rewrite Hld. apply Hout. intros ->. auto. }
  destruct (kmm_update s s' Ms X i m k xs (page_of s m k) K Hi Hm Hk) as (K' & Hat & Hpg); try assumption.
  { intros c. rewrite Hld. apply Hby. }
  { intros Ha'. unfold attached, alloc_of in Ha'. rewrite D1 in Ha'.
    destruct (Hatt Ha') as (Ep & Et & -> & En & Sx). rewrite Et in D1.
    assert (page_of s' m k = page_of s m k) as Epg by (apply page_of_data; [exact D1|exact Ep]).
    split; [|exact Epg]. destruct A as [A1 A2 A3 A4 A5].
    split; rewrite ?Epg, ?Ep; try assumption.
    - unfold alloc_of. rewrite D1. exact A2.
    - unfold alloc_of. rewrite D3. exact En.
    - unfold base_of, alloc_of. rewrite D2, Epg. apply (page_state_ext _ _ _ _ _ _ Sx). intros _ y _. apply Hld. }
  split; [exact K'|].
  apply (served_ext _ _ _ _ _ (put (put X m k xs) m k (X m k))).
  { intros b c. unfold put. destruct (decide (b = m /\ c = k)) as [[-> ->]|]; reflexivity. }
  apply served_intro; try assumption.
  - intros j m' k' Hj Hm' Hk' Hn. symmetry. apply (Hat j); assumption.
  - intros j m' k' Hj Hm' Hk' Hn Ha'. assert (attached s m' k') as Ha2 by (apply (Hat j); assumption).
    rewrite (Hpg j) by assumption. split; [reflexivity|]. apply (Hqa j); assumption.
  - intros c Hc. symmetry. apply Hout', Hc.
  - intros Ha'. unfold attached, alloc_of in Ha'. rewrite D1 in Ha'.
    destruct (Hatt Ha') as (Ep & Et & -> & _). rewrite put_eq. split; [reflexivity|].
    rewrite Et in D1. assert (page_of s' m k = page_of s m k) as Epg by (apply page_of_data; [exact D1|exact Ep]).
    split; [exact Epg|]. intros y c Hy b Hc. unfold b, base_of in Hc. rewrite Epg in Hc. fold size in Hc.
    rewrite Hld. symmetry. apply Hout. intros ->.
    assert (0 < size) by (clear -Hs; by_class Hs; lia).
    unfold a, base_of in Hc.
    destruct (Z.lt_trichotomy y x) as [Hlt|[E|Hlt]]; [|apply Hy; rewrite E; left|].
    + pose proof (slice_apart size (page_of s m k + PAGE_OFFSET) y x Hs Hlt). lia.
    + pose proof (slice_apart size (page_of s m k + PAGE_OFFSET) x y Hs Hlt). lia.
  - intros Hna. assert (target_page (f (allocs M !!! k)) = 0) as E.
    { unfold attached, alloc_of in Hna. rewrite D1 in Hna. lia. }
    apply all_but_one; try assumption.
    + apply (ps_nodup _ _ _ _ _ (ao_state _ _ _ _ _ A)).
    + apply (ps_range _ _ _ _ _ (ao_state _ _ _ _ _ A)).
    + apply Hall, E.
Qed.

(** The state [s2] with the slice back on its page, whose data is now [f v] and
    whose bytes are [bts]. *)
Definition back (f' : Z) (v : page_slice_allocator) : page_slice_allocator := set_first f' (inc_avai v).

Record put_back (f' : Z) (bts : gmap Z Z) (s2 : kmm P) : Prop := {
  pb_manager : managers s2 !!! m = upd_alloc k (back f') M;
  pb_others m' : m' <> m -> managers s2 !!! m' = managers s !!! m';
  pb_rest : pool s2 = pool s /\ alloc_ms s2 = alloc_ms s /\ bytes s2 = bts;
  pb_out c : c <> a -> load (set_bytes bts s) c = load s c;
  pb_typed c : in_u8 (load (set_bytes bts s) c);
  pb_state : Z.of_nat (length (X m k)) + 1 <> slice_count size ->
    page_state size (base_of s m k) (load (set_bytes bts s)) f' (x :: X m k)
}.

(** [kfree] after the slice is back. *)
Definition release (s2 : kmm P) : option (kmm P) :=
  let n := Z.of_nat (length (X m k)) + 1 in
  if slice_count size =? n then
    let p := fs_set_allocator (fs_frame_at (pool s) (page_of s m k)) 0 (pool s) in
    '(_, pl) ← fs_physic_free (page_of s m k) p;
    Some (upd_manager m (p_full_to_free k) (upd_manager m (upd_alloc k (set_avai 0))
      (set_pool pl (upd_manager m (upd_alloc k (set_target 0)) (set_pool p s2)))))
  else if n =? 1 then Some (upd_manager m (full_to_p_full k) s2) else Some s2.

Lemma back_number f' : avai_num (back f' (allocs M !!! k)) = Z.of_nat (length (X m k)) + 1.
Proof.
  destruct A as [_ _ _ A4 A5]. pose proof (page_state_length _ _ _ _ _ Hs A5) as Hlen. destruct (slice_count_bounds size Hs) as [Hcnt _].
  unfold back. cbn. change (allocs M !!! k) with (alloc_of s m k). rewrite A4. apply u8_small. unfold in_u8. lia.
Qed.

Lemma kfree_release : exists f' bts s2, put_back f' bts s2 /\ kfree a s = release s2.
Proof.
  pose proof A as [A1 A2 A3 A4 A5].
  destruct (block_address _ size x Hq Hs Hx) as (Hapos & Em & Epq & _).
  fold (base_of s m k) in Hapos, Em. fold a in Hapos, Em.
  destruct (allocator_ptr_range m k (manager_page _ _ _ _ _ K Hi Hm) Hk) as (_ & _ & Mo & Io).
  pose proof (mo_size _ _ _ _ (ko_manager _ _ _ K i m Hi Hm)) as Esz. fold size M in Esz.
  set (s1 := upd_manager m (upd_alloc k inc_avai) s).
  assert (alloc_of s1 m k = inc_avai (alloc_of s m k)) as E1.
  { unfold alloc_of, s1. rewrite managers_upd, decide_True, allocs_upd, decide_True by reflexivity. reflexivity. }
  assert (page_of s1 m k = page_of s m k) as Epg1 by (apply page_of_data; [rewrite E1; reflexivity|reflexivity]).
  destruct (put_slice_ok s1 m k size x (X m k)) as (f' & bts & Eput & Hout & Hby & Hlk & Hbm); try assumption.
  { unfold s1. rewrite managers_upd, decide_True by reflexivity. exact Esz. }
  { rewrite Epg1. exact Hq. }
  { apply (ko_bytes _ _ _ K). }
  { unfold base_of. rewrite Epg1, E1. exact A5. }
  unfold base_of in Eput, Hlk, Hbm, Hout. rewrite Epg1 in Eput, Hlk, Hbm, Hout. fold (base_of s m k) a in Eput, Hlk, Hbm, Hout.
  set (s2 := upd_manager m (upd_alloc k (set_first f')) (set_bytes bts s1)) in *.
  assert (managers s2 !!! m = upd_alloc k (back f') M) as EM2.
  { unfold s2. rewrite managers_upd, decide_True by reflexivity. change (managers (set_bytes bts s1)) with (managers s1).
    unfold s1. rewrite managers_upd, decide_True, upd_alloc_twice by reflexivity. reflexivity. }
  assert (avai_num (alloc_of s2 m k) = Z.of_nat (length (X m k)) + 1) as En.
  { unfold alloc_of. rewrite EM2, allocs_upd, decide_True by reflexivity. apply back_number. }
  exists f', bts, s2. split.
  - split; [exact EM2| |repeat split|exact Hout|exact Hby|].
    + intros m' Hne. unfold s2. rewrite managers_upd, decide_False by auto. change (managers (set_bytes bts s1)) with (managers s1).
      unfold s1. rewrite managers_upd, decide_False by auto. reflexivity.
    + intros Nall. destruct (is_linked_mode size) eqn:Hl; [|apply Hbm; reflexivity].
      destruct (Hret Hl) as [E|E]; [rewrite E in *; apply Hlk; reflexivity|]. fold size in E. lia.
  - unfold kfree. rewrite (proj2 (Z.eqb_neq a 0)) by lia. rewrite Em. unfold base_of. rewrite Epq, A3, Mo, Io.
    change (upd_manager m (upd_alloc k (fun v => set_avai (u8 (avai_num v + 1)) v)) s) with s1.
    rewrite Eput. unfold release. rewrite <- En. reflexivity.
Qed.

(** What becomes of the page of the allocator: it goes back to the frame allocator
    when no slice of it is in use any more, and stays otherwise. *)
Definition page_returned s' : Prop :=
  (Z.of_nat (length (X m k)) + 1 = slice_count size ->
     ~ attached s' m k /\ forall r, fs_single (pool s') r <-> fs_single (pool s) r /\ r <> page_of s m k)
  /\ (Z.of_nat (length (X m k)) + 1 <> slice_count size -> attached s' m k /\ pool s' = pool s).

(** The three outcomes: the page is empty, had been full, or is neither. *)
Definition freed (s2 : kmm P) : Prop :=
  exists s' xs, release s2 = Some s' /\ kmm_ok s' Ms (put X m k xs) /\ served s' Ms (put X m k xs) s Ms X i m k x
    /\ page_returned s'.

Let Ht : target_page (allocs M !!! k) <> 0. Proof. exact Ha. Qed.
Let HX xs j : j <> k -> put X m k xs m j = X m j. Proof. intros Hj. apply put_ne. auto. Qed.

Lemma free_empty f' bts s2 :
  put_back f' bts s2 -> slice_count size = Z.of_nat (length (X m k)) + 1 -> fs_releasable (pool s) -> freed s2.
Proof.
  intros [EM2 Hmg2 (Rp & Rm & Rb) Hout Hby _] Eall Hrel. destruct (mo_lists _ _ _ _ (ko_manager _ _ _ K i m Hi Hm)) as (F & Q & U & L & HS).
  destruct (release_frame (pool s) (page_of s m k) (ko_pool _ _ _ K) Hrel (ao_single _ _ _ _ _ A)) as (v & p2 & Ep2 & Hok2 & Hkp2 & Hs2).
  set (g := fun v => set_avai 0 (set_target 0 (back f' v))).
  destruct (manager_put M (X m) (put X m k [] m) F Q U k g L HS Hk Ht (HX [])) as (Pf & _); [split; reflexivity|].
  unfold freed, release. cbv zeta. rewrite (proj2 (Z.eqb_eq _ _) Eall), Ep2. cbn [mbind option_bind].
  eexists _, []. split; [reflexivity|].
  match goal with |- kmm_ok ?x _ _ /\ _ => set (s' := x) end.
  assert (pool s' = p2) as Epool by reflexivity.
  assert (managers s' !!! m = p_full_to_free k (upd_alloc k g M)) as EM.
  { unfold s'. rewrite !managers_upd, !decide_True by reflexivity.
    change (managers (set_pool ?pl ?x)) with (managers x). rewrite !managers_upd, !decide_True by reflexivity.
    change (managers (set_pool ?pl ?x)) with (managers x). rewrite EM2, !upd_alloc_twice. reflexivity. }
  assert (forall m', m' <> m -> managers s' !!! m' = managers s !!! m') as Hmg.
  { intros m' Hne. unfold s'. rewrite !managers_upd, !decide_False by auto.
    change (managers (set_pool ?pl ?x)) with (managers x). rewrite !managers_upd, !decide_False by auto.
    change (managers (set_pool ?pl ?x)) with (managers x). apply Hmg2, Hne. }
  destruct (slice_count_bounds size Hs) as [Hcnt _].
  destruct Pf as (LO & SB & D1 & D2 & D3); [intros E; rewrite E in Eall; simpl in Eall; lia|reflexivity|].
  rewrite <- EM in LO, SB, D1, D2, D3.
  assert (page_returned s') as Hpr.
  { split; [intros _|intros N; destruct N; symmetry; exact Eall]. split; [|rewrite Epool; exact Hs2].
    unfold attached, alloc_of. rewrite D1. intros N. apply N. reflexivity. }
  apply and_assoc. split; [|exact Hpr].
  apply (free_finish s' [] g bts); try assumption; try reflexivity.
  - intros Hn. destruct Hn. reflexivity.
  - intros _. symmetry. exact Eall.
Qed.

(** The page keeps its frame: [s'] only differs from [s2] in the list that holds it. *)
Lemma free_kept f' bts s2 s' :
  put_back f' bts s2 -> slice_count size <> Z.of_nat (length (X m k)) + 1 -> release s2 = Some s' ->
  pool s' = pool s2 -> alloc_ms s' = alloc_ms s2 -> bytes s' = bytes s2 ->
  (forall m', m' <> m -> managers s' !!! m' = managers s2 !!! m') ->
  lists_ok (managers s' !!! m) (put X m k (x :: X m k) m) -> same_but k M (managers s' !!! m) ->
  (let v := allocs (managers s' !!! m) !!! k in let w := back f' (allocs M !!! k) in
   target_page v = target_page w /\ first_avai v = first_avai w /\ avai_num v = avai_num w) ->
  freed s2.
Proof.
  intros [EM2 Hmg2 (Rp & Rm & Rb) Hout Hby Hst] Nall Er Ep Ems Eb Hmg LO SB (D1 & D2 & D3).
  exists s', (x :: X m k). split; [exact Er|]. apply and_assoc. split; [|split].
  2: { intros E. destruct Nall. symmetry. exact E. }
  2: { intros _. split; [|rewrite Ep; exact Rp]. unfold attached, alloc_of. rewrite D1. exact Ha. }
  apply (free_finish s' _ (back f') bts); try assumption; try congruence.
  - rewrite Ep, Rp. apply (ko_pool _ _ _ K).
  - rewrite Ep, Rp. apply keeps_refl.
  - intros m' Hne. rewrite Hmg by exact Hne. apply Hmg2, Hne.
  - intros _. split; [congruence|]. split; [reflexivity|]. split; [reflexivity|]. rewrite back_number. simpl length.
    split; [lia|]. apply Hst. intros E. apply Nall. symmetry. exact E.
  - intros E. contradiction.
Qed.

Lemma kfree_ok :
  (Z.of_nat (length (X m k)) + 1 = slice_count size -> fs_releasable (pool s)) ->
  exists s' xs, kfree a s = Some s' /\ kmm_ok s' Ms (put X m k xs)
    /\ served s' Ms (put X m k xs) s Ms X i m k x /\ page_returned s'.
Proof.
  intros Hrel. destruct kfree_release as (f' & bts & s2 & B & ->). change (freed s2).
  destruct (Z.eq_dec (slice_count size) (Z.of_nat (length (X m k)) + 1)) as [Eall|Nall]; [exact (free_empty f' bts s2 B Eall (Hrel (eq_sym Eall)))|].
  destruct (mo_lists _ _ _ _ (ko_manager _ _ _ K i m Hi Hm)) as (F & Q & U & L & HS). pose proof (pb_manager _ _ _ B) as EM2.
  destruct (manager_put M (X m) (put X m k (x :: X m k) m) F Q U k (back f') L HS Hk Ht (HX _)) as (_ & Pu & Ps); [split; reflexivity|].
  assert (put X m k (x :: X m k) m k <> []) as Hnil by (rewrite put_eq; discriminate).
  assert (release s2 = if Z.of_nat (length (X m k)) + 1 =? 1 then Some (upd_manager m (full_to_p_full k) s2) else Some s2) as Er
    by (unfold release; cbv zeta; rewrite (proj2 (Z.eqb_neq _ _) Nall); reflexivity).
  destruct (Z.eqb_spec (Z.of_nat (length (X m k)) + 1) 1) as [E1|N1].
  - assert (X m k = []) as Enil by (destruct (X m k); [reflexivity|simpl in E1; lia]).
    destruct (Pu Enil Hnil Ht) as (LO & SB & D1 & D2 & D3). rewrite <- EM2 in LO, SB, D1, D2, D3.
    assert (managers (upd_manager m (full_to_p_full k) s2) !!! m = full_to_p_full k (managers s2 !!! m)) as EM
      by (rewrite managers_upd, decide_True by reflexivity; reflexivity). rewrite <- EM in LO, SB, D1, D2, D3.
    apply (free_kept f' bts s2 _ B Nall Er); try reflexivity; try assumption; [|auto].
    intros m' Hne. rewrite managers_upd, decide_False by auto. reflexivity.
  - assert (X m k <> []) as Hne by (intros E; rewrite E in N1; simpl in N1; lia).
    destruct (Ps Hne Hnil Ht) as (LO & SB & D1 & D2 & D3). rewrite <- EM2 in LO, SB, D1, D2, D3.
    apply (free_kept f' bts s2 s2 B Nall Er); try reflexivity; try assumption. auto.
Qed.
End free.
End proofs.
