(* ===== verification/KmmPmm.v ===== *)
(** * The frame allocator behind [kmalloc]

    The functions of pmm.c discharge the interface of [KmmSpec], so that the
    theorems on [kmalloc] and [kfree] hold for the kernel as it is linked. *)

From S2P Require Import Prelude KMath Pmm PmmSpec PmmLemmas PmmState PmmProofs PmmInit PmmProps.
From S2P Require Kmm.
From S2P Require Import KmmSpec.

Definition set_frame_allocator (v : Z) (p : page_frame_t) : page_frame_t :=
  PageFrame (pf_flags p) (pf_level p) (pf_physic_addr p) (pf_index p) (pf_prev_frame p)
    (pf_next_frame p) v.

(** The index of the frame of a physical address, as kfree computes it. *)
Definition phys_index (s : pmm) (q : Z) : Z :=
  u32 (q - nm_base (normal_mem s)) / PAGE_FRAME_SIZE.

#[export] Instance pmm_frames : Kmm.FrameSource pmm := {|
  Kmm.fs_physic_alloc := physic_alloc;
  Kmm.fs_frame_alloc := frame_alloc;
  Kmm.fs_physic_free := physic_free;
  Kmm.fs_physic_addr s f := pf_physic_addr (page s (frame_of s f));
  Kmm.fs_allocator s f := pf_allocator (page s (frame_of s f));
  Kmm.fs_set_allocator f v s := upd_page (frame_of s f) (set_frame_allocator v) s;
  Kmm.fs_frame_at s q := frame_ptr s (phys_index s q)
|}.

(** The zone and its table lie below 1 GiB. *)
Definition frames_ok (s : pmm) : Prop :=
  buddy_ok s /\ table_ok s
  /\ nm_base (normal_mem s) + PAGE_FRAME_SIZE * frames_number s < 2 ^ 30
  /\ nm_frames (normal_mem s) + SIZEOF_PAGE_FRAME * frames_number s < 2 ^ 30.

Definition frame_addr (s : pmm) (i : Z) : Z := nm_base (normal_mem s) + PAGE_FRAME_SIZE * i.

Definition frames_single (s : pmm) (q : Z) : Prop := exists i, used_block s i 0 /\ q = frame_addr s i.

Lemma single_index s q :
  frames_ok s -> frames_single s q ->
  exists i, used_block s i 0 /\ q = frame_addr s i /\ phys_index s q = i /\ frame_of s (frame_ptr s i) = i.
Proof.
  intros (_ & T & _) (i & U & ->). exists i. split; [exact U|]. split; [reflexivity|].
  split; [apply (physic_index s s i (same_table_refl s) T), U|apply frame_of_ptr; [exact T|apply U]].
Qed.

Lemma frames_page s q :
  frames_ok s -> frames_single s q ->
  page_addr q /\ 0 < frame_ptr s (phys_index s q) < 2 ^ 30
  /\ pf_physic_addr (page s (frame_of s (frame_ptr s (phys_index s q)))) = q.
Proof.
  intros K S. destruct (single_index s q K S) as (i & U & -> & -> & ->). destruct K as (_ & T & Hb & Hf).
  destruct U as (Hi & _). pose proof (tb_base _ T) as (H1 & H2 & _). pose proof (tb_frames _ T) as (H3 & _).
  split; [|split; [|apply (tb_addr _ T i Hi)]].
  - unfold page_addr, frame_addr, Kmm.PAGE_FRAME_SIZE, PAGE_FRAME_SIZE in *.
    split; [lia|]. split; [apply Z.divide_add_r; [exact H2|exists i; lia]|lia].
  - unfold frame_ptr, SIZEOF_PAGE_FRAME in *. rewrite u32_small by (unfold in_u32; lia). lia.
Qed.

Lemma same_table_frames s s' :
  same_table s s' ->
  (forall i, frame_ptr s' i = frame_ptr s i) /\ (forall p, frame_of s' p = frame_of s p)
  /\ (forall q, phys_index s' q = phys_index s q) /\ (forall i, frame_addr s' i = frame_addr s i)
  /\ frames_number s' = frames_number s.
Proof.
  intros St. pose proof St as (Eb & Ef & En & _). unfold frame_ptr, phys_index, frame_addr.
  rewrite Ef, Eb. repeat split; auto. intros p. apply (same_table_frame_of _ _ _ St).
Qed.

Lemma same_table_fs s s' : same_table s s' -> fs_same s s'.
Proof.
  intros St x. destruct (same_table_frames s s' St) as (E1 & E2 & E3 & _).
  destruct St as (_ & _ & _ & H). destruct (H (frame_of s x)) as (_ & A & B).
  cbn. rewrite E1, E2, E3. auto.
Qed.

Lemma frames_ok_same s s' : same_table s s' -> buddy_ok s' -> frames_ok s -> frames_ok s'.
Proof.
  intros St B (_ & T & Hb & Hf). pose proof St as (Eb & Ef & En & _).
  split; [exact B|]. split; [apply (same_table_ok _ _ St T)|]. rewrite Eb, Ef, En. auto.
Qed.

Lemma frames_single_same s s' (Q : Z -> Prop) :
  same_table s s' -> (forall i, used_block s' i 0 <-> used_block s i 0 /\ Q (frame_addr s i)) ->
  forall q, frames_single s' q <-> frames_single s q /\ Q q.
Proof.
  intros St Hu q. destruct (same_table_frames s s' St) as (_ & _ & _ & E & _). unfold frames_single. split.
  - intros (i & U & ->). rewrite E. apply Hu in U as [U HQ]. eauto.
  - intros ((i & U & ->) & HQ). exists i. split; [apply Hu; auto|symmetry; apply E].
Qed.

(** ** Setting the owner of a frame *)

Section owner.
Context (s : pmm) (i v : Z).
Let s' := upd_page i (set_frame_allocator v) s.

Lemma owner_page j : page s' j = if decide (i = j) then set_frame_allocator v (page s j) else page s j.
Proof. apply upd_lookup. Qed.

Lemma owner_fields j :
  flags_of s' j = flags_of s j /\ level_of s' j = level_of s j
  /\ next_of s' j = next_of s j /\ prev_of s' j = prev_of s j
  /\ pf_index (page s' j) = pf_index (page s j) /\ pf_physic_addr (page s' j) = pf_physic_addr (page s j).
Proof. unfold flags_of, level_of, next_of, prev_of. rewrite owner_page. case_decide; auto 10. Qed.

Lemma owner_used j k : used_block s' j k <-> used_block s j k.
Proof. unfold used_block. destruct (owner_fields j) as (-> & -> & _). reflexivity. Qed.

Lemma owner_buddy : buddy_ok s -> buddy_ok s'.
Proof.
  intros (L & [B1 B2 B3 B4 B5]). exists L. split; [exact B1| | | |exact B5].
  - apply (tiling_ext _ _ _ _ _ B2). intros j _. destruct (owner_fields j) as (-> & -> & _). auto.
  - intros l Hl. apply (wchain_ext _ _ _ _ _ _ _ (B3 l Hl)). intros x _.
    destruct (owner_fields x) as (_ & _ & -> & -> & _). auto.
  - intros l j Hl. rewrite (B4 l j Hl). unfold free_block. destruct (owner_fields j) as (-> & -> & _). reflexivity.
Qed.

Lemma owner_table : table_ok s -> table_ok s'.
Proof.
  intros [T1 T2 T3 T4]. split; [exact T1|exact T2| |]; intros j Hj;
    destruct (owner_fields j) as (_ & _ & _ & _ & E1 & E2); [rewrite E1|rewrite E2]; auto.
Qed.

Lemma owner_releasable : clean_heads s /\ quiet_tail s -> clean_heads s' /\ quiet_tail s'.
Proof.
  intros [C Q]. split.
  - intros l Hl Hn. destruct (owner_fields (free_list s' l)) as (_ & _ & _ & -> & _). apply (C l Hl Hn).
  - intros j Hj. destruct (owner_fields j) as (-> & _). apply (Q j Hj).
Qed.
End owner.

Lemma frames_set_allocator s q v :
  frames_ok s -> frames_single s q -> in_u32 v ->
  let s' := upd_page (frame_of s (frame_ptr s (phys_index s q))) (set_frame_allocator v) s in
  frames_ok s' /\ (forall r, frames_single s' r <-> frames_single s r)
  /\ (clean_heads s /\ quiet_tail s -> clean_heads s' /\ quiet_tail s')
  /\ (forall x, pf_physic_addr (page s' (frame_of s' x)) = pf_physic_addr (page s (frame_of s x))
        /\ frame_ptr s' (phys_index s' x) = frame_ptr s (phys_index s x))
  /\ pf_allocator (page s' (frame_of s' (frame_ptr s (phys_index s q)))) = v
  /\ (forall r, frames_single s r -> r <> q ->
        pf_allocator (page s' (frame_of s' (frame_ptr s (phys_index s r))))
        = pf_allocator (page s (frame_of s (frame_ptr s (phys_index s r))))).
Proof.
  intros K Sq _ s'. destruct (single_index s q K Sq) as (i & U & Eq & Ei & Ef).
  unfold s'. clear s'. rewrite Ei, Ef. destruct K as (B & T & Hb & Hf).
  split; [split; [apply owner_buddy, B|split; [apply owner_table, T|auto]]|].
  split; [intros r; unfold frames_single; setoid_rewrite owner_used; reflexivity|].
  split; [apply owner_releasable|]. split; [|split].
  - intros x. split; [|reflexivity]. apply owner_fields.
  - change (frame_of (upd_page i _ s) (frame_ptr s i)) with (frame_of s (frame_ptr s i)). rewrite Ef.
    rewrite owner_page, decide_True by reflexivity. reflexivity.
  - intros r Sr Hne. destruct (single_index s r (conj B (conj T (conj Hb Hf))) Sr) as (j & Uj & Er & Ej & Efj).
    rewrite Ej. change (frame_of (upd_page i _ s) (frame_ptr s j)) with (frame_of s (frame_ptr s j)). rewrite Efj.
    rewrite owner_page, decide_False; [reflexivity|]. intros ->. congruence.
Qed.

(** ** Handing out and releasing a page *)

Lemma frames_got s i top s' :
  frames_ok s -> get_ok s 0 i top s' ->
  frames_ok s' /\ ~ frames_single s (frame_addr s i) /\ fs_same s s'
  /\ (forall r, frames_single s' r <-> frames_single s r \/ r = frame_addr s i).
Proof.
  intros K G. pose proof (get_ok_fresh s 0 i top s' (proj1 K) G) as Hnew.
  destruct G as (F & Ht & _ & B' & St & Hu & _).
  destruct (same_table_frames s s' St) as (_ & _ & _ & Ea & _).
  assert (forall a b, frame_addr s a = frame_addr s b -> a = b) as Hinj
    by (unfold frame_addr, PAGE_FRAME_SIZE; lia).
  split; [apply (frames_ok_same s s' St B' K)|]. split.
  { intros (j & Uj & E). apply Hinj in E. subst j. apply (Hnew 0 Uj). }
  split; [apply same_table_fs, St|]. intros r. unfold frames_single. split.
  - intros (j & Uj & ->). rewrite Ea. apply Hu in Uj as [Uj|[-> _]]; eauto.
  - intros [(j & Uj & ->)| ->].
    + exists j. split; [apply Hu; auto|symmetry; apply Ea].
    + exists i. split; [apply Hu; auto|symmetry; apply Ea].
Qed.

Lemma one_frame_count : page_count PAGE_FRAME_SIZE = 1.
Proof. reflexivity. Qed.

Lemma frames_alloc s :
  frames_ok s ->
  exists f s', frame_alloc 1 s = Some (f, s') /\
    ((f = 0 /\ s' = s)
     \/ (exists q, frames_ok s' /\ frame_ptr s' (phys_index s' q) = f /\ ~ frames_single s q /\ fs_same s s'
           /\ forall r, frames_single s' r <-> frames_single s r \/ r = q)).
Proof.
  intros K. pose proof K as (B & T & _). unfold frame_alloc. rewrite request_level by lia. cbn [mbind option_bind].
  change (Z.log2_up 1) with 0.
  destruct (get_block_spec s 0 B ltac:(unfold BUDDY_MAXLEVEL; lia)) as [(i & top & s' & E & G)|[E _]].
  - exists (frame_ptr s i), s'. split; [exact E|]. right. exists (frame_addr s i).
    destruct (frames_got s i top s' K G) as (K' & Hn & Hs & Hg).
    destruct (get_ok_fits s 0 i top s' B ltac:(lia) G) as (Hi & _).
    destruct G as (_ & _ & _ & _ & St & _). destruct (same_table_frames s s' St) as (E1 & _ & E3 & _).
    split; [exact K'|]. split; [|auto]. rewrite E1, E3. f_equal. apply (physic_index s s i (same_table_refl s) T Hi).
  - exists 0, s. auto.
Qed.

Lemma frames_physic_alloc s :
  frames_ok s ->
  exists q s', physic_alloc PAGE_FRAME_SIZE s = Some (q, s') /\
    ((q = 0 /\ s' = s)
     \/ (frames_ok s' /\ ~ frames_single s q /\ fs_same s s'
           /\ forall r, frames_single s' r <-> frames_single s r \/ r = q)).
Proof.
  intros K. pose proof K as (B & T & _).
  destruct (physic_alloc_cases s PAGE_FRAME_SIZE B T ltac:(unfold PAGE_FRAME_SIZE; lia)) as [(i & top & s' & E & G)|[E _]].
  - rewrite one_frame_count in G. exists (frame_addr s i), s'. split; [exact E|]. right.
    apply (frames_got s i top s' K G).
  - exists 0, s. auto.
Qed.

Lemma frames_free s q :
  frames_ok s -> clean_heads s /\ quiet_tail s -> frames_single s q ->
  exists v s', physic_free q s = Some (v, s') /\ frames_ok s' /\ fs_same s s'
    /\ (forall r, frames_single s' r <-> frames_single s r /\ r <> q).
Proof.
  intros K [C Q] Sq. destruct (single_index s q K Sq) as (i & U & Eq & Ei & _). pose proof K as (B & T & _).
  destruct (free_block_spec s i 0 B C Q U) as (s' & E & B' & _ & St & Hu & _).
  exists 1, s'. split.
  { unfold physic_free. destruct (frames_page s q K Sq) as ((Hq & _) & _).
    rewrite (proj2 (Z.eqb_neq q 0)) by lia. fold (phys_index s q). rewrite Ei. exact E. }
  split; [apply (frames_ok_same s s' St B' K)|]. split; [apply same_table_fs, St|].
  apply (frames_single_same s s' (fun r => r <> q) St). intros j. rewrite Hu. subst q.
  assert (j <> i <-> frame_addr s j <> frame_addr s i) as <-; [|reflexivity].
  unfold frame_addr, PAGE_FRAME_SIZE. split; intros; congruence || lia.
Qed.

#[export] Instance pmm_frames_laws : FrameSourceLaws pmm := {|
  fs_ok := frames_ok;
  fs_single := frames_single;
  fs_releasable s := clean_heads s /\ quiet_tail s;
  fs_page := frames_page;
  fs_frame_alloc_ok := frames_alloc;
  fs_physic_alloc_ok := frames_physic_alloc;
  fs_set_allocator_ok := frames_set_allocator;
  fs_physic_free_ok := frames_free
|}.
