(* ===== verification/KmmProps.v ===== *)
(** * Properties of [kmalloc] and [kfree]

    Stated for any frame allocator that keeps the contract of [KmmSpec]; the
    instances are on the zone of 1024 frames behind [Pmm]. *)

From S2P Require Import Prelude Kmm KmmLists KmmPages KmmSpec KmmProofs.
From S2P Require Pmm PmmSpec PmmProps.
From S2P Require Import KmmPmm.

(** ** Initialisation *)

(** The frame allocator can hand out [n] more pages, one after the other. *)
Fixpoint supplies {P} `{FrameSource P} (n : nat) (p : P) : Prop :=
  match n with
  | O => True
  | S n => exists q p', fs_physic_alloc PAGE_FRAME_SIZE p = Some (q, p') /\ q <> 0 /\ supplies n p'
  end.

Section init.
Context {P : Type} `{FrameSourceLaws P}.
Implicit Types s : kmm P.

Definition no_slices (m k : Z) : list Z := [].

Lemma empty_kmm_ok (p : P) mg by0 :
  fs_ok p -> (forall a, in_u8 (by0 !!! a)) -> kmm_ok (Kmm ∅ mg by0 p) (fun _ => []) no_slices.
Proof.
  intros Hok Hby. split; try assumption.
  - intros i _. cbn [alloc_ms]. rewrite lookup_total_empty. reflexivity.
  - intros i _. constructor.
  - intros i j m _ _ Hm. apply elem_of_nil in Hm. contradiction.
  - intros i m _ Hm. apply elem_of_nil in Hm. contradiction.
  - intros i j m m' k _ _ Hm. apply elem_of_nil in Hm. contradiction.
Qed.

Definition init_inv s0 (k : Z) (acc : option (kmm P)) : Prop :=
  exists s Ms, acc = Some s /\ supplies (Z.to_nat (PAGE_SLICE_LEVEL - k)) (pool s)
    /\ kmm_ok s Ms no_slices
    /\ (forall i, 0 <= i < k -> exists m, Ms i = [m])
    /\ (forall i, k <= i < PAGE_SLICE_LEVEL -> Ms i = [])
    /\ (forall i m j x, ~ slot s Ms no_slices i m j x)
    /\ (forall c, load s c = load s0 c).

Lemma init_step s0 k acc :
  0 <= k < PAGE_SLICE_LEVEL -> init_inv s0 k acc ->
  init_inv s0 (k + 1)
    (s ← acc;
     '(m, s) ← new_manager k 0 s;
     let s := upd_manager m init_allocator_manager s in
     Some (set_alloc_ms k m s)).
Proof.
  intros Hk (s & Ms & -> & Hsup & K & Hdone & Htodo & Hno & Hld). cbn [mbind option_bind].
  replace (Z.to_nat (PAGE_SLICE_LEVEL - k)) with (S (Z.to_nat (PAGE_SLICE_LEVEL - (k + 1)))) in Hsup by lia.
  destruct Hsup as (q & p' & Eq & Hq & Hsup).
  destruct (add_manager_ok s Ms no_slices k q p' K Hk Eq Hq) as (m & s1 & Ea & _ & Ep & K1 & _ & _ & Hsl & _ & Hld1).
  pose proof (ko_chain _ _ _ K k Hk) as C. rewrite (Htodo k) in C by lia. simpl in C.
  unfold add_manager in Ea. rewrite C in Ea.
  destruct (new_manager k 0 s) as [[m1 s2]|]; [|discriminate Ea]. cbn [mbind option_bind] in Ea |- *.
  injection Ea as Em Es. subst m1. exists s1, (cons_ms Ms k m). split; [rewrite <- Es; reflexivity|].
  rewrite Ep. split; [exact Hsup|]. split; [exact K1|]. split; [|split; [|split]].
  - intros i Hi. unfold cons_ms. case_decide as E; [|apply Hdone; lia]. subst i. exists m.
    rewrite Htodo by lia. reflexivity.
  - intros i Hi. unfold cons_ms. rewrite decide_False by lia. apply Htodo. lia.
  - intros i m' j x Hs. apply (Hno i m' j x), Hsl, Hs.
  - intros c. rewrite Hld1. apply Hld.
Qed.

Lemma init_kmm_spec (p : P) mg by0 :
  fs_ok p -> (forall a, in_u8 (by0 !!! a)) -> supplies 8 p ->
  init_inv (Kmm ∅ mg by0 p) PAGE_SLICE_LEVEL (init_kmm (Kmm ∅ mg by0 p)).
Proof.
  intros Hok Hby Hs. unfold init_kmm. change PAGE_SLICE_LEVEL with (0 + Z.of_nat (Z.to_nat PAGE_SLICE_LEVEL)) at 1.
  apply for_loop_ind.
  - exists (Kmm ∅ mg by0 p), (fun _ => []). split; [reflexivity|]. split; [exact Hs|].
    split; [apply empty_kmm_ok; assumption|]. split; [lia|]. split; [auto|]. split; [|auto].
    intros i m j x (_ & Hm & _). apply elem_of_nil in Hm. exact Hm.
  - intros k acc Hk. apply init_step. exact Hk.
Qed.

(** ** From slots to blocks *)

Lemma live_slot s Ms X i m k x :
  slot s Ms X i m k x -> live s Ms X (slice_addr (base_of s m k) (slice_size_of i) x) (slice_size_of i).
Proof. intros S. exists i, m, k, x. auto. Qed.

(** What one more slot in use means for the blocks. *)
Lemma served_live s Ms X s' Ms' X' i m k x :
  kmm_ok s' Ms' X' -> served s Ms X s' Ms' X' i m k x ->
  let a := slice_addr (base_of s' m k) (slice_size_of i) x in
  (forall b n, live s' Ms' X' b n <-> live s Ms X b n \/ (b = a /\ n = slice_size_of i))
  /\ (forall b n, live s Ms X b n -> apart b n a (slice_size_of i))
  /\ (forall b n c, live s Ms X b n -> b <= c < b + n -> load s' c = load s c).
Proof.
  intros K' [S1 S2 S3 S4 S5] a.
  assert (forall j m' k' x', slot s Ms X j m' k' x' -> slot s' Ms' X' j m' k' x') as Hup
    by (intros; apply S3; auto).
  split; [|split].
  - intros b n. split.
    + intros (j & m' & k' & x' & Hs & -> & ->). apply S3 in Hs as [Hs|(-> & -> & -> & ->)]; [left|right; auto].
      exists j, m', k', x'. rewrite <- (S4 _ _ _ _ Hs). auto.
    + intros [(j & m' & k' & x' & Hs & -> & ->)|[-> ->]]; [|apply live_slot, S1].
      exists j, m', k', x'. rewrite (S4 _ _ _ _ Hs). auto.
  - intros b n (j & m' & k' & x' & Hs & -> & ->). rewrite <- (S4 _ _ _ _ Hs).
    destruct (slots_disjoint s' Ms' X' j m' k' x' i m k x K' (Hup _ _ _ _ Hs) S1) as [(-> & -> & -> & ->)|Hd];
      [contradiction|exact Hd].
  - intros b n c (j & m' & k' & x' & Hs & -> & ->) Hc. apply (S5 j m' k' x' c Hs Hc).
Qed.
End init.

Section requests.
Context {P : Type} `{FrameSourceLaws P} (fuel : nat) (b : Z) (s : kmm P).

(** Requests of a size class. *)
Lemma kmalloc_small Ms X :
  kmm_ok s Ms X -> 0 <= b <= 2048 -> (forall i, is_class i -> (length (Ms i) + 2 <= fuel)%nat) -> ~ exhausted (pool s) ->
  exists i a s' Ms' X', kmalloc fuel b s = Some (a, s')
    /\ is_class i /\ b <= slice_size_of i /\ (forall j, 0 <= j < i -> slice_size_of j < b)
    /\ kmm_ok s' Ms' X'
    /\ (forall c n, live s' Ms' X' c n <-> live s Ms X c n \/ (c = a /\ n = slice_size_of i))
    /\ (forall c n, live s Ms X c n -> apart c n a (slice_size_of i))
    /\ (forall c n d, live s Ms X c n -> c <= d < c + n -> load s' d = load s d).
Proof.
  intros K Hb Hf Hx. destruct (size_class_ok b ltac:(lia)) as (i & Ei & Hi & Hiff & Hle & Hmin).
  unfold kmalloc. rewrite Ei. cbn [mbind option_bind].
  assert (is_class i) as Hc by (unfold is_class; lia). unfold is_class in Hc.
  rewrite (proj2 (Z.ltb_ge MAX_ALLOC b)) by (change MAX_ALLOC with 4194304; lia).
  rewrite (proj2 (Z.ltb_lt i _)) by lia.
  destruct (kmalloc_helper_ok fuel i s Ms X [] (Ms i) (alloc_ms s !!! i) K Hc Hx eq_refl
    (ko_chain _ _ _ K i Hc) (Hf i Hc)) as (m & k & x & s' & Ms' & X' & E & K' & Sv).
  destruct (served_live _ _ _ _ _ _ _ _ _ _ K' Sv) as (L1 & L2 & L3).
  exists i, (slice_addr (base_of s' m k) (slice_size_of i) x), s', Ms', X'. split.
  { rewrite (class_mode i Hc), <- E. unfold mode_of. destruct (is_linked_mode _); reflexivity. }
  split; [exact Hc|]. split; [apply Hle; lia|]. auto 10.
Qed.

(** Requests of whole pages. *)
Lemma kmalloc_large :
  2048 < b <= MAX_ALLOC ->
  kmalloc fuel b s = '(p, pl) ← fs_physic_alloc b (pool s); Some (u32 (p + PAGE_OFFSET), set_pool pl s).
Proof.
  intros Hr. destruct (size_class_ok b ltac:(lia)) as (i & Ei & Hi & Hiff & _). unfold kmalloc. rewrite Ei. cbn [mbind option_bind].
  rewrite (proj2 (Z.ltb_ge MAX_ALLOC b)) by lia. rewrite (proj2 (Z.ltb_ge i _)) by lia. reflexivity.
Qed.

(** A call that does not run out of fuel does not depend on it. *)
Lemma kmalloc_helper_mono f1 f2 m i mode s0 r :
  (f1 <= f2)%nat -> kmalloc_helper f1 m i mode s0 = Some r -> kmalloc_helper f2 m i mode s0 = Some r.
Proof.
  revert f2 m s0. induction f1 as [|f1 IH]; intros f2 m s0 Hle E; [discriminate E|].
  destruct f2 as [|f2]; [lia|]. cbn [kmalloc_helper] in E |- *.
  destruct (if m =? 0 then _ else _) as [[m1 s1]|]; [|discriminate E]. cbn [mbind option_bind] in E |- *.
  destruct (negb (mg_p_full _ =? _)); [exact E|]. destruct (negb (mg_free _ =? _)); [exact E|].
  apply IH; [lia|exact E].
Qed.

Lemma kmalloc_mono f1 f2 r : (f1 <= f2)%nat -> kmalloc f1 b s = Some r -> kmalloc f2 b s = Some r.
Proof.
  intros Hle. unfold kmalloc. destruct (MAX_ALLOC <? b); [auto|]. destruct (size_class b) as [i|]; [|auto]. cbn [mbind option_bind].
  destruct (i <? PAGE_SLICE_LEVEL); [|auto]. destruct (i <=? 4); apply kmalloc_helper_mono, Hle.
Qed.
End requests.

(** ** Properties *)

(** [C5] A request of at most 2048 bytes is served from the smallest size class it
    fits in: unless the frames are exhausted, [kmalloc] returns a block of that
    class that overlaps no live block, exactly this block becomes live, all live
    blocks keep their contents, and the invariant holds again; looking through
    the managers of the class ends.  A request above 4 MiB is refused, one in
    between is passed on to the frame allocator. *)
Theorem kmalloc_correct {P} `{FrameSourceLaws P} fuel b (s : kmm P) Ms X :
  kmm_ok s Ms X -> 0 <= b ->
  (forall i, is_class i -> (length (Ms i) + 2 <= fuel)%nat) ->
  (b <= 2048 -> ~ exhausted (pool s) ->
     exists i a s' Ms' X', kmalloc fuel b s = Some (a, s')
       /\ is_class i /\ b <= slice_size_of i /\ (forall j, 0 <= j < i -> slice_size_of j < b)
       /\ kmm_ok s' Ms' X'
       /\ (forall c n, live s' Ms' X' c n <-> live s Ms X c n \/ (c = a /\ n = slice_size_of i))
       /\ (forall c n, live s Ms X c n -> apart c n a (slice_size_of i))
       /\ (forall c n d, live s Ms X c n -> c <= d < c + n -> load s' d = load s d))
  /\ (2048 < b <= MAX_ALLOC -> kmalloc fuel b s =
        '(p, pl) ← fs_physic_alloc b (pool s); Some (u32 (p + PAGE_OFFSET), set_pool pl s))
  /\ (MAX_ALLOC < b -> kmalloc fuel b s = Some (0, s)).
Proof.
  intros K Hb Hf. split; [|split].
  - intros Hb2 Hx. apply kmalloc_small; auto with lia.
  - apply kmalloc_large.
  - intros Hr. unfold kmalloc. rewrite (proj2 (Z.ltb_lt MAX_ALLOC b)) by lia. reflexivity.
Qed.

(** The kernel's frames, and no manager yet. *)
Definition kmm0 : kmm Pmm.pmm := Kmm ∅ ∅ ∅ (PmmProps.boot_zone 1024).

Definition enough_frames (p : Pmm.pmm) : bool :=
  match fs_frame_alloc 1 p with Some (f, _) => negb (f =? 0) | None => false end
  && match fs_physic_alloc PAGE_FRAME_SIZE p with
     | Some (q, p') => negb (q =? 0)
         && match fs_frame_alloc 1 p' with Some (f, _) => negb (f =? 0) | None => false end
     | None => false
     end.

Lemma enough_frames_ok p : enough_frames p = true -> ~ exhausted p.
Proof.
  unfold enough_frames, exhausted. intros Hc [E|(q & p' & E & Hq)]; rewrite E in Hc.
  - discriminate Hc.
  - apply andb_prop in Hc as [_ Hc]. apply andb_prop in Hc as [H1 H2]. destruct Hq as [->|E2]; [discriminate H1|].
    rewrite E2 in H2. discriminate H2.
Qed.

Lemma boot_enough : enough_frames (PmmProps.boot_zone 1024) = true.
Proof. vm_compute. reflexivity. Qed.

Lemma boot_frames_checks :
  (Pmm.nm_base (Pmm.normal_mem (PmmProps.boot_zone 1024))
     + Pmm.PAGE_FRAME_SIZE * Pmm.frames_number (PmmProps.boot_zone 1024) <? 2 ^ 30)
  && (Pmm.nm_frames (Pmm.normal_mem (PmmProps.boot_zone 1024))
     + Pmm.SIZEOF_PAGE_FRAME * Pmm.frames_number (PmmProps.boot_zone 1024) <? 2 ^ 30) = true.
Proof. vm_compute. reflexivity. Qed.

#[local] Opaque PmmProps.boot_zone.

Lemma boot_frames_ok : frames_ok (PmmProps.boot_zone 1024).
Proof.
  destruct PmmProps.boot_zone_ok as (B & _ & T & _). pose proof boot_frames_checks as C. reflect_bools.
  split; [exact B|]. split; [exact T|]. auto.
Qed.

Lemma kmm0_ok : kmm_ok kmm0 (fun _ => []) no_slices.
Proof.
  apply empty_kmm_ok; [exact boot_frames_ok|]. intros a. rewrite lookup_total_empty. split; vm_compute; congruence.
Qed.

Lemma kmm0_not_exhausted : ~ exhausted (pool kmm0).
Proof. apply enough_frames_ok, boot_enough. Qed.

Lemma kmalloc_correct_witness :
  exists a s', kmalloc 3 100 kmm0 = Some (a, s') /\ exists Ms X, kmm_ok s' Ms X /\ live s' Ms X a 128.
Proof.
  destruct (kmalloc_correct 3 100 kmm0 (fun _ => []) no_slices kmm0_ok ltac:(lia)) as (R & _).
  { intros i _. simpl. lia. }
  destruct (R ltac:(lia) kmm0_not_exhausted) as (i & a & s' & Ms & X & E & Hi & Hle & Hmin & K & L & _).
  exists a, s'. split; [exact E|]. exists Ms, X. split; [exact K|]. apply L. right. split; [reflexivity|].
  apply is_class_cases in Hi.
  destruct Hi as [->|[->|[->|[->|[->|[->|[->| ->]]]]]]]; try reflexivity; exfalso;
    first [vm_compute in Hle; congruence|specialize (Hmin 3 ltac:(lia)); vm_compute in Hmin; congruence].
Defined.

(** [C6] Releasing a live block, in a situation in which its class can take it
    back ([returnable]: up to 256 bytes, its page was full or the block is the last
    one on it): [kfree] finds the manager and the slice from the address alone,
    exactly this block stops being live, all other live blocks keep their place and
    contents, and the invariant holds again.  The allocator lets go of its page
    exactly when this was the last block on it, and exactly this page goes back to
    the frame allocator, which has to be able to take one then ([fs_releasable]). *)
Theorem kfree_correct {P} `{FrameSourceLaws P} (s : kmm P) Ms X i m k x :
  kmm_ok s Ms X -> slot s Ms X i m k x -> returnable i (X m k) ->
  (last_slot s Ms X i m k x -> fs_releasable (pool s)) ->
  let a := slice_addr (base_of s m k) (slice_size_of i) x in
  exists s' X', kfree a s = Some s' /\ kmm_ok s' Ms X'
    /\ (forall b n, live s' Ms X' b n <-> live s Ms X b n /\ b <> a)
    /\ (forall b n, live s' Ms X' b n -> apart b n a (slice_size_of i))
    /\ (forall b n c, live s' Ms X' b n -> b <= c < b + n -> load s c = load s' c)
    /\ (forall b n, live s Ms X b n -> b = a -> n = slice_size_of i)
    /\ (attached s' m k <-> ~ last_slot s Ms X i m k x)
    /\ (forall q, fs_single (pool s') q <-> fs_single (pool s) q /\ ~ (last_slot s Ms X i m k x /\ q = page_of s m k)).
Proof.
  intros K S Hret Hrel a. pose proof (last_slot_length s Ms X i m k x K S) as Hlast.
  destruct (kfree_ok s Ms X i m k x K S Hret) as (s' & xs & E & K' & Sv & R1 & R2); [intros El; apply Hrel, Hlast, El|].
  destruct (served_live _ _ _ _ _ _ _ _ _ _ K Sv) as (L1 & L2 & L3). fold a in L1, L2.
  assert (forall b n, live s' Ms (put X m k xs) b n -> b <> a) as Hne.
  { intros b n Hl ->. specialize (L2 a n Hl). destruct Hl as (j & ? & ? & ? & (Hj & _) & -> & _).
    pose proof (slice_size_cases _ (is_class_size j Hj)).
    pose proof (slice_size_cases _ (is_class_size i (proj1 S))). unfold apart in L2. lia. }
  exists s', (put X m k xs). split; [exact E|]. split; [exact K'|]. split; [|split; [exact L2|split; [exact L3|split]]].
  - intros b n. rewrite L1. split; [intros Hl; split; [auto|apply (Hne b n Hl)]|].
    intros [[Hl|[-> _]] Hb]; [exact Hl|contradiction].
  - intros b n Hl Eb. apply L1 in Hl as [Hl|[_ ->]]; [|reflexivity]. destruct (Hne b n Hl Eb).
  - destruct (Z.eq_dec (Z.of_nat (length (X m k)) + 1) (slice_count (slice_size_of i))) as [El|Nl];
      [destruct (R1 El) as [N F]; clear R2|destruct (R2 Nl) as [N F]; clear R1].
    + apply Hlast in El. split; [tauto|]. intros q. rewrite F. tauto.
    + rewrite <- Hlast in Nl. split; [tauto|]. intros q. rewrite F. tauto.
Qed.

(** The state after a first block of 512 bytes. *)
Definition kmm1 : kmm Pmm.pmm := match kmalloc 3 512 kmm0 with Some (_, s) => s | None => kmm0 end.

Definition pool_releasable (p : Pmm.pmm) : bool :=
  forallb (PmmProps.head_clean p) [0; 1; 2; 3; 4; 5; 6; 7; 8; 9] && PmmProps.tail_quiet p.

Lemma kmm1_releasable : fs_releasable (pool kmm1).
Proof.
  assert (pool_releasable (pool kmm1) = true) as Hc by (vm_compute; reflexivity).
  unfold pool_releasable in Hc. apply andb_prop in Hc as [H1 H2].
  split; [apply PmmProps.clean_heads_dec, H1|apply PmmProps.quiet_tail_dec, H2].
Qed.

Lemma kmm1_slot : exists Ms X m k x, kmm_ok kmm1 Ms X /\ slot kmm1 Ms X 5 m k x.
Proof.
  destruct (kmalloc_helper_ok 3 5 kmm0 (fun _ => []) no_slices [] [] (alloc_ms kmm0 !!! 5) kmm0_ok)
    as (m & k & x & s & Ms & X & E & K & Sv).
  - unfold is_class, PAGE_SLICE_LEVEL. lia.
  - apply kmm0_not_exhausted.
  - reflexivity.
  - exact (lookup_total_empty (M := gmap Z) 5).
  - simpl. lia.
  - exists Ms, X, m, k, x.
    assert (kmm1 = s) as ->; [|split; [exact K|apply (sv_new _ _ _ _ _ _ _ _ _ _ Sv)]].
    assert (kmalloc 3 512 kmm0 = kmalloc_helper 3 (alloc_ms kmm0 !!! 5) 5 (mode_of (slice_size_of 5)) kmm0) as Ek
      by reflexivity.
    unfold kmm1. rewrite Ek, E. reflexivity.
Qed.

(** The block is the only one of its class: it is in the first allocator of the one
    manager, which has no other slice in use. *)
Lemma kmm1_last Ms X m k x : kmm_ok kmm1 Ms X -> slot kmm1 Ms X 5 m k x -> last_slot kmm1 Ms X 5 m k x.
Proof.
  intros K S. pose proof S as (Hi & Hm & Hk & Ha & _).
  assert (m = alloc_ms kmm1 !!! 5) as Em.
  { pose proof (ko_chain _ _ _ K 5 Hi) as Hc. destruct (Ms 5) as [|m0 ms]; [apply not_elem_of_nil in Hm; contradiction|].
    destruct Hc as (E0 & _ & Hc). apply elem_of_cons in Hm as [->|Hm]; [symmetry; exact E0|].
    assert (mg_next (managers kmm1 !!! m0) = 0) as En by (rewrite <- E0; vm_compute; reflexivity).
    rewrite En in Hc. destruct ms as [|m1 ms]; [apply not_elem_of_nil in Hm; contradiction|].
    destruct Hc as (E1 & N1 & _). congruence. }
  assert (k = 0) as ->.
  { assert (forallb (fun j => (j =? 0) || (target_page (alloc_of kmm1 (alloc_ms kmm1 !!! 5) j) =? 0)) (seqZ 0 END_FLAG) = true) as Hall
      by (vm_compute; reflexivity).
    rewrite forallb_forall in Hall. specialize (Hall k). rewrite <- list_elem_of_In, elem_of_seqZ in Hall.
    specialize (Hall ltac:(lia)). apply orb_prop in Hall as [E|E]; apply Z.eqb_eq in E; [exact E|].
    unfold attached in Ha. rewrite Em in Ha. contradiction. }
  apply last_slot_length; [exact K|exact S|].
  rewrite <- (ao_num _ _ _ _ _ (mo_alloc _ _ _ _ (ko_manager _ _ _ K 5 m Hi Hm) 0 Hk Ha)), Em. vm_compute. reflexivity.
Qed.

(** Its release ends it and gives its page back. *)
Lemma kfree_correct_witness :
  exists a s' Ms X X' m k, kfree a kmm1 = Some s' /\ kmm_ok s' Ms X'
    /\ live kmm1 Ms X a 512 /\ ~ live s' Ms X' a 512
    /\ attached kmm1 m k /\ ~ attached s' m k
    /\ fs_single (pool kmm1) (page_of kmm1 m k) /\ ~ fs_single (pool s') (page_of kmm1 m k).
Proof.
  destruct kmm1_slot as (Ms & X & m & k & x & K & S). pose proof (kmm1_last Ms X m k x K S) as Hlast.
  destruct (kfree_correct kmm1 Ms X 5 m k x K S) as (s' & X' & E & K' & L & _ & _ & _ & D & F).
  - intros Hl. vm_compute in Hl. discriminate Hl.
  - intros _. exact kmm1_releasable.
  - exists (slice_addr (base_of kmm1 m k) (slice_size_of 5) x), s', Ms, X, X', m, k.
    split; [exact E|]. split; [exact K'|]. split; [exact (live_slot _ _ _ _ _ _ _ S)|].
    split; [intros Hl; apply L in Hl as [_ Hne]; apply Hne; reflexivity|]. pose proof S as (Hi & Hm & Hk & Ha & _).
    split; [exact Ha|]. split; [intros Hd; apply D in Hd; contradiction|].
    split; [apply (ao_single _ _ _ _ _ (mo_alloc _ _ _ _ (ko_manager _ _ _ K 5 m Hi Hm) k Hk Ha))|].
    intros Hp. apply F in Hp as [_ Hp]. apply Hp. split; [exact Hlast|reflexivity].
Defined.

(** [C9] With a page for each of the eight size classes [init_kmm] succeeds: every
    class has exactly one manager, cut to the size of the class, none of its
    allocators owns a page yet, the invariant holds, no block is live and the
    memory of the slices is untouched. *)
Theorem init_kmm_correct {P} `{FrameSourceLaws P} (p : P) mg by0 :
  fs_ok p -> (forall a, in_u8 (by0 !!! a)) -> supplies 8 p ->
  exists s Ms, init_kmm (Kmm ∅ mg by0 p) = Some s
    /\ kmm_ok s Ms no_slices
    /\ (forall i, is_class i -> exists m, Ms i = [m] /\ alloc_ms s !!! i = m
          /\ slice_size (managers s !!! m) = slice_size_of i
          /\ forall k, 0 <= k < END_FLAG -> target_page (alloc_of s m k) = 0)
    /\ (forall a n, ~ live s Ms no_slices a n)
    /\ (forall c, load s c = by0 !!! c).
Proof.
  intros Hok Hby Hs. destruct (init_kmm_spec p mg by0 Hok Hby Hs) as (s & Ms & E & _ & K & Hm & _ & Hno & Hld).
  exists s, Ms. split; [exact E|]. split; [exact K|]. split; [|split; [|exact Hld]].
  - intros i Hi. destruct (Hm i Hi) as (m & Em). exists m. split; [exact Em|].
    assert (m ∈ Ms i) as Hin by (rewrite Em; apply list_elem_of_here).
    pose proof (ko_chain _ _ _ K i Hi) as C. rewrite Em in C. split; [apply C|].
    split; [apply (mo_size _ _ _ _ (ko_manager _ _ _ K i m Hi Hin))|]. intros k Hk.
    destruct (decide (target_page (alloc_of s m k) = 0)) as [Ht|Ht]; [exact Ht|].
    destruct (Hno i m k 0). pose proof (slice_count_bounds _ (is_class_size i Hi)).
    split; [exact Hi|]. split; [exact Hin|]. split; [exact Hk|]. split; [exact Ht|]. split; [lia|apply not_elem_of_nil].
  - intros a n (i & m & k & x & Hs' & _). apply (Hno _ _ _ _ Hs').
Qed.

Fixpoint supplies_check (n : nat) (p : Pmm.pmm) : bool :=
  match n with
  | O => true
  | S n => match fs_physic_alloc PAGE_FRAME_SIZE p with
           | Some (q, p') => negb (q =? 0) && supplies_check n p'
           | None => false
           end
  end.

Lemma supplies_check_ok n p : supplies_check n p = true -> supplies n p.
Proof.
  revert p. induction n as [|n IH]; intros p Hc; [exact I|]. cbn [supplies_check] in Hc. cbn [supplies].
  destruct (fs_physic_alloc PAGE_FRAME_SIZE p) as [[q p']|]; [|discriminate Hc].
  apply andb_prop in Hc as [H1 H2]. apply negb_true_iff, Z.eqb_neq in H1.
  exists q, p'. auto.
Qed.

Lemma boot_supplies : supplies 8 (PmmProps.boot_zone 1024).
Proof. apply supplies_check_ok. vm_compute. reflexivity. Qed.

Lemma init_kmm_correct_witness :
  exists s Ms, init_kmm kmm0 = Some s /\ kmm_ok s Ms no_slices /\ forall a n, ~ live s Ms no_slices a n.
Proof.
  destruct (init_kmm_correct (pool kmm0) ∅ ∅ (ko_pool _ _ _ kmm0_ok)) as (s & Ms & E & K & _ & L & _).
  - apply (ko_bytes _ _ _ kmm0_ok).
  - exact boot_supplies.
  - exists s, Ms. split; [exact E|]. split; [exact K|exact L].
Defined.
