(* ===== verification/KmmRuns.v ===== *)
(** * Runs of [kmalloc] and [kfree] outside their contract

    Concrete runs on which kernel/kernel/kmm.c leaves the invariant of [KmmSpec]:
    they show that the hypotheses of [kfree_correct] and [kmalloc_correct]
    ([returnable], a block of a size class, frames that are not exhausted) are
    needed, and what the code does without them. *)

From S2P Require Import Prelude Kmm KmmSpec KmmProps.
From S2P Require Pmm PmmProps.
From S2P Require Import KmmPmm.

(** [Free n] releases the address that the [n]-th [Alloc] returned. *)
Inductive kmm_op :=
  | Alloc (bytes : Z)
  | Free (n : nat).

Fixpoint run (os : list kmm_op) (rs : list Z) (s : kmm Pmm.pmm) : option (list Z * kmm Pmm.pmm) :=
  match os with
  | [] => Some (rs, s)
  | Alloc b :: os => '(a, s) ← kmalloc 10 b s; run os (rs ++ [a]) s
  | Free n :: os => s ← kfree (rs !!! n) s; run os rs s
  end.

Definition booted : kmm Pmm.pmm := match init_kmm kmm0 with Some s => s | None => kmm0 end.

(** What is left of a manager: heads of its lists, and free slices of its first
    two allocators. *)
Definition report (i : Z) (s : kmm Pmm.pmm) : Z * Z * Z * Z * Z :=
  let m := alloc_ms s !!! i in
  (mg_free (managers s !!! m), mg_p_full (managers s !!! m), mg_full (managers s !!! m),
   avai_num (alloc_of s m 0), avai_num (alloc_of s m 1)).

Definition outcome (i : Z) (os : list kmm_op) : option (Z * Z * Z * Z * Z) :=
  '(_, s) ← run os [] booted; Some (report i s).

(** Up to 256 bytes [kfree] stores the link to the next free slice at the address
    of the block (line 250), but [get_slice_addr] reads it from the byte in front
    of it (line 186), which still holds the 0xFF of the allocation.  When the
    slice is handed out again the page counts as full and leaves the partially
    full list, with 28 of its 31 slices free. *)
Lemma released_slice_ends_the_page :
  outcome 3 [Alloc 100; Alloc 100; Alloc 100; Free 0] = Some (1, 0, END_FLAG, 29, 0)
  /\ outcome 3 [Alloc 100; Alloc 100; Alloc 100; Free 0; Alloc 100] = Some (1, END_FLAG, 0, 28, 0).
Proof. split; vm_compute; reflexivity. Qed.

(** When all blocks of that page are released, [kfree] takes it out of the list it
    is not in (lines 271-278): the partially full list is cut off, a page with 30
    free slices is lost, and allocator 0 ends up in the free and the full list. *)
Lemma released_page_in_two_lists :
  outcome 3 [Alloc 100; Alloc 100; Alloc 100; Free 0; Alloc 100; Alloc 100; Free 0; Free 1; Free 2]
  = Some (0, END_FLAG, 0, 0, 30).
Proof. vm_compute. reflexivity. Qed.

(** Its next use makes it the head of the partially full and of the full list. *)
Lemma reused_page_in_two_lists :
  outcome 3 [Alloc 100; Alloc 100; Alloc 100; Free 0; Alloc 100; Alloc 100; Free 0; Free 1; Free 2;
             Alloc 100; Alloc 100]
  = Some (2, 0, 0, 29, 30).
Proof. vm_compute. reflexivity. Qed.

(** A block above 2048 bytes has no allocator: [kfree] takes the null pointer in
    its frame for one (lines 236-239), writes to the page at address 0 and returns
    nothing to the frame allocator. *)
Definition same_flags (p p' : Pmm.pmm) : bool :=
  forallb (fun i => Pmm.pf_flags (Pmm.page p' i) =? Pmm.pf_flags (Pmm.page p i)) (seqZ 0 1024).

Lemma big_block_not_released :
  match kmalloc 10 8192 booted with
  | Some (a, s) =>
      match kfree a s with
      | Some s' => (avai_num (alloc_of s 0 (index_of 0)) =? 0) && (avai_num (alloc_of s' 0 (index_of 0)) =? 1)
                   && same_flags (pool s) (pool s')
      | None => false
      end
  | None => false
  end = true.
Proof. vm_compute. reflexivity. Qed.

(** Without frames [kmalloc] does not return the null pointer but [PAGE_OFFSET]
    (lines 23, 28 and 80), and slices are cut from the page at [PAGE_OFFSET]. *)
Lemma exhausted_requests :
  (fst <$> run [Alloc 4194304; Alloc 4096; Alloc 8] [] kmm0)
  = Some [3223347200; PAGE_OFFSET; PAGE_OFFSET + 5].
Proof. vm_compute. reflexivity. Qed.
