(* ===== verification/Heap.v ===== *)
(** * The kernel's heap, as its clients see it

    The interface between kernel/kernel/kmm.c and the code that allocates small
    structures with it: timers, tasks and stacks. *)

From S2P Require Import Prelude.

Class Heap (W : Type) := {
  h_kmalloc : Z -> W -> option (Z * W);
  h_kfree : Z -> W -> option W
}.
