(* ===== verification/Keyboard.v ===== *)
(** * kernel/kernel/keyboard.c: the keyboard driver

    The handler decodes one scancode per interrupt: it tracks the modifier keys
    and the two-byte codes and stores the characters of the other keys in the
    output buffer.  The scancode read from the port is an argument. *)

From S2P Require Import Prelude Heap.
From S2P Require Interrupts.

Definition KEY_PRESSED : Z := 1.
Definition KEY_RELEASED : Z := 0.
Definition SCANCODE_MASK : Z := 0x00FF.
Definition CHAR_INVINSIBLE : Z := 0.
Definition L_SHIFT_PRESSED : Z := 0x2A.
Definition L_SHIFT_RELEASED : Z := 0xAA.
Definition R_SHIFT_PRESSED : Z := 0x36.
Definition R_SHIFT_RELEASED : Z := 0xB6.
Definition L_ALT_PRESSED : Z := 0x38.
Definition L_ALT_RELEASED : Z := 0xB8.
Definition R_ALT_PRESSED : Z := 0xE038.
Definition R_ALT_RELEASED : Z := 0xE0B8.
Definition L_CTRL_PRESSED : Z := 0x1D.
Definition L_CTRL_RELEASED : Z := 0x9D.
Definition R_CTRL_PRESSED : Z := 0xE01D.
Definition R_CTRL_RELEASED : Z := 0xE09D.
Definition CAPS_LOCK_PRESSED : Z := 0x3A.
Definition EXTEND_CODE_PREFIX : Z := 0xE0.
Definition EXTEND_CODE_FLUSH : Z := 0.
Definition keyboard_output_buffer_length : Z := 512.

(** The characters of each scancode, without and with shift; [esc] is 3,
    [backspace] 8, [tab] 9 and [enter] 13. *)
Definition keymap : list (Z * Z) :=
  [(0, 0); (3, 3); (49, 33); (50, 64); (51, 35); (52, 36); (53, 37); (54, 94); (55, 38); (56, 42);
   (57, 40); (48, 41); (45, 95); (61, 43); (8, 8); (9, 9); (113, 81); (119, 87); (101, 69);
   (114, 82); (116, 84); (121, 89); (117, 85); (105, 73); (111, 79); (112, 80); (91, 123);
   (93, 125); (13, 13); (0, 0); (97, 65); (115, 83); (100, 68); (102, 70); (103, 71); (104, 72);
   (106, 74); (107, 75); (108, 76); (59, 58); (39, 34); (96, 126); (0, 0); (92, 124); (122, 90);
   (120, 88); (99, 67); (118, 86); (98, 66); (110, 78); (109, 77); (44, 60); (46, 62); (47, 63);
   (0, 0); (42, 42); (0, 0); (32, 32); (0, 0)].

(** [keymap[scancode][offset]] *)
Definition key (scancode offset : Z) : Z :=
  let p := nth (Z.to_nat scancode) keymap (0, 0) in if offset =? 0 then fst p else snd p.

(** The static variables, and the output buffer. *)
Record keyboard := Keyboard {
  extend_flag : Z;
  crtl_status : Z;
  shift_status : Z;
  alt_status : Z;
  caps_lock_status : Z;
  keyboard_output_buffer : gmap Z Z;
  k_index : Z
}.

Definition set_extend (v : Z) (k : keyboard) : keyboard :=
  Keyboard v (crtl_status k) (shift_status k) (alt_status k) (caps_lock_status k)
    (keyboard_output_buffer k) (k_index k).
Definition set_crtl (v : Z) (k : keyboard) : keyboard :=
  Keyboard (extend_flag k) v (shift_status k) (alt_status k) (caps_lock_status k)
    (keyboard_output_buffer k) (k_index k).
Definition set_shift (v : Z) (k : keyboard) : keyboard :=
  Keyboard (extend_flag k) (crtl_status k) v (alt_status k) (caps_lock_status k)
    (keyboard_output_buffer k) (k_index k).
Definition set_alt (v : Z) (k : keyboard) : keyboard :=
  Keyboard (extend_flag k) (crtl_status k) (shift_status k) v (caps_lock_status k)
    (keyboard_output_buffer k) (k_index k).
Definition set_caps (v : Z) (k : keyboard) : keyboard :=
  Keyboard (extend_flag k) (crtl_status k) (shift_status k) (alt_status k) v
    (keyboard_output_buffer k) (k_index k).

(** [keyboard_output_buffer[k_index++] = c] *)
Definition put_char (c : Z) (k : keyboard) : keyboard :=
  Keyboard (extend_flag k) (crtl_status k) (shift_status k) (alt_status k) (caps_lock_status k)
    (<[k_index k := c]> (keyboard_output_buffer k)) (u32 (k_index k + 1)).

(** The static variables before [init_keyboard]. *)
Definition keyboard0 : keyboard := Keyboard 0 0 0 0 0 ∅ 0.

(** The address of the buffer comes first in the result; [handler] is that of
    [keyboard_input_handler].  The byte that is read from the port at the end is
    dropped. *)
Definition init_keyboard {W} `{Heap W} (handler : Z) (k : keyboard) (s : Interrupts.idt) (w : W)
  : option (Z * keyboard * Interrupts.idt * W) :=
  let k := set_crtl 0 k in
  let k := set_shift 0 k in
  let k := set_alt 0 k in
  let k := set_caps 0 k in
  '(buffer, w) ← h_kmalloc keyboard_output_buffer_length w;
  let s := Interrupts.register_interrupt_handler 0x21 handler s in
  Some (buffer, k, s, w).

Definition b2z (b : bool) : Z := if b then 1 else 0.

(** The [default] case: the character of a key of the map. *)
Definition key_char (scancode : Z) (k : keyboard) : option Z :=
  if 0x3A <? scancode then None
  else if (97 <=? key scancode 0) && (key scancode 1 <=? 122) then
    let offset := b2z (xorb (shift_status k =? KEY_PRESSED) (caps_lock_status k =? KEY_PRESSED)) in
    Some (key scancode offset)
  else if key scancode 0 =? CHAR_INVINSIBLE then None
  else
    let offset := b2z (shift_status k =? KEY_PRESSED) in
    Some (key scancode offset).

Definition keyboard_input_handler (scancode : Z) (k : keyboard) : keyboard :=
  if extend_flag k =? EXTEND_CODE_PREFIX then
    let k := set_extend EXTEND_CODE_FLUSH k in
    if scancode =? Z.land R_ALT_PRESSED SCANCODE_MASK then set_alt KEY_PRESSED k
    else if scancode =? Z.land R_ALT_RELEASED SCANCODE_MASK then set_alt KEY_RELEASED k
    else if scancode =? Z.land R_CTRL_PRESSED SCANCODE_MASK then set_crtl KEY_PRESSED k
    else if scancode =? Z.land R_CTRL_RELEASED SCANCODE_MASK then set_crtl KEY_RELEASED k
    else k
  else
    if scancode =? EXTEND_CODE_PREFIX then set_extend EXTEND_CODE_PREFIX k
    else if scancode =? L_SHIFT_PRESSED then set_shift KEY_PRESSED k
    else if scancode =? L_SHIFT_RELEASED then set_shift KEY_RELEASED k
    else if scancode =? R_SHIFT_PRESSED then set_shift KEY_PRESSED k
    else if scancode =? R_SHIFT_RELEASED then set_shift KEY_RELEASED k
    else if scancode =? L_ALT_PRESSED then set_alt KEY_PRESSED k
    else if scancode =? L_ALT_RELEASED then set_alt KEY_RELEASED k
    else if scancode =? L_CTRL_PRESSED then set_crtl KEY_PRESSED k
    else if scancode =? L_CTRL_RELEASED then set_crtl KEY_RELEASED k
    else if scancode =? CAPS_LOCK_PRESSED then
      set_caps (if caps_lock_status k =? KEY_PRESSED then KEY_RELEASED else KEY_PRESSED) k
    else match key_char scancode k with
         | Some c => put_char c k
         | None => k
         end.

Definition handle_all (codes : list Z) (k : keyboard) : keyboard :=
  foldl (fun k c => keyboard_input_handler c k) k codes.

(** ** Typing *)

(** The scancode of a character and whether it is the one with shift. *)
Fixpoint find_key (m : list (Z * Z)) (i c : Z) : option (Z * bool) :=
  match m with
  | [] => None
  | (a, b) :: m' =>
      if (a =? c) && negb (a =? 0) then Some (i, false)
      else if (b =? c) && negb (b =? 0) then Some (i, true)
      else find_key m' (i + 1) c
  end.

Definition is_letter (c : Z) : bool := ((97 <=? c) && (c <=? 122)) || ((65 <=? c) && (c <=? 90)).

(** The codes a typist sends for a character: press and release of its key,
    inside a press and release of shift when it needs one; with caps lock on
    (and only for letters) the need for shift is the opposite. *)
Definition type_char (caps : bool) (c : Z) : list Z :=
  match find_key keymap 0 c with
  | None => []
  | Some (code, upper) =>
      let shift := if is_letter c then xorb upper caps else upper in
      let stroke := [code; code + 0x80] in
      if shift then L_SHIFT_PRESSED :: stroke ++ [L_SHIFT_RELEASED] else stroke
  end.

Definition typable (c : Z) : bool := match find_key keymap 0 c with Some _ => true | None => false end.

Definition type_text (caps : bool) (s : list Z) : list Z := mjoin (type_char caps <$> s).

(** ** The effect of a code apart from the buffer *)

(** The handler on a keyboard that has an empty buffer at index 0. *)
Definition mods_of (k : keyboard) : keyboard :=
  Keyboard (extend_flag k) (crtl_status k) (shift_status k) (alt_status k) (caps_lock_status k) ∅ 0.

Definition emits (scancode : Z) (k : keyboard) : option Z :=
  let k' := keyboard_input_handler scancode (mods_of k) in
  if k_index k' =? 1 then Some (keyboard_output_buffer k' !!! 0) else None.

Lemma handler_split scancode k :
  keyboard_input_handler scancode k =
    match emits scancode k with
    | Some c => put_char c k
    | None =>
        let k' := keyboard_input_handler scancode (mods_of k) in
        Keyboard (extend_flag k') (crtl_status k') (shift_status k') (alt_status k')
          (caps_lock_status k') (keyboard_output_buffer k) (k_index k)
    end.
Proof.
  destruct k as [e c s a l b i]. unfold emits, keyboard_input_handler, mods_of, key_char, put_char.
  simpl. repeat (case_match; simpl; try reflexivity; try discriminate);
    simplify_eq; rewrite ?lookup_total_insert_eq; reflexivity.
Qed.

(** The modifiers after a code. *)
Lemma handler_mods scancode k :
  mods_of (keyboard_input_handler scancode k) = mods_of (keyboard_input_handler scancode (mods_of k)).
Proof.
  destruct k as [e c s a l b i]. unfold keyboard_input_handler, mods_of, key_char, put_char. simpl.
  repeat (case_match; simpl; try reflexivity).
Qed.

(** The characters that a sequence of codes puts in the buffer. *)
Fixpoint emitted (codes : list Z) (k : keyboard) : list Z :=
  match codes with
  | [] => []
  | c :: codes =>
      match emits c k with Some x => [x] | None => [] end
      ++ emitted codes (mods_of (keyboard_input_handler c (mods_of k)))
  end.

Definition final_mods (codes : list Z) (k : keyboard) : keyboard :=
  foldl (fun k c => mods_of (keyboard_input_handler c k)) (mods_of k) codes.

Lemma mods_of_idem k : mods_of (mods_of k) = mods_of k.
Proof. reflexivity. Qed.

Lemma emitted_mods codes k : emitted codes k = emitted codes (mods_of k).
Proof. destruct codes; reflexivity. Qed.

(** Every character goes to the next place of the buffer. *)
Lemma handle_all_spec codes k :
  0 <= k_index k -> k_index k + Z.of_nat (length (emitted codes k)) < 2 ^ 32 ->
  let k' := handle_all codes k in
  k_index k' = k_index k + Z.of_nat (length (emitted codes k))
  /\ mods_of k' = final_mods codes k
  /\ (forall j c, emitted codes k !! j = Some c ->
        keyboard_output_buffer k' !!! (k_index k + Z.of_nat j) = c)
  /\ (forall a, a < k_index k \/ k_index k + Z.of_nat (length (emitted codes k)) <= a ->
        keyboard_output_buffer k' !!! a = keyboard_output_buffer k !!! a).
Proof.
  revert k. induction codes as [|c codes IH]; intros k H0 Hb; cbv zeta.
  - simpl. split; [lia|]. split; [reflexivity|]. split; [intros j c E; discriminate E|reflexivity].
  - simpl emitted in *. simpl handle_all. set (k1 := keyboard_input_handler c k).
    assert (mods_of k1 = mods_of (keyboard_input_handler c (mods_of k))) as Em by apply handler_mods.
    rewrite length_app in *. rewrite <- Em, <- emitted_mods in *.
    pose proof (handler_split c k) as E. fold k1 in E.
    assert (final_mods (c :: codes) k = final_mods codes k1) as Ef.
    { unfold final_mods. simpl. rewrite Em. reflexivity. }
    rewrite Ef. destruct (emits c k) as [x|] eqn:Ex; simpl length in *; simpl app in *.
    + assert (k_index k1 = k_index k + 1) as Ei.
      { rewrite E. simpl. apply u32_small. unfold in_u32. lia. }
      destruct (IH k1) as (I1 & I2 & I3 & I4); [lia|lia|]. rewrite I1, Ei.
      split; [lia|]. split; [exact I2|]. split.
      * intros [|j] y Ey; simpl in Ey.
        -- simplify_eq. rewrite I4 by lia. rewrite E. simpl.
           replace (k_index k + Z.of_nat 0) with (k_index k) by lia. apply lookup_total_insert_eq.
        -- rewrite <- (I3 j y Ey). f_equal. lia.
      * intros a Ha. rewrite I4 by lia. rewrite E. simpl. apply lookup_total_insert_ne. lia.
    + assert (k_index k1 = k_index k) as Ei by (rewrite E; reflexivity).
      destruct (IH k1) as (I1 & I2 & I3 & I4); [lia|lia|]. rewrite Ei in *.
      split; [lia|]. split; [exact I2|]. split; [exact I3|].
      intros a Ha. rewrite I4 by lia. rewrite E. reflexivity.
Qed.

(** ** One character *)

Definition mods (ctrl alt caps : bool) : keyboard := Keyboard 0 (b2z ctrl) 0 (b2z alt) (b2z caps) ∅ 0.

Definition mods_eqb (k k' : keyboard) : bool :=
  (extend_flag k =? extend_flag k') && (crtl_status k =? crtl_status k')
  && (shift_status k =? shift_status k') && (alt_status k =? alt_status k')
  && (caps_lock_status k =? caps_lock_status k').

Lemma mods_eqb_eq k k' : mods_eqb k k' = true -> mods_of k = mods_of k'.
Proof. unfold mods_eqb, mods_of. intros H. reflect_bools. congruence. Qed.

Definition types_char (ctrl alt caps : bool) (c : Z) : bool :=
  match emitted (type_char caps c) (mods ctrl alt caps) with
  | [x] => (x =? c) && mods_eqb (final_mods (type_char caps c) (mods ctrl alt caps)) (mods ctrl alt caps)
  | _ => false
  end.

Lemma all_characters :
  forallb (fun c => negb (typable c)
    || forallb (fun ctrl => forallb (fun alt => forallb (fun caps => types_char ctrl alt caps c)
         [false; true]) [false; true]) [false; true]) (seqZ 0 128) = true.
Proof. vm_compute. reflexivity. Qed.

Lemma in_bools b : In b [false; true].
Proof. destruct b; simpl; auto. Qed.

Lemma types_char_ok ctrl alt caps c :
  0 <= c < 128 -> typable c = true ->
  emitted (type_char caps c) (mods ctrl alt caps) = [c]
  /\ final_mods (type_char caps c) (mods ctrl alt caps) = mods ctrl alt caps.
Proof.
  intros Hc Ht. pose proof all_characters as H. rewrite forallb_forall in H. specialize (H c).
  rewrite <- list_elem_of_In, elem_of_seqZ in H. specialize (H ltac:(lia)). rewrite Ht in H. change (negb true) with false in H. rewrite orb_false_l in H.
  rewrite forallb_forall in H. specialize (H ctrl (in_bools _)).
  rewrite forallb_forall in H. specialize (H alt (in_bools _)).
  rewrite forallb_forall in H. specialize (H caps (in_bools _)).
  unfold types_char in H. destruct (emitted _ _) as [|x [|]]; try discriminate H.
  apply andb_prop in H as [Hx Hm]. apply Z.eqb_eq in Hx. apply mods_eqb_eq in Hm. subst x.
  split; [reflexivity|].
  assert (forall codes k, final_mods codes k = mods_of (final_mods codes k)) as Ef.
  { intros codes. unfold final_mods. induction codes as [|a codes IH] using rev_ind; intros k; [reflexivity|].
    rewrite foldl_app. reflexivity. }
  rewrite Ef. exact Hm.
Qed.

Lemma emitted_app codes1 codes2 k :
  emitted (codes1 ++ codes2) k = emitted codes1 k ++ emitted codes2 (final_mods codes1 k).
Proof.
  revert k. induction codes1 as [|c codes1 IH]; intros k; simpl.
  - rewrite emitted_mods. reflexivity.
  - rewrite IH, <- app_assoc. do 2 f_equal.
Qed.

Lemma final_mods_app codes1 codes2 k :
  final_mods (codes1 ++ codes2) k = final_mods codes2 (final_mods codes1 k).
Proof.
  unfold final_mods. rewrite foldl_app. f_equal.
  destruct codes1 as [|c codes1] using rev_ind; [reflexivity|]. rewrite foldl_app. reflexivity.
Qed.

Lemma types_text ctrl alt caps s :
  (forall c, c ∈ s -> 0 <= c < 128 /\ typable c = true) ->
  emitted (type_text caps s) (mods ctrl alt caps) = s
  /\ final_mods (type_text caps s) (mods ctrl alt caps) = mods ctrl alt caps.
Proof.
  induction s as [|c s IH]; intros Hs; [split; reflexivity|].
  destruct (Hs c ltac:(set_solver)) as [Hc Ht]. destruct (types_char_ok ctrl alt caps c Hc Ht) as [E1 E2].
  destruct IH as [I1 I2]; [intros d Hd; apply Hs; set_solver|].
  change (type_text caps (c :: s)) with (type_char caps c ++ type_text caps s).
  rewrite emitted_app, final_mods_app, E1, E2, I1, I2. auto.
Qed.

(** ** Property *)

(** [C36] Typing a text of characters of the layout puts that text in the output
    buffer, whatever the state of caps lock, control and alt: one character per
    key stroke, none for the modifier keys and the releases, at the next places.
    The text has to fit behind the index, which is never reset: together these are
    the first 512 characters since the start, and the next one is stored behind the
    buffer ([buffer_overrun]). *)
Theorem keyboard_types_text ctrl alt caps s k :
  mods_of k = mods ctrl alt caps ->
  (forall c, c ∈ s -> 0 <= c < 128 /\ typable c = true) ->
  0 <= k_index k -> k_index k + Z.of_nat (length s) <= keyboard_output_buffer_length ->
  let k' := handle_all (type_text caps s) k in
  k_index k' = k_index k + Z.of_nat (length s)
  /\ mods_of k' = mods_of k
  /\ (forall j c, s !! j = Some c -> keyboard_output_buffer k' !!! (k_index k + Z.of_nat j) = c)
  /\ (forall a, a < k_index k \/ keyboard_output_buffer_length <= a ->
        keyboard_output_buffer k' !!! a = keyboard_output_buffer k !!! a).
Proof.
  intros Hm Hs H0 Hb. cbv zeta. unfold keyboard_output_buffer_length in *.
  destruct (types_text ctrl alt caps s Hs) as [E1 E2].
  pose proof (handle_all_spec (type_text caps s) k H0) as H. cbv zeta in H.
  assert (emitted (type_text caps s) k = s) as E by (rewrite emitted_mods, Hm; exact E1).
  rewrite E in H. destruct H as (H1 & H2 & H3 & H4); [lia|].
  split; [exact H1|]. split; [|split; [exact H3|intros a Ha; apply H4; lia]].
  rewrite H2, Hm, <- E2 at 1. unfold final_mods. rewrite Hm. reflexivity.
Qed.

(** "Hi!", with shift for the first and the last character. *)
Lemma keyboard_types_text_witness :
  type_text false [72; 105; 33] = [0x2A; 0x23; 0xA3; 0xAA; 0x17; 0x97; 0x2A; 0x02; 0x82; 0xAA]
  /\ k_index (handle_all (type_text false [72; 105; 33]) keyboard0) = 3
  /\ keyboard_output_buffer (handle_all (type_text false [72; 105; 33]) keyboard0) !!! 0 = 72.
Proof.
  split; [reflexivity|].
  destruct (keyboard_types_text false false false [72; 105; 33] keyboard0) as (H1 & _ & H3 & _).
  - reflexivity.
  - intros c Hc. rewrite !elem_of_cons, elem_of_nil in Hc.
    destruct Hc as [->|[->|[->|[]]]]; (split; [lia|reflexivity]).
  - discriminate.
  - discriminate.
  - split; [exact H1|exact (H3 0%nat 72 eq_refl)].
Defined.

(** ** Types and bounds *)

(** The flags have the values the code gives them, and the buffer holds characters
    of the layout. *)
Record well_typed (k : keyboard) : Prop := {
  wt_extend : extend_flag k = EXTEND_CODE_FLUSH \/ extend_flag k = EXTEND_CODE_PREFIX;
  wt_ctrl : crtl_status k = KEY_RELEASED \/ crtl_status k = KEY_PRESSED;
  wt_shift : shift_status k = KEY_RELEASED \/ shift_status k = KEY_PRESSED;
  wt_alt : alt_status k = KEY_RELEASED \/ alt_status k = KEY_PRESSED;
  wt_caps : caps_lock_status k = KEY_RELEASED \/ caps_lock_status k = KEY_PRESSED;
  wt_index : in_u32 (k_index k);
  wt_chars : forall a, 0 <= keyboard_output_buffer k !!! a < 128
}.

Lemma key_range code o : 0 <= key code o < 128.
Proof.
  unfold key. destruct (nth_in_or_default (Z.to_nat code) keymap (0, 0)) as [Hin| ->]; [|destruct (o =? 0); simpl; lia].
  assert (forallb (fun p => (0 <=? fst p) && (fst p <? 128) && (0 <=? snd p) && (snd p <? 128)) keymap = true) as Hm by reflexivity.
  rewrite forallb_forall in Hm. specialize (Hm _ Hin). reflect_bools. destruct (o =? 0); lia.
Qed.

Lemma key_char_range code k c : key_char code k = Some c -> 0 <= c < 128.
Proof. unfold key_char. repeat case_match; intros E; try discriminate; injection E as <-; apply key_range. Qed.

Lemma handler_typed code k : well_typed k -> well_typed (keyboard_input_handler code k).
Proof.
  intros [T1 T2 T3 T4 T5 T6 T7]. unfold keyboard_input_handler.
  destruct (extend_flag k =? EXTEND_CODE_PREFIX).
  - repeat case_match; split; simpl; auto.
  - repeat (match goal with |- well_typed (if ?b then _ else _) => destruct b end; [split; simpl; auto; fail|]).
    destruct (code =? CAPS_LOCK_PRESSED); [split; simpl; auto; case_match; auto|].
    destruct (key_char code k) as [c|] eqn:E; [|split; assumption]. split; simpl; auto.
    + unfold in_u32, u32. apply Z.mod_pos_bound. lia.
    + intros a. destruct (decide (k_index k = a)) as [<-|Ha].
      * rewrite (lookup_total_insert_eq (M := gmap Z)). apply (key_char_range code k), E.
      * rewrite (lookup_total_insert_ne (M := gmap Z)) by exact Ha. apply T7.
Qed.

Lemma emitted_length codes k : (length (emitted codes k) <= length codes)%nat.
Proof.
  revert k. induction codes as [|c codes IH]; intros k; [apply le_n|]. cbn [emitted length]. rewrite length_app.
  specialize (IH (mods_of (keyboard_input_handler c (mods_of k)))). destruct (emits c k); simpl; lia.
Qed.

(** [C37] Whatever bytes come from the keyboard, its state stays well typed: the
    modifiers are pressed or released, the buffer holds ASCII characters, the map
    is only read at the keys it has.  At most one character is stored for a byte,
    at the places from the index on, so that up to 512 of them stay inside the
    buffer; the index counts them. *)
Theorem keyboard_stays_typed codes k :
  well_typed k -> k_index k + Z.of_nat (length codes) <= keyboard_output_buffer_length ->
  let k' := handle_all codes k in
  well_typed k' /\ k_index k <= k_index k' <= k_index k + Z.of_nat (length codes)
  /\ (forall a, a < k_index k \/ k_index k' <= a -> keyboard_output_buffer k' !!! a = keyboard_output_buffer k !!! a)
  /\ (forall code c, in_u8 code -> key_char code k = Some c -> code < Z.of_nat (length keymap)).
Proof.
  intros T Hl k'. assert (well_typed k') as T'.
  { unfold k', handle_all. clear Hl k'. revert k T. induction codes as [|c codes IH]; intros k T; [exact T|]. apply IH, handler_typed, T. }
  pose proof (wt_index _ T) as Hi. pose proof (emitted_length codes k). unfold in_u32, keyboard_output_buffer_length in *.
  destruct (handle_all_spec codes k) as (E & _ & _ & F); [lia|lia|]. fold k' in E, F.
  split; [exact T'|]. split; [lia|]. split; [intros a Ha; apply F; lia|].
  intros code c [H0 _]. unfold key_char. destruct (Z.ltb_spec 0x3A code); [discriminate|]. intros _. change (Z.of_nat (length keymap)) with 59. lia.
Qed.

Lemma keyboard_stays_typed_witness :
  well_typed (handle_all (seqZ 0 256) keyboard0) /\ k_index (handle_all (seqZ 0 256) keyboard0) <= 256.
Proof.
  destruct (keyboard_stays_typed (seqZ 0 256) keyboard0) as (T & [_ I] & _).
  - split; try (left; reflexivity); [split; [discriminate|reflexivity]|]. intros a.
    change (0 <= (∅ : gmap Z Z) !!! a < 128). rewrite lookup_total_empty. split; [discriminate|reflexivity].
  - vm_compute. discriminate.
  - split; [exact T|]. exact I.
Defined.

(** The index of the buffer is never tested: the character after the 512th is
    stored behind the buffer. *)
Lemma buffer_overrun :
  keyboard_output_buffer (keyboard_input_handler 0x1E (Keyboard 0 0 0 0 0 ∅ 512)) !!! 512 = 97.
Proof. reflexivity. Qed.
