(* ===== verification/Mmu.v ===== *)
(** * What the processor does with the page tables

    [walk] is the translation of an address by two levels of tables, as the
    hardware does it with the words of the memory of [Vmm].  The lemmas relate it to
    the entries that vmm.c writes and reads. *)

From S2P Require Import Prelude Pmm Vmm VmmProofs.

Section mmu.
Context {Pool : Type}.
Implicit Types s : vmm Pool.

(** Entries have four bytes and are valid when their lowest bit is set.  The
    physical address [p] is word [p + off] of the memory. *)
Definition walk (off : Z) s (va : Z) : option Z :=
  let pde := rd s (vm_cr3 s + off + 4 * PGD_INDEX va) in
  if Z.testbit pde 0 then
    let pte := rd s (Z.land pde PAGE_MASK + off + 4 * PTE_INDEX va) in
    if Z.testbit pte 0 then Some (Z.land pte PAGE_MASK + va mod PAGE_SIZE) else None
  else None.

Lemma present t : (PAGE_SIZE | t) -> Z.testbit (t + 3) 0 = true.
Proof. intros [q ->]. rewrite Z.bit0_odd. unfold PAGE_SIZE. rewrite Z.odd_add, Z.odd_mul. simpl. rewrite andb_false_r. reflexivity. Qed.

(** A valid entry of each level. *)
Lemma walk_entries off s va t p :
  (PAGE_SIZE | t) -> (PAGE_SIZE | p) -> 0 <= t -> 0 <= p -> t + PAGE_SIZE <= 2 ^ 32 -> p + PAGE_SIZE <= 2 ^ 32 ->
  rd s (vm_cr3 s + off + 4 * PGD_INDEX va) = t + 3 -> rd s (t + off + 4 * PTE_INDEX va) = p + 3 ->
  walk off s va = Some (p + va mod PAGE_SIZE).
Proof.
  intros Ht Hp Ht0 Hp0 Ht1 Hp1 E1 E2. unfold walk. rewrite E1, present by exact Ht.
  rewrite (mask_add t) by (try assumption; unfold PAGE_SIZE in *; lia). rewrite E2, present by exact Hp.
  rewrite (mask_add p) by (try assumption; unfold PAGE_SIZE in *; lia). reflexivity.
Qed.

Lemma walk_absent off s va : rd s (vm_cr3 s + off + 4 * PGD_INDEX va) = 0 -> walk off s va = None.
Proof. intros E. unfold walk. rewrite E. reflexivity. Qed.

(** A loaded directory: its tables are marked present, and there is no table at
    physical page 0. *)
Record loaded (pd : Z) s : Prop := {
  ld_cr3 : vm_cr3 s + PAGE_OFFSET = pd;
  ld_present : forall i, 0 <= i < 1024 -> Z.testbit (rd s (pd + 4 * i)) 0 = negb (table_of s pd i =? 0)
}.

(** Translation reads the entry that [get_mapping] reads. *)
Lemma walk_entry pd s va :
  loaded pd s ->
  walk PAGE_OFFSET s va
  = if Z.testbit (entry s pd va) 0 then Some (Z.land (entry s pd va) PAGE_MASK + va mod PAGE_SIZE) else None.
Proof.
  intros [Ec Ep]. unfold walk, entry. rewrite Ec. rewrite Ep by apply PGD_INDEX_range. fold (table_of s pd (PGD_INDEX va)).
  destruct (table_of s pd (PGD_INDEX va) =? 0); reflexivity.
Qed.

Lemma walk_mapped pd s va p :
  loaded pd s -> (PAGE_SIZE | p) -> 0 <= p -> p + PAGE_SIZE <= 2 ^ 32 -> entry s pd va = p + 3 ->
  walk PAGE_OFFSET s va = Some (p + va mod PAGE_SIZE).
Proof.
  intros L Hd H0 H1 E. rewrite (walk_entry _ _ _ L), E, present, mask_add by (try assumption; unfold PAGE_SIZE in *; lia).
  reflexivity.
Qed.

Lemma walk_ext pd s s' va :
  loaded pd s -> loaded pd s' -> entry s' pd va = entry s pd va -> walk PAGE_OFFSET s' va = walk PAGE_OFFSET s va.
Proof. intros L L' E. rewrite (walk_entry _ _ _ L), (walk_entry _ _ _ L'), E. reflexivity. Qed.
End mmu.

(** ** Runs of [map] *)

Section range.
Context {Pool : Type} `{PageSourceLaws Pool}.
Implicit Types s : vmm Pool.

(** The next [k] requests for the page of a table are served. *)
Fixpoint has_pages (k : nat) (pool : Pool) : Prop :=
  match k with
  | O => True
  | S k => exists p pool', page_alloc SIZEOF_PAGE_SIZE pool = Some (p, pool') /\ p <> 0 /\ has_pages k pool'
  end.

Definition flags3 : Z := Z.lor PAGE_PRESENT PAGE_WRITE.

Lemma flags3_ok : 0 <= flags3 < PAGE_SIZE.
Proof. split; [discriminate|reflexivity]. Qed.

(** Writing an entry leaves the directory as it is. *)
Lemma set_entry_dir pd va v s k :
  vm_ok pd s -> table_of s pd (PGD_INDEX va) <> 0 -> 0 <= k < 1024 ->
  rd (wr (word_at (u32 (table_of s pd (PGD_INDEX va) + PAGE_OFFSET)) (PTE_INDEX va)) v s) (pd + 4 * k) = rd s (pd + 4 * k).
Proof.
  intros V Hn Hk. pose proof (PGD_INDEX_range va) as Hi. destruct (vo_pd _ _ V) as (Hpd & _).
  destruct (table_page _ _ _ V Hi Hn) as (-> & Hd & Hh). pose proof (table_of_range _ _ _ V Hi) as [_ Hr].
  destruct (vo_table _ _ V _ Hi Hn) as (_ & Hne & _).
  rewrite word_at_small by (unfold PAGE_OFFSET in *; lia || apply PTE_INDEX_range).
  apply rd_wr_ne, page_apart; auto using PTE_INDEX_range.
Qed.

Lemma table_of_ext pd s s' k : rd s' (pd + 4 * k) = rd s (pd + 4 * k) -> table_of s' pd k = table_of s pd k.
Proof. intros E. unfold table_of. rewrite E. reflexivity. Qed.

(** The directory after one page has been mapped. *)
Record mapped_in (pd i p : Z) s s' : Prop := {
  mi_word : forall k, 0 <= k < 1024 -> k <> i -> rd s' (pd + 4 * k) = rd s (pd + 4 * k);
  mi_page : (PAGE_SIZE | p) /\ 0 < p /\ p + PAGE_SIZE <= 2 ^ 32;
  mi_new : rd s' (pd + 4 * i) = p + 3 \/ table_of s pd i = p /\ rd s' (pd + 4 * i) = rd s (pd + 4 * i)
}.

Lemma mapped_loaded pd i p s s' :
  0 <= i < 1024 -> mapped_in pd i p s s' -> vm_cr3 s' = vm_cr3 s -> loaded pd s ->
  loaded pd s' /\ table_of s' pd i = p
  /\ (forall k, 0 <= k < 1024 -> k <> i -> table_of s' pd k = table_of s pd k).
Proof.
  intros Hi [Hw (Hd & Hp & Hp2) Hn] Ec [L1 L2].
  assert (table_of s' pd i = p /\ Z.testbit (rd s' (pd + 4 * i)) 0 = true) as [Et Eb].
  { destruct Hn as [E|[<- E]].
    - unfold table_of. rewrite E. split; [apply mask_add; unfold PAGE_SIZE in *; try assumption; lia|apply present, Hd].
    - split; [apply table_of_ext, E|]. rewrite E, L2 by exact Hi. rewrite (proj2 (Z.eqb_neq _ _)) by lia. reflexivity. }
  assert (forall k, 0 <= k < 1024 -> k <> i -> table_of s' pd k = table_of s pd k) as Ht
    by (intros k Hk Hki; apply table_of_ext, Hw; assumption).
  split; [|split; [exact Et|exact Ht]]. split; [rewrite Ec; exact L1|].
  intros k Hk. destruct (Z.eq_dec k i) as [->|Hki].
  - rewrite Eb, Et, (proj2 (Z.eqb_neq _ _)) by lia. reflexivity.
  - rewrite Hw, Ht, L2 by assumption. reflexivity.
Qed.

Lemma cr3_for n i body s :
  (forall k s, vm_cr3 (body k s) = vm_cr3 s) -> vm_cr3 (for_loop n i body s) = vm_cr3 s.
Proof. revert i s. induction n as [|n IH]; intros i s Hb; simpl; [reflexivity|]. rewrite IH; auto. Qed.

(** One page, present and writable. *)
Lemma map_page pd va pa s k :
  vm_ok pd s -> loaded pd s -> in_u32 va -> (PAGE_SIZE | pa) -> 0 <= pa -> pa + PAGE_SIZE <= 2 ^ 32 ->
  has_pages (if table_of s pd (PGD_INDEX va) =? 0 then S k else k) (vm_pool s) ->
  exists s', map pd va pa flags3 s = Some s' /\ vm_ok pd s' /\ loaded pd s'
    /\ entry s' pd va = pa + 3
    /\ (forall va', in_u32 va' -> va' / PAGE_SIZE <> va / PAGE_SIZE -> entry s' pd va' = entry s pd va')
    /\ table_of s' pd (PGD_INDEX va) <> 0
    /\ (forall i, 0 <= i < 1024 -> i <> PGD_INDEX va -> table_of s' pd i = table_of s pd i)
    /\ has_pages k (vm_pool s')
    /\ (if table_of s pd (PGD_INDEX va) =? 0
        then page_alloc SIZEOF_PAGE_SIZE (vm_pool s) = Some (table_of s' pd (PGD_INDEX va), vm_pool s')
        else vm_pool s' = vm_pool s /\ table_of s' pd (PGD_INDEX va) = table_of s pd (PGD_INDEX va)).
Proof.
  intros V L Hva Hd Hpa Hpb Hp. pose proof (PGD_INDEX_range va) as Hi.
  assert (Z.lor (Z.land pa PAGE_MASK) flags3 = pa + 3) as Ev.
  { replace pa with (pa + 0) at 1 by lia. rewrite mask_add by (try assumption; unfold PAGE_SIZE in *; lia).
    apply (lor_flags pa 3 Hd). unfold PAGE_SIZE. lia. }
  unfold map. rewrite (pd_entry _ _ _ V), Ev.
  destruct (Z.eqb_spec (table_of s pd (PGD_INDEX va)) 0) as [Hz|Hn].
  - destruct Hp as (p & pool' & Ea & Hp0 & Hp).
    destruct (page_alloc_ok SIZEOF_PAGE_SIZE (vm_pool s)) as (p2 & pool2 & E2 & Hok & HF);
      [apply (vo_pool _ _ V)|split; [reflexivity|discriminate]|].
    rewrite Ea in E2. injection E2 as <- <-. destruct HF as [[-> _]|F]; [contradiction|].
    rewrite Ea. cbn [mbind option_bind]. fold (with_table pd (PGD_INDEX va) p flags3 pool' s).
    destruct (with_table_ok pd (PGD_INDEX va) p flags3 pool' s V Hi flags3_ok Hz Hok F) as (V' & Et & Ee).
    destruct (with_table_mem pd (PGD_INDEX va) p flags3 pool' s V Hi F) as (Ep & Ew & _ & Eo).
    assert (vm_cr3 (with_table pd (PGD_INDEX va) p flags3 pool' s) = vm_cr3 s) as Ec
      by (unfold with_table, memset_page; rewrite cr3_for by reflexivity; reflexivity).
    set (s1 := with_table pd (PGD_INDEX va) p flags3 pool' s) in *.
    assert (table_of s1 pd (PGD_INDEX va) <> 0) as Hn1 by (rewrite Et; exact Hp0).
    destruct (set_entry_ok pd va (pa + 3) s1 V' Hva Hn1) as (V2 & E2 & E3).
    pose proof (set_entry_dir pd va (pa + 3) s1) as Hdir. rewrite Et in V2, E2, E3, Hdir.
    eexists. split; [reflexivity|]. set (s2 := wr _ _ s1) in *.
    destruct F as (F1 & F2 & F3 & F4 & _).
    destruct (mapped_loaded pd (PGD_INDEX va) p s s2 Hi) as (M1 & M2 & M3); [|exact Ec|exact L|].
    { split; [|split; [exact F2|split; [exact F1|unfold PAGE_SIZE in *; lia]]|left].
      - intros j Hj Hji. unfold s2. rewrite Hdir by assumption. destruct (vo_pd _ _ V) as (Hpd & _).
        apply Eo; [exact Hpd| |exact Hj|lia]. intros E. apply (vo_pd_free _ _ V). replace (pd - PAGE_OFFSET) with p by lia. exact F4.
      - unfold s2. rewrite Hdir by assumption. rewrite Ew. apply (lor_flags p 3 F2). unfold PAGE_SIZE. lia. }
    split; [exact V2|]. split; [exact M1|]. split; [exact E2|].
    split; [intros va' Hva' Hne; rewrite E3 by assumption; apply Ee|]. split; [rewrite M2; exact Hp0|]. split; [exact M3|].
    unfold s2 at 1 3. rewrite vm_pool_wr, Ep. split; [exact Hp|]. rewrite M2. reflexivity.
  - destruct (set_entry_ok pd va (pa + 3) s V Hva Hn) as (V2 & E2 & E3).
    pose proof (set_entry_dir pd va (pa + 3) s) as Hdir. cbn [mbind option_bind].
    eexists. split; [reflexivity|]. set (s2 := wr _ _ s) in *. pose proof (table_of_range _ _ _ V Hi) as [Ht Ht2].
    destruct (vo_table _ _ V _ Hi Hn) as (Ht3 & _).
    destruct (mapped_loaded pd (PGD_INDEX va) (table_of s pd (PGD_INDEX va)) s s2 Hi) as (M1 & M2 & M3); [|reflexivity|exact L|].
    { split; [intros j Hj _; apply Hdir; assumption|split; [exact Ht|lia]|right].
      split; [reflexivity|]. apply Hdir; assumption. }
    split; [exact V2|]. split; [exact M1|]. split; [exact E2|]. split; [exact E3|]. split; [rewrite M2; exact Hn|].
    split; [exact M3|]. split; [exact Hp|]. split; [reflexivity|exact M2].
Qed.

Lemma has_pages_le j k pool : (j <= k)%nat -> has_pages k pool -> has_pages j pool.
Proof.
  revert k pool. induction j as [|j IH]; intros k pool Hle Hp; [exact I|]. destruct k as [|k]; [lia|].
  destruct Hp as (p & pool' & E & Hn & Hp). exists p, pool'. split; [exact E|]. split; [exact Hn|]. apply (IH k); [lia|exact Hp].
Qed.

(** [n] pages from [va] on to the pages from [pa] on. *)
Definition map_pages (pd va pa : Z) (n : nat) s : option (vmm Pool) :=
  for_loop n 0 (fun i acc => s ← acc; map pd (u32 (va + i * PAGE_SIZE)) (u32 (pa + i * PAGE_SIZE)) flags3 s) (Some s).

(** Tables that are needed, at most, from page [j] on. *)
Definition tables_left (pd va last j : Z) s : nat :=
  let i := PGD_INDEX (va + j * PAGE_SIZE) in
  Z.to_nat (last - i + if table_of s pd i =? 0 then 1 else 0).

Section run.
Context (pd va pa : Z) (n : nat) (s0 : vmm Pool).
Context (Hva : (PAGE_SIZE | va)) (Hva2 : 0 <= va) (Hva3 : va + Z.of_nat n * PAGE_SIZE <= 2 ^ 32).
Context (Hpa : (PAGE_SIZE | pa)) (Hpa2 : 0 <= pa) (Hpa3 : pa + Z.of_nat n * PAGE_SIZE <= 2 ^ 32).
Let last := PGD_INDEX (va + (Z.of_nat n - 1) * PAGE_SIZE).

Definition outside (j x : Z) : Prop := x < va \/ va + j * PAGE_SIZE <= x.

Record run_to (j : Z) (acc : option (vmm Pool)) (s : vmm Pool) : Prop := {
  rt_some : acc = Some s;
  rt_ok : vm_ok pd s;
  rt_loaded : loaded pd s;
  rt_in : forall i, 0 <= i < j -> entry s pd (va + i * PAGE_SIZE) = pa + i * PAGE_SIZE + 3;
  rt_out : forall x, in_u32 x -> outside j x -> entry s pd x = entry s0 pd x;
  rt_left : j < Z.of_nat n -> has_pages (tables_left pd va last j s) (vm_pool s)
}.

(** The table of page [j] is in place, so the pages behind it need at most those
    of the later directory entries. *)
Lemma tables_next j s :
  0 <= j < Z.of_nat n - 1 -> table_of s pd (PGD_INDEX (va + j * PAGE_SIZE)) <> 0 ->
  (tables_left pd va last (j + 1) s <= Z.to_nat (last - PGD_INDEX (va + j * PAGE_SIZE)))%nat.
Proof.
  intros Hj Ht. unfold tables_left. cbv zeta. unfold PAGE_SIZE in *. set (x := va + j * 4096) in *.
  replace (va + (j + 1) * 4096) with (x + 4096) by (unfold x; lia).
  assert (PGD_INDEX (x + 4096) = PGD_INDEX x \/ PGD_INDEX (x + 4096) = PGD_INDEX x + 1) as [->| ->].
  { rewrite !PGD_INDEX_div by (unfold in_u32, x in *; lia). Z.to_euclidean_division_equations; lia. }
  - rewrite (proj2 (Z.eqb_neq _ _)) by exact Ht. lia.
  - destruct (_ =? 0); lia.
Qed.

Lemma run_step j acc s :
  0 <= j < Z.of_nat n -> run_to j acc s ->
  exists s', run_to (j + 1) (s ← acc; map pd (u32 (va + j * PAGE_SIZE)) (u32 (pa + j * PAGE_SIZE)) flags3 s) s'.
Proof.
  intros Hj [-> V L Hin Hout Hl]. cbn [mbind option_bind]. unfold PAGE_SIZE in *.
  rewrite !u32_small by (unfold in_u32; lia). set (x := va + j * 4096) in *.
  assert (in_u32 x) as Hx by (unfold in_u32, x; lia).
  assert (0 <= last - PGD_INDEX x) as Hlast.
  { unfold last. rewrite !PGD_INDEX_div by (unfold in_u32 in *; unfold PAGE_SIZE; lia). apply Z.le_0_sub, Z.div_le_mono; unfold x, PAGE_SIZE; lia. }
  destruct (map_page pd x (pa + j * 4096) s (Z.to_nat (last - PGD_INDEX x)) V L Hx) as (s' & E & V' & L' & E1 & E2 & Et & Ek & Hp & _).
  - apply Z.divide_add_r; [exact Hpa|exists j; unfold PAGE_SIZE; lia].
  - lia.
  - unfold PAGE_SIZE. lia.
  - refine (has_pages_le _ _ _ _ (Hl ltac:(lia))). unfold tables_left, PAGE_SIZE. fold x. cbv zeta. destruct (_ =? 0); lia.
  - exists s'. split; [exact E|exact V'|exact L'| | |].
    + intros i Hi. destruct (Z.eq_dec i j) as [->|]; [exact E1|]. rewrite E2; [apply Hin; lia|unfold in_u32, PAGE_SIZE; lia|].
      destruct Hva as [q ->]. unfold x, PAGE_SIZE. rewrite <- !Z.mul_add_distr_r, !Z.div_mul by lia. lia.
    + intros y Hy Ho. rewrite E2; [apply Hout; [exact Hy|unfold outside, PAGE_SIZE in *; lia]|exact Hy|].
      unfold outside, PAGE_SIZE, x in *. destruct Hva as [q Eq]. rewrite Eq in *. unfold PAGE_SIZE in *.
      rewrite <- Z.mul_add_distr_r, Z.div_mul by lia. intros Ed.
      pose proof (Z.div_mod y 4096). pose proof (Z.mod_pos_bound y 4096). lia.
    + intros Hj2. refine (has_pages_le _ _ _ _ Hp). apply (tables_next j s' ltac:(lia) Et).
Qed.

(** Where the pages of the range are. *)
Lemma run_walk acc s :
  run_to (Z.of_nat n) acc s ->
  forall x, 0 <= x < Z.of_nat n * PAGE_SIZE -> walk PAGE_OFFSET s (va + x) = Some (pa + x).
Proof.
  intros [_ _ L' Hin _ _].
  intros x Hx. unfold PAGE_SIZE in *. pose proof (Z.div_mod x 4096 ltac:(lia)) as Ex. pose proof (Z.mod_pos_bound x 4096 ltac:(lia)) as Hm.
  assert (0 <= x / 4096 < Z.of_nat n) as Hq by (split; [apply Z.div_pos; lia|apply Z.div_lt_upper_bound; lia]).
  destruct Hva as [q Eq]. unfold PAGE_SIZE in Eq.
  assert (E1 : entry s pd (va + x) = pa + x / 4096 * 4096 + 3).
  { rewrite <- (Hin _ Hq). apply entry_page; [unfold in_u32; lia|unfold in_u32; lia|]. unfold PAGE_SIZE. rewrite Eq.
    rewrite (Z.add_comm (q * 4096) x), <- Z.mul_add_distr_r, Z.div_mul, Z.div_add by lia. lia. }
  rewrite (walk_mapped _ _ _ (pa + x / 4096 * 4096) L'); [|apply Z.divide_add_r; [exact Hpa|eexists; reflexivity]|lia|unfold PAGE_SIZE; lia|exact E1].
  f_equal. unfold PAGE_SIZE. rewrite Eq. rewrite Z.add_comm, (Z.add_comm (q * 4096)), Z.mod_add by lia. lia.
Qed.

Lemma map_pages_ok :
  (0 < n)%nat -> vm_ok pd s0 -> loaded pd s0 -> has_pages (tables_left pd va last 0 s0) (vm_pool s0) ->
  exists s, map_pages pd va pa n s0 = Some s /\ vm_ok pd s /\ loaded pd s
    /\ (forall x, 0 <= x < Z.of_nat n * PAGE_SIZE -> walk PAGE_OFFSET s (va + x) = Some (pa + x))
    /\ (forall x, in_u32 x -> outside (Z.of_nat n) x -> walk PAGE_OFFSET s x = walk PAGE_OFFSET s0 x).
Proof.
  intros Hn V L Hp.
  pose proof (for_loop_ind (fun j acc => j <= Z.of_nat n -> exists s, run_to j acc s) n 0
    (fun i acc => s ← acc; map pd (u32 (va + i * PAGE_SIZE)) (u32 (pa + i * PAGE_SIZE)) flags3 s) (Some s0)) as R.
  rewrite Z.add_0_l in R. destruct R as (s & R); [| |lia|].
  - intros _. exists s0. split; [reflexivity|exact V|exact L|intros; lia|reflexivity|intros _; exact Hp].
  - intros j acc Hj IH Hj2. destruct IH as (s & R); [lia|]. apply (run_step j acc s); [lia|exact R].
  - pose proof R as [E V' L' _ Hout _]. exists s. split; [exact E|]. split; [exact V'|]. split; [exact L'|]. split.
    + exact (run_walk _ _ R).
    + intros x Hx Ho. apply (walk_ext pd); [exact L|exact L'|]. apply Hout; assumption.
Qed.
End run.
End range.
