(* ===== verification/Boot.v ===== *)
(** * kernel/kernel/kernel.c: from physical to virtual addresses

    The provisional directory that kernel_main_init turns paging on with, and the
    directory that kernel_main leaves in place, as the processor sees them ([walk]). *)

From S2P Require Import Prelude Pmm PmmProps Vmm VmmProofs VmmPmm Mmu.

Definition STACK_SIZE : Z := 0x4000.

Definition pgd_tmp : Z := 0x1000.
Definition pt0 : Z := 0x2000.
Definition pt1 : Z := 0x3000.

(** Memory and [cr3], the other registers that are set, and the pointer to what
    the boot loader left. *)
Record boot (Pool : Type) := Boot { vm : vmm Pool; cr0 : Z; esp : Z; global_multiboot_ptr : Z }.
Arguments Boot {Pool}. Arguments vm {Pool}. Arguments cr0 {Pool}. Arguments esp {Pool}.
Arguments global_multiboot_ptr {Pool}.

Section code.
Context {Pool : Type} `{PageSource Pool}.
Implicit Types (b : boot Pool) (s : vmm Pool).

Definition upd_vm (f : vmm Pool -> vmm Pool) b : boot Pool := Boot (f (vm b)) (cr0 b) (esp b) (global_multiboot_ptr b).

(** The provisional tables. *)
Definition fill_tmp s : vmm Pool :=
  let s := wr (word_at pgd_tmp 0) (Z.lor (Z.lor pt0 PAGE_PRESENT) PAGE_WRITE) s in
  let s := wr (word_at pgd_tmp (PGD_INDEX PAGE_OFFSET)) (Z.lor (Z.lor pt1 PAGE_PRESENT) PAGE_WRITE) s in
  for_loop 1024 0 (fun i s =>
    let s := wr (word_at pt0 i) (Z.lor (Z.lor (u32 (Z.shiftl i 12)) PAGE_PRESENT) PAGE_WRITE) s in
    wr (word_at pt1 i) (Z.lor (Z.lor (u32 (Z.shiftl i 12)) PAGE_PRESENT) PAGE_WRITE) s) s.

(** Paging is on, but nothing above the provisional tables is set up yet. *)
Definition enable_paging b : boot Pool :=
  let b := upd_vm (fun s => switch_pgd pgd_tmp (fill_tmp s)) b in
  Boot (vm b) (Z.lor (cr0 b) 0x80000000) (esp b) (global_multiboot_ptr b).

(** Up to the call of [kernel_main]; the other arguments are addresses of the linker
    and what the boot loader passed. *)
Definition kernel_main_init (kernel_stack global_multiboot_ptr_tmp pgd_k tables : Z) b : boot Pool :=
  let b := enable_paging b in
  let kernel_stack_top := u32 (kernel_stack + STACK_SIZE) in
  let b := Boot (vm b) (cr0 b) kernel_stack_top (u32 (global_multiboot_ptr_tmp + PAGE_OFFSET)) in
  upd_vm (init_vmm pgd_k tables pt0) b.

(** The first two statements of [kernel_main]. *)
Definition leave_tmp (pgd_k : Z) s : vmm Pool :=
  let s := wr (word_at pgd_k 0) 0 s in
  switch_pgd (u32 (pgd_k - PAGE_OFFSET)) s.

Definition drop_tmp (pgd_k : Z) b : boot Pool := upd_vm (leave_tmp pgd_k) b.

End code.

Section proofs.
Context {Pool : Type} `{PageSourceLaws Pool}.
Implicit Types (b : boot Pool) (s : vmm Pool).

(** The words of the provisional tables. *)
Lemma fill_tmp_words s :
  rd (fill_tmp s) pgd_tmp = pt0 + 3 /\ rd (fill_tmp s) (pgd_tmp + 4 * 768) = pt1 + 3
  /\ forall i, 0 <= i < 1024 -> rd (fill_tmp s) (pt0 + 4 * i) = PAGE_SIZE * i + 3 /\ rd (fill_tmp s) (pt1 + 4 * i) = PAGE_SIZE * i + 3.
Proof.
  unfold fill_tmp. cbv zeta. change (PGD_INDEX PAGE_OFFSET) with 768. change (word_at pgd_tmp 0) with 0x1000. change (word_at pgd_tmp 768) with 0x1C00.
  set (s1 := wr 0x1C00 _ _).
  pose proof (for_loop_ind (fun k s' => k <= 1024 ->
    rd s' 0x1000 = pt0 + 3 /\ rd s' 0x1C00 = pt1 + 3
    /\ forall i, 0 <= i < k -> rd s' (0x2000 + 4 * i) = PAGE_SIZE * i + 3 /\ rd s' (0x3000 + 4 * i) = PAGE_SIZE * i + 3)
    1024 0 (fun i s =>
      let s := wr (word_at pt0 i) (Z.lor (Z.lor (u32 (Z.shiftl i 12)) PAGE_PRESENT) PAGE_WRITE) s in
      wr (word_at pt1 i) (Z.lor (Z.lor (u32 (Z.shiftl i 12)) PAGE_PRESENT) PAGE_WRITE) s) s1) as L.
  apply L; [| |discriminate]; clear L.
  - intros _. split; [|split; [|intros; lia]]; unfold s1; [rewrite rd_wr_ne by discriminate|]; rewrite rd_wr_eq; reflexivity.
  - intros k s2 Hk IH Hk2. destruct IH as (A & B & T); [lia|]. cbv zeta.
    assert (word_at pt0 k = 0x2000 + 4 * k /\ word_at pt1 k = 0x3000 + 4 * k) as [-> ->]
      by (split; apply u32_small; unfold in_u32, pt0, pt1; lia).
    rewrite shift12, u32_small, flags_present_write by ((exists k; lia) || (unfold in_u32, PAGE_SIZE; lia)).
    rewrite !rd_wr_ne by lia. split; [exact A|]. split; [exact B|]. intros i Hi.
    destruct (Z.eq_dec i k) as [->|]; [rewrite rd_wr_eq, rd_wr_ne, rd_wr_eq by lia; auto|].
    rewrite !rd_wr_ne by lia. apply T. lia.
Qed.

(** The low 4 MiB appear twice. *)
Lemma walk_tmp s a :
  0 <= a < 2 ^ 22 ->
  let s' := switch_pgd pgd_tmp (fill_tmp s) in walk 0 s' a = Some a /\ walk 0 s' (PAGE_OFFSET + a) = Some a.
Proof.
  intros Ha. cbv zeta. destruct (fill_tmp_words s) as (A & B & T).
  destruct (linear_address a) as (E1 & E2 & E3); [unfold KERNEL_NORMAL_ZONE_SIZE; lia|].
  rewrite (Z.div_small a (2 ^ 22)) in E1, E2, E3 by lia.
  assert (PGD_INDEX a = 0 /\ PTE_INDEX a = a / PAGE_SIZE) as [F1 F2].
  { rewrite PGD_INDEX_div, PTE_INDEX_div by (unfold in_u32; lia). rewrite (Z.div_small a) by lia. split; [reflexivity|].
    change (2 ^ 12) with PAGE_SIZE. apply Z.mod_small. unfold PAGE_SIZE.
    split; [apply Z.div_pos; lia|apply Z.div_lt_upper_bound; lia]. }
  assert (0 <= a / PAGE_SIZE < 1024) as Hq
    by (unfold PAGE_SIZE; split; [apply Z.div_pos; lia|apply Z.div_lt_upper_bound; lia]).
  assert (PTE_INDEX (PAGE_OFFSET + a) = a / PAGE_SIZE) as E4 by lia.
  assert (Ea : PAGE_SIZE * (a / PAGE_SIZE) + a mod PAGE_SIZE = a) by (symmetry; apply Z.div_mod; discriminate).
  assert ((PAGE_OFFSET + a) mod PAGE_SIZE = a mod PAGE_SIZE) as Em.
  { change PAGE_OFFSET with (0xC0000 * PAGE_SIZE). rewrite Z.add_comm. apply Z.mod_add. discriminate. }
  destruct (T _ Hq) as [T0 T1]. split.
  - rewrite <- Ea at 2. apply (walk_entries 0 _ _ pt0); rewrite ?rd_switch_pgd, ?vm_cr3_switch_pgd, ?F1, ?F2, ?Z.add_0_r; try assumption;
      try (unfold PAGE_SIZE, pt0 in *; lia); [exists 2; reflexivity|eexists; apply Z.mul_comm].
  - rewrite <- Em in Ea. rewrite <- Ea at 2. apply (walk_entries 0 _ _ pt1); rewrite ?rd_switch_pgd, ?vm_cr3_switch_pgd, ?E1, ?E4, ?Z.add_0_r; try assumption;
      try (unfold PAGE_SIZE, pt1 in *; lia); [exists 3; reflexivity|eexists; apply Z.mul_comm].
Qed.

(** Where the linker put the kernel's directory and its tables. *)
Record linked (pgd_k tables : Z) : Prop := {
  lk_dir : (PAGE_SIZE | pgd_k) /\ PAGE_OFFSET <= pgd_k /\ pgd_k + PAGE_SIZE <= 2 ^ 32;
  lk_tables : (PAGE_SIZE | tables) /\ PAGE_OFFSET < tables
    /\ tables + PAGE_SIZE * KERNEL_NORMAL_ZONE_DIRECTORY_SIZE <= 2 ^ 32;
  lk_apart : pgd_k + PAGE_SIZE <= tables \/ tables + PAGE_SIZE * KERNEL_NORMAL_ZONE_DIRECTORY_SIZE <= pgd_k
}.

Section directory.
Context (pgd_k tables : Z) (LK : linked pgd_k tables) (s : vmm Pool).
Let s1 := init_vmm pgd_k tables pt0 s.
Let s2 := leave_tmp pgd_k s1.

(** Entry 0 is empty, the others are those of [init_vmm]. *)
Lemma directory_words :
  vm_cr3 s2 + PAGE_OFFSET = pgd_k
  /\ (forall i, 0 <= i < 768 -> rd s2 (pgd_k + 4 * i) = 0)
  /\ (forall i, 0 <= i < 224 -> rd s2 (pgd_k + 4 * (768 + i)) = tables + PAGE_SIZE * i - PAGE_OFFSET + 3)
  /\ (forall i j, 0 <= i < 224 -> 0 <= j < 1024 ->
        rd s2 (tables + PAGE_SIZE * i + 4 * j) = PAGE_SIZE * (i * 1024 + j) + 3)
  /\ (forall i, 992 <= i < 1024 -> rd s2 (pgd_k + 4 * i) = rd s (pgd_k + 4 * i)).
Proof.
  destruct LK as [(D1 & D2 & D3) (T1 & T2 & T3) D].
  destruct (init_vmm_words pgd_k tables pt0 s) as (A & B & C & D0); [assumption..|]. fold s1 in A, B, C, D0.
  change KERNEL_NORMAL_ZONE_DIRECTORY_SIZE with 224 in T3, D. unfold PAGE_OFFSET, PAGE_SIZE in *.
  unfold s2, leave_tmp. cbv zeta. unfold PAGE_OFFSET. setoid_rewrite rd_switch_pgd. rewrite vm_cr3_switch_pgd, word_at_small by (unfold PAGE_SIZE; lia).
  split; [rewrite u32_small by (unfold in_u32; lia); lia|]. split; [|split; [|split]].
  - intros i Hi. destruct (Z.eq_dec i 0) as [->|]; [apply rd_wr_eq|]. rewrite rd_wr_ne by lia. apply A. lia.
  - intros i Hi. rewrite rd_wr_ne by lia. apply B, Hi.
  - intros i j Hi Hj. rewrite rd_wr_ne by lia. apply C; assumption.
  - intros i Hi. rewrite rd_wr_ne by lia. apply D0, Hi.
Qed.

Lemma walk_kernel :
  (forall x, 0 <= x < KERNEL_NORMAL_ZONE_SIZE -> walk PAGE_OFFSET s2 (PAGE_OFFSET + x) = Some x)
  /\ (forall va, 0 <= va < PAGE_OFFSET -> walk PAGE_OFFSET s2 va = None).
Proof.
  destruct directory_words as (W0 & W1 & W2 & W3 & _). clearbody s2. destruct LK as [(D1 & D2 & D3) (T1 & T2 & T3) _].
  change KERNEL_NORMAL_ZONE_DIRECTORY_SIZE with 224 in T3. split.
  - intros x Hx. destruct (linear_address x Hx) as (E1 & E2 & E3).
    pose proof (PTE_INDEX_range (PAGE_OFFSET + x)) as Hj.
    assert (Ea : PAGE_SIZE * (x / PAGE_SIZE) + x mod PAGE_SIZE = x) by (symmetry; apply Z.div_mod; discriminate).
    assert ((PAGE_OFFSET + x) mod PAGE_SIZE = x mod PAGE_SIZE) as Em.
    { change PAGE_OFFSET with (0xC0000 * PAGE_SIZE). rewrite Z.add_comm. apply Z.mod_add. discriminate. }
    assert (0 <= x / PAGE_SIZE /\ PAGE_SIZE * (x / PAGE_SIZE) <= x) as [Hq Hq2]
      by (split; [apply Z.div_pos; [lia|reflexivity]|apply Z.mul_div_le; reflexivity]).
    unfold KERNEL_NORMAL_ZONE_SIZE in Hx. rewrite <- Em in Ea. rewrite <- Ea at 2.
    apply (walk_entries _ _ _ (tables + PAGE_SIZE * (x / 2 ^ 22) - PAGE_OFFSET)).
    + destruct T1 as [q ->]. exists (q + x / 2 ^ 22 - 0xC0000). unfold PAGE_OFFSET, PAGE_SIZE. lia.
    + eexists. apply Z.mul_comm.
    + unfold PAGE_OFFSET, PAGE_SIZE in *. lia.
    + unfold PAGE_SIZE in *. lia.
    + unfold PAGE_OFFSET, PAGE_SIZE in *. lia.
    + unfold PAGE_SIZE in *. lia.
    + rewrite W0, E1. apply W2, E2.
    + rewrite <- E3, <- (W3 _ _ E2 Hj). f_equal. lia.
  - intros va Hva. apply walk_absent. rewrite W0. apply W1.
    rewrite PGD_INDEX_div by (unfold in_u32, PAGE_OFFSET in *; lia). unfold PAGE_OFFSET in Hva.
    split; [apply Z.div_pos; lia|apply Z.div_lt_upper_bound; lia].
Qed.

(** A directory with the words of [directory_words] is well formed, with whatever
    allocator stands behind it, when its last entries are empty and the pages of
    its tables are not free. *)
Lemma words_ok s3 :
  vm_cr3 s3 + PAGE_OFFSET = pgd_k ->
  (forall i, 0 <= i < 1024 -> i < 768 \/ 992 <= i -> rd s3 (pgd_k + 4 * i) = 0) ->
  (forall i, 0 <= i < 224 -> rd s3 (pgd_k + 4 * (768 + i)) = tables + PAGE_SIZE * i - PAGE_OFFSET + 3) ->
  tables + PAGE_SIZE * 224 <= PAGE_OFFSET + 2 ^ 30 -> ps_ok (vm_pool s3) ->
  ~ ps_free (vm_pool s3) (pgd_k - PAGE_OFFSET) ->
  (forall i, 0 <= i < 224 -> ~ ps_free (vm_pool s3) (tables + PAGE_SIZE * i - PAGE_OFFSET)) ->
  vm_ok pgd_k s3 /\ loaded pgd_k s3
  /\ forall i, 0 <= i < 1024 -> table_of s3 pgd_k i <> 0 ->
       exists j, 0 <= j < 224 /\ table_of s3 pgd_k i = tables + PAGE_SIZE * j - PAGE_OFFSET.
Proof.
  intros W0 Z0 W2 Hhigh Hok Hfree Hfree2. clear s1 s2.
  destruct LK as [(D1 & D2 & D3) (T1 & T2 & T3) Hdis]. change KERNEL_NORMAL_ZONE_DIRECTORY_SIZE with 224 in T3, Hdis.
  unfold PAGE_OFFSET, PAGE_SIZE in *.
  assert (forall i, 0 <= i < 224 -> table_of s3 pgd_k (768 + i) = tables + 4096 * i - 0xC0000000) as Ht.
  { intros i Hi. unfold table_of. rewrite W2 by exact Hi. apply mask_add; unfold PAGE_SIZE; try lia.
    destruct T1 as [q Eq]. exists (q + i - 0xC0000). unfold PAGE_SIZE. lia. }
  assert (forall i, 0 <= i < 1024 -> table_of s3 pgd_k i <> 0 -> exists j, i = 768 + j /\ 0 <= j < 224) as Hin.
  { intros i Hi Hn. exists (i - 768). split; [lia|]. destruct (decide (i < 768 \/ 992 <= i)) as [Ho|Ho]; [|lia].
    exfalso. apply Hn. unfold table_of. rewrite Z0 by assumption. reflexivity. }
  assert (forall i, 0 <= i < 1024 -> in_u32 (rd s3 (pgd_k + 4 * i))
            /\ Z.testbit (rd s3 (pgd_k + 4 * i)) 0 = negb (table_of s3 pgd_k i =? 0)) as Hw.
  { intros i Hi. destruct (decide (i < 768 \/ 992 <= i)) as [Ho|Ho].
    - unfold table_of. rewrite Z0 by assumption. split; [split; [discriminate|reflexivity]|reflexivity].
    - replace i with (768 + (i - 768)) by lia. rewrite Ht, W2 by lia. unfold in_u32. split; [lia|].
      rewrite present, (proj2 (Z.eqb_neq _ _)) by (lia || (destruct T1 as [q Eq]; exists (q + (i - 768) - 0xC0000); unfold PAGE_SIZE; lia)).
      reflexivity. }
  split; [split|split; [split|]].
  - exact Hok.
  - unfold PAGE_OFFSET, PAGE_SIZE. auto.
  - exact Hfree.
  - intros i Hi. apply Hw, Hi.
  - intros i Hi Hn. destruct (Hin i Hi Hn) as (j & -> & Hj). rewrite Ht by exact Hj.
    unfold PAGE_OFFSET, PAGE_SIZE. split; [lia|]. split; [lia|]. apply Hfree2, Hj.
  - intros i j Hi Hj Hn E. destruct (Hin i Hi Hn) as (k & -> & Hk). rewrite E in Hn.
    destruct (Hin j Hj Hn) as (k2 & -> & Hk2). rewrite !Ht in E by assumption. lia.
  - exact W0.
  - intros i Hi. apply Hw, Hi.
  - intros i Hi Hn. destruct (Hin i Hi Hn) as (j & -> & Hj). exists j. split; [exact Hj|apply Ht, Hj].
Qed.

Lemma rd_pool (s3 : vmm Pool) (p : Pool) a : rd (Vmm (vm_mem s3) p (vm_cr3 s3)) a = rd s3 a.
Proof. reflexivity. Qed.

Lemma other_pool s4 p :
  vm_cr3 s4 + PAGE_OFFSET = pgd_k ->
  (forall i, 0 <= i < 1024 -> i < 768 \/ 992 <= i -> rd s4 (pgd_k + 4 * i) = 0) ->
  (forall i, 0 <= i < 224 -> rd s4 (pgd_k + 4 * (768 + i)) = tables + PAGE_SIZE * i - PAGE_OFFSET + 3) ->
  tables + PAGE_SIZE * 224 <= PAGE_OFFSET + 2 ^ 30 -> ps_ok p ->
  ~ ps_free p (pgd_k - PAGE_OFFSET) ->
  (forall i, 0 <= i < 224 -> ~ ps_free p (tables + PAGE_SIZE * i - PAGE_OFFSET)) ->
  let s3 := Vmm (vm_mem s4) p (vm_cr3 s4) in
  vm_ok pgd_k s3 /\ loaded pgd_k s3
  /\ forall i, 0 <= i < 1024 -> table_of s3 pgd_k i <> 0 ->
       exists j, 0 <= j < 224 /\ table_of s3 pgd_k i = tables + PAGE_SIZE * j - PAGE_OFFSET.
Proof.
  intros W0 Z0 W2 Hhigh Hok Hfree Hfree2. apply words_ok; try assumption; intros i Hi; rewrite rd_pool; auto.
Qed.

Lemma directory_ok p :
  (forall i, 992 <= i < 1024 -> rd s (pgd_k + 4 * i) = 0) ->
  tables + PAGE_SIZE * 224 <= PAGE_OFFSET + 2 ^ 30 -> ps_ok p ->
  ~ ps_free p (pgd_k - PAGE_OFFSET) ->
  (forall i, 0 <= i < 224 -> ~ ps_free p (tables + PAGE_SIZE * i - PAGE_OFFSET)) ->
  let s3 := Vmm (vm_mem s2) p (vm_cr3 s2) in
  vm_ok pgd_k s3 /\ loaded pgd_k s3
  /\ forall i, 0 <= i < 1024 -> table_of s3 pgd_k i <> 0 ->
       exists j, 0 <= j < 224 /\ table_of s3 pgd_k i = tables + PAGE_SIZE * j - PAGE_OFFSET.
Proof.
  intros Hrest Hhigh Hok Hfree Hfree2. destruct directory_words as (W0 & W1 & W2 & _ & W4).
  apply (other_pool s2 p W0); [|exact W2|exact Hhigh|exact Hok|exact Hfree|exact Hfree2].
  intros i Hi [H1|H1]; [apply W1; lia|]. rewrite W4 by lia. apply Hrest. lia.
Qed.
End directory.

Lemma loader_pointer kernel_stack loader pgd_k tables b :
  global_multiboot_ptr (drop_tmp pgd_k (kernel_main_init kernel_stack loader pgd_k tables b)) = u32 (loader + PAGE_OFFSET).
Proof. reflexivity. Qed.

(** [C20] Paging is turned on over tables that show the first 4 MiB of memory both
    where they were and at [PAGE_OFFSET], so the code that turns it on keeps
    running; when [kernel_main] has taken over, all of the kernel zone is at
    [PAGE_OFFSET], no user address is mapped, paging is still on, the stack is the
    kernel's, and the boot loader's data is where the pointer says. *)
Theorem boot_paging kernel_stack loader pgd_k tables b :
  linked pgd_k tables -> 0 <= loader < KERNEL_NORMAL_ZONE_SIZE -> 0 <= kernel_stack <= 2 ^ 32 - STACK_SIZE - 1 ->
  let b1 := enable_paging b in
  let b2 := drop_tmp pgd_k (kernel_main_init kernel_stack loader pgd_k tables b) in
  Z.testbit (cr0 b1) 31 = true
  /\ (forall a, 0 <= a < 2 ^ 22 -> walk 0 (vm b1) a = Some a /\ walk 0 (vm b1) (PAGE_OFFSET + a) = Some a)
  /\ Z.testbit (cr0 b2) 31 = true
  /\ (forall x, 0 <= x < KERNEL_NORMAL_ZONE_SIZE -> walk PAGE_OFFSET (vm b2) (PAGE_OFFSET + x) = Some x)
  /\ (forall va, 0 <= va < PAGE_OFFSET -> walk PAGE_OFFSET (vm b2) va = None)
  /\ esp b2 = kernel_stack + STACK_SIZE
  /\ walk PAGE_OFFSET (vm b2) (global_multiboot_ptr b2) = Some loader.
Proof.
  intros LK Hl Hk. cbv zeta.
  assert (Z.testbit (Z.lor (cr0 b) 0x80000000) 31 = true) as Hp by (rewrite Z.lor_spec; apply orb_true_r).
  destruct (walk_kernel pgd_k tables LK (vm (enable_paging b))) as [K1 K2].
  split; [exact Hp|]. split; [intros a Ha; apply walk_tmp, Ha|]. split; [exact Hp|]. split; [exact K1|]. split; [exact K2|].
  split; [apply u32_small; unfold in_u32, STACK_SIZE in *; lia|].
  rewrite loader_pointer. rewrite u32_small, Z.add_comm by (unfold in_u32, KERNEL_NORMAL_ZONE_SIZE, PAGE_OFFSET in *; lia).
  exact (K1 loader Hl).
Qed.
End proofs.

(** The kernel at 1 MiB, as in the instances of [VmmPmm]. *)
Lemma boot_paging_witness :
  let b2 := drop_tmp 0xC0100000 (kernel_main_init 0xC01E1000 0x9000 0xC0100000 0xC0101000 (Boot (VmmPmm.empty_vmm (PmmProps.boot_zone 1024)) 0 0 0)) in
  walk PAGE_OFFSET (vm b2) 0xC00B8000 = Some 0xB8000 /\ walk PAGE_OFFSET (vm b2) 0xB8000 = None.
Proof.
  destruct (boot_paging 0xC01E1000 0x9000 0xC0100000 0xC0101000 (Boot (VmmPmm.empty_vmm (PmmProps.boot_zone 1024)) 0 0 0))
    as (_ & _ & _ & K1 & K2 & _).
  - split; [split; [exists 0xC0100; reflexivity|split; discriminate]|split; [exists 0xC0101; reflexivity|split; [reflexivity|discriminate]]|left; discriminate].
  - split; [discriminate|reflexivity].
  - split; discriminate.
  - split; [exact (K1 0xB8000 ltac:(split; [discriminate|reflexivity]))|apply K2; split; [discriminate|reflexivity]].
Defined.
