(* ===== verification/Reserve.v ===== *)
(** * Frames that are in use elsewhere

    The frame allocator serves several clients.  Seen by one of them, some of the
    frames that are handed out belong to others: [reserved_laws z G] is the
    interface of [KmmSpec] for the same functions of pmm.c, in the zone [z], where
    the pages [G] are reserved.  What is proved of [kmalloc] against the interface
    then says that it never touches a reserved page. *)

From S2P Require Import Prelude KMath Pmm PmmSpec PmmLemmas PmmState PmmProofs PmmInit PmmProps.
From S2P Require Import KmmSpec KmmPmm.
From S2P Require Kmm VmmPmm.

Record zone := Zone { z_base : Z; z_frames : Z; z_number : Z }.

Definition zone_of (s : pmm) : zone :=
  Zone (nm_base (normal_mem s)) (nm_frames (normal_mem s)) (frames_number s).

(** The page at the physical address [q] lies in a block that is handed out. *)
Definition held (s : pmm) (q : Z) : Prop :=
  exists i l j, used_block s i l /\ in_block i l j /\ q = frame_addr s j.

(** The pages of a block. *)
Definition block_pages (s : pmm) (i l q : Z) : Prop := exists j, in_block i l j /\ q = frame_addr s j.

Lemma frame_addr_inj s i j : frame_addr s i = frame_addr s j -> i = j.
Proof. unfold frame_addr, PAGE_FRAME_SIZE. lia. Qed.

Lemma zone_same s s' : same_table s s' -> zone_of s' = zone_of s.
Proof. intros (E1 & E2 & E3 & _). unfold zone_of. rewrite E1, E2, E3. reflexivity. Qed.

Lemma frame_addr_zone s s' j : zone_of s' = zone_of s -> frame_addr s' j = frame_addr s j.
Proof. intros E. injection E as E _ _. unfold frame_addr. rewrite E. reflexivity. Qed.

Lemma single_held s q : frames_single s q -> held s q.
Proof. intros (i & U & ->). exists i, 0, i. split; [exact U|]. split; [unfold in_block; lia|reflexivity]. Qed.

(** A new block takes pages that nobody held. *)
Section got.
Context (s : pmm) (l i top : Z) (s' : pmm) (B : buddy_ok s) (G : get_ok s l i top s').

Lemma got_fresh q : block_pages s i l q -> ~ held s q.
Proof.
  intros (j & Hj & ->) (a & k & j2 & U & Hin & E). apply frame_addr_inj in E. subst j2.
  destruct G as (F & Ht & _).
  assert (in_block i top j) as Hj2.
  { unfold in_block in *. assert (2 ^ l <= 2 ^ top) by (apply Z.pow_le_mono_r; lia). lia. }
  assert (i = a) as -> by (apply (VmmPmm.blocks_same s i top a k j B); auto).
  destruct F as (_ & F & _), U as (_ & U & _). rewrite F in U. discriminate U.
Qed.

Lemma got_held q : held s' q <-> held s q \/ block_pages s i l q.
Proof.
  destruct G as (_ & _ & _ & _ & St & Hu & _). pose proof (fun j => frame_addr_zone s s' j (zone_same _ _ St)) as Ea. split.
  - intros (a & k & j & U & Hj & ->). rewrite Ea. apply Hu in U as [U|[-> ->]]; [left; exists a, k, j; auto|right; exists j; auto].
  - intros [(a & k & j & U & Hj & ->)|(j & Hj & ->)]; rewrite <- Ea.
    + exists a, k, j. split; [apply Hu; auto|auto].
    + exists i, l, j. split; [apply Hu; auto|auto].
Qed.

Lemma got_single_old q : frames_single s q -> frames_single s' q.
Proof.
  destruct G as (_ & _ & _ & _ & St & Hu & _). intros (j & U & ->). exists j. split; [apply Hu; auto|].
  symmetry. apply frame_addr_zone, zone_same, St.
Qed.
End got.

Section reserved.
Context (z : zone) (G : Z -> Prop).

Definition res_ok (s : pmm) : Prop := frames_ok s /\ zone_of s = z /\ forall q, G q -> held s q.
Definition res_single (s : pmm) (q : Z) : Prop := frames_single s q /\ ~ G q.

(** One page more. *)
Lemma res_got s i top s' :
  res_ok s -> get_ok s 0 i top s' ->
  res_ok s' /\ ~ res_single s (frame_addr s i) /\ fs_same s s'
  /\ (forall r, res_single s' r <-> res_single s r \/ r = frame_addr s i).
Proof.
  intros (K & Ez & Hg) O. pose proof (proj1 K) as B. destruct (frames_got s i top s' K O) as (K' & Hn & Hs & Hr).
  assert (~ G (frame_addr s i)) as Hng.
  { intros Hi. apply (got_fresh s 0 i top s' B O (frame_addr s i)); [|apply Hg, Hi]. exists i. split; [unfold in_block; lia|reflexivity]. }
  split; [|split; [|split; [exact Hs|]]].
  - split; [exact K'|]. split; [rewrite <- Ez; apply zone_same, O|]. intros q Hq. apply (got_held s 0 i top s' O). left. apply Hg, Hq.
  - intros [S _]. apply Hn, S.
  - intros r. unfold res_single. rewrite Hr. split; [tauto|]. intros [| ->]; tauto.
Qed.

Lemma res_frame_alloc s :
  res_ok s ->
  exists f s', frame_alloc 1 s = Some (f, s') /\
    ((f = 0 /\ s' = s)
     \/ (exists q, res_ok s' /\ frame_ptr s' (phys_index s' q) = f /\ ~ res_single s q /\ fs_same s s'
           /\ forall r, res_single s' r <-> res_single s r \/ r = q)).
Proof.
  intros R. pose proof R as (K & _). pose proof K as (B & T & _). unfold frame_alloc. rewrite request_level by lia. cbn [mbind option_bind].
  change (Z.log2_up 1) with 0.
  destruct (get_block_spec s 0 B ltac:(unfold BUDDY_MAXLEVEL; lia)) as [(i & top & s' & E & O)|[E _]].
  - exists (frame_ptr s i), s'. split; [exact E|]. right. exists (frame_addr s i).
    destruct (res_got s i top s' R O) as (R' & Hn & Hs & Hg).
    destruct (get_ok_fits s 0 i top s' B ltac:(lia) O) as (Hi & _).
    destruct O as (_ & _ & _ & _ & St & _). destruct (same_table_frames s s' St) as (E1 & _ & E3 & _).
    split; [exact R'|]. split; [|auto]. rewrite E1, E3. f_equal. apply (physic_index s s i (same_table_refl s) T Hi).
  - exists 0, s. auto.
Qed.

Lemma res_physic_alloc s :
  res_ok s ->
  exists q s', physic_alloc Pmm.PAGE_FRAME_SIZE s = Some (q, s') /\
    ((q = 0 /\ s' = s)
     \/ (res_ok s' /\ ~ res_single s q /\ fs_same s s'
           /\ forall r, res_single s' r <-> res_single s r \/ r = q)).
Proof.
  intros R. pose proof R as (K & _). pose proof K as (B & T & _).
  destruct (physic_alloc_cases s Pmm.PAGE_FRAME_SIZE B T ltac:(unfold Pmm.PAGE_FRAME_SIZE; lia)) as [(i & top & s' & E & O)|[E _]].
  - rewrite one_frame_count in O. exists (frame_addr s i), s'. split; [exact E|]. right. apply (res_got s i top s' R O).
  - exists 0, s. auto.
Qed.

Lemma res_set_allocator s q v :
  res_ok s -> res_single s q -> in_u32 v ->
  let s' := upd_page (frame_of s (frame_ptr s (phys_index s q))) (set_frame_allocator v) s in
  res_ok s' /\ (forall r, res_single s' r <-> res_single s r)
  /\ (clean_heads s /\ quiet_tail s -> clean_heads s' /\ quiet_tail s')
  /\ (forall x, pf_physic_addr (page s' (frame_of s' x)) = pf_physic_addr (page s (frame_of s x))
        /\ frame_ptr s' (phys_index s' x) = frame_ptr s (phys_index s x))
  /\ pf_allocator (page s' (frame_of s' (frame_ptr s (phys_index s q)))) = v
  /\ (forall r, res_single s r -> r <> q ->
        pf_allocator (page s' (frame_of s' (frame_ptr s (phys_index s r))))
        = pf_allocator (page s (frame_of s (frame_ptr s (phys_index s r))))).
Proof.
  intros (K & Ez & Hg) [S Hn] Hv. destruct (frames_set_allocator s q v K S Hv) as (K' & H1 & H2 & H3 & H4 & H5).
  set (f := frame_of s (frame_ptr s (phys_index s q))) in *.
  split; [|split; [|split; [exact H2|split; [exact H3|split; [exact H4|]]]]].
  - split; [exact K'|]. split; [exact Ez|]. intros r Hr. destruct (Hg r Hr) as (a & k & j & U & Hj & ->).
    exists a, k, j. split; [apply owner_used, U|auto].
  - intros r. unfold res_single. rewrite H1. reflexivity.
  - intros r [Sr _] Hne. apply H5; assumption.
Qed.

Lemma res_physic_free s q :
  res_ok s -> clean_heads s /\ quiet_tail s -> res_single s q ->
  exists v s', physic_free q s = Some (v, s') /\ res_ok s' /\ fs_same s s'
    /\ (forall r, res_single s' r <-> res_single s r /\ r <> q).
Proof.
  intros (K & Ez & Hg) [C Q] [Sq Hnq]. destruct (single_index s q K Sq) as (i & U & Eq & Ei & _). pose proof K as (B & T & _).
  destruct (frames_free s q K (conj C Q) Sq) as (v & s' & E & K' & Hs & Hr).
  destruct (free_block_spec s i 0 B C Q U) as (s2 & E2 & B' & _ & St & Hu & _).
  assert (s2 = s') as ->.
  { unfold physic_free in E. destruct (frames_page s q K Sq) as ((Hq & _) & _).
    rewrite (proj2 (Z.eqb_neq q 0)) in E by lia. fold (phys_index s q) in E. rewrite Ei, E2 in E. injection E as _ E. exact E. }
  exists v, s'. split; [exact E|]. split; [|split; [exact Hs|]].
  - split; [exact K'|]. split; [rewrite <- Ez; apply zone_same, St|]. intros r Hgr. destruct (Hg r Hgr) as (a & k & j & Ua & Hj & ->).
    exists a, k, j. split; [|split; [exact Hj|symmetry; apply frame_addr_zone, zone_same, St]].
    apply Hu. split; [exact Ua|]. intros Ea. subst a. apply Hnq.
    destruct U as (_ & _ & U2), Ua as (_ & _ & U3). unfold in_block in Hj. assert (k = 0) as -> by congruence.
    assert (j = i) as -> by lia. subst q. exact Hgr.
  - intros r. unfold res_single. rewrite Hr. tauto.
Qed.

Definition reserved_laws : FrameSourceLaws pmm := {|
  fs_ok := res_ok;
  fs_single := res_single;
  fs_releasable s := clean_heads s /\ quiet_tail s;
  fs_page s q R S := frames_page s q (proj1 R) (proj1 S);
  fs_frame_alloc_ok := res_frame_alloc;
  fs_physic_alloc_ok := res_physic_alloc;
  fs_set_allocator_ok := res_set_allocator;
  fs_physic_free_ok := res_physic_free
|}.
End reserved.
