(* ===== verification/Machine.v ===== *)
(** * Heap and page tables on one zone of frames

    [kmalloc], [map] and the blocks of whole pages all take their memory from the
    allocator of pmm.c.  This file puts them on one state, the [machine], and
    follows everything they hand out: nothing of it ever overlaps. *)

From S2P Require Import Prelude KMath Heap Pmm PmmSpec PmmProofs PmmProps.
From S2P Require Import Vmm VmmProofs VmmPmm Mmu.
From S2P Require Import KmmPages KmmSpec KmmProofs KmmPmm Reserve.
From S2P Require Kmm KmmProps Boot.

(** ** Moving the heap to another pool *)

Section pools.
Context {P : Type} `{Kmm.FrameSource P} (L1 L2 : FrameSourceLaws P).
Context (s : Kmm.kmm P) (p' : P).
Context (Hs : forall r, fs_single (FrameSourceLaws := L1) (Kmm.pool s) r -> fs_single (FrameSourceLaws := L2) p' r).
Context (Hf : fs_same (Kmm.pool s) p').

Lemma pool_page_of m k : page_of (Kmm.set_pool p' s) m k = page_of s m k.
Proof. unfold page_of, Kmm.target_addr. apply Hf. Qed.

Lemma pool_base_of m k : base_of (Kmm.set_pool p' s) m k = base_of s m k.
Proof. unfold base_of. rewrite pool_page_of. reflexivity. Qed.

(** The invariant reads the pool only at the pages of the heap. *)
Lemma kmm_ok_pool Ms X :
  fs_ok (FrameSourceLaws := L2) p' -> kmm_ok (H0 := L1) s Ms X -> kmm_ok (H0 := L2) (Kmm.set_pool p' s) Ms X.
Proof.
  intros Hok [K1 K2 K3 K4 K5 K6 K7]. split; try assumption.
  - intros i m Hi Hm. destruct (K6 i m Hi Hm) as [M1 M2 M3 M4]. split; [apply Hs, M1|exact M2|exact M3|].
    intros k Hk Ha. destruct (M4 k Hk Ha) as [A1 A2 A3 A4 A5].
    split; rewrite ?pool_base_of, ?pool_page_of; [apply Hs, A1| | |exact A4|exact A5].
    + change (Kmm.pool (Kmm.set_pool p' s)) with p'. destruct (Hf (page_of s m k)) as (_ & -> & _). exact A2.
    + change (Kmm.pool (Kmm.set_pool p' s)) with p'. destruct (Hf (page_of s m k)) as (_ & -> & _). destruct (Hf (Kmm.fs_frame_at (Kmm.pool s) (page_of s m k))) as (_ & _ & ->). exact A3.
  - intros i j m m' k Hi Hj Hm Hm' Hk Ha. rewrite pool_page_of. apply (K7 i j m m' k); assumption.
Qed.

Lemma pool_live Ms X a n : live (Kmm.set_pool p' s) Ms X a n <-> live s Ms X a n.
Proof.
  split; intros (i & m & k & x & Hsl & En & Ea); exists i, m, k, x; (split; [exact Hsl|split; [exact En|]]);
    rewrite Ea, pool_base_of; reflexivity.
Qed.
End pools.

(** A live block lies in a page of the heap. *)
Lemma live_page {P} `{FrameSourceLaws P} (s : Kmm.kmm P) Ms X a n :
  kmm_ok s Ms X -> live s Ms X a n ->
  exists q, fs_single (Kmm.pool s) q /\ q + PAGE_OFFSET <= a /\ a + n <= q + PAGE_OFFSET + PAGE_SIZE.
Proof.
  intros K (i & m & k & x & (Hi & Hm & Hk & Ha & Hx & _) & -> & ->).
  pose proof (mo_alloc _ _ _ _ (ko_manager _ _ _ K i m Hi Hm) k Hk Ha) as A.
  destruct (slice_inside _ (base_of s m k) x (is_class_size i Hi) Hx) as [S1 S2].
  exists (page_of s m k). split; [apply (ao_single _ _ _ _ _ A)|].
  unfold base_of, Kmm.PAGE_FRAME_SIZE, Kmm.PAGE_OFFSET, PAGE_OFFSET, PAGE_SIZE in *. lia.
Qed.

(** ** The machine *)

(** The words of the page tables, the register of the directory, and the heap with
    the frame allocator behind it. *)
Record machine := Machine { words : gmap Z Z; cr3 : Z; heap : Kmm.kmm pmm }.

Definition vm_of (w : machine) : vmm pmm := Vmm (words w) (Kmm.pool (heap w)) (cr3 w).
Definition set_vm (v : vmm pmm) (w : machine) : machine := Machine (vm_mem v) (vm_cr3 v) (Kmm.set_pool (vm_pool v) (heap w)).
Definition set_heap (k : Kmm.kmm pmm) (w : machine) : machine := Machine (words w) (cr3 w) k.

Definition machine_kmalloc (fuel : nat) (b : Z) (w : machine) : option (Z * machine) :=
  '(a, k) ← Kmm.kmalloc fuel b (heap w); Some (a, set_heap k w).

(** The machine as the heap of its clients.  Each manager of a size class takes a
    frame, so that [heap_fuel] is enough to look at all of them
    ([managers_bound]). *)
Definition heap_fuel (w : machine) : nat := Z.to_nat (frames_number (Kmm.pool (heap w))) + 2.

#[export] Instance machine_heap : Heap machine := {|
  h_kmalloc n w := machine_kmalloc (heap_fuel w) n w;
  h_kfree a w := k ← Kmm.kfree a (heap w); Some (set_heap k w)
|}.

Definition machine_map (pd va pa flags : Z) (w : machine) : option machine :=
  v ← map pd va pa flags (vm_of w); Some (set_vm v w).

(** ** Ranges made of pages *)

(** The page of the physical address of [c]. *)
Definition page_of_addr (c : Z) : Z := (c - PAGE_OFFSET) / PAGE_SIZE * PAGE_SIZE.

(** Every address of the range lies in a page of [S]. *)
Definition covered (S : Z -> Prop) (a n : Z) : Prop := forall c, a <= c < a + n -> S (page_of_addr c).

Definition separate (x y : Z * Z) : Prop := fst x + snd x <= fst y \/ fst y + snd y <= fst x.

Lemma covered_separate (S T : Z -> Prop) a n b k :
  (forall q, S q -> T q -> False) -> 0 < n -> 0 < k -> covered S a n -> covered T b k -> separate (a, n) (b, k).
Proof.
  intros Hd Hn Hk Ha Hb. unfold separate. cbn [fst snd].
  destruct (decide (a + n <= b \/ b + k <= a)) as [|Hs]; [assumption|]. exfalso.
  apply (Hd (page_of_addr (Z.max a b))); [apply Ha|apply Hb]; lia.
Qed.

Lemma covered_mono (S T : Z -> Prop) a n : (forall q, S q -> T q) -> covered S a n -> covered T a n.
Proof. intros Hst Hc c Hin. apply Hst, Hc, Hin. Qed.

Lemma page_of_addr_in q c :
  (PAGE_SIZE | q) -> q + PAGE_OFFSET <= c < q + PAGE_OFFSET + PAGE_SIZE -> page_of_addr c = q.
Proof.
  unfold page_of_addr, PAGE_SIZE. intros [k ->] Hc. f_equal.
  symmetry. apply Z.div_unique with (r := c - PAGE_OFFSET - k * 4096); lia.
Qed.

Lemma separate_sym x y : separate x y -> separate y x.
Proof. unfold separate. tauto. Qed.

Section sharing.
Context (pd : Z) (z : zone).

(** The zone lies behind the directory and inside the linear mapping. *)
Record placed : Prop := {
  pl_dir : PAGE_OFFSET <= pd /\ pd - PAGE_OFFSET + PAGE_SIZE <= z_base z;
  pl_zone : 0 <= z_number z /\ z_base z + PAGE_SIZE * z_number z <= KERNEL_NORMAL_ZONE_SIZE
}.
Context (PL : placed).
Implicit Types (w : machine) (G : Z -> Prop) (p : pmm).

(** Held pages, and pages below the zone, are not free. *)
Lemma held_not_free p q : buddy_ok p -> held p q -> ~ pmm_free p q.
Proof.
  intros B (i & l & j & U & Hj & ->) (a & k & F & Ha). unfold frame_addr in Ha.
  assert (in_block a k j) as Hin by (unfold in_block, PAGE_FRAME_SIZE in *; lia).
  assert (i = a) as -> by (apply (blocks_same p i l a k j B); auto).
  destruct F as (_ & F & _), U as (_ & U & _). rewrite F in U. discriminate U.
Qed.

Lemma below_not_free p q : zone_of p = z -> q + PAGE_SIZE <= z_base z -> ~ pmm_free p q.
Proof.
  intros Ez Hq (a & k & ((Ha & _) & _) & Hp). rewrite <- Ez in Hq. unfold zone_of in Hq. cbn [z_base] in Hq.
  unfold PAGE_FRAME_SIZE, PAGE_SIZE in *. lia.
Qed.

Lemma held_page p q :
  frames_ok p -> zone_of p = z -> held p q ->
  (PAGE_SIZE | q) /\ z_base z <= q /\ q + PAGE_SIZE <= z_base z + PAGE_SIZE * z_number z.
Proof.
  intros (B & T & _) Ez (i & l & j & U & Hj & ->). destruct (free_block_fits p i l B (or_intror U)) as [Hl Hn].
  pose proof (tb_base _ T) as (H1 & H2 & _). rewrite <- Ez. unfold zone_of, frame_addr. cbn [z_base z_number].
  destruct U as (Hi & _). unfold in_block, PAGE_FRAME_SIZE, PAGE_SIZE in *.
  split; [apply Z.divide_add_r; [exact H2|exists j; lia]|]. lia.
Qed.

Definition table_home G (q : Z) : Prop := G q \/ q + PAGE_SIZE <= z_base z.

(** What has been handed out, the heap's blocks and whole pages, never overlaps;
    page tables count as handed out. *)
Record memory_inv w (objs : list (Z * Z)) Ms X G : Prop := {
  iv_heap : kmm_ok (H0 := reserved_laws z G) (heap w) Ms X;
  iv_dir : vm_ok pd (vm_of w);
  iv_loaded : loaded pd (vm_of w);
  iv_tables : forall i, 0 <= i < 1024 -> table_of (vm_of w) pd i <> 0 -> table_home G (table_of (vm_of w) pd i);
  iv_linear : forall x, 0 <= x < KERNEL_NORMAL_ZONE_SIZE -> walk PAGE_OFFSET (vm_of w) (PAGE_OFFSET + x) = Some x;
  iv_obj : forall a n, (a, n) ∈ objs -> (exists m, live (heap w) Ms X a m /\ n <= m) \/ (0 < n /\ covered G a n);
  iv_apart : ForallOrdPairs separate objs
}.

Lemma inv_pool w objs Ms X G : memory_inv w objs Ms X G -> res_ok z G (Kmm.pool (heap w)).
Proof. intros I. apply (ko_pool (H0 := reserved_laws z G) _ _ _ (iv_heap _ _ _ _ _ I)). Qed.

Lemma res_pmm_ok G p : res_ok z G p -> pmm_ok p.
Proof. intros ((B & T & Hb & _) & _). split; [exact B|]. split; [exact T|lia]. Qed.

(** The directory does not mind a change of the pool that keeps its tables held. *)
Lemma dir_pool w p' G :
  vm_ok pd (vm_of w) -> loaded pd (vm_of w) -> res_ok z G p' ->
  (forall i, 0 <= i < 1024 -> table_of (vm_of w) pd i <> 0 -> table_home G (table_of (vm_of w) pd i)) ->
  let s' := Vmm (words w) p' (cr3 w) in vm_ok pd s' /\ loaded pd s'.
Proof.
  intros [V1 V2 V3 V4 V5 V6] [L1 L2] R Ht s'. pose proof R as (K & Ez & Hg). destruct PL as [[P1 P2] _].
  split; [split|split; assumption].
  - apply (res_pmm_ok G p' R).
  - exact V2.
  - apply (below_not_free p' _ Ez). exact P2.
  - exact V4.
  - intros i Hi Hn. destruct (V5 i Hi Hn) as (H1 & H2 & _). split; [exact H1|]. split; [exact H2|].
    destruct (Ht i Hi Hn) as [Hq|Hq]; [apply held_not_free; [apply K|apply Hg, Hq]|apply (below_not_free p' _ Ez Hq)].
  - exact V6.
Qed.

Lemma live_covered G k Ms X a m :
  kmm_ok (H0 := reserved_laws z G) k Ms X -> live k Ms X a m -> 0 < m /\ covered (res_single G (Kmm.pool k)) a m.
Proof.
  intros K Hl. destruct (live_page (H0 := reserved_laws z G) k Ms X a m K Hl) as (q & Sq & Ha & Ha2).
  pose proof (fs_page (FrameSourceLaws := reserved_laws z G) _ q (ko_pool (H0 := reserved_laws z G) _ _ _ K) Sq) as ((_ & Hd & _) & _).
  split.
  - destruct Hl as (i & ? & ? & ? & (Hi & _) & -> & _). pose proof (slice_size_cases _ (is_class_size i Hi)). lia.
  - intros c Hc. rewrite (page_of_addr_in q c); [exact Sq|exact Hd|lia].
Qed.

(** An object is no larger than what covers it. *)
Lemma separate_shrink x a n m : n <= m -> separate x (a, m) -> separate x (a, n).
Proof. unfold separate. cbn [fst snd]. lia. Qed.

Lemma obj_separate w objs Ms X G S b k :
  memory_inv w objs Ms X G -> 0 < k -> covered S b k ->
  (forall q, S q -> res_single G (Kmm.pool (heap w)) q -> False) -> (forall q, S q -> G q -> False) ->
  Forall (separate (b, k)) objs.
Proof.
  intros I Hk Hb Hs Hg. apply Forall_forall. intros [a n] Hin. destruct (iv_obj _ _ _ _ _ I a n Hin) as [(m & Hl & Hnm)|[Hn Hc]].
  - destruct (live_covered G _ _ _ a m (iv_heap _ _ _ _ _ I) Hl) as [Hm Hc]. apply (separate_shrink _ a n m Hnm).
    apply (covered_separate S (res_single G (Kmm.pool (heap w)))); assumption.
  - apply (covered_separate S G); assumption.
Qed.

(** ** Requests of a size class *)

(** The managers of a class are different frames. *)
Lemma managers_bound G k Ms X i :
  kmm_ok (H0 := reserved_laws z G) k Ms X -> is_class i -> (length (Ms i) <= Z.to_nat (frames_number (Kmm.pool k)))%nat.
Proof.
  intros K Hi. set (index m := (m - PAGE_OFFSET - nm_base (normal_mem (Kmm.pool k))) / PAGE_SIZE).
  assert (forall m, m ∈ Ms i -> exists j, 0 <= j < frames_number (Kmm.pool k) /\ m - PAGE_OFFSET = frame_addr (Kmm.pool k) j) as Hm.
  { intros m Hin. pose proof (ko_manager (H0 := reserved_laws z G) _ _ _ K i m Hi Hin) as M.
    destruct (mo_single (H0 := reserved_laws z G) _ _ _ _ M) as ((j & (Hj & _) & Ej) & _).
    exists j. split; [exact Hj|]. unfold Kmm.PAGE_OFFSET, PAGE_OFFSET in *. exact Ej. }
  assert (forall m j, m - PAGE_OFFSET = frame_addr (Kmm.pool k) j -> index m = j) as Hx.
  { intros m j E. unfold index. rewrite E. unfold frame_addr, PAGE_FRAME_SIZE, PAGE_SIZE.
    rewrite Z.add_simpl_l, Z.mul_comm. apply Z.div_mul. discriminate. }
  rewrite <- (length_fmap index), <- (length_seqZ 0 (frames_number (Kmm.pool k))). apply NoDup_incl_length.
  - apply NoDup_ListNoDup, NoDup_fmap_2_strong; [|apply (ko_nodup (H0 := reserved_laws z G) _ _ _ K i Hi)].
    intros a b Ha Hb E. destruct (Hm a Ha) as (j & _ & Ea), (Hm b Hb) as (j2 & _ & Eb).
    rewrite (Hx a j Ea), (Hx b j2 Eb) in E. subst j2. lia.
  - intros j Hj. apply list_elem_of_In, list_elem_of_fmap in Hj as (m & -> & Hin). destruct (Hm m Hin) as (j & Hj & E).
    rewrite (Hx m j E). apply list_elem_of_In, elem_of_seqZ. lia.
Qed.

Lemma fuel_bound (Ms : Z -> list Z) : exists f, forall i, is_class i -> (length (Ms i) + 2 <= f)%nat.
Proof.
  exists (2 + foldr (fun i n => length (Ms i) + n) 0 [0%Z; 1%Z; 2%Z; 3%Z; 4%Z; 5%Z; 6%Z; 7%Z])%nat.
  intros i Hi. apply is_class_cases in Hi. cbn [foldr].
  destruct Hi as [->|[->|[->|[->|[->|[->|[->| ->]]]]]]]; lia.
Qed.

Lemma small_inv w objs Ms X G fuel b a k :
  memory_inv w objs Ms X G -> 0 <= b <= 2048 -> ~ exhausted (Kmm.pool (heap w)) ->
  Kmm.kmalloc fuel b (heap w) = Some (a, k) ->
  exists Ms' X', memory_inv (set_heap k w) ((a, b) :: objs) Ms' X' G.
Proof.
  intros I Hb Hx E. pose proof I as [K V L T Hlin Ho Hd]. destruct (fuel_bound Ms) as [f Hf].
  destruct (KmmProps.kmalloc_small (H0 := reserved_laws z G) (Nat.max fuel f) b (heap w) Ms X K Hb) as (i & a' & k' & Ms' & X' & E' & Hi & Hle & _ & K' & Hl & Ha & _);
    [intros j Hj; specialize (Hf j Hj); lia|exact Hx|].
  rewrite (KmmProps.kmalloc_mono b (heap w) fuel (Nat.max fuel f) _ ltac:(lia) E) in E'. injection E' as <- <-.
  pose proof (ko_pool (H0 := reserved_laws z G) _ _ _ K') as R.
  destruct (dir_pool w (Kmm.pool k) G V L R T) as [V' L'].
  assert (live k Ms' X' a (Kmm.slice_size_of i)) as Hnew by (apply Hl; auto).
  destruct (live_covered G _ _ _ _ _ K' Hnew) as [Hm Hc].
  exists Ms', X'. split; [exact K'|exact V'|exact L'|exact T| | |].
  - intros x Hx2. rewrite <- (Hlin x Hx2). apply (walk_ext pd); [exact L|exact L'|reflexivity].
  - intros c n Hin. apply elem_of_cons in Hin as [Hin|Hin]; [injection Hin as -> ->; left; eauto|].
    destruct (Ho c n Hin) as [(m & Hlm & Hnm)|Hc2]; [left; exists m; split; [apply Hl; auto|exact Hnm]|right; exact Hc2].
  - constructor; [|exact Hd]. apply Forall_forall. intros [c n] Hin.
    apply separate_sym, (separate_shrink _ a b _ Hle).
    destruct (Ho c n Hin) as [(m & Hlm & Hnm)|[Hn Hc2]].
    + apply separate_sym, (separate_shrink _ c n m Hnm), separate_sym. exact (Ha c m Hlm).
    + apply separate_sym. apply (covered_separate (res_single G (Kmm.pool k)) G); try assumption. intros q [_ Hq] Hq2. exact (Hq Hq2).
Qed.

(** ** Whole pages *)

Section block.
Context w objs Ms X G (I : memory_inv w objs Ms X G) (l i top : Z) (p' : pmm).
Context (O : get_ok (Kmm.pool (heap w)) l i top p').

Definition with_block (q : Z) : Prop := G q \/ block_pages (Kmm.pool (heap w)) i l q.

Lemma block_res : res_ok z with_block p'.
Proof.
  destruct (inv_pool _ _ _ _ _ I) as (K & Ez & Hg). pose proof O as (_ & _ & _ & B' & St & _).
  split; [apply (frames_ok_same _ _ St B' K)|]. split; [rewrite <- Ez; apply zone_same, St|].
  intros q Hq. apply (got_held _ _ _ _ _ O). destruct Hq as [Hq|Hq]; [left; apply Hg, Hq|right; exact Hq].
Qed.

Lemma block_fresh q : block_pages (Kmm.pool (heap w)) i l q -> ~ held (Kmm.pool (heap w)) q.
Proof. destruct (inv_pool _ _ _ _ _ I) as ((B & _) & _). apply (got_fresh _ _ _ _ _ B O). Qed.

Lemma block_heap : kmm_ok (H0 := reserved_laws z with_block) (Kmm.set_pool p' (heap w)) Ms X.
Proof.
  pose proof O as (_ & _ & _ & _ & St & _).
  apply (kmm_ok_pool (reserved_laws z G) (reserved_laws z with_block)); [|apply same_table_fs, St|apply block_res|apply (iv_heap _ _ _ _ _ I)].
  intros r [Sr Hr]. split; [apply (got_single_old _ _ _ _ _ O), Sr|].
  intros [Hg|Hb]; [exact (Hr Hg)|]. apply (block_fresh r Hb), single_held, Sr.
Qed.

(** A range of the new pages is a new object. *)
Lemma block_obj a n :
  0 < n -> covered (block_pages (Kmm.pool (heap w)) i l) a n ->
  ForallOrdPairs separate ((a, n) :: objs)
  /\ forall c k, (c, k) ∈ (a, n) :: objs ->
       (exists m, live (Kmm.set_pool p' (heap w)) Ms X c m /\ k <= m) \/ (0 < k /\ covered with_block c k).
Proof.
  intros Hn Hc. destruct (inv_pool _ _ _ _ _ I) as (K & Ez & Hg). pose proof O as (_ & _ & _ & _ & St & _). split.
  - constructor; [|apply (iv_apart _ _ _ _ _ I)]. apply (obj_separate w objs Ms X G (block_pages (Kmm.pool (heap w)) i l)); try assumption.
    + intros q Hb [Sq _]. apply (block_fresh q Hb), single_held, Sq.
    + intros q Hb Hq. apply (block_fresh q Hb), Hg, Hq.
  - intros c k Hin. apply elem_of_cons in Hin as [Hin|Hin].
    + injection Hin as -> ->. right. split; [exact Hn|]. apply (covered_mono (block_pages (Kmm.pool (heap w)) i l)); [right; assumption|exact Hc].
    + destruct (iv_obj _ _ _ _ _ I c k Hin) as [(m & Hl & Hm)|[Hk Hc2]].
      * left. exists m. split; [|exact Hm]. apply pool_live; [apply same_table_fs, St|exact Hl].
      * right. split; [exact Hk|]. apply (covered_mono G); [left; assumption|exact Hc2].
Qed.

(** Addresses of the new pages. *)
Lemma block_covered n :
  n <= PAGE_SIZE * 2 ^ l -> covered (block_pages (Kmm.pool (heap w)) i l) (frame_addr (Kmm.pool (heap w)) i + PAGE_OFFSET) n.
Proof.
  intros Hn c Hc. destruct (inv_pool _ _ _ _ _ I) as ((_ & T & _) & _). pose proof (tb_base _ T) as (_ & [q Eq] & _).
  unfold frame_addr, PAGE_FRAME_SIZE, PAGE_SIZE in *. rewrite Eq in *.
  set (j := (c - PAGE_OFFSET) / 4096 - q). exists j. unfold j, page_of_addr, frame_addr, in_block, PAGE_SIZE, PAGE_FRAME_SIZE. rewrite Eq.
  pose proof (Z.div_mod (c - PAGE_OFFSET) 4096 ltac:(lia)). pose proof (Z.mod_pos_bound (c - PAGE_OFFSET) 4096 ltac:(lia)).
  split; [|lia]. lia.
Qed.
End block.

(** A block of whole pages from [kmalloc]. *)
Lemma large_inv w objs Ms X G fuel b a k :
  memory_inv w objs Ms X G -> 2048 < b <= Kmm.MAX_ALLOC -> a <> PAGE_OFFSET ->
  Kmm.kmalloc fuel b (heap w) = Some (a, k) ->
  exists G', memory_inv (set_heap k w) ((a, b) :: objs) Ms X G'.
Proof.
  intros I Hb Ha E. rewrite KmmProps.kmalloc_large in E by exact Hb. cbn [Kmm.fs_physic_alloc pmm_frames] in E.
  destruct (inv_pool _ _ _ _ _ I) as (K & Ez & _). pose proof K as (B & T & Hz & _). change Kmm.MAX_ALLOC with (2 ^ 22) in Hb.
  destruct (physic_alloc_cases (Kmm.pool (heap w)) b B T ltac:(lia)) as [(i & top & p' & E2 & O)|[E2 _]];
    rewrite E2 in E; cbn [mbind option_bind] in E; injection E as Ea Ek; [|contradiction Ha; exact (eq_sym Ea)].
  fold (frame_addr (Kmm.pool (heap w)) i) in Ea. set (l := Z.log2_up (page_count b)) in *.
  destruct (get_ok_fits _ l i top p' B (Z.log2_up_nonneg _) O) as (Hi & _).
  pose proof (tb_base _ T) as (H1 & _).
  assert (a = frame_addr (Kmm.pool (heap w)) i + PAGE_OFFSET) as ->.
  { rewrite <- Ea. unfold frame_addr, PAGE_FRAME_SIZE, Kmm.PAGE_OFFSET, PAGE_OFFSET in *. apply u32_small. unfold in_u32. lia. }
  destruct (page_count_bounds b ltac:(lia)) as [_ Hpc].
  assert (b <= PAGE_SIZE * 2 ^ l) as Hbl.
  { assert (page_count b <= 2 ^ l) by (apply Z.log2_up_le_pow2; [unfold PAGE_FRAME_SIZE in Hpc; lia|unfold l; lia]).
    unfold PAGE_FRAME_SIZE, PAGE_SIZE in *. lia. }
  destruct (block_obj w objs Ms X G I l i top p' O _ b ltac:(lia) (block_covered w objs Ms X G I l i b Hbl)) as [D1 D2].
  set (G' := with_block w G l i). pose proof I as [_ V L Tb Hlin _ _].
  assert (forall j, 0 <= j < 1024 -> table_of (vm_of w) pd j <> 0 -> table_home G' (table_of (vm_of w) pd j)) as T'.
  { intros j Hj Hn. destruct (Tb j Hj Hn) as [Hg|Hq]; [left; left; exact Hg|right; exact Hq]. }
  destruct (dir_pool w p' G' V L (block_res w objs Ms X G I l i top p' O) T') as [V' L'].
  exists G'. subst k. split; [exact (block_heap w objs Ms X G I l i top p' O)|exact V'|exact L'|exact T'| |exact D2|exact D1].
  intros x Hx. rewrite <- (Hlin x Hx). apply (walk_ext pd); [exact L|exact L'|reflexivity].
Qed.

(** A mapping outside the linear one, which may need a new table. *)
Lemma map_inv w objs Ms X G va pa v :
  memory_inv w objs Ms X G -> in_u32 va -> va < PAGE_OFFSET \/ PAGE_OFFSET + KERNEL_NORMAL_ZONE_SIZE <= va ->
  (PAGE_SIZE | pa) -> 0 <= pa -> pa + PAGE_SIZE <= 2 ^ 32 ->
  has_pages (if table_of (vm_of w) pd (PGD_INDEX va) =? 0 then 1 else 0) (Kmm.pool (heap w)) ->
  map pd va pa flags3 (vm_of w) = Some v ->
  exists G', memory_inv (set_vm v w)
    (if table_of (vm_of w) pd (PGD_INDEX va) =? 0 then (table_of v pd (PGD_INDEX va) + PAGE_OFFSET, PAGE_SIZE) :: objs else objs) Ms X G'.
Proof.
  intros I Hva Hout Hd Hpa Hpb Hp E. pose proof I as [K V L Tb Hlin Ho Hdis].
  destruct (map_page pd va pa (vm_of w) 0 V L Hva Hd Hpa Hpb Hp) as (v' & E' & V' & L' & _ & E2 & Hn & Ht & _ & Hal).
  rewrite E in E'. apply Some_inj in E'. subst v'. pose proof (PGD_INDEX_range va) as Hi. set (j := PGD_INDEX va) in *.
  assert (forall x, 0 <= x < KERNEL_NORMAL_ZONE_SIZE -> walk PAGE_OFFSET v (PAGE_OFFSET + x) = Some x) as Hlin'.
  { intros x Hx. rewrite <- (Hlin x Hx). apply (walk_ext pd); [exact L|exact L'|]. unfold KERNEL_NORMAL_ZONE_SIZE, PAGE_OFFSET in *.
    apply E2; [unfold in_u32; lia|]. unfold PAGE_SIZE. intros Ed.
    pose proof (Z.div_mod va 4096 ltac:(lia)). pose proof (Z.mod_pos_bound va 4096 ltac:(lia)).
    pose proof (Z.div_mod (0xC0000000 + x) 4096 ltac:(lia)). pose proof (Z.mod_pos_bound (0xC0000000 + x) 4096 ltac:(lia)). lia. }
  destruct (Z.eqb_spec (table_of (vm_of w) pd j) 0) as [Hz|Hnz].
  - change (vm_pool (vm_of w)) with (Kmm.pool (heap w)) in Hal. cbn [page_alloc pmm_page_source] in Hal.
    destruct (inv_pool _ _ _ _ _ I) as (KF & Ez & _). pose proof KF as (B & T & Hzb & _).
    destruct (physic_alloc_cases (Kmm.pool (heap w)) SIZEOF_PAGE_SIZE B T ltac:(unfold SIZEOF_PAGE_SIZE; lia)) as [(i & top & p' & Ea & O)|[Ea _]];
      rewrite Ea in Hal; injection Hal as Eq Ep; [|contradiction Hn; exact (eq_sym Eq)].
    change (page_count SIZEOF_PAGE_SIZE) with 1 in O. change (Z.log2_up 1) with 0 in O.
    fold (frame_addr (Kmm.pool (heap w)) i) in Eq. rewrite <- Eq.
    destruct (block_obj w objs Ms X G I 0 i top p' O _ PAGE_SIZE ltac:(reflexivity) (block_covered w objs Ms X G I 0 i PAGE_SIZE ltac:(discriminate))) as [D1 D2].
    exists (with_block w G 0 i). unfold set_vm. rewrite <- Ep. split; try assumption.
    + exact (block_heap w objs Ms X G I 0 i top p' O).
    + unfold vm_of. cbn [words cr3 heap Kmm.pool Kmm.set_pool]. rewrite Ep. destruct v; exact V'.
    + unfold vm_of. cbn [words cr3 heap Kmm.pool Kmm.set_pool]. rewrite Ep. destruct v; exact L'.
    + intros k Hk. change (table_of (vm_of _) pd k) with (table_of v pd k). destruct (Z.eq_dec k j) as [->|Hkj].
      * intros _. left. right. exists i. rewrite <- Eq. split; [unfold in_block; lia|reflexivity].
      * rewrite Ht by assumption. intros Hk2. destruct (Tb k Hk Hk2) as [Hg|Hq]; [left; left; exact Hg|right; exact Hq].
  - destruct Hal as [Ep Et]. change (vm_pool (vm_of w)) with (Kmm.pool (heap w)) in Ep.
    assert (set_vm v w = Machine (vm_mem v) (vm_cr3 v) (heap w)) as -> by (unfold set_vm; rewrite Ep; destruct (heap w); reflexivity).
    assert (vm_of (Machine (vm_mem v) (vm_cr3 v) (heap w)) = v) as Ev by (unfold vm_of; cbn [words cr3 heap]; rewrite <- Ep; destruct v; reflexivity).
    exists G. split; rewrite ?Ev; try assumption.
    intros k Hk. destruct (Z.eq_dec k j) as [->|Hkj]; [rewrite Et|rewrite Ht by assumption]; apply Tb; assumption.
Qed.

(** ** Runs *)

Definition memory_ok w : Prop := exists Ms X G, memory_inv w [] Ms X G.

(** A request for memory that finds the frames it needs, with what has been handed
    out: the blocks of [kmalloc] and the pages that [map] takes for new tables. *)
Inductive mem_step : machine * list (Z * Z) -> machine * list (Z * Z) -> Prop :=
  | request_small fuel b a w w' objs :
      0 <= b <= 2048 -> ~ exhausted (Kmm.pool (heap w)) -> machine_kmalloc fuel b w = Some (a, w') ->
      mem_step (w, objs) (w', (a, b) :: objs)
  | request_large fuel b a w w' objs :
      2048 < b <= Kmm.MAX_ALLOC -> machine_kmalloc fuel b w = Some (a, w') -> a <> PAGE_OFFSET ->
      mem_step (w, objs) (w', (a, b) :: objs)
  | request_map va pa w w' objs :
      in_u32 va -> va < PAGE_OFFSET \/ PAGE_OFFSET + KERNEL_NORMAL_ZONE_SIZE <= va ->
      (PAGE_SIZE | pa) -> 0 <= pa -> pa + PAGE_SIZE <= 2 ^ 32 ->
      has_pages (if table_of (vm_of w) pd (PGD_INDEX va) =? 0 then 1 else 0) (Kmm.pool (heap w)) ->
      machine_map pd va pa flags3 w = Some w' ->
      mem_step (w, objs)
        (w', if table_of (vm_of w) pd (PGD_INDEX va) =? 0
             then (table_of (vm_of w') pd (PGD_INDEX va) + PAGE_OFFSET, PAGE_SIZE) :: objs else objs).

Lemma mem_step_inv w objs w' objs' Ms X G :
  mem_step (w, objs) (w', objs') -> memory_inv w objs Ms X G -> exists Ms' X' G', memory_inv w' objs' Ms' X' G'.
Proof.
  intros St. inversion St as [fuel b a ? ? ? Hb Hx E|fuel b a ? ? ? Hb E Ha|va pa ? ? ? Hva Ho Hd Hp Hp2 Hh E]; subst; intros I.
  - unfold machine_kmalloc in E. destruct (Kmm.kmalloc fuel b (heap w)) as [[a2 k]|] eqn:Ek; [|discriminate E].
    injection E as -> <-. destruct (small_inv w objs Ms X G fuel b a k I Hb Hx Ek) as (Ms' & X' & I'). eauto.
  - unfold machine_kmalloc in E. destruct (Kmm.kmalloc fuel b (heap w)) as [[a2 k]|] eqn:Ek; [|discriminate E].
    injection E as -> <-. destruct (large_inv w objs Ms X G fuel b a k I Hb Ha Ek) as (G' & I'). eauto.
  - unfold machine_map in E. destruct (map pd va pa flags3 (vm_of w)) as [v|] eqn:Ek; [|discriminate E].
    injection E as <-. destruct (map_inv w objs Ms X G va pa v I Hva Ho Hd Hp Hp2 Hh Ek) as (G' & I').
    exists Ms, X, G'. exact I'.
Qed.

Lemma mem_run_inv c c' : rtc mem_step c c' ->
  (exists Ms X G, memory_inv (fst c) (snd c) Ms X G) -> exists Ms X G, memory_inv (fst c') (snd c') Ms X G.
Proof.
  induction 1 as [|[w objs] [w' objs'] c St _ IH]; [auto|]. intros (Ms & X & G & I). apply IH.
  exact (mem_step_inv w objs w' objs' Ms X G St I).
Qed.

(** An object lies in the zone, behind the linear mapping. *)
Lemma obj_zone w objs Ms X G a n c :
  memory_inv w objs Ms X G -> (a, n) ∈ objs -> a <= c < a + n ->
  z_base z <= c - PAGE_OFFSET < z_base z + PAGE_SIZE * z_number z.
Proof.
  intros I Hin Hc. destruct (inv_pool _ _ _ _ _ I) as (K & Ez & Hg).
  assert (held (Kmm.pool (heap w)) (page_of_addr c)) as Hh.
  { destruct (iv_obj _ _ _ _ _ I a n Hin) as [(m & Hl & Hm)|[_ Hcov]]; [|apply Hg, Hcov, Hc].
    destruct (live_covered G _ _ _ a m (iv_heap _ _ _ _ _ I) Hl) as [_ Hcov]. apply single_held, (Hcov c). lia. }
  destruct (held_page _ _ K Ez Hh) as (_ & H1 & H2).
  unfold page_of_addr, PAGE_SIZE in *. pose proof (Z.div_mod (c - PAGE_OFFSET) 4096 ltac:(lia)).
  pose proof (Z.mod_pos_bound (c - PAGE_OFFSET) 4096 ltac:(lia)). lia.
Qed.

Lemma obj_address w objs Ms X G a n c :
  memory_inv w objs Ms X G -> (a, n) ∈ objs -> a <= c < a + n -> 0 <= c - PAGE_OFFSET < KERNEL_NORMAL_ZONE_SIZE.
Proof.
  intros I Hin Hc. pose proof (obj_zone w objs Ms X G a n c I Hin Hc). destruct PL as [[P1 P2] P3].
  unfold PAGE_SIZE in *. lia.
Qed.

(** Two objects of one list do not start at the same address. *)
Lemma obj_apart a n b k objs : ForallOrdPairs separate ((a, n) :: objs) -> (b, k) ∈ objs -> 0 < n -> 0 < k -> a <> b.
Proof.
  intros Hd Hin Hn Hk. inversion Hd as [|? ? Hf]; subst. rewrite Forall_forall in Hf. specialize (Hf _ Hin).
  unfold separate in Hf. cbn [fst snd] in Hf. lia.
Qed.

(** [C2] Over any sequence of the requests of [mem_step], the blocks of [kmalloc] and
    the page tables of [map] never overlap; each of their addresses translates to its
    own frame, and the linear mapping of the kernel zone stays in place.  The requests
    are: small blocks while there are frames for a page of slices and a manager
    ([exhausted]), large blocks that get their frames, and pages mapped present and
    writable outside the kernel zone while there is a frame for a table.  When the
    frames have run out [kmalloc] returns [PAGE_OFFSET] again and again
    ([exhausted_requests]). *)
Theorem memory_shared w w' objs :
  memory_ok w -> rtc mem_step (w, []) (w', objs) ->
  ForallOrdPairs separate objs
  /\ (forall a n c, (a, n) ∈ objs -> a <= c < a + n -> walk PAGE_OFFSET (vm_of w') c = Some (c - PAGE_OFFSET))
  /\ (forall x, 0 <= x < KERNEL_NORMAL_ZONE_SIZE -> walk PAGE_OFFSET (vm_of w') (PAGE_OFFSET + x) = Some x).
Proof.
  intros Hok Hr. destruct (mem_run_inv _ _ Hr Hok) as (Ms & X & G & I). cbn [fst snd] in I.
  split; [exact (iv_apart _ _ _ _ _ I)|]. split; [|exact (iv_linear _ _ _ _ _ I)].
  intros a n c Hin Hc. pose proof (obj_address _ _ _ _ _ a n c I Hin Hc) as Hz.
  rewrite <- (iv_linear _ _ _ _ _ I _ Hz). f_equal. lia.
Qed.
End sharing.

(** ** The machine that the kernel starts with *)

Section start.
Context (pd tables : Z) (z : zone) (LK : Boot.linked pd tables) (PL : placed pd z).
Context (Hz : tables + PAGE_SIZE * 224 - PAGE_OFFSET <= z_base z).

(** The directory that [kernel_main] leaves in place, and a heap that holds only
    its own pages. *)
Definition kernel_directory (s : vmm pmm) : vmm pmm :=
  Boot.leave_tmp pd (init_vmm pd tables Boot.pt0 s).

Definition first_machine (s : vmm pmm) (k : Kmm.kmm pmm) : machine :=
  Machine (vm_mem (kernel_directory s)) (vm_cr3 (kernel_directory s)) k.

(** A directory for which the pages below the zone hold the tables. *)
Lemma start_ok (s2 : vmm pmm) k Ms X :
  kmm_ok (H0 := reserved_laws z (fun _ => False)) k Ms X ->
  (let s3 := Vmm (vm_mem s2) (Kmm.pool k) (vm_cr3 s2) in
   vm_ok pd s3 /\ loaded pd s3
   /\ forall i, 0 <= i < 1024 -> table_of s3 pd i <> 0 ->
        exists j, 0 <= j < 224 /\ table_of s3 pd i = tables + PAGE_SIZE * j - PAGE_OFFSET) ->
  (forall x, 0 <= x < KERNEL_NORMAL_ZONE_SIZE -> walk PAGE_OFFSET s2 (PAGE_OFFSET + x) = Some x) ->
  memory_inv pd z (Machine (vm_mem s2) (vm_cr3 s2) k) [] Ms X (fun _ => False).
Proof.
  intros K (V & L & Ht) W. split; [exact K|exact V|exact L| |exact W|intros a n Hn; apply elem_of_nil in Hn; contradiction|constructor].
  intros i Hi Hn. destruct (Ht i Hi Hn) as (j & Hj & E). right. unfold vm_of. cbn [words cr3 heap].
  rewrite E. unfold PAGE_SIZE in *. lia.
Qed.

Lemma first_memory_ok s k Ms X :
  (forall i, 992 <= i < 1024 -> rd s (pd + 4 * i) = 0) ->
  kmm_ok (H0 := reserved_laws z (fun _ => False)) k Ms X ->
  memory_inv pd z (first_machine s k) [] Ms X (fun _ => False).
Proof.
  intros Hr K. pose proof (ko_pool (H0 := reserved_laws z (fun _ => False)) _ _ _ K) as R.
  pose proof R as (_ & Ez & _). destruct PL as [[P1 P2] P3].
  assert (forall q, q + PAGE_SIZE <= z_base z -> ~ pmm_free (Kmm.pool k) q) as Hlow
    by (intros q; apply (below_not_free z _ _ Ez)).
  apply (start_ok (kernel_directory s) k Ms X K); [|apply (Boot.walk_kernel pd tables LK s)].
  unfold kernel_directory. refine (Boot.directory_ok pd tables LK s (Kmm.pool k) Hr _ _ _ _).
  - unfold KERNEL_NORMAL_ZONE_SIZE, PAGE_OFFSET, PAGE_SIZE in *. lia.
  - exact (res_pmm_ok z _ _ R).
  - apply Hlow. exact P2.
  - intros i Hi. apply Hlow. unfold PAGE_SIZE in *. lia.
Qed.
End start.

(** ** An instance: the zone of 1024 frames *)

Definition zone0 : zone := zone_of (PmmProps.boot_zone 1024).
Definition machine0 : machine :=
  first_machine 0xC0100000 0xC0101000 (VmmPmm.empty_vmm (PmmProps.boot_zone 1024)) KmmProps.kmm0.

Lemma linked0 : Boot.linked 0xC0100000 0xC0101000.
Proof.
  split; [split; [exists 0xC0100; reflexivity|split; discriminate]|split; [exists 0xC0101; reflexivity|split; [reflexivity|discriminate]]|left; discriminate].
Qed.

Lemma zone0_checks :
  ((0x201000 <=? z_base zone0) && (0 <=? z_number zone0)
   && (z_base zone0 + PAGE_SIZE * z_number zone0 <=? KERNEL_NORMAL_ZONE_SIZE)) = true.
Proof. vm_compute. reflexivity. Qed.

(** Three requests: 100 bytes, two pages, and the mapping of a page of the screen. *)
Definition heap1 : Kmm.kmm pmm := match Kmm.kmalloc 3 100 KmmProps.kmm0 with Some (_, k) => k | None => KmmProps.kmm0 end.
Definition heap2 : Kmm.kmm pmm := match Kmm.kmalloc 3 5000 heap1 with Some (_, k) => k | None => heap1 end.

Lemma requests0 :
  (fst <$> Kmm.kmalloc 3 100 KmmProps.kmm0) = Some 0xC0207005 /\ (fst <$> Kmm.kmalloc 3 5000 heap1) = Some 0xC0208000
  /\ (fst <$> physic_alloc SIZEOF_PAGE_SIZE (Kmm.pool heap2)) = Some 0x20A000.
Proof. split; [|split]; vm_compute; reflexivity. Qed.

Lemma fst_some {A B} (x : option (A * B)) a d :
  fst <$> x = Some a -> x = Some (a, match x with Some (_, b) => b | None => d end).
Proof. destruct x as [[c b]|]; cbn; [intros E; injection E as ->; reflexivity|discriminate]. Qed.

#[local] Opaque PmmProps.boot_zone Kmm.kmalloc physic_alloc first_machine.

Lemma placed0 : placed 0xC0100000 zone0.
Proof.
  pose proof zone0_checks as C. reflect_bools. split; [split; [discriminate|]|auto].
  unfold PAGE_OFFSET, PAGE_SIZE in *. lia.
Qed.

Lemma machine0_ok : memory_ok 0xC0100000 zone0 machine0.
Proof.
  exists (fun _ => []), KmmProps.no_slices, (fun _ => False). apply (first_memory_ok 0xC0100000 0xC0101000 zone0 linked0 placed0).
  - pose proof zone0_checks as C. reflect_bools. unfold PAGE_OFFSET, PAGE_SIZE in *. lia.
  - intros i _. reflexivity.
  - apply (KmmProps.empty_kmm_ok (H0 := reserved_laws zone0 (fun _ => False))).
    + split; [exact KmmProps.boot_frames_ok|]. split; [reflexivity|contradiction].
    + intros a. rewrite lookup_total_empty. split; vm_compute; congruence.
Qed.

(** The two blocks that are allocated first. *)
Lemma blocks0 :
  rtc (mem_step 0xC0100000) (machine0, [])
    (set_heap heap2 (set_heap heap1 machine0), [(0xC0208000, 5000); (0xC0207005, 100)]).
Proof.
  destruct requests0 as (E1 & E2 & _). apply (fst_some _ _ KmmProps.kmm0) in E1. apply (fst_some _ _ heap1) in E2.
  fold heap1 in E1. fold heap2 in E2. eapply rtc_l; [|eapply rtc_l; [|apply rtc_refl]].
  - apply (request_small _ 3 100); [split; discriminate|apply KmmProps.kmm0_not_exhausted|].
    unfold machine_kmalloc. change (heap machine0) with KmmProps.kmm0. rewrite E1. reflexivity.
  - apply (request_large _ 3 5000); [split; [reflexivity|discriminate]| |discriminate].
    unfold machine_kmalloc. change (heap (set_heap heap1 machine0)) with heap1. rewrite E2. reflexivity.
Qed.

(** A page of the screen, when a table is left for it. *)
Lemma map_request0 w objs Ms X G :
  memory_inv 0xC0100000 zone0 w objs Ms X G -> has_pages 1 (Kmm.pool (heap w)) ->
  exists w' objs', mem_step 0xC0100000 (w, objs) (w', objs') /\ objs ⊆ objs'.
Proof.
  intros I Hp. assert (has_pages (if table_of (vm_of w) 0xC0100000 (PGD_INDEX 0xFD000000) =? 0 then 1 else 0) (Kmm.pool (heap w))) as Hp2
    by (destruct (_ =? 0); [exact Hp|exact Logic.I]).
  destruct (map_page 0xC0100000 0xFD000000 0xFD000000 (vm_of w) 0 (iv_dir _ _ _ _ _ _ _ I) (iv_loaded _ _ _ _ _ _ _ I))
    as (v & E & _); [split; [discriminate|reflexivity]|exists 0xFD000; reflexivity|discriminate|discriminate|exact Hp2|].
  eexists _, _. split.
  - apply (request_map _ 0xFD000000 0xFD000000 w (set_vm v w)); [split; [discriminate|reflexivity]|right; discriminate
      |exists 0xFD000; reflexivity|discriminate|discriminate|exact Hp2|unfold machine_map; rewrite E; reflexivity].
  - destruct (_ =? 0); set_solver.
Qed.

Lemma one_page (p : pmm) q : fst <$> physic_alloc SIZEOF_PAGE_SIZE p = Some q -> q <> 0 -> has_pages 1 p.
Proof. intros E Hq. apply (fst_some _ _ p) in E. exists q. eexists. split; [exact E|]. split; [exact Hq|exact I]. Qed.

Lemma pages0 : has_pages 1 (Kmm.pool heap2).
Proof. apply (one_page _ 0x20A000); [apply requests0|discriminate]. Qed.

Lemma run0 : exists w objs, rtc (mem_step 0xC0100000) (machine0, []) (w, objs) /\ (0xC0208000, 5000) ∈ objs.
Proof.
  pose proof blocks0 as R. assert (has_pages 1 (Kmm.pool (heap (set_heap heap2 (set_heap heap1 machine0))))) as Hp by exact pages0.
  revert R Hp. generalize (set_heap heap2 (set_heap heap1 machine0)). intros w2 R Hp.
  destruct (mem_run_inv _ _ placed0 _ _ R machine0_ok) as (Ms & X & G & I).
  destruct (map_request0 w2 _ Ms X G I Hp) as (w & objs & S & Hin).
  exists w, objs. split; [exact (rtc_r _ _ _ R S)|]. apply Hin, elem_of_cons. left. reflexivity.
Qed.

Lemma memory_shared_witness :
  memory_ok 0xC0100000 zone0 machine0
  /\ exists w objs, rtc (mem_step 0xC0100000) (machine0, []) (w, objs) /\ (0xC0208000, 5000) ∈ objs
       /\ ForallOrdPairs separate objs /\ walk PAGE_OFFSET (vm_of w) 0xC0208123 = Some 0x208123.
Proof.
  split; [exact machine0_ok|]. destruct run0 as (w & objs & R & Hin).
  destruct (memory_shared _ _ placed0 _ _ _ machine0_ok R) as (D & W & _).
  exists w, objs. split; [exact R|]. split; [exact Hin|]. split; [exact D|]. exact (W _ _ 0xC0208123 Hin ltac:(lia)).
Defined.
