(* ===== verification/Supply.v ===== *)
(** * Free memory that is left

    [spare m s]: the zone still has [m] free blocks of the top level.  Each request
    takes at most one of them, so that many requests of any size are served; the
    interfaces of kmm.c and vmm.c then see an allocator that does not run dry. *)

From S2P Require Import Prelude KMath Pmm PmmSpec PmmProofs PmmInit PmmProps.
From S2P Require Import Vmm VmmPmm Mmu KmmSpec KmmPmm Reserve.
From S2P Require Kmm KmmLists KmmProofs KmmProps.

Definition spare (m : nat) (s : pmm) : Prop :=
  exists bs, NoDup bs /\ length bs = m /\ forall i, i ∈ bs -> free_block s i 10.

Lemma spare_le m n s : (m <= n)%nat -> spare n s -> spare m s.
Proof.
  intros Hle (bs & Hd & <- & Hf). exists (take m bs).
  rewrite <- (take_drop m bs) in Hd, Hf. split; [apply NoDup_app in Hd; tauto|].
  split; [rewrite length_take; lia|]. intros i Hi. apply Hf, elem_of_app. left. exact Hi.
Qed.

(** A request takes one block. *)
Lemma spare_got m s l i top s' : get_ok s l i top s' -> spare (S m) s -> spare m s'.
Proof.
  intros (_ & _ & _ & _ & _ & _ & Hf) (bs & Hd & Hl & Hb).
  assert (forall b, b ∈ bs -> b <> i -> free_block s' b 10) as Hk
    by (intros b Hin Hne; apply Hf; [unfold BUDDY_MAXLEVEL; lia|left; auto]).
  destruct (decide (i ∈ bs)) as [Hi|Hi].
  - apply list_elem_of_split in Hi as (xs & ys & ->). exists (xs ++ ys).
    apply NoDup_app in Hd as (Hd1 & Hd2 & Hd3). apply NoDup_cons in Hd3 as [Hd3 Hd4].
    split; [apply NoDup_app; split; [exact Hd1|]; split; [intros x Hx Hy; apply (Hd2 x Hx); right; exact Hy|exact Hd4]|].
    split; [rewrite length_app in *; simpl in Hl; lia|]. intros b Hin. apply Hk; [set_solver|].
    intros ->. apply elem_of_app in Hin as [Hin|Hin]; [apply (Hd2 i Hin); left|contradiction].
  - apply (spare_le m (S m)); [lia|]. exists bs. split; [exact Hd|]. split; [exact Hl|]. intros b Hin. apply Hk; [exact Hin|congruence].
Qed.

Lemma spare_free s m l : spare (S m) s -> 0 <= l < BUDDY_MAXLEVEL -> ~ (forall j k, l <= k < BUDDY_MAXLEVEL -> ~ free_block s j k).
Proof.
  intros ([|b bs] & _ & Hl & Hf) Hl2 Hno; [discriminate Hl|].
  apply (Hno b 10); [unfold BUDDY_MAXLEVEL in *; lia|apply Hf; left].
Qed.

Section served.
Context (s : pmm) (m : nat) (B : buddy_ok s) (T : table_ok s) (Hs : spare (S m) s).

(** A request of [b] bytes. *)
Lemma spare_alloc b :
  0 <= b <= 2 ^ 22 ->
  exists i top s', physic_alloc b s = Some (frame_addr s i, s')
    /\ get_ok s (Z.log2_up (page_count b)) i top s' /\ spare m s' /\ 0 < frame_addr s i.
Proof.
  intros Hb. destruct (physic_alloc_cases s b B T Hb) as [(i & top & s' & E & O)|[_ Hno]].
  - exists i, top, s'. split; [exact E|]. split; [exact O|]. split; [apply (spare_got m s _ i top s' O Hs)|].
    destruct O as ((Hi & _) & _). pose proof (tb_base _ T). unfold frame_addr, PAGE_FRAME_SIZE. lia.
  - exfalso. refine (spare_free s m _ Hs _ Hno). pose proof (Z.log2_up_nonneg (page_count b)).
    destruct (page_count_bounds b ltac:(lia)) as [Hp1 Hp2].
    assert (Z.log2_up (page_count b) <= Z.log2_up 1024) by (apply Z.log2_up_le_mono; unfold PAGE_FRAME_SIZE in *; lia).
    change (Z.log2_up 1024) with 10 in *. unfold BUDDY_MAXLEVEL. lia.
Qed.

Lemma spare_frame : exists f s', frame_alloc 1 s = Some (f, s') /\ f <> 0.
Proof.
  unfold frame_alloc. rewrite request_level by lia. change (Z.log2_up 1) with 0.
  destruct (get_block_spec s 0 B ltac:(unfold BUDDY_MAXLEVEL; lia)) as [(i & top & s' & E & O)|[_ Hno]].
  - exists (frame_ptr s i), s'. split; [exact E|]. destruct O as ((Hi & _) & _). apply (frame_ptr_nonzero s i T Hi).
  - destruct (spare_free s m 0 Hs ltac:(unfold BUDDY_MAXLEVEL; lia) Hno).
Qed.
End served.

(** ** What the clients ask for *)

Lemma got_tables s l i top s' : get_ok s l i top s' -> table_ok s -> buddy_ok s' /\ table_ok s'.
Proof. intros (_ & _ & _ & B' & St & _) T. split; [exact B'|apply (same_table_ok _ _ St T)]. Qed.

Lemma spare_supplies n s : buddy_ok s -> table_ok s -> spare n s -> KmmProps.supplies n s.
Proof.
  revert s. induction n as [|n IH]; intros s B T Hs; [exact I|].
  destruct (spare_alloc s n B T Hs Kmm.PAGE_FRAME_SIZE) as (i & top & s' & E & O & Hs' & Hp); [unfold Kmm.PAGE_FRAME_SIZE; lia|].
  exists (frame_addr s i), s'. split; [exact E|]. split; [lia|]. apply IH; [apply (got_tables _ _ _ _ _ O T)..|exact Hs'].
Qed.

Lemma spare_pages n s : buddy_ok s -> table_ok s -> spare n s -> has_pages n s.
Proof.
  revert s. induction n as [|n IH]; intros s B T Hs; [exact I|].
  destruct (spare_alloc s n B T Hs SIZEOF_PAGE_SIZE) as (i & top & s' & E & O & Hs' & Hp); [unfold SIZEOF_PAGE_SIZE; lia|].
  exists (frame_addr s i), s'. split; [exact E|]. split; [lia|]. apply IH; [apply (got_tables _ _ _ _ _ O T)..|exact Hs'].
Qed.

Lemma spare_not_exhausted n s : buddy_ok s -> table_ok s -> spare (2 + n) s -> ~ exhausted s.
Proof.
  intros B T Hs [E|(q & p' & E & Hq)].
  - destruct (spare_frame s (S n) B T Hs) as (f & s2 & E2 & Hf). cbn [Kmm.fs_frame_alloc pmm_frames] in E. congruence.
  - destruct (spare_alloc s (S n) B T Hs Kmm.PAGE_FRAME_SIZE) as (i & top & s2 & E2 & O & Hs2 & Hp); [unfold Kmm.PAGE_FRAME_SIZE; lia|].
    cbn [Kmm.fs_physic_alloc Kmm.fs_frame_alloc pmm_frames] in E, Hq. assert (q = frame_addr s i /\ p' = s2) as [-> ->] by (split; congruence).
    destruct (got_tables _ _ _ _ _ O T) as [B2 T2]. destruct Hq as [Hq|Hq]; [lia|].
    destruct (spare_frame s2 n B2 T2 Hs2) as (f & s3 & E3 & Hf). congruence.
Qed.

(** ** What a small request of [kmalloc] takes *)

#[local] Existing Instance Kmm.manager_zero.

Section budget.
Context {P : Type} `{Kmm.FrameSource P} (Q : nat -> P -> Prop).
Context (Q_alloc : forall n p q p', Kmm.fs_physic_alloc Kmm.PAGE_FRAME_SIZE p = Some (q, p') -> Q (S n) p -> Q n p').
Context (Q_frame : forall n p f p', Kmm.fs_frame_alloc 1 p = Some (f, p') -> Q (S n) p -> Q n p').
Context (Q_set : forall n p f v, Q n p -> Q n (Kmm.fs_set_allocator f v p)).
Context (Q_less : forall n p, Q (S n) p -> Q n p).
Implicit Types s : Kmm.kmm P.

Lemma get_slice_pool m k size mode s l a s' :
  Kmm.get_slice_addr m k size mode s = Some (l, a, s') -> Kmm.pool s' = Kmm.pool s.
Proof.
  unfold Kmm.get_slice_addr. destruct mode; cbn [mbind option_bind]; [intros E; injection E as _ _ <-; reflexivity|].
  destruct (Kmm.first_clear _ _); [|discriminate]. intros E. injection E as _ _ <-. reflexivity.
Qed.

Lemma init_linked_pool m k size s s' : Kmm.init_linked_page m k size s = Some s' -> Kmm.pool s' = Kmm.pool s.
Proof.
  unfold Kmm.init_linked_page. set (base := u32 _).
  destruct (while _ _ _ _) as [[[[? ?] la] y]|] eqn:E; [|discriminate].
  destruct (while_o_inv (fun x : Z * Z * Z * Kmm.kmm P => Kmm.pool (snd x) = Kmm.pool s) _ _ _ _ _ E) as [W _]; [reflexivity| |].
  { intros [[[a i] l] x] r Hx _ Er. injection Er as <-. exact Hx. }
  cbn [mbind option_bind]. intros E2. injection E2 as <-. exact W.
Qed.

Lemma attach_budget n m k size mode s s' :
  Kmm.attach_page m k size mode s = Some s' -> Q (S n) (Kmm.pool s) -> Q n (Kmm.pool s').
Proof.
  unfold Kmm.attach_page, Kmm.alloc_one_page_virtual. destruct (Kmm.fs_frame_alloc 1 (Kmm.pool s)) as [[f p]|] eqn:E; [|discriminate].
  cbn [mbind option_bind]. intros E2 HQ. apply (Q_frame n _ _ _ E) in HQ. destruct mode.
  - apply init_linked_pool in E2. rewrite E2. apply Q_set, HQ.
  - injection E2 as <-. apply Q_set, HQ.
Qed.

Lemma alloc_free_budget n m size mode s a s' :
  Kmm.alloc_free m size mode s = Some (a, s') -> Q (S n) (Kmm.pool s) -> Q n (Kmm.pool s').
Proof.
  unfold Kmm.alloc_free. intros E HQ. match type of E with context [mbind _ ?x] => destruct x as [s1|] eqn:E1 end; [|discriminate E].
  assert (Q n (Kmm.pool s1)) as H1.
  { destruct (_ =? 0) in E1; [exact (attach_budget n _ _ _ _ _ _ E1 HQ)|]. injection E1 as <-. apply Q_less, HQ. }
  cbn [mbind option_bind] in E. destruct mode; injection E as _ <-; exact H1.
Qed.

Lemma alloc_p_full_pool m size mode s a s' : Kmm.alloc_p_full m size mode s = Some (a, s') -> Kmm.pool s' = Kmm.pool s.
Proof.
  unfold Kmm.alloc_p_full. destruct (Kmm.get_slice_addr _ _ _ _ _) as [[[l b] s1]|] eqn:E; [|discriminate].
  apply get_slice_pool in E. cbn [mbind option_bind]. intros E2. injection E2 as _ <-. destruct l; exact E.
Qed.

(** A manager that has just been made has a free allocator. *)
Lemma helper_budget n fuel m i mode s a s' :
  Kmm.kmalloc_helper fuel m i mode s = Some (a, s') -> Q (2 + n) (Kmm.pool s) -> Q n (Kmm.pool s').
Proof.
  revert m s. induction fuel as [|fuel IH]; intros m s E HQ; [discriminate E|]. cbn [Kmm.kmalloc_helper] in E.
  destruct (Z.eqb_spec m 0) as [_|_].
  - unfold Kmm.new_manager, Kmm.alloc_one_page_mem_virtual in E.
    destruct (Kmm.fs_physic_alloc Kmm.PAGE_FRAME_SIZE (Kmm.pool s)) as [[q p]|] eqn:E1; [|discriminate E].
    cbn [mbind option_bind] in E. apply (Q_alloc (1 + n) _ _ _ E1) in HQ.
    match type of E with context [negb (Kmm.mg_p_full (Kmm.managers ?x !!! ?y) =? _)] => set (s1 := x) in E; set (m1 := y) in E end.
    assert (Kmm.mg_p_full (Kmm.managers s1 !!! m1) = Kmm.END_FLAG /\ Kmm.mg_free (Kmm.managers s1 !!! m1) = 0) as [F1 F2].
    { unfold s1. cbn [Kmm.managers Kmm.upd_manager Kmm.set_alloc_ms Kmm.set_pool]. rewrite !upd_eq.
      match goal with |- context [Kmm.init_allocator_manager ?x] => destruct (KmmLists.init_allocator_manager_fields x) as (-> & -> & _) end.
      split; reflexivity. }
    rewrite F1, F2 in E. cbn [Z.eqb negb] in E. exact (alloc_free_budget n _ _ _ _ _ _ E HQ).
  - cbn [mbind option_bind] in E. case_match; [apply alloc_p_full_pool in E; rewrite E; apply Q_less, Q_less, HQ|].
    case_match; [apply (alloc_free_budget n _ _ _ _ _ _ E), Q_less, HQ|]. apply (IH _ _ E HQ).
Qed.

Lemma small_budget n fuel b s a s' :
  0 <= b <= 2048 -> Kmm.kmalloc fuel b s = Some (a, s') -> Q (2 + n) (Kmm.pool s) -> Q n (Kmm.pool s').
Proof.
  intros Hb E HQ. unfold Kmm.kmalloc in E. rewrite (proj2 (Z.ltb_ge Kmm.MAX_ALLOC b)) in E by (change Kmm.MAX_ALLOC with 4194304; lia).
  destruct (KmmProofs.size_class_ok b ltac:(lia)) as (i & Ei & Hi & Hiff & _). rewrite Ei in E. cbn [mbind option_bind] in E.
  rewrite (proj2 (Z.ltb_lt i _)) in E by lia. case_match; apply (helper_budget n _ _ _ _ _ _ _ E HQ).
Qed.
End budget.

(** ** The machine with free memory *)

Definition room (n : nat) (s : pmm) : Prop := buddy_ok s /\ table_ok s /\ spare n s.

Lemma room_less n s : room (S n) s -> room n s.
Proof. intros (B & T & Hs). split; [exact B|]. split; [exact T|]. apply (spare_le n (S n)); [lia|exact Hs]. Qed.

Lemma room_le m n s : (m <= n)%nat -> room n s -> room m s.
Proof. intros Hle (B & T & Hs). split; [exact B|]. split; [exact T|]. apply (spare_le m n); assumption. Qed.

Lemma room_alloc n s b q s' :
  0 <= b <= 2 ^ 22 -> physic_alloc b s = Some (q, s') -> room (S n) s -> room n s'.
Proof.
  intros Hb E (B & T & Hs). destruct (spare_alloc s n B T Hs b Hb) as (i & top & s2 & E2 & O & Hs2 & _).
  rewrite E in E2. injection E2 as _ ->. destruct (got_tables _ _ _ _ _ O T) as [B2 T2]. split; auto.
Qed.

Lemma room_frame n s f s' : frame_alloc 1 s = Some (f, s') -> room (S n) s -> room n s'.
Proof.
  unfold frame_alloc. rewrite request_level by lia. change (Z.log2_up 1) with 0. intros E (B & T & Hs).
  destruct (get_block_spec s 0 B ltac:(unfold BUDDY_MAXLEVEL; lia)) as [(i & top & s2 & E2 & O)|[_ Hno]].
  - cbn [mbind option_bind] in E. rewrite E2 in E. injection E as _ <-. destruct (got_tables _ _ _ _ _ O T) as [B2 T2].
    split; [exact B2|]. split; [exact T2|]. apply (spare_got n s 0 i top s2 O Hs).
  - destruct (spare_free s n 0 Hs ltac:(unfold BUDDY_MAXLEVEL; lia) Hno).
Qed.

Lemma room_owner n s f v : room n s -> room n (upd_page f (set_frame_allocator v) s).
Proof.
  intros (B & T & (bs & Hd & Hl & Hf)). split; [apply owner_buddy, B|]. split; [apply owner_table, T|].
  exists bs. split; [exact Hd|]. split; [exact Hl|]. intros i Hi. specialize (Hf i Hi). unfold free_block in *.
  destruct (owner_fields s f v i) as (-> & -> & _). exact Hf.
Qed.

Lemma room_small n fuel b (k : Kmm.kmm pmm) a k' :
  0 <= b <= 2048 -> Kmm.kmalloc fuel b k = Some (a, k') -> room (2 + n) (Kmm.pool k) -> room n (Kmm.pool k').
Proof.
  apply (small_budget room).
  - intros m p q p' E. apply (room_alloc m p Kmm.PAGE_FRAME_SIZE q p' ltac:(unfold Kmm.PAGE_FRAME_SIZE; lia) E).
  - intros m p f p' E. apply (room_frame m p f p' E).
  - intros m p f v. apply room_owner.
  - apply room_less.
Qed.

Lemma room_ready n s : room (2 + n) s -> ~ exhausted s.
Proof. intros (B & T & Hs). apply (spare_not_exhausted n s B T Hs). Qed.

Lemma room_pages n s : room n s -> has_pages n s.
Proof. intros (B & T & Hs). apply (spare_pages n s B T Hs). Qed.

(** The zone that [init_zone] makes, and its first managers. *)
Lemma zone_room n s :
  buddy_ok s -> table_ok s ->
  (forall j, 0 <= j -> (2 ^ 10 | j) -> j + 2 ^ 10 <= frames_number s -> free_block s j 10) ->
  1024 * Z.of_nat n <= frames_number s -> room n s.
Proof.
  intros B T Hf Hn. split; [exact B|]. split; [exact T|].
  exists ((fun k => 1024 * k) <$> seqZ 0 (Z.of_nat n)). split; [apply NoDup_fmap_2; [intros x y; lia|apply NoDup_seqZ]|].
  split; [rewrite length_fmap, length_seqZ; lia|].
  intros i Hi. apply list_elem_of_fmap in Hi as (k & -> & Hk). apply elem_of_seqZ in Hk.
  apply Hf; [lia|exists k; lia|lia].
Qed.

Lemma room_init_kmm n (k0 k' : Kmm.kmm pmm) : Kmm.init_kmm k0 = Some k' -> room (8 + n) (Kmm.pool k0) -> room n (Kmm.pool k').
Proof.
  intros E HR. unfold Kmm.init_kmm in E. change (Z.to_nat Kmm.PAGE_SLICE_LEVEL) with 8%nat in E.
  match type of E with for_loop ?m ?i ?f ?x = _ =>
    pose proof (for_loop_ind (fun j acc => forall k, acc = Some k -> room (Z.to_nat (8 - j) + n) (Kmm.pool k)) m i f x) as L end.
  apply (L ltac:(intros k Ek; injection Ek as <-; exact HR)) in E; [exact E|].
  intros j acc Hj IH k Ek. destruct acc as [k1|]; [|discriminate Ek]. specialize (IH k1 eq_refl).
  cbn [mbind option_bind] in Ek. unfold Kmm.new_manager, Kmm.alloc_one_page_mem_virtual in Ek.
  destruct (Kmm.fs_physic_alloc Kmm.PAGE_FRAME_SIZE (Kmm.pool k1)) as [[q p]|] eqn:Ea; [|discriminate Ek].
  cbn [mbind option_bind] in Ek. injection Ek as <-.
  cbn [Kmm.set_alloc_ms Kmm.upd_manager Kmm.set_pool Kmm.pool].
  replace (Z.to_nat (8 - j) + n)%nat with (S (Z.to_nat (8 - (j + 1)) + n)) in IH by lia.
  apply (room_alloc _ _ Kmm.PAGE_FRAME_SIZE q p ltac:(unfold Kmm.PAGE_FRAME_SIZE; lia) Ea IH).
Qed.
