(* ===== verification/MachineRun.v ===== *)
(** * Requests that are served

    With enough free memory ([room]) every request succeeds: these lemmas take the
    machine through the requests that the kernel makes while it starts, keeping
    [memory_inv], and count what is left. *)

From S2P Require Import Prelude KMath Heap Pmm PmmSpec PmmProofs PmmProps.
From S2P Require Import Vmm VmmProofs VmmPmm Mmu.
From S2P Require Import KmmPages KmmSpec KmmPmm Reserve Machine Supply.
From S2P Require Kmm KmmProofs KmmProps.

Section served.
Context (pd : Z) (z : zone) (PL : placed pd z).
Implicit Types w : machine.

(** The page tables are where they were. *)
Definition same_tables w w' : Prop := words w' = words w /\ cr3 w' = cr3 w.

Lemma walk_same w w' va : same_tables w w' -> walk PAGE_OFFSET (vm_of w') va = walk PAGE_OFFSET (vm_of w) va.
Proof. intros [E1 E2]. unfold walk, rd, vm_of. cbn [vm_mem vm_cr3]. rewrite E1, E2. reflexivity. Qed.

Lemma serve_small w objs Ms X G n b :
  memory_inv pd z w objs Ms X G -> room (2 + n) (Kmm.pool (heap w)) -> 0 <= b <= 2048 ->
  exists a w' Ms' X', h_kmalloc b w = Some (a, w') /\ memory_inv pd z w' ((a, b) :: objs) Ms' X' G
    /\ room n (Kmm.pool (heap w')) /\ same_tables w w'.
Proof.
  intros I R Hb. pose proof (room_ready n _ R) as Hx.
  destruct (KmmProps.kmalloc_small (H0 := reserved_laws z G) (heap_fuel w) b (heap w) Ms X (iv_heap _ _ _ _ _ _ _ I) Hb)
    as (i & a & k & _ & _ & E & _); [|exact Hx|].
  { intros i Hi. pose proof (managers_bound z G _ _ _ i (iv_heap _ _ _ _ _ _ _ I) Hi). unfold heap_fuel. lia. }
  destruct (small_inv pd z PL w objs Ms X G (heap_fuel w) b a k I Hb Hx E) as (Ms' & X' & I').
  exists a, (set_heap k w), Ms', X'. split; [cbn [h_kmalloc machine_heap]; unfold machine_kmalloc; rewrite E; reflexivity|].
  split; [exact I'|]. split; [exact (room_small n _ b _ a k Hb E R)|split; reflexivity].
Qed.

Lemma serve_large w objs Ms X G n b :
  memory_inv pd z w objs Ms X G -> room (S n) (Kmm.pool (heap w)) -> 2048 < b <= Kmm.MAX_ALLOC ->
  exists a w' G', h_kmalloc b w = Some (a, w') /\ memory_inv pd z w' ((a, b) :: objs) Ms X G'
    /\ room n (Kmm.pool (heap w')) /\ same_tables w w'.
Proof.
  intros I R Hb. pose proof R as (B & T & Hs). change Kmm.MAX_ALLOC with (2 ^ 22) in Hb.
  destruct (spare_alloc _ n B T Hs b ltac:(lia)) as (i & top & p & E & O & Hs' & Hp).
  assert (Kmm.kmalloc (heap_fuel w) b (heap w) = Some (u32 (frame_addr (Kmm.pool (heap w)) i + Kmm.PAGE_OFFSET), Kmm.set_pool p (heap w))) as Ek.
  { rewrite KmmProps.kmalloc_large by exact Hb. cbn [Kmm.fs_physic_alloc pmm_frames]. rewrite E. reflexivity. }
  assert (u32 (frame_addr (Kmm.pool (heap w)) i + Kmm.PAGE_OFFSET) <> PAGE_OFFSET) as Hn.
  { destruct (inv_pool _ _ _ _ _ _ _ I) as ((_ & _ & Hz & _) & _). destruct O as ((Hi & _) & _).
    unfold frame_addr, PAGE_FRAME_SIZE, Kmm.PAGE_OFFSET, PAGE_OFFSET in *. rewrite u32_small by (unfold in_u32; lia). lia. }
  destruct (large_inv pd z PL w objs Ms X G _ b _ _ I Hb Hn Ek) as (G' & I').
  exists (u32 (frame_addr (Kmm.pool (heap w)) i + Kmm.PAGE_OFFSET)), (set_heap (Kmm.set_pool p (heap w)) w), G'.
  split; [cbn [h_kmalloc machine_heap]; unfold machine_kmalloc; rewrite Ek; reflexivity|].
  split; [exact I'|]. split; [|split; reflexivity]. destruct (got_tables _ _ _ _ _ O T) as [B2 T2]. split; auto.
Qed.

(** ** A range of pages *)

Section range.
Context (va : Z) (n : nat) (w0 : machine) (objs0 : list (Z * Z)) (Ms : Z -> list Z) (X : Z -> Z -> list Z) (r : nat).
Context (Hd : (PAGE_SIZE | va)) (Hlow : PAGE_OFFSET + KERNEL_NORMAL_ZONE_SIZE <= va).
Context (Hhigh : va + Z.of_nat n * PAGE_SIZE <= 2 ^ 32).
Let last := PGD_INDEX (va + (Z.of_nat n - 1) * PAGE_SIZE).

(** [j] pages have been mapped. *)
Definition mapped (j : Z) (acc : option machine) : Prop :=
  exists w objs G, acc = Some w /\ memory_inv pd z w objs Ms X G /\ objs0 ⊆ objs
    /\ run_to pd va va n (vm_of w0) j (Some (vm_of w)) (vm_of w)
    /\ room (r + if j <? Z.of_nat n then tables_left pd va last j (vm_of w) else 0) (Kmm.pool (heap w)).

Lemma vm_of_set v w : vm_of (set_vm v w) = v.
Proof. destruct v. reflexivity. Qed.

Lemma mapped_step j acc :
  0 <= j < Z.of_nat n -> mapped j acc ->
  mapped (j + 1) (w ← acc; machine_map pd (u32 (va + j * PAGE_SIZE)) (u32 (va + j * PAGE_SIZE)) flags3 w).
Proof.
  intros Hj (w & objs & G & -> & I & Ho & Rt & R). cbn [mbind option_bind].
  assert (0 <= va) as Hva by (unfold PAGE_OFFSET, KERNEL_NORMAL_ZONE_SIZE in Hlow; lia).
  destruct (run_step pd va va n (vm_of w0) Hd Hva Hhigh Hd Hva Hhigh j _ _ Hj Rt) as (v & Rt').
  pose proof (rt_some _ _ _ _ _ _ _ _ Rt') as E. cbn [mbind option_bind] in E.
  rewrite (proj2 (Z.ltb_lt j _)) in R by lia. unfold PAGE_SIZE in *.
  set (x := u32 (va + j * 4096)) in *. assert (x = va + j * 4096) as Ex by (apply u32_small; unfold in_u32; lia).
  assert (in_u32 x) as Hx by (unfold in_u32; lia).
  set (t := if table_of (vm_of w) pd (PGD_INDEX x) =? 0 then 1%nat else 0%nat).
  assert (0 <= last - PGD_INDEX x) as Hlast.
  { unfold last. rewrite !PGD_INDEX_div by (unfold in_u32 in *; unfold PAGE_SIZE; lia). apply Z.le_0_sub, Z.div_le_mono; unfold PAGE_SIZE; lia. }
  assert (room (r + Z.to_nat (last - PGD_INDEX x) + t) (Kmm.pool (heap w))) as R1.
  { unfold tables_left, PAGE_SIZE in R. rewrite <- Ex in R. cbv zeta in R. refine (room_le _ _ _ _ R).
    unfold t. destruct (_ =? 0); lia. }
  assert (has_pages t (Kmm.pool (heap w))) as Hp by (refine (has_pages_le _ _ _ _ (room_pages _ _ R1)); lia).
  destruct (map_inv pd z w objs Ms X G x x v I Hx) as (G' & I'); try exact Hp; try exact E; try lia.
  { rewrite Ex. apply Z.divide_add_r; [exact Hd|exists j; unfold PAGE_SIZE; lia]. }
  { unfold PAGE_SIZE. lia. }
  eexists (set_vm v w), _, G'. split; [unfold machine_map; rewrite E; reflexivity|]. split; [exact I'|].
  split; [destruct (_ =? 0); set_solver|]. rewrite vm_of_set.
  pose proof Rt' as [_ V' L' H1 H2 H3]. split; [split; try assumption; reflexivity|].
  cbn [set_vm heap Kmm.pool Kmm.set_pool].
  destruct (map_page pd x x (vm_of w) 0 (iv_dir _ _ _ _ _ _ _ I) (iv_loaded _ _ _ _ _ _ _ I) Hx) as (v2 & E2 & _ & _ & _ & _ & Ht & _ & _ & Hal);
    [rewrite Ex; apply Z.divide_add_r; [exact Hd|exists j; unfold PAGE_SIZE; lia]|apply Hx|rewrite Ex; unfold PAGE_SIZE; lia|fold t; exact Hp|].
  rewrite E in E2. apply Some_inj in E2. subst v2.
  assert (room (r + Z.to_nat (last - PGD_INDEX x)) (vm_pool v)) as R2.
  { unfold t in R1. destruct (table_of (vm_of w) pd (PGD_INDEX x) =? 0).
    - rewrite Nat.add_1_r in R1. apply (room_alloc _ _ SIZEOF_PAGE_SIZE _ _ ltac:(unfold SIZEOF_PAGE_SIZE; lia) Hal R1).
    - rewrite Nat.add_0_r in R1. destruct Hal as [-> _]. exact R1. }
  destruct (Z.ltb_spec (j + 1) (Z.of_nat n)) as [Hj2|_]; [|rewrite Nat.add_0_r; refine (room_le r _ _ _ R2); lia].
  refine (room_le _ _ _ _ R2). apply Nat.add_le_mono_l. rewrite Ex. apply (tables_next pd va va n Hd Hva Hhigh Hd j v); [lia|].
  unfold PAGE_SIZE. rewrite <- Ex. exact Ht.
Qed.

(** All of them; they and what was mapped before translate. *)
Lemma serve_range G :
  (0 < n)%nat -> memory_inv pd z w0 objs0 Ms X G -> room (r + tables_left pd va last 0 (vm_of w0)) (Kmm.pool (heap w0)) ->
  exists w objs G',
    for_loop n 0 (fun i acc => w ← acc; machine_map pd (u32 (va + i * PAGE_SIZE)) (u32 (va + i * PAGE_SIZE)) flags3 w) (Some w0) = Some w
    /\ memory_inv pd z w objs Ms X G' /\ objs0 ⊆ objs /\ room r (Kmm.pool (heap w))
    /\ forall x, 0 <= x < Z.of_nat n * PAGE_SIZE -> walk PAGE_OFFSET (vm_of w) (va + x) = Some (va + x).
Proof.
  intros Hn I R. pose proof (for_loop_ind mapped n 0
    (fun i acc => w ← acc; machine_map pd (u32 (va + i * PAGE_SIZE)) (u32 (va + i * PAGE_SIZE)) flags3 w) (Some w0)) as L.
  rewrite Z.add_0_l in L. destruct L as (w & objs & G' & E & I' & Ho & Rt & R').
  - exists w0, objs0, G. split; [reflexivity|]. split; [exact I|]. split; [reflexivity|].
    rewrite (proj2 (Z.ltb_lt 0 _)) by lia. split; [|exact R].
    split; [reflexivity|exact (iv_dir _ _ _ _ _ _ _ I)|exact (iv_loaded _ _ _ _ _ _ _ I)|intros; lia|reflexivity|].
    intros _. refine (has_pages_le _ _ _ _ (room_pages _ _ R)). unfold last. lia.
  - intros j acc Hj. apply mapped_step. lia.
  - exists w, objs, G'. split; [exact E|]. split; [exact I'|]. split; [exact Ho|]. rewrite Z.ltb_irrefl, Nat.add_0_r in R'. split; [exact R'|].
    assert (0 <= va) as Hva by (unfold PAGE_OFFSET, KERNEL_NORMAL_ZONE_SIZE in Hlow; lia).
    exact (run_walk pd va va n (vm_of w0) Hd Hva Hhigh Hd Hva Hhigh _ _ Rt).
Qed.
End range.
End served.
