(* ===== verification/Timer.v ===== *)
(** * kernel/kernel/timer.c: the kernel timers

    The timers are a singly linked list of structures kept at the addresses
    [kmalloc] returned; each tick of the programmable interval timer counts all of
    them down and calls those that reach 0.  What lies outside of this list is a
    state [W] that the callbacks and the heap act on. *)

From S2P Require Import Prelude Chain Heap.
From S2P Require Interrupts Pmm Kmm KmmProps.
From S2P Require Import KmmPmm.

Definition TIMER_FREQUENCY_MAX : Z := 1193180.
Definition TIMER_FREQUENCY_MIN : Z := 2.
Definition TIMER_FRE : Z := 1000.
Definition SIZEOF_TIMER : Z := 16.

Record timer_t := Timer { callback_func : Z; interval : Z; elapse : Z; next : Z }.
#[export] Instance timer_zero : Inhabited timer_t := populate (Timer 0 0 0 0).

Record timer_list (W : Type) := Timers { timers : Z; cells : gmap Z timer_t; world : W }.
Arguments Timers {W}. Arguments timers {W}. Arguments cells {W}. Arguments world {W}.

Definition set_callback v t := Timer v (interval t) (elapse t) (next t).
Definition set_interval v t := Timer (callback_func t) v (elapse t) (next t).
Definition set_elapse v t := Timer (callback_func t) (interval t) v (next t).
Definition set_next v t := Timer (callback_func t) (interval t) (elapse t) v.

(** The handler of vector 32 and the divisor of the clock. *)
Definition init_timer (timer_schedule_addr : Z) (s : Interrupts.idt) : Interrupts.idt :=
  let s := Interrupts.register_interrupt_handler 32 timer_schedule_addr s in
  let divisor := TIMER_FREQUENCY_MAX / TIMER_FRE in
  let s := Interrupts.emit (Interrupts.Outb 0x43 0x36) s in
  let divisor_low := u8 (Z.land divisor 0xFF) in
  let divisor_hign := u8 (Z.land (Z.shiftr divisor 8) 0xFF) in
  let s := Interrupts.emit (Interrupts.Outb 0x40 divisor_low) s in
  Interrupts.emit (Interrupts.Outb 0x40 divisor_hign) s.

Section code.
Context {W : Type} `{Heap W}.
(** What calling a function pointer does. *)
Context (call : Z -> W -> W).
Implicit Types s : timer_list W.

Definition timer s (t : Z) : timer_t := cells s !!! t.
Definition upd_timer (t : Z) (f : timer_t -> timer_t) s : timer_list W :=
  Timers (timers s) (upd t f (cells s)) (world s).
Definition set_timers (t : Z) s : timer_list W := Timers t (cells s) (world s).
Definition set_world (w : W) s : timer_list W := Timers (timers s) (cells s) w.

Definition schedule_step (st : Z * timer_list W) : Z * timer_list W :=
  let '(current_timer, s) := st in
  let s := upd_timer current_timer (fun t => set_elapse (u32 (elapse t - 1)) t) s in
  let s := if elapse (timer s current_timer) =? 0 then
             let s := upd_timer current_timer (fun t => set_elapse (interval t) t) s in
             set_world (call (callback_func (timer s current_timer)) (world s)) s
           else s in
  (next (timer s current_timer), s).

(** [None] when there are more than [fuel] timers. *)
Definition timer_schedule (fuel : nat) s : option (timer_list W) :=
  '(_, s) ← while fuel (fun '(current_timer, _) => negb (current_timer =? 0)) schedule_step (timers s, s);
  Some s.

Definition register_timer (callback frequency : Z) s : option (timer_list W) :=
  if (TIMER_FREQUENCY_MIN <=? frequency) && (frequency <=? TIMER_FREQUENCY_MAX) then
    '(new_timer, w) ← h_kmalloc SIZEOF_TIMER (world s);
    let s := set_world w s in
    let interval := TIMER_FRE / frequency in
    let s := upd_timer new_timer (set_callback callback) s in
    let s := upd_timer new_timer (set_elapse interval) s in
    let s := upd_timer new_timer (set_interval interval) s in
    let s := upd_timer new_timer (set_next 0) s in
    Some (if timers s =? 0 then set_timers new_timer s
          else set_timers new_timer (upd_timer new_timer (set_next (timers s)) s))
  else Some s.

Definition unregister_timer (fuel : nat) (t : Z) s : option (timer_list W) :=
  '(current, prev) ← while fuel (fun '(current, _) => negb (current =? 0) && negb (current =? t))
                       (fun '(current, _) => (next (timer s current), current)) (timers s, timers s);
  if current =? t then
    let s := if negb (prev =? 0) then upd_timer prev (set_next (next (timer s current))) s
             else set_timers (next (timer s current)) s in
    w ← h_kfree t (world s);
    Some (set_world w s)
  else Some s.

(** [n] ticks. *)
Fixpoint ticks (fuel n : nat) s : option (timer_list W) :=
  match n with
  | O => Some s
  | S n => s ← timer_schedule fuel s; ticks fuel n s
  end.

(** ** One tick *)

(** The timers are the cells [ts], in this order. *)
Definition timer_chain s (ts : list Z) : Prop :=
  NoDup ts /\ slist (fun a => next (timer s a)) (timers s) ts.

(** A counter of 0 runs through all the 32-bit numbers before it is 0 again. *)
Definition period (v : Z) : Z := if v =? 0 then 4294967296 else v.

Record timer_ok (t : timer_t) : Prop := {
  tm_interval : in_u32 (interval t);
  tm_elapse : in_u32 (elapse t);
  tm_due : period (elapse t) <= period (interval t)
}.

(** The timer after one tick, and whether it calls back then. *)
Definition ticked (t : timer_t) : timer_t :=
  set_elapse (if u32 (elapse t - 1) =? 0 then interval t else u32 (elapse t - 1)) t.
Definition rings (t : timer_t) : bool := u32 (elapse t - 1) =? 0.

Definition ring_all s (ts : list Z) (w : W) : W :=
  foldl (fun w t => if rings (timer s t) then call (callback_func (timer s t)) w else w) w ts.

Lemma timer_upd t f s a :
  timer (upd_timer t f s) a = if decide (t = a) then f (timer s a) else timer s a.
Proof. apply upd_lookup. Qed.

Lemma timers_upd t f s : timers (upd_timer t f s) = timers s.
Proof. reflexivity. Qed.

Lemma schedule_step_ok t s :
  exists s1, schedule_step (t, s) = (next (timer s t), s1)
    /\ timers s1 = timers s /\ timer s1 t = ticked (timer s t)
    /\ (forall a, a <> t -> timer s1 a = timer s a)
    /\ world s1 = ring_all s [t] (world s).
Proof.
  unfold schedule_step. cbv zeta. eexists. split.
  { f_equal. case_match; unfold set_world, timer at 1; cbn [cells];
      repeat first [rewrite upd_eq | progress cbn [upd_timer cells]]; reflexivity. }
  rewrite timer_upd, decide_True by reflexivity. unfold ring_all, rings, ticked. cbn [foldl elapse set_elapse].
  destruct (u32 (elapse (timer s t) - 1) =? 0) eqn:E.
  - cbn [set_world timers upd_timer world]. split; [reflexivity|].
    change (timer (set_world ?w ?x)) with (timer x). rewrite !timer_upd, !decide_True by reflexivity.
    split; [reflexivity|]. split; [|reflexivity]. intros a Ha.
    change (timer (set_world ?w ?x)) with (timer x). rewrite !timer_upd, !decide_False by congruence. reflexivity.
  - rewrite timer_upd, decide_True by reflexivity. split; [reflexivity|]. split; [reflexivity|].
    split; [|reflexivity]. intros a Ha. rewrite timer_upd, decide_False by congruence. reflexivity.
Qed.

Lemma ring_all_ext s s' ts w :
  (forall a, a ∈ ts -> timer s' a = timer s a) -> ring_all s' ts w = ring_all s ts w.
Proof.
  unfold ring_all. revert w. induction ts as [|t ts IH]; intros w Hs; [reflexivity|]. simpl.
  rewrite (Hs t) by apply list_elem_of_here. apply IH. intros a Ha. apply Hs. right. exact Ha.
Qed.

Lemma schedule_loop fuel ts t s :
  NoDup ts -> slist (fun a => next (timer s a)) t ts -> (length ts <= fuel)%nat ->
  exists s', while fuel (fun '(current_timer, _) => negb (current_timer =? 0)) schedule_step (t, s) = Some (0, s')
    /\ timers s' = timers s
    /\ (forall a, timer s' a = if decide (a ∈ ts) then ticked (timer s a) else timer s a)
    /\ world s' = ring_all s ts (world s).
Proof.
  revert fuel t s. induction ts as [|x ts IH]; intros fuel t s Hd Hl Hf.
  - simpl in Hl. subst t. exists s. split; [apply while_false; reflexivity|]. split; [reflexivity|].
    split; [|reflexivity]. intros a. rewrite decide_False by apply not_elem_of_nil. reflexivity.
  - destruct fuel as [|fuel]; [simpl in Hf; lia|]. destruct Hl as (-> & Hx & Hl). apply NoDup_cons in Hd as [Hn Hd].
    destruct (schedule_step_ok x s) as (s1 & E1 & Et & Ex & Ea & Ew).
    rewrite while_true by (apply negb_true_iff, Z.eqb_neq, Hx). rewrite E1.
    assert (forall a, a ∈ ts -> timer s1 a = timer s a) as Hts by (intros a Ha; apply Ea; intros ->; contradiction).
    destruct (IH fuel (next (timer s x)) s1 Hd) as (s' & E & Et' & Ea' & Ew').
    { apply (slist_ext _ _ _ _ (fun a Ha => f_equal next (Hts a Ha)) Hl). }
    { simpl in Hf. lia. }
    exists s'. split; [exact E|]. split; [congruence|]. split.
    + intros a. rewrite Ea'. destruct (decide (a = x)) as [->|Hax].
      * rewrite (decide_False (P := x ∈ ts)), decide_True by (assumption || apply list_elem_of_here). exact Ex.
      * rewrite (Ea a Hax). destruct (decide (a ∈ ts)) as [Hi|Hi].
        { rewrite decide_True by (right; exact Hi). reflexivity. }
        { rewrite decide_False; [reflexivity|]. rewrite elem_of_cons. tauto. }
    + rewrite Ew', Ew. rewrite (ring_all_ext s s1) by exact Hts. reflexivity.
Qed.

Lemma timer_schedule_ok fuel s ts :
  timer_chain s ts -> (length ts <= fuel)%nat ->
  exists s', timer_schedule fuel s = Some s' /\ timer_chain s' ts
    /\ (forall a, timer s' a = if decide (a ∈ ts) then ticked (timer s a) else timer s a)
    /\ world s' = ring_all s ts (world s).
Proof.
  intros [Hd Hl] Hf. destruct (schedule_loop fuel ts (timers s) s Hd Hl Hf) as (s' & E & Et & Ea & Ew).
  exists s'. split; [unfold timer_schedule; rewrite E; reflexivity|]. split; [|auto].
  split; [exact Hd|]. rewrite Et. refine (slist_ext _ _ _ _ _ Hl). intros a _. rewrite Ea. case_decide; reflexivity.
Qed.

(** ** Many ticks *)

Lemma period_range v : in_u32 v -> 1 <= period v <= 4294967296.
Proof. unfold period, in_u32. case_bools; lia. Qed.

Lemma rings_period t : in_u32 (elapse t) -> rings t = (period (elapse t) =? 1).
Proof.
  unfold rings, period, in_u32. intros Hr. destruct (Z.eqb_spec (elapse t) 0) as [->|Hz]; [reflexivity|].
  rewrite u32_small by (unfold in_u32; lia). case_bools; lia.
Qed.

Lemma ticked_period t :
  timer_ok t -> timer_ok (ticked t)
  /\ period (elapse (ticked t)) = (if period (elapse t) =? 1 then period (interval t) else period (elapse t) - 1)
  /\ interval (ticked t) = interval t /\ callback_func (ticked t) = callback_func t.
Proof.
  intros [Hi He Hp]. pose proof (rings_period t He) as R. unfold rings in R.
  assert (period (elapse (ticked t)) = (if period (elapse t) =? 1 then period (interval t) else period (elapse t) - 1)) as Ep.
  { unfold ticked. cbn [set_elapse elapse]. rewrite R. destruct (Z.eqb_spec (period (elapse t)) 1) as [E|E]; [reflexivity|].
    unfold period, in_u32 in *. destruct (Z.eqb_spec (elapse t) 0) as [->|Hz].
    - reflexivity.
    - rewrite u32_small by (unfold in_u32; lia). case_bools; lia. }
  split; [|auto]. pose proof (period_range _ He). pose proof (period_range _ Hi).
  split; [exact Hi| |].
  - unfold ticked. cbn [set_elapse elapse].
    destruct (u32 (elapse t - 1) =? 0); [exact Hi|apply u32_range].
  - rewrite Ep. change (interval (ticked t)) with (interval t). case_bools; lia.
Qed.

(** Timer [t] is due at the [j]-th tick from now: first when its counter runs out,
    then every [interval] ticks. *)
Definition due (t : timer_t) (j : Z) : bool := (j - period (elapse t)) mod period (interval t) =? 0.

(** What is left of the counter after [j] ticks. *)
Definition left_after (t : timer_t) (j : Z) : Z := 1 + (period (elapse t) - 1 - j) mod period (interval t).

Lemma due_ticked t j : timer_ok t -> due (ticked t) j = due t (j + 1).
Proof.
  intros K. destruct (ticked_period t K) as (_ & Ep & Ei & _). unfold due. rewrite Ep, Ei. f_equal.
  destruct (Z.eqb_spec (period (elapse t)) 1) as [E|E].
  - rewrite E. replace (j + 1 - 1) with j by lia. rewrite Zminus_mod, Z_mod_same_full, Z.sub_0_r.
    apply Zmod_mod.
  - f_equal. lia.
Qed.

Lemma due_first t : timer_ok t -> due t 1 = rings t.
Proof.
  intros [Hi He Hp]. rewrite rings_period by exact He. unfold due.
  pose proof (period_range _ He). pose proof (period_range _ Hi).
  destruct (Z.eqb_spec (period (elapse t)) 1) as [->|E]; [reflexivity|]. apply Z.eqb_neq. intros E0.
  apply Z.mod_divide in E0; [|lia]. destruct E0 as [q Eq]. assert (q < 0) by nia. assert (-1 < q) by nia. lia.
Qed.

(** The calls of the [n] ticks after the first [k], in order. *)
Fixpoint calls s (ts : list Z) (k : Z) (n : nat) (w : W) : W :=
  match n with
  | O => w
  | S n => calls s ts (k + 1) n
             (foldl (fun w t => if due (timer s t) (k + 1) then call (callback_func (timer s t)) w else w) w ts)
  end.

Lemma calls_shift s s' ts k n w :
  (forall t, t ∈ ts -> callback_func (timer s' t) = callback_func (timer s t)
     /\ forall j, due (timer s' t) j = due (timer s t) (j + 1)) ->
  calls s' ts k n w = calls s ts (k + 1) n w.
Proof.
  intros Hs. revert k w. induction n as [|n IH]; intros k w; [reflexivity|]. cbn [calls]. rewrite IH. f_equal.
  clear IH. revert w. induction ts as [|t ts IH]; intros w; [reflexivity|]. simpl.
  destruct (Hs t (list_elem_of_here _ _)) as [Ec Ed]. rewrite Ed, Ec. apply IH.
  intros a Ha. apply Hs. right. exact Ha.
Qed.

Lemma ring_all_due s ts w :
  (forall t, t ∈ ts -> timer_ok (timer s t)) ->
  ring_all s ts w = foldl (fun w t => if due (timer s t) 1 then call (callback_func (timer s t)) w else w) w ts.
Proof.
  unfold ring_all. revert w. induction ts as [|t ts IH]; intros w Hs; [reflexivity|]. simpl.
  rewrite due_first by (apply Hs, list_elem_of_here). apply IH. intros a Ha. apply Hs. right. exact Ha.
Qed.

Lemma left_ticked t j : timer_ok t -> left_after (ticked t) j = left_after t (j + 1).
Proof.
  intros K. destruct (ticked_period t K) as (_ & Ep & Ei & _). unfold left_after. rewrite Ep, Ei. f_equal.
  destruct (Z.eqb_spec (period (elapse t)) 1) as [E|E]; [|f_equal; lia].
  rewrite E. replace (period (interval t) - 1 - j) with (1 - 1 - (j + 1) + 1 * period (interval t)) by lia.
  apply Z_mod_plus_full.
Qed.

Lemma left_now t : timer_ok t -> left_after t 0 = period (elapse t).
Proof.
  intros [Hi He Hp]. unfold left_after. pose proof (period_range _ He).
  rewrite Z.mod_small by lia. lia.
Qed.

Lemma ticks_ok fuel n s ts :
  timer_chain s ts -> (length ts <= fuel)%nat -> (forall t, t ∈ ts -> timer_ok (timer s t)) ->
  exists s', ticks fuel n s = Some s' /\ timer_chain s' ts
    /\ world s' = calls s ts 0 n (world s)
    /\ (forall t, t ∈ ts -> callback_func (timer s' t) = callback_func (timer s t)
          /\ interval (timer s' t) = interval (timer s t) /\ timer_ok (timer s' t)
          /\ period (elapse (timer s' t)) = left_after (timer s t) (Z.of_nat n))
    /\ (forall a, (a ∉ ts) -> timer s' a = timer s a).
Proof.
  intros Hc Hf. revert s Hc. induction n as [|n IH]; intros s Hc Hok.
  - exists s. split; [reflexivity|]. split; [exact Hc|]. split; [reflexivity|]. split; [|auto].
    intros t Ht. rewrite left_now by (apply Hok, Ht). auto.
  - destruct (timer_schedule_ok fuel s ts Hc Hf) as (s1 & E1 & Hc1 & Ha1 & Ew1).
    assert (forall t, t ∈ ts -> timer s1 t = ticked (timer s t)) as Hts
      by (intros t Ht; rewrite Ha1, decide_True by exact Ht; reflexivity).
    destruct (IH s1 Hc1) as (s' & E & Hc' & Ew & Ht' & Ha').
    { intros t Ht. rewrite (Hts t Ht). apply ticked_period, Hok, Ht. }
    exists s'. split; [cbn [ticks]; rewrite E1; exact E|]. split; [exact Hc'|]. split; [|split].
    + rewrite Ew, Ew1, ring_all_due by exact Hok. cbn [calls]. apply calls_shift. intros t Ht. rewrite (Hts t Ht).
      split; [reflexivity|]. intros j. apply due_ticked, Hok, Ht.
    + intros t Ht. destruct (Ht' t Ht) as (H1 & H2 & H3 & H4). rewrite (Hts t Ht) in H1, H2, H4.
      rewrite left_ticked in H4 by (apply Hok, Ht). replace (Z.of_nat n + 1) with (Z.of_nat (S n)) in H4 by lia. auto.
    + intros a Ha. rewrite Ha' by exact Ha. rewrite Ha1, decide_False by exact Ha. reflexivity.
Qed.

(** [C25] The timers' calls over any number of ticks: at the [j]-th tick exactly
    the timers that are due are called, in the order of the list, a timer being due
    when its counter runs out and then once every [interval] ticks, an interval of
    0 standing for 2^32.  The list, the intervals and the callbacks stay as they
    are, and the counters hold what is left. *)
Theorem timer_schedule_correct fuel n s ts :
  timer_chain s ts -> (length ts <= fuel)%nat -> (forall t, t ∈ ts -> timer_ok (timer s t)) ->
  exists s', ticks fuel n s = Some s' /\ timer_chain s' ts
    /\ world s' = calls s ts 0 n (world s)
    /\ (forall t, t ∈ ts -> callback_func (timer s' t) = callback_func (timer s t)
          /\ interval (timer s' t) = interval (timer s t) /\ timer_ok (timer s' t)
          /\ period (elapse (timer s' t)) = left_after (timer s t) (Z.of_nat n)).
Proof.
  intros Hc Hf Hok. destruct (ticks_ok fuel n s ts Hc Hf Hok) as (s' & E & Hc' & Ew & Ht & _). eauto 6.
Qed.

End code.

(** ** Registration *)

Section registration.
Context {W : Type} `{Heap W}.
Implicit Types s : timer_list W.

Lemma new_timer_ok s callback frequency new w ts :
  timer_chain s ts -> h_kmalloc SIZEOF_TIMER (world s) = Some (new, w) -> new <> 0 -> (new ∉ ts) ->
  TIMER_FREQUENCY_MIN <= frequency <= TIMER_FREQUENCY_MAX ->
  exists s', register_timer callback frequency s = Some s' /\ timer_chain s' (new :: ts) /\ world s' = w
    /\ timer s' new = Timer callback (TIMER_FRE / frequency) (TIMER_FRE / frequency) (timers s)
    /\ timer_ok (timer s' new)
    /\ (forall a, a <> new -> timer s' a = timer s a).
Proof.
  intros [Hd Hl] Em Hn Hni Hf. unfold register_timer.
  rewrite (proj2 (Z.leb_le _ _) (proj1 Hf)), (proj2 (Z.leb_le _ _) (proj2 Hf)). cbn [andb]. rewrite Em. cbn [mbind option_bind].
  eexists. split; [reflexivity|]. match goal with |- timer_chain ?x _ /\ _ => set (s' := x) end.
  assert (timers s' = new /\ world s' = w) as [Et Ew] by (unfold s'; case_match; auto).
  assert (timer s' new = Timer callback (TIMER_FRE / frequency) (TIMER_FRE / frequency) (timers s)) as En.
  { unfold s'. rewrite !timers_upd. change (timers (set_world w s)) with (timers s).
    destruct (Z.eqb_spec (timers s) 0) as [E|E]; change (timer (set_timers ?a ?x)) with (timer x);
      rewrite !timer_upd, !decide_True by reflexivity; [rewrite E|]; reflexivity. }
  assert (forall a, a <> new -> timer s' a = timer s a) as Ha.
  { intros a Ha. unfold s'. case_match; change (timer (set_timers ?b ?x)) with (timer x);
      rewrite !timer_upd, !decide_False by congruence; reflexivity. }
  split; [|split; [exact Ew|split; [exact En|split; [|exact Ha]]]].
  - split; [apply NoDup_cons; auto|]. rewrite Et. simpl. rewrite En. split; [reflexivity|]. split; [exact Hn|].
    refine (slist_ext _ _ _ _ _ Hl). intros a Hin. rewrite Ha; [reflexivity|]. intros ->. contradiction.
  - rewrite En. unfold TIMER_FREQUENCY_MIN, TIMER_FREQUENCY_MAX in Hf.
    assert (0 <= TIMER_FRE / frequency <= TIMER_FRE).
    { unfold TIMER_FRE. split; [apply Z.div_pos; lia|]. apply Z.div_le_upper_bound; nia. }
    unfold TIMER_FRE in *. split; cbn [interval elapse]; unfold in_u32; lia.
Qed.

Lemma unregister_loop fuel s t0 t pre post :
  slist (fun a => next (timer s a)) t0 (pre ++ t :: post) -> (t ∉ pre) -> (length pre <= fuel)%nat -> forall p0,
  while fuel (fun '(current, _) => negb (current =? 0) && negb (current =? t))
    (fun '(current, _) => (next (timer s current), current)) (t0, p0) = Some (t, default p0 (last pre))
  /\ default t0 (head pre) <> 0.
Proof.
  revert fuel t0. induction pre as [|x pre IH]; intros fuel t0 Hl Hn Hf p0.
  - simpl in Hl. destruct Hl as (-> & Ht & _). split; [|exact Ht].
    apply while_false. rewrite Z.eqb_refl. apply andb_false_r.
  - destruct fuel as [|fuel]; [simpl in Hf; lia|]. destruct Hl as (-> & Hx & Hl).
    apply not_elem_of_cons in Hn as [Hxt Hn].
    rewrite while_true by (rewrite (proj2 (Z.eqb_neq x 0)), (proj2 (Z.eqb_neq x t)) by congruence; reflexivity).
    split; [|exact Hx]. destruct (IH fuel _ Hl Hn ltac:(simpl in Hf; lia) x) as [-> _].
    rewrite last_cons. destruct (last pre); reflexivity.
Qed.

(** The cell in front of [t] is linked to the one behind it. *)
Lemma slist_unlink nx a pre p t post :
  slist nx a (pre ++ p :: t :: post) -> NoDup (pre ++ p :: t :: post) ->
  slist (fun x => if decide (p = x) then nx t else nx x) a (pre ++ p :: post).
Proof.
  revert a. induction pre as [|x pre IH]; intros a Hl Hd; simpl in Hl, Hd |- *.
  - destruct Hl as (-> & Hp & -> & _ & Hl). split; [reflexivity|]. split; [exact Hp|].
    rewrite decide_True by reflexivity. refine (slist_ext _ _ _ _ _ Hl). intros x Hx.
    rewrite decide_False; [reflexivity|]. intros <-. apply NoDup_cons in Hd as [Hd _]. apply Hd. right. exact Hx.
  - destruct Hl as (-> & Hx & Hl). apply NoDup_cons in Hd as [Hn Hd]. split; [reflexivity|]. split; [exact Hx|].
    rewrite decide_False; [apply IH; assumption|]. intros <-. apply Hn. set_solver.
Qed.

Lemma unregister_ok fuel s first pre t post w :
  timer_chain s (first :: pre ++ t :: post) -> (length (first :: pre ++ t :: post) <= fuel)%nat ->
  h_kfree t (world s) = Some w ->
  exists s', unregister_timer fuel t s = Some s' /\ timer_chain s' (first :: pre ++ post) /\ world s' = w
    /\ forall a, callback_func (timer s' a) = callback_func (timer s a)
         /\ interval (timer s' a) = interval (timer s a) /\ elapse (timer s' a) = elapse (timer s a).
Proof.
  intros [Hd Hl] Hf Ek. destruct (exists_last (l := first :: pre)) as (qs & p & Eq); [discriminate|].
  change (first :: pre ++ t :: post) with ((first :: pre) ++ t :: post) in Hd, Hl, Hf.
  change (first :: pre ++ post) with ((first :: pre) ++ post). rewrite Eq in *.
  assert (p <> 0) as Hp by (apply (slist_nonzero _ _ _ _ Hl); set_solver).
  destruct (unregister_loop fuel s (timers s) t (qs ++ [p]) post Hl) with (p0 := timers s) as [E _].
  { intros Hi. apply NoDup_app in Hd as (_ & Hd & _). apply (Hd t Hi). apply list_elem_of_here. }
  { rewrite length_app in Hf. lia. }
  rewrite last_snoc in E. unfold unregister_timer. rewrite E. cbn [mbind option_bind from_option id].
  rewrite Z.eqb_refl, (proj2 (Z.eqb_neq p 0) Hp). cbn [negb].
  change (world (upd_timer ?a ?f ?x)) with (world x). rewrite Ek. cbn [mbind option_bind].
  eexists. split; [reflexivity|]. split; [|split; [reflexivity|]].
  - rewrite <- !app_assoc in *. cbn [app] in *. split.
    + apply NoDup_app in Hd as (H1 & H2 & H3). apply NoDup_app. split; [exact H1|].
      split; [intros x Hx; specialize (H2 x Hx); set_solver|].
      rewrite !NoDup_cons in *. destruct H3 as (H3 & H4 & H5). split; [set_solver|exact H5].
    + refine (slist_ext _ _ _ _ _ (slist_unlink _ _ _ _ _ _ Hl Hd)). intros a _.
      change (timer (set_world ?w ?x)) with (timer x). rewrite timer_upd. case_decide; reflexivity.
  - intros a. change (timer (set_world ?w ?x)) with (timer x). rewrite timer_upd. case_decide; auto.
Qed.

Lemma unregister_unknown fuel s ts t :
  timer_chain s ts -> (length ts <= fuel)%nat -> t <> 0 -> (t ∉ ts) -> unregister_timer fuel t s = Some s.
Proof.
  intros [_ Hl] Hf Ht Hni. unfold unregister_timer.
  assert (forall p0, exists p, while fuel (fun '(current, _) => negb (current =? 0) && negb (current =? t))
            (fun '(current, _) => (next (timer s current), current)) (timers s, p0) = Some (0, p)) as Hw.
  { revert Hl Hf. generalize (timers s). revert fuel. induction ts as [|x ts IH]; intros fuel t0 Hl Hf p0.
    - simpl in Hl. subst t0. exists p0. apply while_false. reflexivity.
    - destruct fuel as [|fuel]; [simpl in Hf; lia|]. destruct Hl as (-> & Hx & Hl). apply not_elem_of_cons in Hni as [Hxt Hni].
      destruct (IH Hni fuel _ Hl ltac:(simpl in Hf; lia) x) as (p & E). exists p.
      rewrite while_true by (rewrite (proj2 (Z.eqb_neq x 0)), (proj2 (Z.eqb_neq x t)) by congruence; reflexivity).
      exact E. }
  destruct (Hw (timers s)) as (p & ->). cbn [mbind option_bind].
  rewrite (proj2 (Z.eqb_neq 0 t)) by congruence. reflexivity.
Qed.

(** [C27] A timer of a frequency in [2, 1193180] is put in front of the list with
    its counter at [1000 / frequency], and nothing else changes; any other
    frequency is refused.  Unregistering a timer behind the first one takes exactly
    it out of the list and releases its memory; a pointer that is not in the list
    changes nothing. *)
Theorem register_timer_correct s ts :
  timer_chain s ts ->
  (forall callback frequency new w,
     h_kmalloc SIZEOF_TIMER (world s) = Some (new, w) -> new <> 0 -> (new ∉ ts) ->
     TIMER_FREQUENCY_MIN <= frequency <= TIMER_FREQUENCY_MAX ->
     exists s', register_timer callback frequency s = Some s' /\ timer_chain s' (new :: ts) /\ world s' = w
       /\ callback_func (timer s' new) = callback
       /\ interval (timer s' new) = 1000 / frequency /\ elapse (timer s' new) = 1000 / frequency
       /\ timer_ok (timer s' new) /\ (forall a, a <> new -> timer s' a = timer s a))
  /\ (forall callback frequency, ~ (TIMER_FREQUENCY_MIN <= frequency <= TIMER_FREQUENCY_MAX) ->
        register_timer callback frequency s = Some s)
  /\ (forall fuel first pre t post w, ts = first :: pre ++ t :: post -> (length ts <= fuel)%nat ->
        h_kfree t (world s) = Some w ->
        exists s', unregister_timer fuel t s = Some s' /\ timer_chain s' (first :: pre ++ post) /\ world s' = w
          /\ forall a, callback_func (timer s' a) = callback_func (timer s a)
               /\ interval (timer s' a) = interval (timer s a) /\ elapse (timer s' a) = elapse (timer s a))
  /\ (forall fuel t, (length ts <= fuel)%nat -> t <> 0 -> (t ∉ ts) -> unregister_timer fuel t s = Some s).
Proof.
  intros Hc. split; [|split; [|split]].
  - intros callback frequency new w Em Hn Hni Hf.
    destruct (new_timer_ok s callback frequency new w ts Hc Em Hn Hni Hf) as (s' & E & Hc' & Ew & En & Hok & Ha).
    exists s'. rewrite En in Hok |- *. auto 10.
  - intros callback frequency Hf. unfold register_timer. case_match eqn:E; [|reflexivity]. reflect_bools. lia.
  - intros fuel first pre t post w -> Hf Ek. apply unregister_ok; assumption.
  - intros fuel t Hf Ht Hni. apply unregister_unknown with (ts := ts); assumption.
Qed.
End registration.

(** ** Instances *)

(** The log of the calls, and the kernel's heap. *)
Definition kernel : Type := list Z * Kmm.kmm Pmm.pmm.
Definition log_call (f : Z) (w : kernel) : kernel := (fst w ++ [f], snd w).

#[export] Instance kernel_heap : Heap kernel := {|
  h_kmalloc n w := '(a, k) ← Kmm.kmalloc 8 n (snd w); Some (a, (fst w, k));
  h_kfree a w := k ← Kmm.kfree a (snd w); Some (fst w, k)
|}.

(** A timer of every second tick, 7, behind one of every third, 8. *)
Definition two_timers : timer_list kernel :=
  Timers 48 {[16 := Timer 7 2 2 0; 48 := Timer 8 3 3 16]} ([], KmmProps.kmm0).

Lemma two_timers_chain : timer_chain two_timers [48; 16].
Proof.
  split; [apply (bool_decide_unpack _); vm_compute; exact I|]. vm_compute. repeat split; discriminate.
Qed.

Lemma two_timers_ok t : t ∈ [48; 16] -> timer_ok (timer two_timers t).
Proof.
  intros Ht. apply elem_of_cons in Ht as [->|Ht]; [|apply elem_of_cons in Ht as [->|Ht]; [|apply elem_of_nil in Ht; contradiction]];
    split; vm_compute; repeat split; discriminate.
Qed.

Lemma timer_schedule_correct_witness :
  exists s', ticks log_call 2 7 two_timers = Some s' /\ fst (world s') = [7; 8; 7; 8; 7]
    /\ elapse (timer s' 48) = 2.
Proof.
  destruct (timer_schedule_correct log_call 2 7 two_timers [48; 16] two_timers_chain ltac:(simpl; lia) two_timers_ok)
    as (s' & E & _ & Ew & Ht).
  exists s'. split; [exact E|]. split; [rewrite Ew; vm_compute; reflexivity|].
  destruct (Ht 48 (list_elem_of_here _ _)) as (_ & _ & [_ He _] & Ep).
  replace (left_after (timer two_timers 48) (Z.of_nat 7)) with 2 in Ep by (vm_compute; reflexivity).
  revert Ep. unfold period. destruct (Z.eqb_spec (elapse (timer s' 48)) 0); [discriminate|auto].
Defined.

Definition no_timers : timer_list kernel := Timers 0 ∅ ([], KmmProps.kmm0).

Lemma heap_serves_timers :
  match h_kmalloc SIZEOF_TIMER (world no_timers) with Some (a, _) => negb (a =? 0) | None => false end = true.
Proof. vm_compute. reflexivity. Qed.

Lemma register_timer_correct_witness :
  exists s' new, register_timer 7 500 no_timers = Some s' /\ timer_chain s' [new] /\ interval (timer s' new) = 2.
Proof.
  pose proof heap_serves_timers as Hh.
  destruct (h_kmalloc SIZEOF_TIMER (world no_timers)) as [[new w]|] eqn:Em; [|discriminate Hh].
  apply negb_true_iff, Z.eqb_neq in Hh.
  destruct (register_timer_correct no_timers []) as (R & _).
  - split; [constructor|reflexivity].
  - destruct (R 7 500 new w Em Hh ltac:(apply not_elem_of_nil) ltac:(vm_compute; split; discriminate))
      as (s' & E & Hc & _ & _ & Ei & _).
    exists s', new. split; [exact E|]. split; [exact Hc|exact Ei].
Defined.

(** ** The clock *)

(** The interval timer takes a control word, then the low and the high byte of the
    divisor of channel 0; its mode and divisor after the events [es]. *)
Definition pit_step (st : Z * list Z) (e : Interrupts.event) : Z * list Z :=
  match e with
  | Interrupts.Outb 0x43 v => (v, [])
  | Interrupts.Outb 0x40 v => (fst st, snd st ++ [v])
  | _ => st
  end.
Definition pit (es : list Interrupts.event) : Z * list Z := foldl pit_step (0, []) es.

(** Channel 0, low then high byte, square wave, divided to 1000 Hz; the handler is
    registered for vector 32 only. *)
Lemma init_timer_rate h s :
  pit (Interrupts.events (init_timer h s)) = (0x36, [1193 mod 256; 1193 / 256])
  /\ Interrupts.interrupt_handlers (init_timer h s) = <[32 := h]> (Interrupts.interrupt_handlers s)
  /\ Interrupts.idt_entries (init_timer h s) = Interrupts.idt_entries s.
Proof.
  split; [|split; reflexivity]. unfold pit, init_timer, Interrupts.emit. cbn [Interrupts.events].
  rewrite !foldl_app. reflexivity.
Qed.

(** ** Outside the contract *)

(** When the first timer is unregistered, [prev] is that timer itself (lines 57-66
    of timer.c): it is freed but stays in the list. *)
Lemma unregister_first_stays :
  (fun s => (timers s, next (timer s (timers s)))) <$>
    (s ← register_timer 7 500 no_timers; unregister_timer 2 (timers s) s)
  = (fun s => (timers s, 0)) <$> register_timer 7 500 no_timers.
Proof. vm_compute. reflexivity. Qed.

(** Frequencies above 1000 are accepted, but their interval is 0: such a timer
    counts down from 2^32. *)
Lemma fast_timer_never_rings :
  (fun s => (interval (timer s (timers s)), period (elapse (timer s (timers s))))) <$> register_timer 7 1193180 no_timers
  = Some (0, 2 ^ 32).
Proof. vm_compute. reflexivity. Qed.
