(* ===== verification/Task.v ===== *)
(** * kernel/kernel/task.c and schedule.c: tasks and the scheduler

    A task is a structure at an address [kmalloc] returned, in the list of runnable
    tasks through the node inside it ([node_of]), and in the hash table of
    processes by its number.  [words] is the memory of the stacks; the registers a
    switch saves are [cpu].  [task_schedule] passes the processor on to
    [_next_task]; what the tasks compute in between only shows in [cpu]. *)

From S2P Require Import Prelude Heap Kmap Klist.
From S2P Require Timer.

Definition STACK_SIZE_KERNEL : Z := 0x4000.
Definition SIZEOF_TASK : Z := 60.
(** The offset of [list_head] in [task_struct]. *)
Definition LIST_HEAD_OFFSET : Z := 52.
Definition PAGE_OFFSET : Z := 0xC0000000.

Inductive task_state := TASK_UNINIT | TASK_SLEEPING | TASK_RUNNABLE | TASK_ZOMBIE.

Record context := Context_ { esp : Z; ebp : Z; ebx : Z; esi : Z; edi : Z; eflags : Z }.

Record task_struct := TaskStruct {
  flags : Z; priority : Z; pid : Z; ppid : Z; stack : Z;
  ctx : context; page_dir : Z; state : task_state
}.
#[export] Instance task_zero : Inhabited task_struct :=
  populate (TaskStruct 0 0 0 0 0 (Context_ 0 0 0 0 0 0) 0 TASK_UNINIT).

Record sched (W : Type) := Sched {
  tasks_map : map_t;
  current_pid : Z;
  current_task : Z;
  _next_task : Z;
  task_structs : gmap Z task_struct;
  links : lists;
  words : gmap Z Z;
  cpu : context;
  heap : W
}.
Arguments Sched {W}. Arguments tasks_map {W}. Arguments current_pid {W}. Arguments current_task {W}.
Arguments _next_task {W}. Arguments task_structs {W}. Arguments links {W}. Arguments words {W}.
Arguments cpu {W}. Arguments heap {W}.

(** ** Field writes *)

Definition set_esp v c := Context_ v (ebp c) (ebx c) (esi c) (edi c) (eflags c).
Definition set_eflags v c := Context_ (esp c) (ebp c) (ebx c) (esi c) (edi c) v.

Definition set_flags v t := TaskStruct v (priority t) (pid t) (ppid t) (stack t) (ctx t) (page_dir t) (state t).
Definition set_priority v t := TaskStruct (flags t) v (pid t) (ppid t) (stack t) (ctx t) (page_dir t) (state t).
Definition set_pid v t := TaskStruct (flags t) (priority t) v (ppid t) (stack t) (ctx t) (page_dir t) (state t).
Definition set_ppid v t := TaskStruct (flags t) (priority t) (pid t) v (stack t) (ctx t) (page_dir t) (state t).
Definition set_stack v t := TaskStruct (flags t) (priority t) (pid t) (ppid t) v (ctx t) (page_dir t) (state t).
Definition set_ctx v t := TaskStruct (flags t) (priority t) (pid t) (ppid t) (stack t) v (page_dir t) (state t).
Definition set_page_dir v t := TaskStruct (flags t) (priority t) (pid t) (ppid t) (stack t) (ctx t) v (state t).
Definition set_state v t := TaskStruct (flags t) (priority t) (pid t) (ppid t) (stack t) (ctx t) (page_dir t) v.

Section state.
Context {W : Type}.
Implicit Types s : sched W.

Definition set_map v s := Sched v (current_pid s) (current_task s) (_next_task s) (task_structs s) (links s) (words s) (cpu s) (heap s).
Definition set_current_pid v s := Sched (tasks_map s) v (current_task s) (_next_task s) (task_structs s) (links s) (words s) (cpu s) (heap s).
Definition set_current v s := Sched (tasks_map s) (current_pid s) v (_next_task s) (task_structs s) (links s) (words s) (cpu s) (heap s).
Definition set_next_task v s := Sched (tasks_map s) (current_pid s) (current_task s) v (task_structs s) (links s) (words s) (cpu s) (heap s).
Definition upd_task t f s := Sched (tasks_map s) (current_pid s) (current_task s) (_next_task s) (upd t f (task_structs s)) (links s) (words s) (cpu s) (heap s).
Definition set_links v s := Sched (tasks_map s) (current_pid s) (current_task s) (_next_task s) (task_structs s) v (words s) (cpu s) (heap s).
Definition set_words v s := Sched (tasks_map s) (current_pid s) (current_task s) (_next_task s) (task_structs s) (links s) v (cpu s) (heap s).
Definition set_cpu v s := Sched (tasks_map s) (current_pid s) (current_task s) (_next_task s) (task_structs s) (links s) (words s) v (heap s).
Definition set_heap (v : W) s := Sched (tasks_map s) (current_pid s) (current_task s) (_next_task s) (task_structs s) (links s) (words s) (cpu s) v.

Definition task s (t : Z) : task_struct := task_structs s !!! t.
End state.

(** [&task->list_head], and back. *)
Definition node_of (t : Z) : Z := u32 (t + LIST_HEAD_OFFSET).
Definition container_of (p : Z) : Z := u32 (p - LIST_HEAD_OFFSET).

(** ** The processor *)

(** Interrupts are enabled by bit 9 of the flags. *)
Definition IF : Z := 0x200.
Definition cli (c : context) : context := set_eflags (Z.ldiff (eflags c) IF) c.
Definition sti (c : context) : context := set_eflags (Z.lor (eflags c) IF) c.
Definition interruptible (c : context) : bool := negb (Z.land (eflags c) IF =? 0).

Section code.
Context {W : Type} `{Heap W}.
(** Where the linker puts [tasks], [kernel_stack], [pgd_k] and [thread_exit]. *)
Context (tasks kernel_stack pgd_k thread_exit_addr : Z).
(** The bounds of the hash table's model. *)
Context (depth fuel : nat).
Implicit Types s : sched W.

(** ** schedule.c *)

(** The registers of the one task are saved, those of the other loaded. *)
Definition switch_context (cur next : Z) s : sched W :=
  let s := upd_task cur (set_ctx (cpu s)) s in
  set_cpu (ctx (task s next)) s.

Definition next_task (__next_task : Z) s : Z :=
  let next_list_head := next (links s) (node_of __next_task) in
  let next_list_head := if next_list_head =? tasks then next (links s) next_list_head else next_list_head in
  container_of next_list_head.

(** The last step is made by the task that was switched to; a new task starts with
    interrupts enabled instead. *)
Definition task_schedule s : sched W :=
  let s := set_cpu (cli (cpu s)) s in
  let s :=
    if negb (current_task s =? 0) then
      let next_tmp := _next_task s in
      let s := set_next_task (next_task (_next_task s) s) s in
      if negb (next_tmp =? current_task s) then
        let current_tmp := current_task s in
        let s := set_current next_tmp s in
        switch_context current_tmp next_tmp s
      else s
    else s in
  set_cpu (sti (cpu s)) s.

(** ** task.c *)

Definition init_task s : option (sched W) :=
  let s := set_map map_init s in
  let s := set_current_pid 0 s in
  '(new_task, h) ← h_kmalloc SIZEOF_TASK (heap s);
  let s := set_heap h s in
  let s := upd_task new_task (set_flags 0) s in
  let s := upd_task new_task (set_priority 0) s in
  let s := upd_task new_task (set_pid (current_pid s)) s in
  let s := set_current_pid (u32 (current_pid s + 1)) s in
  let s := upd_task new_task (set_ppid UINT32_MAX) s in
  let s := upd_task new_task (set_stack kernel_stack) s in
  let s := upd_task new_task (set_page_dir (u32 (pgd_k - PAGE_OFFSET))) s in
  let s := upd_task new_task (set_state TASK_RUNNABLE) s in
  let s := set_current new_task s in
  let s := set_next_task new_task s in
  m ← map_insert depth fuel (pid (task s new_task)) new_task (tasks_map s);
  let s := set_map m s in
  Some (set_links (list_add_tail (node_of new_task) tasks (links s)) s).

Definition push (v : Z) (p : Z) s : Z * sched W := (u32 (p - 4), set_words (<[u32 (p - 4) := v]> (words s)) s).

Definition thread_create (fn arg : Z) s : option (Z * sched W) :=
  '(new_task, h) ← h_kmalloc SIZEOF_TASK (heap s);
  let s := set_heap h s in
  '(new_stack, h) ← h_kmalloc STACK_SIZE_KERNEL (heap s);
  let s := set_heap h s in
  let s := upd_task new_task (set_flags 0) s in
  let s := upd_task new_task (set_priority 0) s in
  let s := upd_task new_task (set_pid (current_pid s)) s in
  let s := set_current_pid (u32 (current_pid s + 1)) s in
  let s := upd_task new_task (set_ppid (pid (task s (current_task s)))) s in
  let s := upd_task new_task (set_stack new_stack) s in
  let s := upd_task new_task (set_page_dir (u32 (pgd_k - PAGE_OFFSET))) s in
  let s := upd_task new_task (set_state TASK_RUNNABLE) s in
  let new_stack := u32 (new_stack + STACK_SIZE_KERNEL) in
  let '(new_stack, s) := push thread_exit_addr new_stack s in
  let '(new_stack, s) := push arg new_stack s in
  let '(new_stack, s) := push fn new_stack s in
  let s := upd_task new_task (fun t => set_ctx (set_esp new_stack (ctx t)) t) s in
  let s := upd_task new_task (fun t => set_ctx (set_eflags 0x200 (ctx t)) t) s in
  m ← map_insert depth fuel (pid (task s new_task)) new_task (tasks_map s);
  let s := set_map m s in
  let s := set_links (list_add_tail (node_of new_task) (node_of (current_task s)) (links s)) s in
  Some (s32 (pid (task s new_task)), s).

(** What becomes of the three addresses is up to [kfree]: of the real one (Kmm.v) the
    stack (16 KiB, beyond its classes) and the page directory (a physical address)
    get nothing released; see [KmmRuns.big_block_not_released]. *)
Definition thread_exit (p : Z) s : option (sched W) :=
  if p =? 0 then Some s
  else
    '(found, value) ← map_find fuel p (tasks_map s);
    if negb (found =? 0) then
      let t := default 0 value in
      m ← map_delete depth fuel p (tasks_map s);
      let s := set_map m s in
      let s := set_links (list_del (node_of t) (links s)) s in
      h ← h_kfree (stack (task s t)) (heap s);
      let s := set_heap h s in
      h ← h_kfree (page_dir (task s t)) (heap s);
      let s := set_heap h s in
      h ← h_kfree t (heap s);
      Some (set_heap h s)
    else Some s.

Definition TASK_SWITCH_FREQUENCY : Z := 500.

#[export] Instance sched_heap : Heap (sched W) := {|
  h_kmalloc n s := '(a, h) ← h_kmalloc n (heap s); Some (a, set_heap h s);
  h_kfree a s := h ← h_kfree a (heap s); Some (set_heap h s)
|}.

(** The state around the scheduler is that of the timers, which call back the
    address of [task_schedule]. *)
Definition init_schedule (task_schedule_addr : Z) (ts : Timer.timer_list (sched W))
  : option (Timer.timer_list (sched W)) :=
  s ← init_task (Timer.world ts);
  Timer.register_timer task_schedule_addr TASK_SWITCH_FREQUENCY (Timer.set_world s ts).
End code.
