(* ===== verification/TaskProofs.v ===== *)
(** * The scheduler: proofs

    The runnable tasks are a ring through [tasks]; [turn ts i] is the [i]-th task
    of the round.  The main result is that of round robin scheduling: every task
    of the ring gets the processor again after as many ticks as there are tasks,
    with the registers it was interrupted with. *)

From S2P Require Import Prelude Heap Kmap Klist Task.
From S2P Require KmapProofs Timer.

(** ** The round *)

Definition turn (ts : list Z) (i : nat) : Z := ts !!! (i mod length ts)%nat.

Lemma turn_in ts i : ts <> [] -> turn ts i ∈ ts.
Proof.
  intros Hn. apply list_elem_of_lookup_total_2. apply Nat.mod_upper_bound. destruct ts; [contradiction|discriminate].
Qed.

Lemma turn_small ts i : (i < length ts)%nat -> turn ts i = ts !!! i.
Proof. intros Hi. unfold turn. rewrite Nat.mod_small by exact Hi. reflexivity. Qed.

Lemma turn_period ts i k : ts <> [] -> turn ts (i + k * length ts) = turn ts i.
Proof. intros Hn. unfold turn. rewrite Nat.Div0.mod_add. reflexivity. Qed.

(** Two turns less than a round apart are different tasks. *)
Lemma turn_distinct ts i k : NoDup ts -> (0 < k < length ts)%nat -> turn ts (i + k) <> turn ts i.
Proof.
  intros Hd Hk E. unfold turn in E. assert (length ts <> 0%nat) as Hl by lia.
  pose proof (Nat.mod_upper_bound (i + k) (length ts) Hl) as B1. pose proof (Nat.mod_upper_bound i (length ts) Hl) as B2.
  pose proof (list_lookup_lookup_total_lt ts _ B1) as L1. pose proof (list_lookup_lookup_total_lt ts _ B2) as L2.
  rewrite E in L1. pose proof (NoDup_lookup _ _ _ _ Hd L1 L2) as Ei.
  pose proof (Nat.Div0.div_mod (i + k) (length ts)). pose proof (Nat.Div0.div_mod i (length ts)).
  set (a := ((i + k) / length ts)%nat) in *. set (b := (i / length ts)%nat) in *. rewrite Ei in *.
  destruct (Nat.le_gt_cases a b); nia.
Qed.

(** The task after the one that splits the list. *)
Lemma turn_succ ts i :
  ts <> [] -> exists xs ys, ts = xs ++ turn ts i :: ys
    /\ turn ts (S i) = match ys with y :: _ => y | [] => match xs with x :: _ => x | [] => turn ts i end end.
Proof.
  intros Hn. assert (length ts <> 0%nat) as Hl by (destruct ts; [contradiction|discriminate]).
  unfold turn at 1. pose proof (Nat.mod_upper_bound i (length ts) Hl) as B. set (j := (i mod length ts)%nat) in *.
  exists (take j ts), (drop (S j) ts).
  assert (ts !! j = Some (ts !!! j)) as Ej by (apply list_lookup_lookup_total_lt, B).
  split; [symmetry; apply take_drop_middle, Ej|].
  assert ((S i mod length ts = if decide (S j = length ts) then 0 else S j)%nat) as Em.
  { unfold j in *. clear Ej. pose proof (Nat.Div0.div_mod i (length ts)) as D.
    case_decide as Ed; symmetry; apply (Nat.mod_unique _ _ (if decide (S (i mod length ts) = length ts)
      then S (i / length ts) else (i / length ts))%nat); try case_decide; try lia; nia. }
  unfold turn. rewrite Em. fold j. clearbody j. destruct (drop (S j) ts) as [|y ys] eqn:Ed.
  - assert (S j = length ts) as El by (apply (f_equal length) in Ed; rewrite length_drop in Ed; simpl in Ed; lia).
    rewrite decide_True by exact El. destruct ts as [|t ts']; [contradiction|]. destruct (take j (t :: ts')) as [|x xs] eqn:Et.
    + destruct j; [reflexivity|discriminate Et].
    + destruct j; [discriminate Et|]. injection Et as <- _. reflexivity.
  - assert (S j < length ts)%nat as El by (apply (f_equal length) in Ed; rewrite length_drop in Ed; simpl in Ed; lia).
    rewrite decide_False by lia. apply list_lookup_total_correct.
    pose proof (lookup_drop ts (S j) 0) as D. rewrite Ed, Nat.add_0_r in D. symmetry. exact D.
Qed.

(** ** One switch *)

Record run_list {W} (tasks : Z) (s : sched W) (ts : list Z) : Prop := {
  rl_ring : ring (links s) tasks (node_of <$> ts);
  rl_some : ts <> [];
  rl_task : forall t, t ∈ ts -> in_u32 t /\ t <> 0
}.

Lemma container_of_node t : in_u32 t -> container_of (node_of t) = t.
Proof.
  intros Ht. unfold container_of, node_of, u32. rewrite Zminus_mod_idemp_l, Z.add_simpl_r. apply Z.mod_small, Ht.
Qed.

Section round_robin.
Context {W : Type} (tasks : Z).
Implicit Types s : sched W.

Lemma run_list_nodup s ts : run_list tasks s ts -> NoDup ts.
Proof. intros [[Hd _] _ _]. apply NoDup_cons in Hd as [_ Hd]. apply (NoDup_fmap_1 node_of), Hd. Qed.

Lemma run_list_head s ts t : run_list tasks s ts -> t ∈ ts -> node_of t <> tasks.
Proof.
  intros [[Hd _] _ _] Ht E. apply NoDup_cons in Hd as [Hd _]. apply Hd. rewrite <- E. apply list_elem_of_fmap_2, Ht.
Qed.

Lemma next_task_turn s ts i : run_list tasks s ts -> next_task tasks (turn ts i) s = turn ts (S i).
Proof.
  intros R. pose proof R as [Rr Hn Hw]. destruct (turn_succ ts i Hn) as (xs & ys & E & ->).
  set (t := turn ts i) in *. clearbody t. subst ts. pose proof Rr as Rr0.
  rewrite fmap_app, fmap_cons in Rr. apply ring_rotate in Rr. destruct (ring_first _ _ _ Rr) as [E1 _].
  unfold next_task. rewrite E1. destruct ys as [|y ys].
  - simpl. rewrite Z.eqb_refl. destruct (ring_first _ _ _ Rr0) as [E2 _]. rewrite E2.
    destruct xs as [|x xs]; simpl; apply container_of_node, Hw; set_solver.
  - simpl. rewrite (proj2 (Z.eqb_neq _ _)) by (apply (run_list_head s _ y R); set_solver).
    apply container_of_node, Hw. set_solver.
Qed.

Lemma task_upd t f s a : task (upd_task t f s) a = if decide (t = a) then f (task s a) else task s a.
Proof. apply upd_lookup. Qed.

(** A switch only changes registers and contexts. *)
Lemma schedule_links s : links (task_schedule tasks s) = links s.
Proof. unfold task_schedule, switch_context. cbv zeta. repeat case_match; reflexivity. Qed.

Lemma schedule_words s : words (task_schedule tasks s) = words s.
Proof. unfold task_schedule, switch_context. cbv zeta. repeat case_match; reflexivity. Qed.

Lemma schedule_state s a : state (task (task_schedule tasks s) a) = state (task s a).
Proof.
  unfold task_schedule, switch_context. cbv zeta. repeat case_match; try reflexivity.
  match goal with |- state (task ?x a) = _ => change (task x a) with (task (upd_task (current_task s) (set_ctx (cli (cpu s))) s) a) end.
  rewrite task_upd. case_decide; reflexivity.
Qed.

(** The processor goes to [_next_task], and the one after it is next. *)
Lemma schedule_one s ts i :
  run_list tasks s ts -> current_task s <> 0 -> _next_task s = turn ts i ->
  let s' := task_schedule tasks s in
  run_list tasks s' ts /\ current_task s' = turn ts i /\ _next_task s' = turn ts (S i)
  /\ cpu s' = sti (if decide (turn ts i = current_task s) then cli (cpu s) else ctx (task s (turn ts i)))
  /\ forall a, ctx (task s' a) =
       if decide (a = current_task s /\ turn ts i <> current_task s) then cli (cpu s) else ctx (task s a).
Proof.
  intros R Hc Hn. pose proof (next_task_turn s ts i R) as En. unfold task_schedule. cbv zeta.
  cbn [set_cpu current_task _next_task links cpu]. rewrite (proj2 (Z.eqb_neq _ _) Hc). cbn [negb].
  change (next_task tasks (_next_task s) (set_cpu (cli (cpu s)) s)) with (next_task tasks (_next_task s) s).
  rewrite Hn, En. change (current_task (set_next_task (turn ts (S i)) (set_cpu (cli (cpu s)) s))) with (current_task s).
  change (current_task (set_cpu (cli (cpu s)) s)) with (current_task s).
  destruct R as [R1 R2 R3]. destruct (Z.eqb_spec (turn ts i) (current_task s)) as [E|E]; cbn [negb].
  - split; [split; assumption|]. split; [symmetry; exact E|]. split; [reflexivity|].
    rewrite decide_True by exact E. split; [reflexivity|]. intros a. rewrite decide_False by tauto. reflexivity.
  - unfold switch_context. cbn [set_current cpu]. split; [split; assumption|]. split; [reflexivity|].
    split; [reflexivity|]. rewrite decide_False by exact E. split.
    + cbn [cpu set_cpu]. f_equal. change (ctx (task (upd_task (current_task s) (set_ctx (cli (cpu s))) s) (turn ts i))
        = ctx (task s (turn ts i))). rewrite task_upd, decide_False by congruence. reflexivity.
    + intros a. change (ctx (task (upd_task (current_task s) (set_ctx (cli (cpu s))) s) a)
        = if decide (a = current_task s /\ turn ts i <> current_task s) then cli (cpu s) else ctx (task s a)).
      rewrite task_upd. destruct (decide (current_task s = a)) as [<-|Ha].
      * rewrite decide_True by tauto. reflexivity.
      * rewrite decide_False by (intros [? _]; congruence). reflexivity.
Qed.

Lemma sti_interruptible c : interruptible (sti c) = true.
Proof.
  unfold interruptible, sti, IF. cbn [set_eflags eflags]. apply negb_true_iff, Z.eqb_neq. intros E.
  apply (f_equal (fun x => Z.testbit x 9)) in E. rewrite Z.land_spec, Z.lor_spec, Z.bits_0 in E.
  change (Z.testbit 512 9) with true in E. rewrite orb_true_r in E. discriminate E.
Qed.

(** ** Many ticks *)

(** [cs] are the registers the tasks have come to when each tick interrupts them. *)
Fixpoint run_ticks (cs : list context) s : sched W :=
  match cs with
  | [] => s
  | c :: cs => run_ticks cs (task_schedule tasks (set_cpu c s))
  end.

Lemma run_ticks_ok cs s ts i :
  run_list tasks s ts -> current_task s <> 0 -> _next_task s = turn ts i ->
  run_list tasks (run_ticks cs s) ts
  /\ _next_task (run_ticks cs s) = turn ts (i + length cs)
  /\ current_task (run_ticks cs s) <> 0
  /\ (cs <> [] -> current_task (run_ticks cs s) = turn ts (i + length cs - 1)).
Proof.
  revert s i. induction cs as [|c cs IH]; intros s i R Hc Hn.
  - simpl. rewrite Nat.add_0_r. split; [exact R|]. split; [exact Hn|]. split; [exact Hc|]. congruence.
  - cbn [run_ticks]. destruct (schedule_one (set_cpu c s) ts i) as (R' & Ec & En & _); try assumption.
    { destruct R as [R1 R2 R3]. split; assumption. }
    assert (current_task (task_schedule tasks (set_cpu c s)) <> 0) as Hc'
      by (rewrite Ec; apply (rl_task _ _ _ R), turn_in, (rl_some _ _ _ R)).
    destruct (IH _ (S i) R' Hc' En) as (R2 & En2 & Hc2 & Hl). split; [exact R2|].
    split; [rewrite En2; f_equal; cbn [length]; lia|]. split; [exact Hc2|]. intros _.
    destruct cs as [|c2 cs]; [cbn [run_ticks length]; rewrite Ec; f_equal; lia|]. rewrite Hl by discriminate.
    f_equal. cbn [length]. lia.
Qed.

(** What a task that is not up before the end of [cs] has in its context. *)
Lemma run_ticks_ctx cs s ts i a :
  run_list tasks s ts -> current_task s <> 0 -> _next_task s = turn ts i -> current_task s <> a ->
  (forall k, (k < length cs)%nat -> turn ts (i + k) <> a) ->
  ctx (task (run_ticks cs s) a) = ctx (task s a).
Proof.
  revert s i. induction cs as [|c cs IH]; intros s i R Hc Hn Ha Hk; [reflexivity|].
  cbn [run_ticks]. destruct (schedule_one (set_cpu c s) ts i) as (R' & Ec & En & _ & Ex); try assumption.
  { destruct R as [R1 R2 R3]. split; assumption. }
  rewrite (IH _ (S i) R').
  - rewrite Ex, decide_False; [reflexivity|]. intros [E _]. apply Ha. symmetry. exact E.
  - rewrite Ec. apply (rl_task _ _ _ R), turn_in, (rl_some _ _ _ R).
  - exact En.
  - rewrite Ec. specialize (Hk 0%nat ltac:(simpl; lia)). rewrite Nat.add_0_r in Hk. exact Hk.
  - intros k Hlt. specialize (Hk (S k) ltac:(simpl; lia)). rewrite Nat.add_succ_r in Hk. exact Hk.
Qed.

Lemma run_ticks_app cs ds s : run_ticks (cs ++ ds) s = run_ticks ds (run_ticks cs s).
Proof. revert s. induction cs as [|c cs IH]; intros s; simpl; auto. Qed.

Lemma round_resumes c cs d s ts i :
  run_list tasks s ts -> current_task s = turn ts i -> _next_task s = turn ts (S i) ->
  length ts = S (S (length cs)) ->
  cpu (run_ticks (c :: cs ++ [d]) s) = sti (cli c).
Proof.
  intros R Hc Hn Hl. assert (turn ts i <> 0) as H0 by (apply (rl_task _ _ _ R), turn_in, (rl_some _ _ _ R)).
  pose proof (run_list_nodup s ts R) as Hd.
  assert (turn ts (S i) <> turn ts i) as Hne.
  { pose proof (turn_distinct ts i 1 Hd ltac:(lia)) as D. rewrite Nat.add_1_r in D. exact D. }
  cbn [run_ticks]. destruct (schedule_one (set_cpu c s) ts (S i)) as (R1 & Ec1 & En1 & _ & Ex1).
  { destruct R as [R1 R2 R3]. split; assumption. }
  { cbn [set_cpu current_task]. congruence. }
  { exact Hn. }
  set (s1 := task_schedule tasks (set_cpu c s)) in *. clearbody s1. cbn [set_cpu current_task] in Ex1.
  assert (current_task s1 <> 0) as H1 by (rewrite Ec1; apply (rl_task _ _ _ R), turn_in, (rl_some _ _ _ R)).
  rewrite run_ticks_app. destruct (run_ticks_ok cs s1 ts (S (S i)) R1 H1 En1) as (R2 & En2 & H2 & Hcur).
  assert (ctx (task (run_ticks cs s1) (turn ts i)) = cli c) as Ectx.
  { rewrite (run_ticks_ctx cs s1 ts (S (S i)) (turn ts i) R1 H1 En1).
    - rewrite Ex1, Hc, decide_True by (split; congruence). reflexivity.
    - rewrite Ec1. exact Hne.
    - intros k Hk. replace (S (S i) + k)%nat with (i + S (S k))%nat by lia. apply turn_distinct; [exact Hd|lia]. }
  assert (current_task (run_ticks cs s1) <> turn ts i) as Hlast.
  { destruct cs as [|c2 cs2]; [cbn [run_ticks]; rewrite Ec1; exact Hne|]. rewrite Hcur by discriminate.
    replace (S (S i) + length (c2 :: cs2) - 1)%nat with (i + S (length (c2 :: cs2)))%nat by lia.
    apply turn_distinct; [exact Hd|lia]. }
  set (s2 := run_ticks cs s1) in *. clearbody s2. cbn [run_ticks].
  assert (turn ts (S (S i) + length cs) = turn ts i) as Ei.
  { rewrite <- (turn_period ts i 1) by apply (rl_some _ _ _ R). f_equal. lia. }
  rewrite Ei in En2. destruct (schedule_one (set_cpu d s2) ts i) as (_ & _ & _ & Ecpu & _).
  { destruct R2 as [R4 R5 R6]. split; assumption. }
  { exact H2. }
  { exact En2. }
  rewrite Ecpu, decide_False by (cbn [set_cpu current_task]; congruence). f_equal. exact Ectx.
Qed.
End round_robin.

(** ** Creation and exit *)

(** The process table holds exactly the tasks [ps], by number. *)
Definition processes (fuel : nat) (m : map_t) (ps : gmap Z Z) : Prop :=
  KmapProofs.map_ok fuel m /\ forall k v, KmapProofs.holds m k v <-> ps !! k = Some v.

Section lifecycle.
Context {W : Type} `{Heap W} (tasks kernel_stack pgd_k thread_exit_addr : Z) (depth fuel : nat).
Implicit Types s : sched W.

Lemma processes_insert m ps k v :
  processes fuel m ps -> KmapProofs.insert_room fuel m k ->
  exists m', map_insert (S depth) fuel k v m = Some m' /\ processes fuel m' (<[k := v]> ps).
Proof.
  intros [M Hp] Hr. destruct (KmapProofs.map_insert_ok depth fuel m k v M Hr) as (m' & E & M' & Hu).
  exists m'. split; [exact E|]. split; [exact M'|]. intros k' v'. rewrite (Hu k' v'), Hp.
  destruct (decide (k = k')) as [->|Hk].
  - rewrite lookup_insert_eq. naive_solver.
  - rewrite lookup_insert_ne by exact Hk. naive_solver.
Qed.

Lemma processes_delete m ps k :
  processes fuel m ps -> KmapProofs.delete_room fuel m k ->
  exists m', map_delete depth fuel k m = Some m' /\ processes fuel m' (delete k ps).
Proof.
  intros [M Hp] Hr. destruct (KmapProofs.map_delete_ok depth fuel m k M Hr) as (m' & E & M' & Hu).
  exists m'. split; [exact E|]. split; [exact M'|]. intros k' v'. rewrite (Hu k' v'), Hp.
  destruct (decide (k = k')) as [->|Hk].
  - rewrite lookup_delete_eq. naive_solver.
  - rewrite lookup_delete_ne by exact Hk. naive_solver.
Qed.

(** What [thread_create] leaves in the new task, its stack and the rest. *)
Record created s (fn arg t k : Z) s' : Prop := {
  cr_pid : pid (task s' t) = current_pid s;
  cr_ppid : ppid (task s' t) = pid (task s (current_task s));
  cr_state : state (task s' t) = TASK_RUNNABLE;
  cr_stack : stack (task s' t) = k;
  cr_esp : esp (ctx (task s' t)) = u32 (k + STACK_SIZE_KERNEL - 12);
  cr_eflags : interruptible (ctx (task s' t)) = true;
  cr_words : words s' !!! u32 (k + STACK_SIZE_KERNEL - 12) = fn
    /\ words s' !!! u32 (k + STACK_SIZE_KERNEL - 8) = arg
    /\ words s' !!! u32 (k + STACK_SIZE_KERNEL - 4) = thread_exit_addr;
  cr_next : current_pid s' = u32 (current_pid s + 1) /\ current_task s' = current_task s /\ _next_task s' = _next_task s;
  cr_others : forall a, a <> t -> task s' a = task s a
}.
Lemma upd_twice {A} `{Inhabited A} i (f g : A -> A) m : upd i f (upd i g m) = upd i (fun x => f (g x)) m.
Proof. unfold upd. rewrite lookup_total_insert_eq. apply insert_insert_eq. Qed.

(** The fields that are set one by one in the source. *)
Definition new_task_struct (p q st dir : Z) (c : context) : task_struct := TaskStruct 0 0 p q st c dir TASK_RUNNABLE.

Definition created_base (fn arg t k : Z) (h : W) s : sched W :=
  let top := u32 (k + STACK_SIZE_KERNEL) in
  let s1 := set_current_pid (u32 (current_pid s + 1)) (set_heap h s) in
  let s1 := snd (push fn (u32 (u32 (top - 4) - 4)) (snd (push arg (u32 (top - 4)) (snd (push thread_exit_addr top s1))))) in
  upd_task t (fun x => new_task_struct (current_pid s) (pid (task s (current_task s))) k
    (u32 (pgd_k - PAGE_OFFSET)) (set_eflags 0x200 (set_esp (u32 (u32 (u32 (top - 4) - 4) - 4)) (ctx x)))) s1.

Definition created_state (fn arg t k : Z) (m : map_t) (h : W) s : sched W :=
  set_links (list_add_tail (node_of t) (node_of (current_task s)) (links s)) (set_map m (created_base fn arg t k h s)).

Lemma thread_create_eq_at d fn arg s t h1 k h2 m :
  h_kmalloc SIZEOF_TASK (heap s) = Some (t, h1) -> h_kmalloc STACK_SIZE_KERNEL h1 = Some (k, h2) ->
  t <> current_task s -> map_insert d fuel (current_pid s) t (tasks_map s) = Some m ->
  thread_create pgd_k thread_exit_addr d fuel fn arg s = Some (s32 (current_pid s), created_state fn arg t k m h2 s).
Proof.
  intros E1 E2 Ht Em. unfold thread_create. rewrite E1. cbn [mbind option_bind set_heap heap]. rewrite E2.
  cbn [mbind option_bind push]. cbv zeta.
  match goal with |- context [map_insert _ _ (pid (task ?x t)) t (tasks_map ?y)] => set (s1 := x) end.
  assert (s1 = created_base fn arg t k h2 s) as ->.
  { unfold s1, created_base, push. clear s1. destruct s as [ma cp cur nx tks lk wd cpu0 h0].
    cbv beta iota zeta delta [upd_task set_current_pid set_heap set_words snd task task_structs current_pid
      current_task links words cpu heap tasks_map _next_task].
    cbn [current_task] in Ht. rewrite !upd_ne by congruence.
    rewrite !upd_twice. reflexivity. }
  assert (pid (task (created_base fn arg t k h2 s) t) = current_pid s) as Ep
    by (unfold created_base; rewrite task_upd, decide_True by reflexivity; reflexivity).
  rewrite Ep. change (tasks_map (created_base fn arg t k h2 s)) with (tasks_map s). rewrite Em. cbn [mbind option_bind].
  unfold created_state. change (task (set_links ?l (set_map m ?x))) with (task x). rewrite Ep. reflexivity.
Qed.


Lemma u32_sub_u32 a b : u32 (u32 a - b) = u32 (a - b).
Proof. unfold u32. apply Zminus_mod_idemp_l. Qed.

Lemma created_task fn arg t k m h s a :
  task (created_state fn arg t k m h s) a = if decide (t = a) then
    new_task_struct (current_pid s) (pid (task s (current_task s))) k (u32 (pgd_k - PAGE_OFFSET))
      (set_eflags 0x200 (set_esp (u32 (k + STACK_SIZE_KERNEL - 12)) (ctx (task s a)))) else task s a.
Proof.
  unfold created_state, created_base. change (task (set_links ?l (set_map m ?x))) with (task x). rewrite task_upd.
  case_decide; [|reflexivity].
  rewrite (u32_sub_u32 (k + STACK_SIZE_KERNEL)), (u32_sub_u32 (k + STACK_SIZE_KERNEL - 4)), u32_sub_u32.
  replace (k + STACK_SIZE_KERNEL - 12) with (k + STACK_SIZE_KERNEL - 4 - 4 - 4) by lia. reflexivity.
Qed.

Lemma created_ok fn arg t k m h s :
  t <> current_task s -> created s fn arg t k (created_state fn arg t k m h s).
Proof.
  intros Ht. split; rewrite ?created_task, ?decide_True by reflexivity; try reflexivity.
  - unfold created_state, created_base, push. cbn [words set_links set_map upd_task set_words snd].
    set (p := k + STACK_SIZE_KERNEL). rewrite !(u32_sub_u32 p), !(u32_sub_u32 (p - 4)), !u32_sub_u32.
    replace (p - 4 - 4 - 4) with (p - 12) by lia. replace (p - 4 - 4) with (p - 8) by lia. clearbody p.
    assert (forall c d, 0 < d - c < 2 ^ 32 -> u32 (p - c) <> u32 (p - d)) as Hne.
    { intros c d Hcd E2. unfold u32 in E2. pose proof (Z.div_mod (p - c) 4294967296 ltac:(lia)).
      pose proof (Z.div_mod (p - d) 4294967296 ltac:(lia)). lia. }
    split; [apply lookup_total_insert_eq|]. split.
    + rewrite lookup_total_insert_ne by (apply not_eq_sym, Hne; lia). apply lookup_total_insert_eq.
    + rewrite !lookup_total_insert_ne by (apply not_eq_sym, Hne; lia). apply lookup_total_insert_eq.
  - split; [reflexivity|]. split; reflexivity.
  - intros a Ha. rewrite created_task, decide_False by congruence. reflexivity.
Qed.

Lemma thread_create_ok fn arg s t h1 k h2 xs ys ps :
  run_list tasks s (xs ++ current_task s :: ys) -> processes fuel (tasks_map s) ps ->
  KmapProofs.insert_room fuel (tasks_map s) (current_pid s) ->
  h_kmalloc SIZEOF_TASK (heap s) = Some (t, h1) -> h_kmalloc STACK_SIZE_KERNEL h1 = Some (k, h2) ->
  in_u32 t -> t <> 0 -> (node_of t ∉ tasks :: (node_of <$> xs ++ current_task s :: ys)) ->
  exists s', thread_create pgd_k thread_exit_addr (S depth) fuel fn arg s = Some (s32 (current_pid s), s')
    /\ run_list tasks s' (xs ++ t :: current_task s :: ys)
    /\ processes fuel (tasks_map s') (<[current_pid s := t]> ps) /\ created s fn arg t k s'.
Proof.
  intros [R1 R2 R3] Hp Hroom E1 E2 Ht Ht0 Hn.
  destruct (processes_insert _ _ (current_pid s) t Hp Hroom) as (m & Em & Hp').
  assert (t <> current_task s) as Hne.
  { intros ->. apply Hn. right. apply list_elem_of_fmap_2. set_solver. }
  exists (created_state fn arg t k m h2 s).
  split; [apply (thread_create_eq_at (S depth) fn arg s t h1 k h2 m); assumption|].
  split; [|split; [exact Hp'|apply created_ok, Hne]]. split.
  - change (links (created_state fn arg t k m h2 s)) with (list_add_tail (node_of t) (node_of (current_task s)) (links s)).
    rewrite fmap_app, !fmap_cons in *. apply ring_add_before; assumption.
  - destruct xs; discriminate.
  - intros a Ha. assert (a = t \/ a ∈ xs ++ current_task s :: ys) as [->|Ha'] by set_solver; [auto|apply R3, Ha'].
Qed.

Lemma thread_exit_ok s xs t ys p ps h1 h2 h3 :
  run_list tasks s (xs ++ t :: ys) -> xs ++ ys <> [] -> processes fuel (tasks_map s) ps -> ps !! p = Some t -> p <> 0 ->
  KmapProofs.delete_room fuel (tasks_map s) p ->
  h_kfree (stack (task s t)) (heap s) = Some h1 -> h_kfree (page_dir (task s t)) h1 = Some h2 -> h_kfree t h2 = Some h3 ->
  exists s', thread_exit depth fuel p s = Some s' /\ run_list tasks s' (xs ++ ys)
    /\ processes fuel (tasks_map s') (delete p ps) /\ heap s' = h3 /\ current_task s' = current_task s
    /\ _next_task s' = _next_task s /\ forall a, task s' a = task s a.
Proof.
  intros [R1 R2 R3] Hne Hp Hpt Hp0 Hroom E1 E2 E3. destruct (processes_delete _ _ p Hp Hroom) as (m & Em & Hp').
  unfold thread_exit. rewrite (proj2 (Z.eqb_neq p 0) Hp0).
  rewrite (KmapProofs.map_find_present fuel _ p t (proj1 Hp)) by (apply Hp, Hpt). cbn [mbind option_bind Z.eqb negb].
  rewrite Em. cbn [mbind option_bind default from_option id]. cbv zeta.
  change (task (set_links ?l (set_map m s)) t) with (task s t). change (heap (set_links ?l (set_map m s))) with (heap s).
  rewrite E1. cbn [mbind option_bind]. change (task (set_heap ?h ?x) t) with (task x t).
  change (heap (set_heap h1 ?x)) with h1. change (task (set_links ?l (set_map m s)) t) with (task s t).
  rewrite E2. cbn [mbind option_bind]. change (heap (set_heap h2 ?x)) with h2. rewrite E3. cbn [mbind option_bind].
  eexists. split; [reflexivity|]. split; [|split; [exact Hp'|auto]]. split.
  - change (ring (list_del (node_of t) (links s)) tasks (node_of <$> xs ++ ys)).
    rewrite fmap_app, fmap_cons in R1. rewrite fmap_app. apply ring_del, R1.
  - exact Hne.
  - intros a Ha. apply R3. set_solver.
Qed.
End lifecycle.

(** ** Properties *)

(** [C11] Round robin: from any state in which [_next_task] is a task of the run
    list, each tick hands the processor to the task after the last one in the list,
    and so every task runs once in as many ticks as there are tasks; after one such
    round the interrupted task continues with the registers it was interrupted
    with, whatever the other tasks computed, and with interrupts enabled. *)
Theorem task_schedule_round_robin {W} tasks (s : sched W) ts i :
  run_list tasks s ts -> current_task s <> 0 -> _next_task s = turn ts i ->
  (forall cs, cs <> [] ->
     current_task (run_ticks tasks cs s) = turn ts (i + length cs - 1)
     /\ _next_task (run_ticks tasks cs s) = turn ts (i + length cs)
     /\ run_list tasks (run_ticks tasks cs s) ts)
  /\ (forall c cs j, current_task s = turn ts j -> _next_task s = turn ts (S j) -> length (c :: cs) = length ts ->
        current_task (run_ticks tasks (c :: cs) s) = current_task s
        /\ cpu (run_ticks tasks (c :: cs) s) = sti (cli c)
        /\ interruptible (cpu (run_ticks tasks (c :: cs) s)) = true).
Proof.
  intros R Hc Hn. split.
  - intros cs Hcs. destruct (run_ticks_ok tasks cs s ts i R Hc Hn) as (R' & En & _ & Ec). auto.
  - intros c cs j Ej En Hl. destruct (run_ticks_ok tasks (c :: cs) s ts (S j) R Hc En) as (_ & _ & _ & Ec).
    split.
    { rewrite Ec, Ej by discriminate. rewrite <- (turn_period ts j 1) by apply (rl_some _ _ _ R). f_equal. lia. }
    assert (cpu (run_ticks tasks (c :: cs) s) = sti (cli c)) as ->; [|split; [reflexivity|apply sti_interruptible]].
    destruct cs as [|d cs _] using rev_ind.
    + destruct (schedule_one tasks (set_cpu c s) ts (S j)) as (_ & _ & _ & Ecpu & _); try assumption.
      { destruct R as [R1 R2 R3]. split; assumption. }
      cbn [run_ticks]. rewrite Ecpu, decide_True; [reflexivity|]. cbn [set_cpu current_task]. rewrite Ej.
      rewrite <- (turn_period ts j 1) by apply (rl_some _ _ _ R). f_equal. cbn [length] in Hl. lia.
    + apply (round_resumes tasks c cs d s ts j R Ej En). cbn [length] in Hl. rewrite length_app in Hl. simpl in Hl. lia.
Qed.

(** A heap that hands out one address after the other and keeps a list of the
    addresses given to [kfree]. *)
#[local] Instance bump_heap : Heap (Z * list Z) := {|
  h_kmalloc n h := Some (fst h, (fst h + n, snd h));
  h_kfree a h := Some (fst h, snd h ++ [a])
|}.

(** Three tasks at 1000, 2000 and 3000, the first one running. *)
Definition three_tasks : sched (Z * list Z) :=
  Sched map_init 3 1000 2000 ∅
    (list_add_tail 3052 10 (list_add_tail 2052 10 (list_add_tail 1052 10 (INIT_LIST_HEAD 10 ∅))))
    ∅ (Context_ 0 0 0 0 0 0x202) (4096, []).

Lemma three_tasks_run : run_list 10 three_tasks [1000; 2000; 3000].
Proof.
  split.
  - split; [apply (bool_decide_unpack _); vm_compute; exact I|vm_compute; repeat split].
  - discriminate.
  - intros t Ht. repeat (apply elem_of_cons in Ht as [->|Ht]; [split; [split; vm_compute; congruence|discriminate]|]).
    apply elem_of_nil in Ht. contradiction.
Qed.

Lemma task_schedule_round_robin_witness :
  let c v := Context_ v v v v v 0x202 in
  current_task (run_ticks 10 [c 1; c 2] three_tasks) = 3000
  /\ cpu (run_ticks 10 [c 1; c 2; c 3] three_tasks) = c 1.
Proof.
  cbv zeta. destruct (task_schedule_round_robin 10 three_tasks [1000; 2000; 3000] 1 three_tasks_run) as [H1 H2];
    [discriminate|reflexivity|].
  set (c v := Context_ v v v v v 0x202). split.
  - exact (eq_trans (proj1 (H1 [c 1; c 2] ltac:(discriminate))) eq_refl).
  - exact (eq_trans (proj1 (proj2 (H2 (c 1) [c 2; c 3] 0%nat eq_refl eq_refl eq_refl))) eq_refl).
Defined.

(** [C28] [thread_create] puts a runnable task with the next process number and the
    current task as its parent into the run list, just before the current task, and
    into the process table; its stack holds the function, the argument and
    [thread_exit], its context points there with interrupts enabled; no other task
    changes and the running one goes on.  [kmalloc] has to give memory for
    both, the structure at a new address, and the process table must have room for
    the number ([insert_room]: below half full or about to grow, so not with four or
    five processes in its seven slots). *)
Theorem thread_create_correct {W} `{Heap W} tasks pgd_k exit_addr depth fuel fn arg (s : sched W) t h1 k h2 xs ys ps :
  run_list tasks s (xs ++ current_task s :: ys) -> processes fuel (tasks_map s) ps ->
  KmapProofs.insert_room fuel (tasks_map s) (current_pid s) ->
  h_kmalloc SIZEOF_TASK (heap s) = Some (t, h1) -> h_kmalloc STACK_SIZE_KERNEL h1 = Some (k, h2) ->
  in_u32 t -> t <> 0 -> (node_of t ∉ tasks :: (node_of <$> xs ++ current_task s :: ys)) ->
  exists s', thread_create pgd_k exit_addr (S depth) fuel fn arg s = Some (s32 (current_pid s), s')
    /\ run_list tasks s' (xs ++ t :: current_task s :: ys)
    /\ processes fuel (tasks_map s') (<[current_pid s := t]> ps) /\ created exit_addr s fn arg t k s'.
Proof. apply thread_create_ok. Qed.

Lemma map_init_processes : processes 100 map_init ∅.
Proof.
  destruct KmapProofs.map_init_ok as (M & _ & _ & Hno). split; [exact M|]. intros k v. rewrite lookup_empty.
  split; [intros Hh; destruct (Hno k v Hh)|discriminate].
Qed.

Lemma map_init_room k : KmapProofs.insert_room 100 map_init k.
Proof.
  destruct KmapProofs.map_init_ok as (_ & Hnt & Ec & _). split; [vm_compute; discriminate|].
  split; [vm_compute; discriminate|]. split; [left; exact Hnt|right]. rewrite Ec. reflexivity.
Qed.

Lemma thread_create_correct_witness :
  exists s', thread_create 0 77 1 100 55 66 three_tasks = Some (3, s')
    /\ run_list 10 s' [4096; 1000; 2000; 3000] /\ pid (task s' 4096) = 3
    /\ words s' !!! esp (ctx (task s' 4096)) = 55.
Proof.
  destruct (thread_create_correct 10 0 77 0 100 55 66 three_tasks 4096 (4156, []) 4156 (20540, []) [] [2000; 3000] ∅)
    as (s' & E & R & _ & C).
  - exact three_tasks_run.
  - exact map_init_processes.
  - apply map_init_room.
  - reflexivity.
  - reflexivity.
  - split; vm_compute; congruence.
  - discriminate.
  - apply (bool_decide_unpack _). vm_compute. exact I.
  - exists s'. split; [exact E|]. split; [exact R|]. split; [apply (cr_pid _ _ _ _ _ _ _ C)|].
    rewrite (cr_esp _ _ _ _ _ _ _ C). apply (cr_words _ _ _ _ _ _ _ C).
Defined.

(** [C29] [thread_exit] of a process that is not the only runnable task takes
    exactly this task out of the run list and the process table, given that the
    deletion from the table ends ([delete_room]), and hands its stack, its page
    directory and its structure to [kfree], in this order and nothing else: the heap
    afterwards is what these three calls make of it.  A number that is not in the
    table, when some probe of it meets an empty slot, and the number of the first
    process change nothing.  What [kfree] does with each address is the matter of
    [KmmProps]: it takes back the structure, but not the 16 KiB of the stack
    ([KmmRuns.big_block_not_released]) nor the page directory, which is no block of
    the heap. *)
Theorem thread_exit_correct {W} `{Heap W} tasks depth fuel (s : sched W) p ps :
  processes fuel (tasks_map s) ps ->
  (forall xs t ys h1 h2 h3,
    run_list tasks s (xs ++ t :: ys) -> xs ++ ys <> [] -> ps !! p = Some t -> p <> 0 ->
    KmapProofs.delete_room fuel (tasks_map s) p ->
    h_kfree (stack (task s t)) (heap s) = Some h1 -> h_kfree (page_dir (task s t)) h1 = Some h2 -> h_kfree t h2 = Some h3 ->
    exists s', thread_exit depth fuel p s = Some s' /\ run_list tasks s' (xs ++ ys)
      /\ processes fuel (tasks_map s') (delete p ps) /\ heap s' = h3 /\ current_task s' = current_task s
      /\ _next_task s' = _next_task s /\ forall a, task s' a = task s a)
  /\ (ps !! p = None -> (exists i, 0 <= i <= Z.of_nat fuel /\ ~ KmapProofs.live (tasks_map s) (slot (tasks_map s) p i)) ->
      thread_exit depth fuel p s = Some s)
  /\ thread_exit depth fuel 0 s = Some s.
Proof.
  intros Hp. split; [|split].
  - intros xs t ys h1 h2 h3 R Hne Hpt Hp0 Hroom E1 E2 E3.
    apply (thread_exit_ok tasks depth fuel s xs t ys p ps h1 h2 h3); assumption.
  - intros Hno Hprobe. unfold thread_exit. destruct (p =? 0); [reflexivity|].
    rewrite (KmapProofs.map_find_absent fuel _ p (proj1 Hp)); [reflexivity| |exact Hprobe].
    intros v Hv. apply (proj2 Hp) in Hv. rewrite Hno in Hv. discriminate Hv.
  - reflexivity.
Qed.

(** Task 2000 is process 5, with its stack at 0x9000 and its page directory at
    0x5000. *)
Definition three_tasks_pid5 : sched (Z * list Z) :=
  set_map (default map_init (map_insert 1 100 5 2000 map_init))
    (upd_task 2000 (fun t => set_page_dir 0x5000 (set_stack 0x9000 t)) three_tasks).

Lemma pid5_processes : processes 100 (tasks_map three_tasks_pid5) {[5 := 2000]}.
Proof.
  destruct (processes_insert 0 100 map_init ∅ 5 2000 map_init_processes (map_init_room 5)) as (m & E & Hp).
  unfold three_tasks_pid5. rewrite E. exact Hp.
Qed.

Lemma thread_exit_correct_witness :
  exists s', thread_exit 1 100 5 three_tasks_pid5 = Some s' /\ run_list 10 s' [1000; 3000]
    /\ processes 100 (tasks_map s') ∅ /\ heap s' = (4096, [0x9000; 0x5000; 2000])
    /\ thread_exit 1 100 6 three_tasks_pid5 = Some three_tasks_pid5.
Proof.
  destruct (thread_exit_correct 10 1 100 three_tasks_pid5 5 {[5 := 2000]} pid5_processes) as (R & _).
  destruct (thread_exit_correct 10 1 100 three_tasks_pid5 6 {[5 := 2000]} pid5_processes) as (_ & U & _).
  destruct (R [1000] 2000 [3000] (4096, [0x9000]) (4096, [0x9000; 0x5000]) (4096, [0x9000; 0x5000; 2000]))
    as (s' & E & R' & P' & H' & _).
  - destruct three_tasks_run as [R1 R2 R3]. split; assumption.
  - discriminate.
  - apply lookup_singleton_eq.
  - discriminate.
  - split; [intros E; vm_compute in E; discriminate E|]. intros _. left. exists 2000.
    apply pid5_processes. apply lookup_singleton_eq.
  - vm_compute. reflexivity.
  - vm_compute. reflexivity.
  - vm_compute. reflexivity.
  - exists s'. split; [exact E|]. split; [exact R'|]. split; [rewrite delete_singleton_eq in P'; exact P'|].
    split; [exact H'|]. apply U; [reflexivity|]. exists 0. split; [lia|]. vm_compute. intuition discriminate.
Defined.

(** ** Outside the contract *)

(** A function that is entered by the [ret] of [switch_context] finds its return
    address at the top of the stack and its argument behind it. *)
Definition entry (s : sched (Z * list Z)) (t : Z) : Z * Z * Z :=
  let sp := esp (ctx (task s t)) in
  (words s !!! sp, words s !!! u32 (sp + 4), words s !!! u32 (sp + 8)).

(** [thread_create] stores the argument (66) where the return address belongs and
    [thread_exit] (77) where the argument belongs (lines 54-56 of task.c): the
    function 55 is called with [thread_exit] as its argument and returns to the
    address 66. *)
Lemma thread_entry_misplaced :
  match thread_create 0 77 1 100 55 66 three_tasks with
  | Some (_, s) => entry s 4096 = (55, 66, 77)
  | None => False
  end.
Proof. vm_compute. reflexivity. Qed.

(** [thread_exit] does not look at [_next_task].  When the next task exits, the
    processor is handed to the freed task, and the null pointer in its node is
    taken for a task after that. *)
Lemma exit_of_next_task :
  match thread_exit 1 100 5 three_tasks_pid5 with
  | Some s => current_task (task_schedule 10 s) = 2000 /\ _next_task (task_schedule 10 s) = container_of 0
  | None => False
  end.
Proof. vm_compute. split; reflexivity. Qed.
