(* ===== verification/TaskBoot.v ===== *)
(** * The scheduler on the timer

    [init_schedule] makes the first task and has the timer call [task_schedule];
    the theorem of this file follows the ticks of timer.c into schedule.c. *)

From S2P Require Import Prelude Chain Heap Kmap Klist Task TaskProofs.
From S2P Require Timer KmapProofs KmmProps.

Section boot.
Context {W : Type} `{Heap W} (tasks kernel_stack pgd_k addr : Z) (depth fuel : nat).
Implicit Types s : sched W.

(** The callbacks of the kernel: [task_schedule] is the only one. *)
Definition call (f : Z) s : sched W := if f =? addr then task_schedule tasks s else s.

Lemma map_init_table : (10 <= fuel)%nat -> Z.of_nat fuel < 2 ^ 32 ->
  processes fuel map_init ∅ /\ KmapProofs.insert_room fuel map_init 0.
Proof.
  intros Hf Hf2. destruct (KmapProofs.empty_ok fuel 3) as (M & Hnt & Ec & Hno);
    [lia|change (prime_at 3) with 7; lia|exact Hf2|].
  change (Map (prime_at 3) 3 0 ∅) with map_init in *. split; [split; [exact M|]|].
  - intros k v. rewrite lookup_empty. split; [intros Hh; destruct (Hno k v Hh)|discriminate].
  - split; [vm_compute; discriminate|]. split; [change (prime_at (capacity_level map_init + 1)) with 19; lia|].
    split; [left; exact Hnt|right]. rewrite Ec. reflexivity.
Qed.

Lemma init_task_ok s t h1 :
  (10 <= fuel)%nat -> Z.of_nat fuel < 2 ^ 32 -> ring (links s) tasks [] ->
  h_kmalloc SIZEOF_TASK (heap s) = Some (t, h1) -> in_u32 t -> t <> 0 -> node_of t <> tasks ->
  exists s', init_task tasks kernel_stack pgd_k (S depth) fuel s = Some s' /\ run_list tasks s' [t]
    /\ current_task s' = t /\ _next_task s' = t /\ pid (task s' t) = 0 /\ state (task s' t) = TASK_RUNNABLE
    /\ processes fuel (tasks_map s') {[0 := t]} /\ heap s' = h1 /\ cpu s' = cpu s
    /\ links s' = list_add_tail (node_of t) tasks (links s).
Proof.
  intros Hf Hf2 R E Ht Ht0 Hn. destruct (map_init_table Hf Hf2) as [Hp Hr].
  destruct (processes_insert depth fuel map_init ∅ 0 t Hp Hr) as (m & Em & Hp').
  unfold init_task. cbn [set_map set_current_pid heap]. rewrite E. cbn [mbind option_bind]. cbv zeta.
  match goal with |- context [map_insert _ _ (pid (task ?x t)) t (tasks_map ?y)] => set (s1 := x) end.
  assert (task s1 t = new_task_struct 0 UINT32_MAX kernel_stack (u32 (pgd_k - PAGE_OFFSET)) (ctx (task s t))) as Et.
  { unfold s1. clear. destruct s as [ma cp cur nx tks lk wd cpu0 h0].
    cbv beta iota zeta delta [upd_task set_current_pid set_heap set_map set_current set_next_task task task_structs current_pid].
    rewrite !upd_eq. reflexivity. }
  rewrite Et. change (tasks_map s1) with map_init. cbn [pid new_task_struct]. rewrite Em. cbn [mbind option_bind].
  eexists. split; [reflexivity|]. change (task (set_links ?l (set_map m s1))) with (task s1). rewrite Et.
  split; [split|split; [reflexivity|split; [reflexivity|split; [reflexivity|split; [reflexivity|split; [exact Hp'|split; [|split]; reflexivity]]]]]].
  - apply (ring_add_tail (links s) tasks [] (node_of t) R). intros Hi. apply list_elem_of_singleton in Hi. contradiction.
  - discriminate.
  - intros a Ha. apply list_elem_of_singleton in Ha. subst a. auto.
Qed.

(** One timer of every second tick. *)
Lemma calls_every_second (st : Timer.timer_list (sched W)) u n k w :
  Timer.callback_func (Timer.timer st u) = addr -> Timer.interval (Timer.timer st u) = 2 ->
  Timer.elapse (Timer.timer st u) = 2 ->
  Timer.calls call st [u] (2 * k) (2 * n) w = Nat.iter n (task_schedule tasks) w.
Proof.
  intros Ec Ei Ee. assert (forall j, Timer.due (Timer.timer st u) j = (j mod 2 =? 0)) as Hd.
  { intros j. unfold Timer.due. rewrite Ei, Ee. change (Timer.period 2) with 2.
    replace (j - 2) with (j + (-1) * 2) by lia. rewrite Z_mod_plus_full. reflexivity. }
  revert k w. induction n as [|n IH]; intros k w; [reflexivity|].
  replace (2 * S n)%nat with (S (S (2 * n))) by lia. cbn [Timer.calls foldl]. rewrite !Hd, Ec.
  replace ((2 * k + 1) mod 2) with 1 by (rewrite Z.add_comm, Z.mul_comm, Z_mod_plus_full; reflexivity).
  replace ((2 * k + 1 + 1) mod 2) with 0 by (replace (2 * k + 1 + 1) with (0 + (k + 1) * 2) by lia; rewrite Z_mod_plus_full; reflexivity).
  cbn [Z.eqb]. replace (2 * k + 1 + 1) with (2 * (k + 1)) by lia. rewrite IH. unfold call. rewrite Z.eqb_refl.
  symmetry. apply Nat.iter_succ_r.
Qed.

(** The first task, and the timer that calls the scheduler, behind the timers [ts]. *)
Lemma init_schedule_ok (st : Timer.timer_list (sched W)) ts t h1 u h2 :
  (10 <= fuel)%nat -> Z.of_nat fuel < 2 ^ 32 ->
  Timer.timer_chain st ts -> ring (links (Timer.world st)) tasks [] ->
  h_kmalloc SIZEOF_TASK (heap (Timer.world st)) = Some (t, h1) -> in_u32 t -> t <> 0 -> node_of t <> tasks ->
  h_kmalloc Timer.SIZEOF_TIMER h1 = Some (u, h2) -> u <> 0 -> u ∉ ts ->
  exists st' s, init_schedule tasks kernel_stack pgd_k (S depth) fuel addr st = Some st' /\ Timer.world st' = s
    /\ run_list tasks s [t] /\ current_task s = t /\ _next_task s = t /\ pid (task s t) = 0
    /\ processes fuel (tasks_map s) {[0 := t]} /\ heap s = h2 /\ cpu s = cpu (Timer.world st)
    /\ links s = list_add_tail (node_of t) tasks (links (Timer.world st))
    /\ Timer.timer_chain st' (u :: ts)
    /\ Timer.timer st' u = Timer.Timer addr 2 2 (Timer.timers st)
    /\ (forall a, a <> u -> Timer.timer st' a = Timer.timer st a).
Proof.
  intros Hf Hf2 Hc R E1 Ht Ht0 Hn E2 Hu Hni.
  destruct (init_task_ok (Timer.world st) t h1 Hf Hf2 R E1 Ht Ht0 Hn)
    as (s & Es & Hr & Hcur & Hnext & Hpid & _ & Hp & Hh & Hcpu & Hl).
  destruct (Timer.new_timer_ok (Timer.set_world s st) addr TASK_SWITCH_FREQUENCY u (set_heap h2 s) ts) as (st' & E & Hch & Ew & Eu & _ & Ho).
  - exact Hc.
  - cbn [h_kmalloc sched_heap Timer.world Timer.set_world]. rewrite Hh, E2. reflexivity.
  - exact Hu.
  - exact Hni.
  - vm_compute. split; discriminate.
  - exists st', (set_heap h2 s). split; [unfold init_schedule; rewrite Es; exact E|]. split; [exact Ew|].
    split; [destruct Hr as [A B C]; split; assumption|]. split; [exact Hcur|]. split; [exact Hnext|]. split; [exact Hpid|].
    split; [exact Hp|]. split; [reflexivity|]. split; [exact Hcpu|]. split; [exact Hl|].
    split; [exact Hch|]. split; [exact Eu|exact Ho].
Qed.
End boot.

(** After [init_schedule] the first task, with number 0, is the only one in
    the run list and in the process table, it runs and is the next to run, and
    from then on every second tick of the timer is one call of [task_schedule],
    and nothing else happens to the tasks. *)
Lemma init_schedule_ticks {W} `{Heap W} tasks kernel_stack pgd_k addr depth fuel
    (st : Timer.timer_list (sched W)) t h1 u h2 :
  (10 <= fuel)%nat -> Z.of_nat fuel < 2 ^ 32 ->
  Timer.timer_chain st [] -> ring (links (Timer.world st)) tasks [] ->
  h_kmalloc SIZEOF_TASK (heap (Timer.world st)) = Some (t, h1) -> in_u32 t -> t <> 0 -> node_of t <> tasks ->
  h_kmalloc Timer.SIZEOF_TIMER h1 = Some (u, h2) -> u <> 0 ->
  exists st' s, init_schedule tasks kernel_stack pgd_k (S depth) fuel addr st = Some st' /\ Timer.world st' = s
    /\ run_list tasks s [t] /\ current_task s = t /\ _next_task s = t /\ pid (task s t) = 0
    /\ processes fuel (tasks_map s) {[0 := t]}
    /\ forall k, exists st2, Timer.ticks (call tasks addr) 1 (2 * k) st' = Some st2
         /\ Timer.world st2 = Nat.iter k (task_schedule tasks) s.
Proof.
  intros Hf Hf2 Hc R E1 Ht Ht0 Hn E2 Hu.
  destruct (init_schedule_ok tasks kernel_stack pgd_k addr depth fuel st [] t h1 u h2) as
    (st' & s & E & Ew & Hr & Hcur & Hnext & Hpid & Hp & _ & _ & _ & Hch & Eu & _); try assumption; [apply not_elem_of_nil|].
  exists st', s. repeat (split; [assumption|]). intros k.
  destruct (Timer.ticks_ok (call tasks addr) 1 (2 * k) st' [u] Hch (le_n _)) as (st2 & E3 & _ & Ew2 & _).
  { intros a Ha. apply list_elem_of_singleton in Ha. subst a. rewrite Eu. split; vm_compute; intuition discriminate. }
  exists st2. split; [exact E3|]. rewrite Ew2, Ew. apply (calls_every_second tasks addr st' u k 0); rewrite Eu; reflexivity.
Qed.

#[local] Existing Instance Timer.kernel_heap.

(** The kernel's heap at boot, no timer and no task. *)
Definition boot_state : Timer.timer_list (sched Timer.kernel) :=
  Timer.Timers 0 ∅ (Sched map_init 0 0 0 ∅ (INIT_LIST_HEAD 10 ∅) ∅ (Context_ 0 0 0 0 0 0x202) ([], KmmProps.kmm0)).

Definition boot_allocations : option (Z * Z * Timer.kernel) :=
  '(t, h) ← h_kmalloc SIZEOF_TASK (heap (Timer.world boot_state));
  '(u, h) ← h_kmalloc Timer.SIZEOF_TIMER h;
  Some (t, u, h).

Lemma boot_allocations_ok :
  match boot_allocations with
  | Some (t, u, _) => (0 <? t) && (t <? 2 ^ 32) && negb (node_of t =? 10) && negb (u =? 0)
  | None => false
  end = true.
Proof. vm_compute. reflexivity. Qed.

Lemma init_schedule_ticks_witness :
  exists t st', init_schedule 10 0 0 1 100 77 boot_state = Some st' /\ current_task (Timer.world st') = t
    /\ exists st2, Timer.ticks (call 10 77) 1 6 st' = Some st2
         /\ Timer.world st2 = Nat.iter 3 (task_schedule 10) (Timer.world st').
Proof.
  pose proof boot_allocations_ok as Hb. unfold boot_allocations in Hb.
  destruct (h_kmalloc SIZEOF_TASK (heap (Timer.world boot_state))) as [[t h1]|] eqn:E1; [|discriminate Hb].
  cbn [mbind option_bind] in Hb. destruct (h_kmalloc Timer.SIZEOF_TIMER h1) as [[u h2]|] eqn:E2; [|discriminate Hb].
  cbn [mbind option_bind] in Hb. reflect_bools.
  destruct (init_schedule_ticks 10 0 0 77 0 100 boot_state t h1 u h2) as (st' & s & E & <- & _ & Hc & _ & _ & _ & Hk);
    try assumption.
  - lia.
  - reflexivity.
  - split; [constructor|reflexivity].
  - split; [apply NoDup_singleton|vm_compute; auto].
  - unfold in_u32. lia.
  - lia.
  - exists t, st'. split; [exact E|]. split; [exact Hc|]. exact (Hk 3%nat).
Defined.
