(* ===== verification/Sync.v ===== *)
(** * kernel/sync.h and klib/queue.h: locks and the bounded queue

    A mutex is taken with an atomic test-and-set; a task that finds it taken moves
    itself from the run list to the waiting list of the mutex and gives the
    processor away.  The bounded queue keeps waiting producers and consumers the
    same way.  A call that ends by giving the processor away is [Blocked], with the
    state the next task starts in.  The second part is the interleaving of the
    tasks' steps with the ticks of the timer. *)

From S2P Require Import Prelude Heap Klist Task.

(** [__ATOMIC_RELAXED] stands for a free lock. *)
Definition ATOMIC_RELAXED : Z := 0.

Record lock_t := Lock { value : Z; holder : Z }.
#[export] Instance lock_zero : Inhabited lock_t := populate (Lock 0 0).

Record circular_queue := CircularQueue { begin : Z; count : Z; size : Z; arr : Z }.
#[export] Instance queue_zero : Inhabited circular_queue := populate (CircularQueue 0 0 0 0).

Record sync (W : Type) := Sync {
  sch : sched W;
  locks : gmap Z lock_t;
  queues : gmap Z circular_queue
}.
Arguments Sync {W}. Arguments sch {W}. Arguments locks {W}. Arguments queues {W}.

Inductive outcome (S A : Type) := Done (a : A) (s : S) | Blocked (s : S).
Arguments Done {S A}. Arguments Blocked {S A}.

(** The members of a mutex and of a queue that are list heads, and its lock. *)
Definition waiting_list (lock : Z) : Z := lock + 8.
Definition queue_lock (q : Z) : Z := q + 16.
Definition producer (q : Z) : Z := q + 32.
Definition consumer (q : Z) : Z := q + 40.

Definition set_value v l := Lock v (holder l).
Definition set_holder v l := Lock (value l) v.
Definition set_begin v q := CircularQueue v (count q) (size q) (arr q).
Definition set_count v q := CircularQueue (begin q) v (size q) (arr q).

Section code.
Context {W : Type} (tasks : Z).
Implicit Types s : sync W.

Definition set_sch (v : sched W) s := Sync v (locks s) (queues s).
Definition upd_lock l f s : sync W := Sync (sch s) (upd l f (locks s)) (queues s).
Definition upd_queue q f s : sync W := Sync (sch s) (locks s) (upd q f (queues s)).
Definition lock s (l : Z) : lock_t := locks s !!! l.
Definition queue s (q : Z) : circular_queue := queues s !!! q.

Definition asm_cli s := set_sch (set_cpu (cli (cpu (sch s))) (sch s)) s.
Definition asm_sti s := set_sch (set_cpu (sti (cpu (sch s))) (sch s)) s.
Definition current s : Z := current_task (sch s).
Definition current_pid_of s : Z := s32 (pid (task (sch s) (current s))).

(** [__atomic_test_and_set] sets the byte at the address and returns whether it
    was set. *)
Definition test_and_set (l : Z) s : bool * sync W :=
  let v := value (lock s l) in
  (negb (v mod 256 =? 0), upd_lock l (set_value (v - v mod 256 + 1)) s).

(** ** Locks *)

Definition INIT_SPIN_LOCK (l : Z) s : sync W :=
  let s := upd_lock l (set_value ATOMIC_RELAXED) s in upd_lock l (set_holder (-1)) s.

(** On one processor nobody releases the lock while the loop turns. *)
Definition spin_lock_acquire (fuel : nat) (l : Z) s : option (sync W) :=
  '(_, s) ← while fuel (fun '(taken, _) => taken) (fun '(_, s) => test_and_set l s) (test_and_set l s);
  Some (upd_lock l (set_holder (current_pid_of s)) s).

Definition spin_lock_release (l : Z) s : sync W := INIT_SPIN_LOCK l s.

Definition INIT_MUTEX (l : Z) s : sync W :=
  let s := upd_lock l (set_value ATOMIC_RELAXED) s in
  let s := upd_lock l (set_holder (-1)) s in
  set_sch (set_links (INIT_LIST_HEAD (waiting_list l) (links (sch s))) (sch s)) s.

(** The two assignments of a task that is going to sleep in the list [head]. *)
Definition sleep_list (head : Z) s : sync W :=
  set_sch (set_links (list_move_to_tail (node_of (current s)) head (links (sch s))) (sch s)) s.
Definition sleep_state s : sync W := set_sch (upd_task (current s) (set_state TASK_SLEEPING) (sch s)) s.
Definition schedule s : sync W := set_sch (task_schedule tasks (sch s)) s.

Definition sleep (head : Z) s : sync W := schedule (sleep_state (sleep_list head s)).

(** The first task of the list [head] is put in front of [_next_task] and becomes it. *)
Definition wake (head : Z) s : sync W :=
  if negb (next (links (sch s)) head =? head) then
    let tmp := next (links (sch s)) head in
    let s := set_sch (set_links (list_move_to_tail tmp (node_of (_next_task (sch s))) (links (sch s))) (sch s)) s in
    let s := set_sch (set_next_task (container_of tmp) (sch s)) s in
    set_sch (upd_task (_next_task (sch s)) (set_state TASK_RUNNABLE) (sch s)) s
  else s.

Definition take (l : Z) s : sync W := asm_sti (upd_lock l (set_holder (current_pid_of s)) s).

Definition mutex_acquire (l : Z) s : outcome (sync W) unit :=
  let s := asm_cli s in
  let '(taken, s) := test_and_set l s in
  if taken then Blocked (sleep (waiting_list l) s) else Done tt (take l s).

Definition mutex_release (l : Z) s : sync W :=
  let s := asm_cli s in
  let s := wake (waiting_list l) s in
  let s := upd_lock l (set_holder (-1)) s in
  let s := upd_lock l (set_value ATOMIC_RELAXED) s in
  asm_sti s.

(** ** The bounded queue *)

Definition bind {A B} (m : outcome (sync W) A) (k : A -> sync W -> outcome (sync W) B) : outcome (sync W) B :=
  match m with Done a s => k a s | Blocked s => Blocked s end.

Definition circular_count (add : Z) (q : Z) s : outcome (sync W) Z :=
  bind (mutex_acquire (queue_lock q) s) (fun _ s =>
    let s := upd_queue q (fun x => set_count (u32 (count x + add)) x) s in
    let ret := count (queue s q) in
    Done ret (mutex_release (queue_lock q) s)).

Definition word_at (q index : Z) s : Z := u32 (arr (queue s q) + 4 * index).

(** The source does not hold the lock over a whole call: the test, the change of the
    count and the access to the array are sections of their own, and a tick can come
    between any two.  [enqueue_reserve] and [dequeue_reserve] are the second one,
    [enqueue_store] and [dequeue_load] what follows without the lock.
    [circular_enqueue] and [circular_dequeue] compose them as one call that is not
    interrupted. *)
Definition enqueue_reserve (q : Z) s : outcome (sync W) Z :=
  bind (circular_count 1 q s) (fun n s =>
    Done (u32 (u32 (begin (queue s q) + n) - 1) mod size (queue s q)) s).

Definition enqueue_store (ele index q : Z) s : sync W :=
  let s := set_sch (set_words (<[word_at q index s := ele]> (words (sch s))) (sch s)) s in
  wake (consumer q) s.

Definition circular_enqueue (ele q : Z) s : outcome (sync W) unit :=
  bind (circular_count 0 q s) (fun n s =>
    if size (queue s q) <=? n then Blocked (sleep (producer q) s)
    else bind (enqueue_reserve q s) (fun index s => Done tt (enqueue_store ele index q s))).

Definition dequeue_reserve (q : Z) s : outcome (sync W) Z := circular_count (-1) q s.

Definition dequeue_load (q : Z) s : Z * sync W :=
  let ret := words (sch s) !!! word_at q (begin (queue s q)) s in
  let s := upd_queue q (fun x => set_begin (u32 (begin x + 1)) x) s in
  let s := upd_queue q (fun x => set_begin (begin x mod size x) x) s in
  (ret, wake (producer q) s).

Definition circular_dequeue (q : Z) s : outcome (sync W) Z :=
  bind (circular_count 0 q s) (fun n s =>
    if n =? 0 then Blocked (sleep (consumer q) s)
    else bind (dequeue_reserve q s) (fun _ s => let '(ret, s) := dequeue_load q s in Done ret s)).
End code.

(** ** Interleaving

    Every assignment of a waiting loop is a step of its own, so that a tick can
    come between any two when interrupts are enabled; with interrupts disabled
    only the running task steps.  A task that is interrupted or has given the
    processor away goes on where it was ([phase]) when it is scheduled again. *)

Inductive phase :=
  | Out
  | Testing (l : Z)
  | Failed (l : Z)
  | Queued (l : Z)
  | Asleep (l : Z)
  | Got (l : Z).
#[export] Instance phase_out : Inhabited phase := populate Out.

(** [phases] and [held] are the position of each task in [mutex_acquire] and the
    mutexes whose [mutex_acquire] has returned to it. *)
Record config (W : Type) := Config { machine : sync W; phases : gmap Z phase; held : gmap Z (gset Z) }.
Arguments Config {W}. Arguments machine {W}. Arguments phases {W}. Arguments held {W}.
#[export] Instance held_none : Inhabited (gset Z) := populate ∅.

Inductive action :=
  | Enter (l : Z)
  | Test
  | Queue
  | Sleep
  | Yield
  | Take
  | Release (l : Z)
  | Tick
  | Work (c : context).

Section interleaving.
Context {W : Type} (tasks : Z).
Implicit Types c : config W.

Definition phase_of c (t : Z) : phase := phases c !!! t.
Definition held_by c (t : Z) : gset Z := held c !!! t.
Definition running c : Z := current (machine c).

Definition goto (p : phase) (s : sync W) c : config W := Config s (<[running c := p]> (phases c)) (held c).
Definition set_held (x : gset Z) (t : Z) c : config W := Config (machine c) (phases c) (<[t := x]> (held c)).

(** The running task's next step, or a tick; [None] when it is not possible.  A
    task only releases what it holds. *)
Definition step_fn (a : action) c : option (config W) :=
  let t := running c in
  let s := machine c in
  match a, phase_of c t with
  | Enter l, Out => Some (goto (Testing l) (asm_cli s) c)
  | Test, Testing l =>
      let '(taken, s) := test_and_set l s in Some (goto (if taken then Failed l else Got l) s c)
  | Queue, Failed l => Some (goto (Queued l) (sleep_list (waiting_list l) s) c)
  | Sleep, Queued l => Some (goto (Asleep l) (sleep_state s) c)
  | Yield, Asleep l => Some (goto (Testing l) (schedule tasks s) c)
  | Take, Got l => Some (set_held ({[l]} ∪ held_by c t) t (goto Out (take l s) c))
  | Release l, Out =>
      if decide (l ∈ held_by c t) then
        Some (set_held (held_by c t ∖ {[l]}) t (goto Out (mutex_release l s) c))
      else None
  | Work r, Out =>
      if Bool.eqb (interruptible r) (interruptible (cpu (sch s))) then
        Some (goto Out (set_sch (set_cpu r (sch s)) s) c)
      else None
  | Tick, _ =>
      if interruptible (cpu (sch s)) then Some (Config (schedule tasks s) (phases c) (held c)) else None
  | _, _ => None
  end.

Definition step c c' : Prop := exists a, step_fn a c = Some c'.

(** Nobody is inside, holds a mutex or finds one taken. *)
Definition initial c : Prop :=
  (forall t, phase_of c t = Out /\ held_by c t = ∅) /\ forall l, value (lock (machine c) l) = ATOMIC_RELAXED.

Inductive reachable : config W -> Prop :=
  | reach_initial c : initial c -> reachable c
  | reach_step c c' : reachable c -> step c c' -> reachable c'.

Fixpoint steps (acts : list action) c : option (config W) :=
  match acts with
  | [] => Some c
  | a :: acts => c ← step_fn a c; steps acts c
  end.
End interleaving.
