(* ===== verification/SyncProofs.v ===== *)
(** * Locks and the bounded queue: proofs

    Mutual exclusion holds in every reachable interleaving; a task that waits is
    queued behind those that waited before it and the one that waited longest runs
    next after a release; the queue is first in, first out. *)

From S2P Require Import Prelude Heap Klist Task TaskProofs Sync.

Section mutual_exclusion.
Context {W : Type} (tasks : Z).
Implicit Types (s : sync W) (c : config W).

Definition owns c (t l : Z) : Prop := l ∈ held_by c t \/ phase_of c t = Got l.
Definition pid_of s (t : Z) : Z := s32 (pid (task (sch s) t)).

Record inv c : Prop := {
  in_value : forall l, value (lock (machine c) l) = 0 \/ value (lock (machine c) l) = 1;
  in_owner : forall l t, owns c t l -> value (lock (machine c) l) = 1;
  in_unique : forall l t t', owns c t l -> owns c t' l -> t = t';
  in_taken : forall l, value (lock (machine c) l) = 1 -> exists t, owns c t l;
  in_holder : forall l t, l ∈ held_by c t -> holder (lock (machine c) l) = pid_of (machine c) t
}.

(** ** What the operations do to locks and process numbers *)

Lemma lock_upd l f s l' : lock (upd_lock l f s) l' = if decide (l = l') then f (lock s l') else lock s l'.
Proof. apply upd_lookup. Qed.

Lemma test_and_set_ok l s :
  value (lock s l) = 0 \/ value (lock s l) = 1 ->
  exists s', test_and_set l s = (value (lock s l) =? 1, s')
    /\ (forall l', lock s' l' = if decide (l = l') then Lock 1 (holder (lock s l)) else lock s l')
    /\ sch s' = sch s.
Proof.
  intros Hv. unfold test_and_set. eexists. split; [f_equal; destruct Hv as [-> | ->]; reflexivity|].
  split; [|reflexivity]. intros l'. rewrite lock_upd. case_decide as E; [subst l'|reflexivity].
  unfold set_value. f_equal. destruct Hv as [-> | ->]; reflexivity.
Qed.

Lemma pid_upd_task (t : Z) f (s : sched W) a :
  (forall x, pid (f x) = pid x) -> pid (task (upd_task t f s) a) = pid (task s a).
Proof. intros Hf. rewrite task_upd. case_decide; auto. Qed.

Lemma schedule_pid s t : pid_of (schedule tasks s) t = pid_of s t.
Proof.
  unfold pid_of, schedule, task_schedule. cbn [sch set_sch].
  change (task (set_cpu ?v ?x)) with (task x). f_equal.
  case_match; [|reflexivity]. case_match; [|reflexivity]. unfold switch_context.
  change (task (set_cpu ?v ?x)) with (task x). rewrite pid_upd_task by reflexivity. reflexivity.
Qed.

Lemma wake_locks head s l : lock (wake head s) l = lock s l.
Proof. unfold wake. case_match; reflexivity. Qed.

Lemma wake_pid head s t : pid_of (wake head s) t = pid_of s t.
Proof.
  unfold wake, pid_of. case_match; [|reflexivity]. cbn [sch set_sch]. rewrite pid_upd_task by reflexivity. reflexivity.
Qed.

Lemma release_locks l s l' : lock (mutex_release l s) l' = if decide (l = l') then Lock 0 (-1) else lock s l'.
Proof.
  unfold mutex_release, asm_sti. change (lock (set_sch ?v ?x)) with (lock x). rewrite !lock_upd, wake_locks.
  case_decide; reflexivity.
Qed.

Lemma release_pid l s t : pid_of (mutex_release l s) t = pid_of s t.
Proof.
  transitivity (pid_of (wake (waiting_list l) (asm_cli s)) t); [reflexivity|]. rewrite wake_pid. reflexivity.
Qed.

Lemma take_locks l s l' :
  lock (take l s) l' = if decide (l = l') then Lock (value (lock s l)) (pid_of s (current s)) else lock s l'.
Proof.
  unfold take, asm_sti. change (lock (set_sch ?v ?x)) with (lock x). rewrite lock_upd. case_decide; [subst; reflexivity|reflexivity].
Qed.

(** ** The invariant *)

Lemma owns_goto p s c t l :
  owns (goto p s c) t l <-> l ∈ held_by c t \/ (if decide (running c = t) then p = Got l else phase_of c t = Got l).
Proof.
  unfold owns, phase_of, held_by, goto. cbn [phases held]. case_decide as E.
  - subst t. rewrite lookup_total_insert_eq. reflexivity.
  - rewrite lookup_total_insert_ne by exact E. reflexivity.
Qed.

(** A step that leaves locks, owners and process numbers as they are. *)
Lemma inv_same c c' :
  inv c -> (forall l, lock (machine c') l = lock (machine c) l) -> (forall t l, owns c' t l <-> owns c t l) ->
  (forall t, held_by c' t = held_by c t) -> (forall t, pid_of (machine c') t = pid_of (machine c) t) -> inv c'.
Proof.
  intros [I1 I2 I3 I4 I5] Hl Ho Hh Hp. split; intros l; rewrite ?Hl.
  - apply I1.
  - intros t Ht. apply Ho in Ht. eauto.
  - intros t t' Ht Ht'. apply Ho in Ht, Ht'. eauto.
  - intros Hv. destruct (I4 l Hv) as (t & Ht). exists t. apply Ho, Ht.
  - intros t. rewrite Hh, Hp. apply I5.
Qed.

(** The same for a step of the running task between two phases that own nothing. *)
Lemma inv_goto p q s c :
  inv c -> phase_of c (running c) = q -> (forall l, q <> Got l) -> (forall l, p <> Got l) ->
  (forall l, lock s l = lock (machine c) l) -> (forall t, pid_of s t = pid_of (machine c) t) -> inv (goto p s c).
Proof.
  intros I Eq Hq Hp Hl Hpid. apply (inv_same c); [exact I|exact Hl| |reflexivity|exact Hpid].
  intros t l. rewrite owns_goto. unfold owns. case_decide as E; [subst t; rewrite Eq|reflexivity].
  specialize (Hp l). specialize (Hq l). tauto.
Qed.

Lemma inv_test l c s' taken :
  inv c -> phase_of c (running c) = Testing l -> test_and_set l (machine c) = (taken, s') ->
  inv (goto (if taken : bool then Failed l else Got l) s' c).
Proof.
  intros I Ep Et. pose proof I as [I1 I2 I3 I4 I5].
  destruct (test_and_set_ok l (machine c) (I1 l)) as (s2 & E & Hl & Hs). rewrite Et in E. injection E as -> ->.
  assert (forall t, pid_of s2 t = pid_of (machine c) t) as Hpid by (intros t; unfold pid_of; rewrite Hs; reflexivity).
  destruct (Z.eqb_spec (value (lock (machine c) l)) 1) as [Ev|Ev].
  - apply (inv_goto _ (Testing l)); try assumption; try discriminate.
    intros l'. rewrite Hl. case_decide; [subst l'|reflexivity]. rewrite <- Ev. destruct (lock (machine c) l). reflexivity.
  - assert (forall t, ~ owns c t l) as Hno by (intros t Ht; apply Ev, (I2 l t Ht)).
    assert (forall t l', owns (goto (Got l) s2 c) t l' <-> owns c t l' \/ (t = running c /\ l' = l)) as Ho.
    { intros t l'. rewrite owns_goto. unfold owns. case_decide as E; [subst t; rewrite Ep|].
      - assert (Got l = Got l' <-> l' = l) as -> by (split; congruence). assert (Testing l <> Got l') by discriminate. tauto.
      - assert (~ t = running c) by congruence. tauto. }
    split; intros l'; unfold goto at 1; cbn [machine]; rewrite ?Hl.
    + case_decide; [right; reflexivity|apply I1].
    + intros t Ht. apply Ho in Ht as [Ht|[-> ->]]; [|rewrite decide_True by reflexivity; reflexivity].
      case_decide; [reflexivity|apply (I2 l' t Ht)].
    + intros t t' Ht Ht'. apply Ho in Ht as [Ht|[-> ->]]; apply Ho in Ht' as [Ht'|[-> E']]; subst; try reflexivity.
      * apply (I3 l' t t' Ht Ht').
      * destruct (Hno t Ht).
      * destruct (Hno t' Ht').
    + case_decide as E.
      * subst l'. intros _. exists (running c). apply Ho. auto.
      * intros Hv. destruct (I4 l' Hv) as (t & Ht). exists t. apply Ho. auto.
    + intros t Ht. change (l' ∈ held_by c t) in Ht. rewrite Hpid, decide_False; [apply I5, Ht|].
      intros <-. apply (Hno t). left. exact Ht.
Qed.

Lemma held_set x t c t' : held_by (set_held x t c) t' = if decide (t = t') then x else held_by c t'.
Proof.
  unfold held_by, set_held. cbn [held]. case_decide as E; [subst; apply lookup_total_insert_eq|apply lookup_total_insert_ne, E].
Qed.

Lemma inv_take l c :
  inv c -> phase_of c (running c) = Got l ->
  inv (set_held ({[l]} ∪ held_by c (running c)) (running c) (goto Out (take l (machine c)) c)).
Proof.
  intros I Ep. pose proof I as [I1 I2 I3 I4 I5]. set (t0 := running c) in *.
  set (c' := set_held _ _ _). assert (owns c t0 l) as Hown by (right; exact Ep).
  assert (forall t l', l' ∈ held_by c' t <-> l' ∈ held_by c t \/ (t = t0 /\ l' = l)) as Hh.
  { intros t l'. unfold c'. rewrite held_set. case_decide as E; [subst t|].
    - change (held_by (goto Out (take l (machine c)) c)) with (held_by c). set_solver.
    - change (held_by (goto Out (take l (machine c)) c) t) with (held_by c t). naive_solver. }
  assert (forall t l', owns c' t l' <-> owns c t l') as Ho.
  { intros t l'. unfold owns. rewrite Hh. unfold c', phase_of, set_held, goto. cbn [phases]. fold t0.
    destruct (decide (t0 = t)) as [<-|E].
    - rewrite lookup_total_insert_eq. unfold phase_of in Ep. rewrite Ep.
      assert (Got l = Got l' <-> l' = l) as -> by (split; congruence). naive_solver.
    - rewrite lookup_total_insert_ne by exact E. naive_solver. }
  assert (forall l', value (lock (machine c') l') = value (lock (machine c) l')) as Hv.
  { intros l'. unfold c'. cbn [machine set_held goto]. rewrite take_locks. case_decide; subst; reflexivity. }
  split; intros l'; rewrite ?Hv.
  - apply I1.
  - intros t Ht. apply (I2 l' t), Ho, Ht.
  - intros t t' Ht Ht'. apply (I3 l'); apply Ho; assumption.
  - intros E. destruct (I4 l' E) as (t & Ht). exists t. apply Ho, Ht.
  - intros t Ht. apply Hh in Ht. unfold c'. cbn [machine set_held goto]. rewrite take_locks.
    change (pid_of (take l (machine c)) t) with (pid_of (machine c) t). case_decide as E.
    + subst l'. cbn [holder]. assert (t = t0) as ->; [|reflexivity].
      destruct Ht as [Ht|[? _]]; [|assumption]. apply (I3 l); [left; exact Ht|exact Hown].
    + destruct Ht as [Ht|[_ ?]]; [apply I5, Ht|congruence].
Qed.

Lemma inv_release l c :
  inv c -> phase_of c (running c) = Out -> l ∈ held_by c (running c) ->
  inv (set_held (held_by c (running c) ∖ {[l]}) (running c) (goto Out (mutex_release l (machine c)) c)).
Proof.
  intros I Ep Hin. pose proof I as [I1 I2 I3 I4 I5]. set (t0 := running c) in *.
  set (c' := set_held _ _ _). assert (owns c t0 l) as Hown by (left; exact Hin).
  assert (forall t l', l' ∈ held_by c' t <-> l' ∈ held_by c t /\ l' <> l) as Hh.
  { intros t l'. unfold c'. rewrite held_set. case_decide as E; [subst t; set_solver|].
    change (held_by (goto Out (mutex_release l (machine c)) c) t) with (held_by c t). split; [|tauto].
    intros Ht. split; [exact Ht|]. intros ->. apply E, (I3 l); [exact Hown|left; exact Ht]. }
  assert (forall t l', owns c' t l' <-> owns c t l' /\ l' <> l) as Ho.
  { intros t l'. unfold owns. rewrite Hh. unfold c', phase_of, set_held, goto. cbn [phases]. fold t0.
    destruct (decide (t0 = t)) as [<-|E].
    - rewrite lookup_total_insert_eq. unfold phase_of in Ep. rewrite Ep. assert (Out <> Got l') by discriminate. tauto.
    - rewrite lookup_total_insert_ne by exact E. split; [|tauto]. intros [Ht|Ht]; [tauto|]. split; [right; exact Ht|].
      intros ->. apply E, (I3 l); [exact Hown|right; exact Ht]. }
  assert (forall l', lock (machine c') l' = if decide (l = l') then Lock 0 (-1) else lock (machine c) l') as Hv
    by (intros l'; apply release_locks).
  split; intros l'; rewrite ?Hv.
  - case_decide; [left; reflexivity|apply I1].
  - intros t Ht. apply Ho in Ht as [Ht Hne]. rewrite decide_False by congruence. apply (I2 l' t Ht).
  - intros t t' Ht Ht'. apply Ho in Ht as [Ht _], Ht' as [Ht' _]. apply (I3 l'); assumption.
  - case_decide as E; [discriminate|]. intros Ev. destruct (I4 l' Ev) as (t & Ht). exists t. apply Ho. auto.
  - intros t Ht. apply Hh in Ht as [Ht Hne]. rewrite decide_False by congruence.
    unfold c'. cbn [machine set_held goto]. rewrite release_pid. apply I5, Ht.
Qed.

Lemma inv_tick c : inv c -> inv (Config (schedule tasks (machine c)) (phases c) (held c)).
Proof.
  intros I. apply (inv_same c); try reflexivity; [exact I|]. intros t. apply schedule_pid.
Qed.

Lemma inv_step c c' : inv c -> step tasks c c' -> inv c'.
Proof.
  intros I [a E]. unfold step_fn in E. cbv zeta in E.
  assert (a = Tick -> inv c') as Htick.
  { intros ->. destruct (interruptible _); [|destruct (phase_of c (running c)); discriminate E].
    destruct (phase_of c (running c)); injection E as <-; apply inv_tick, I. }
  destruct a; try (apply Htick; reflexivity); destruct (phase_of c (running c)) eqn:Ep; try discriminate E.
  - injection E as <-. apply (inv_goto _ Out); try assumption; try discriminate; reflexivity.
  - destruct (test_and_set l (machine c)) as [taken s'] eqn:Et. injection E as <-. apply (inv_test l c s'); assumption.
  - injection E as <-. apply (inv_goto _ (Failed l)); try assumption; try discriminate; reflexivity.
  - injection E as <-. apply (inv_goto _ (Queued l)); try assumption; try discriminate; [reflexivity|].
    intros t. unfold pid_of, sleep_state. cbn [sch set_sch]. rewrite pid_upd_task by reflexivity. reflexivity.
  - injection E as <-. apply (inv_goto _ (Asleep l)); try assumption; try discriminate; [reflexivity|]. apply schedule_pid.
  - injection E as <-. apply inv_take; assumption.
  - destruct (decide _) as [Hin|]; [|discriminate E]. injection E as <-. apply inv_release; assumption.
  - destruct (Bool.eqb _ _); [|discriminate E]. injection E as <-.
    apply (inv_goto _ Out); try assumption; try discriminate; reflexivity.
Qed.

Lemma initial_inv c : initial c -> inv c.
Proof.
  intros [Ht Hl]. assert (forall t l, ~ owns c t l) as Hno.
  { intros t l [H|H]; destruct (Ht t) as [E1 E2]; [rewrite E2 in H; set_solver|congruence]. }
  split.
  - intros l. left. apply Hl.
  - intros l t H. destruct (Hno t l H).
  - intros l t t' H. destruct (Hno t l H).
  - intros l H. rewrite Hl in H. discriminate H.
  - intros l t H. destruct (Hno t l (or_introl H)).
Qed.

Lemma reachable_inv c : reachable tasks c -> inv c.
Proof. induction 1; eauto using initial_inv, inv_step. Qed.

Lemma steps_reachable acts c c' : reachable tasks c -> steps tasks acts c = Some c' -> reachable tasks c'.
Proof.
  revert c. induction acts as [|a acts IH]; intros c R E; simpl in E; [injection E as <-; exact R|].
  destruct (step_fn tasks a c) as [c1|] eqn:E1; [|discriminate E]. apply (IH c1); [|exact E].
  apply (reach_step _ _ _ R). exists a. exact E1.
Qed.
End mutual_exclusion.

(** ** Waiting lists *)

(** The runnable tasks and those that wait in the list [head], in their order. *)
Record waiting {W} (tasks : Z) (s : sync W) (runs : list Z) (head : Z) (ws : list Z) : Prop := {
  wt_runs : run_list tasks (sch s) runs;
  wt_ring : ring (links (sch s)) head (node_of <$> ws);
  wt_apart : disjoint_rings head (node_of <$> ws) tasks (node_of <$> runs);
  wt_task : forall t, t ∈ ws -> in_u32 t /\ t <> 0
}.

(** A node that changes lists keeps them apart. *)
Lemma disjoint_take h e ys t zs zs' :
  NoDup (h :: e :: ys) -> (forall a, a ∈ zs' -> a = e \/ a ∈ zs) ->
  disjoint_rings h (e :: ys) t zs -> disjoint_rings h ys t zs'.
Proof.
  intros Hn Hz Hd a Ha Hb. apply NoDup_cons in Hn as [H1 H2]. apply NoDup_cons in H2 as [H2 _].
  assert (a <> e) as Hae.
  { intros ->. apply elem_of_cons in Ha as [->|Ha]; [|contradiction]. apply H1. apply list_elem_of_here. }
  apply (Hd a).
  - apply elem_of_cons in Ha as [->|Ha]; [apply list_elem_of_here|]. right. right. exact Ha.
  - apply elem_of_cons in Hb as [->|Hb]; [apply list_elem_of_here|]. right. destruct (Hz a Hb) as [?|?]; [contradiction|assumption].
Qed.

Lemma disjoint_give h ws e t zs zs' :
  (e ∉ t :: zs') -> (forall a, a ∈ zs' -> a ∈ zs) -> disjoint_rings h ws t zs -> disjoint_rings h (ws ++ [e]) t zs'.
Proof.
  intros He Hz Hd a Ha Hb. rewrite app_comm_cons in Ha. apply elem_of_app in Ha as [Ha|Ha].
  - apply (Hd a Ha). apply elem_of_cons in Hb as [->|Hb]; [apply list_elem_of_here|]. right. apply Hz, Hb.
  - apply list_elem_of_singleton in Ha. subst a. contradiction.
Qed.

Lemma elem_of_middle {A} (a e : A) xs ys : a ∈ xs ++ e :: ys <-> a = e \/ a ∈ xs ++ ys.
Proof. rewrite !elem_of_app, elem_of_cons. tauto. Qed.

Lemma nodup_middle_head {A} (h e : A) xs ys : NoDup (h :: xs ++ e :: ys) -> (e ∉ h :: xs ++ ys).
Proof.
  intros Hn. assert (h :: xs ++ e :: ys ≡ₚ e :: h :: xs ++ ys) as E.
  { rewrite <- Permutation_middle. apply perm_swap. }
  rewrite E in Hn. apply NoDup_cons in Hn as [Hn _]. exact Hn.
Qed.

Section waiting_lists.
Context {W : Type} (tasks : Z).
Implicit Types s : sync W.

(** What a wake-up or a sleeping task leaves as it was. *)
Definition same_data s s' : Prop := locks s' = locks s /\ queues s' = queues s /\ words (sch s') = words (sch s).

Lemma wake_none s runs head : waiting tasks s runs head [] -> wake head s = s.
Proof.
  intros [_ R _ _]. unfold wake. destruct (ring_first _ _ _ R) as [-> _]. simpl. rewrite Z.eqb_refl. reflexivity.
Qed.

Lemma wake_some s xs n ys head w ws :
  waiting tasks s (xs ++ n :: ys) head (w :: ws) -> _next_task (sch s) = n ->
  let s' := wake head s in
  waiting tasks s' (xs ++ w :: n :: ys) head ws /\ _next_task (sch s') = w
  /\ state (task (sch s') w) = TASK_RUNNABLE /\ current s' = current s /\ same_data s s'
  /\ cpu (sch s') = cpu (sch s).
Proof.
  intros [R1 R2 Hd Hw] Hn. destruct (Hw w (list_elem_of_here _ _)) as [Hw32 Hw0].
  assert (node_of w <> head) as Hwh.
  { destruct R2 as [Hnd _]. intros E. apply NoDup_cons in Hnd as [Hnd _]. apply Hnd. rewrite <- E. apply list_elem_of_here. }
  unfold wake. destruct (ring_first _ _ _ R2) as [Ef _]. rewrite fmap_cons in Ef. simpl in Ef. rewrite Ef.
  rewrite (proj2 (Z.eqb_neq _ _) Hwh). cbn [negb]. cbv zeta. cbn [sch set_sch _next_task set_links set_next_task].
  rewrite Hn, container_of_node by exact Hw32. split; [|split; [reflexivity|split; [|split; [reflexivity|split; [repeat split|reflexivity]]]]].
  - destruct R1 as [Rr Hne Ht]. rewrite fmap_app, !fmap_cons in Rr. rewrite fmap_cons in R2.
    destruct (list_move_before_ring (links (sch s)) head (node_of w) (node_of <$> ws) tasks (node_of <$> xs) (node_of n) (node_of <$> ys) R2 Rr) as [R3 R4].
    { intros a Ha Hb. apply (Hd a Hb). rewrite fmap_app, fmap_cons. exact Ha. }
    split; [split| | |].
    + rewrite fmap_app, !fmap_cons. exact R4.
    + destruct xs; discriminate.
    + intros t Hi. apply elem_of_middle in Hi as [->|Hi]; [auto|apply Ht, Hi].
    + exact R3.
    + apply (disjoint_take head (node_of w) (node_of <$> ws) tasks (node_of <$> xs ++ n :: ys)); [apply R2| |exact Hd].
      intros a Ha. rewrite fmap_app, fmap_cons in Ha. apply elem_of_middle in Ha as [->|Ha]; [left; reflexivity|right].
      rewrite fmap_app. exact Ha.
    + intros t Hi. apply Hw. right. exact Hi.
  - change (state (task (upd_task w (set_state TASK_RUNNABLE) (sch s)) w) = TASK_RUNNABLE).
    rewrite task_upd, decide_True by reflexivity. reflexivity.
Qed.

Lemma turn_index ts t : t ∈ ts -> exists i, turn ts i = t.
Proof.
  intros Hi. apply list_elem_of_lookup in Hi as (i & Ei). exists i.
  rewrite turn_small by (apply lookup_lt_is_Some; eauto). apply list_lookup_total_correct, Ei.
Qed.

(** A tick gives the processor to [_next_task] and leaves the lists alone. *)
Lemma waiting_tick s runs head ws :
  waiting tasks s runs head ws -> current s <> 0 -> _next_task (sch s) ∈ runs ->
  waiting tasks (schedule tasks s) runs head ws /\ current (schedule tasks s) = _next_task (sch s)
  /\ locks (schedule tasks s) = locks s.
Proof.
  intros [R1 R2 R3 R4] Hc Hn. destruct (turn_index runs _ Hn) as (i & Ei).
  destruct (schedule_one tasks (sch s) runs i R1 Hc (eq_sym Ei)) as (R & Ec & _).
  split; [|split; [unfold current, schedule; cbn [sch set_sch]; rewrite Ec; exact Ei|reflexivity]].
  split; [exact R| |exact R3|exact R4]. unfold schedule. cbn [sch set_sch]. rewrite schedule_links. exact R2.
Qed.

Lemma sleep_ok s xs ys head ws :
  waiting tasks s (xs ++ current s :: ys) head ws -> _next_task (sch s) ∈ xs ++ ys ->
  let s' := sleep tasks head s in
  waiting tasks s' (xs ++ ys) head (ws ++ [current s])
  /\ state (task (sch s') (current s)) = TASK_SLEEPING
  /\ current s' = _next_task (sch s) /\ _next_task (sch s') ∈ xs ++ ys /\ same_data s s'.
Proof.
  intros [R1 R2 Hd Hw] Hn. destruct R1 as [Rr Hne Ht]. set (cur := current s) in *.
  assert (xs ++ ys <> []) as Hne2 by (intros E; rewrite E in Hn; apply elem_of_nil in Hn; exact Hn).
  rewrite fmap_app, fmap_cons in Rr.
  destruct (list_move_tail_ring (links (sch s)) tasks (node_of <$> xs) (node_of cur) (node_of <$> ys) head (node_of <$> ws) Rr R2) as [R3 R4].
  { intros a Ha. rewrite <- fmap_cons, <- fmap_app. apply Hd, Ha. }
  rewrite <- fmap_app in R3.
  set (s1 := sleep_state (sleep_list head s)).
  assert (run_list tasks (sch s1) (xs ++ ys)) as Hr1.
  { split; [exact R3|exact Hne2|]. intros t Hi. apply Ht, elem_of_middle. right. exact Hi. }
  destruct (turn_index (xs ++ ys) _ Hn) as (i & Ei).
  assert (current_task (sch s1) <> 0) as Hc0 by (apply (Ht cur), elem_of_middle; left; reflexivity).
  assert (_next_task (sch s1) = turn (xs ++ ys) i) as En by (rewrite Ei; reflexivity).
  destruct (schedule_one tasks (sch s1) (xs ++ ys) i Hr1 Hc0 En) as (Hr2 & Ec2 & En2 & _ & _).
  assert (links (task_schedule tasks (sch s1)) = links (sch s1)) as El by apply schedule_links.
  unfold sleep. cbv zeta. fold s1. split; [|split; [|split; [|split]]].
  - split.
    + exact Hr2.
    + cbn [sch schedule set_sch]. rewrite El, fmap_app. exact R4.
    + rewrite fmap_app. apply (disjoint_give _ _ _ _ (node_of <$> xs ++ cur :: ys)); [| |exact Hd].
      * destruct Rr as [Hnd _]. rewrite fmap_app. apply nodup_middle_head, Hnd.
      * intros a. rewrite !fmap_app, fmap_cons. intros Ha. apply elem_of_middle. right. exact Ha.
    + intros t Hi. apply elem_of_app in Hi as [Hi|Hi]; [apply Hw, Hi|]. apply list_elem_of_singleton in Hi. subst t.
      apply Ht, elem_of_middle. left. reflexivity.
  - cbn [sch schedule set_sch]. rewrite schedule_state. unfold s1. cbn [sch sleep_state set_sch].
    change (current (sleep_list head s)) with cur. rewrite task_upd, decide_True by reflexivity. reflexivity.
  - unfold current, schedule. cbn [sch set_sch]. rewrite Ec2. exact Ei.
  - cbn [sch schedule set_sch]. rewrite En2. apply turn_in, Hne2.
  - split; [reflexivity|]. split; [reflexivity|]. cbn [sch schedule set_sch]. rewrite schedule_words. reflexivity.
Qed.
End waiting_lists.

(** ** Several waiting lists *)

Section other_lists.
Context {W : Type} (tasks : Z).
Implicit Types s : sync W.

Lemma disjoint_sym h xs h2 ys : disjoint_rings h xs h2 ys -> disjoint_rings h2 ys h xs.
Proof. intros Hd a Ha Hb. apply (Hd a Hb Ha). Qed.

Lemma disjoint_sub h xs h2 ys ys' :
  (forall a, a ∈ ys' -> a ∈ ys) -> disjoint_rings h xs h2 ys -> disjoint_rings h xs h2 ys'.
Proof.
  intros Hs Hd a Ha Hb. apply (Hd a Ha). apply elem_of_cons in Hb as [->|Hb]; [apply list_elem_of_here|].
  right. apply Hs, Hb.
Qed.

Lemma disjoint_rotate h xs h2 us p vs :
  disjoint_rings h xs h2 (us ++ p :: vs) -> disjoint_rings h xs p (vs ++ h2 :: us).
Proof.
  intros Hd a Ha Hb. apply (Hd a Ha). rewrite elem_of_cons, elem_of_app, elem_of_cons in Hb.
  rewrite elem_of_cons, elem_of_app, elem_of_cons. tauto.
Qed.

Lemma disjoint_add h xs h2 e ys :
  disjoint_rings h xs h2 ys -> (e ∉ h :: xs) -> disjoint_rings h xs h2 (e :: ys).
Proof.
  intros Hd He a Ha Hb. apply elem_of_cons in Hb as [->|Hb]; [apply (Hd h2 Ha), list_elem_of_here|].
  apply elem_of_cons in Hb as [->|Hb]; [apply He, Ha|]. apply (Hd a Ha). right. exact Hb.
Qed.

(** A wake-up from one list leaves another one as it is. *)
Lemma wake_other s xs n ys h w ws h2 zs :
  waiting tasks s (xs ++ n :: ys) h (w :: ws) -> _next_task (sch s) = n ->
  waiting tasks s (xs ++ n :: ys) h2 zs -> disjoint_rings h2 (node_of <$> zs) h (node_of <$> w :: ws) ->
  waiting tasks (wake h s) (xs ++ w :: n :: ys) h2 zs /\ disjoint_rings h2 (node_of <$> zs) h (node_of <$> ws).
Proof.
  intros Hw Hn [_ R2 D2 T2] D. pose proof (wake_some tasks s xs n ys h w ws Hw Hn) as (Hw' & _).
  destruct Hw as [[R1 _ _] R D1 T]. destruct (T w (list_elem_of_here _ _)) as [Hw32 _].
  assert (node_of w ∉ h2 :: (node_of <$> zs)) as Hwn.
  { intros Hi. apply (D _ Hi). rewrite fmap_cons. right. apply list_elem_of_here. }
  split; [|apply (disjoint_sub _ _ _ (node_of <$> w :: ws)); [intros a Ha; rewrite fmap_cons; right; exact Ha|exact D]].
  split; [apply Hw'| | |exact T2].
  - assert (node_of w <> h) as Hwh.
    { destruct R as [Hnd _]. intros E. apply NoDup_cons in Hnd as [Hnd _]. apply Hnd. rewrite <- E. apply list_elem_of_here. }
    unfold wake. destruct (ring_first _ _ _ R) as [Ef _]. rewrite fmap_cons in Ef. simpl in Ef. rewrite Ef.
    rewrite (proj2 (Z.eqb_neq _ _) Hwh). cbn [negb]. cbv zeta. cbn [sch set_sch _next_task set_links links set_next_task].
    rewrite Hn. change (ring (list_move_to_tail (node_of w) (node_of n) (links (sch s))) h2 (node_of <$> zs)).
    rewrite fmap_app, fmap_cons in R1, D1, D2. rewrite fmap_cons in R, D, D1.
    apply (list_move_tail_other _ h [] _ (node_of <$> ws) _ ((node_of <$> ys) ++ tasks :: (node_of <$> xs))); try assumption.
    + apply ring_rotate, R1.
    + apply disjoint_sym, disjoint_rotate, D1.
    + apply disjoint_rotate, D2.
  - apply (disjoint_sub _ _ _ (node_of w :: (node_of <$> xs ++ n :: ys))).
    + intros a. rewrite fmap_app, fmap_cons. intros Ha. apply elem_of_middle in Ha as [->|Ha]; [apply list_elem_of_here|].
      right. rewrite fmap_app. exact Ha.
    + apply disjoint_add; assumption.
Qed.

(** The same for a task that goes to sleep. *)
Lemma sleep_other s xs ys h ws h2 zs :
  waiting tasks s (xs ++ current s :: ys) h ws -> _next_task (sch s) ∈ xs ++ ys ->
  waiting tasks s (xs ++ current s :: ys) h2 zs -> disjoint_rings h2 (node_of <$> zs) h (node_of <$> ws) ->
  waiting tasks (sleep tasks h s) (xs ++ ys) h2 zs
  /\ disjoint_rings h2 (node_of <$> zs) h (node_of <$> ws ++ [current s]).
Proof.
  intros Hw Hn [_ R2 D2 T2] D. pose proof (sleep_ok tasks s xs ys h ws Hw Hn) as (Hw' & _).
  destruct Hw as [[R1 _ _] R D1 T]. rewrite fmap_app, fmap_cons in R1, D1, D2.
  assert (forall a, a ∈ node_of <$> xs ++ ys -> a ∈ (node_of <$> xs) ++ node_of (current s) :: (node_of <$> ys)) as Hsub
    by (intros a Ha; apply elem_of_middle; right; rewrite <- fmap_app; exact Ha).
  split; [split; [apply Hw'| | |exact T2]|].
  - unfold sleep, schedule. cbn [sch set_sch]. rewrite schedule_links.
    change (ring (list_move_to_tail (node_of (current s)) h (links (sch s))) h2 (node_of <$> zs)).
    apply (list_move_tail_other _ tasks (node_of <$> xs) _ (node_of <$> ys) _ (node_of <$> ws)); assumption.
  - apply (disjoint_sub _ _ _ _ _ Hsub D2).
  - rewrite fmap_app. intros a Ha Hb. rewrite app_comm_cons in Hb. apply elem_of_app in Hb as [Hb|Hb]; [apply (D a Ha Hb)|].
    apply list_elem_of_singleton in Hb. subst a. apply (D2 _ Ha). right. apply elem_of_middle. left. reflexivity.
Qed.
End other_lists.

(** ** The bounded queue *)

Section bounded_queue.
Context {W : Type} (tasks : Z).
Implicit Types s : sync W.

Lemma acquire_free l s :
  value (lock s l) = 0 ->
  exists s', mutex_acquire tasks l s = Done tt s'
    /\ (forall l', lock s' l' = if decide (l = l') then Lock 1 (current_pid_of s) else lock s l')
    /\ sch s' = set_cpu (sti (cli (cpu (sch s)))) (sch s) /\ queues s' = queues s.
Proof.
  intros Hv. unfold mutex_acquire. assert (value (lock (asm_cli s) l) = 0) as Hv' by exact Hv.
  destruct (test_and_set_ok l (asm_cli s) (or_introl Hv')) as (s1 & E & Hl & Hs).
  assert (queues s1 = queues s) as Hq by (unfold test_and_set in E; injection E as _ <-; reflexivity).
  rewrite E, Hv'. cbn [Z.eqb]. eexists. split; [reflexivity|]. split; [|split].
  - intros l'. rewrite take_locks. case_decide as El.
    + rewrite Hl, decide_True by reflexivity. f_equal. unfold pid_of, current. rewrite Hs. reflexivity.
    + rewrite Hl, decide_False by exact El. reflexivity.
  - unfold take, asm_sti. cbn [sch set_sch upd_lock]. rewrite Hs. reflexivity.
  - exact Hq.
Qed.

(** Taking and releasing a free mutex nobody waits for. *)
Lemma release_taken l s runs :
  waiting tasks s runs (waiting_list l) [] ->
  (forall l', lock (mutex_release l s) l' = if decide (l = l') then Lock 0 (-1) else lock s l')
  /\ sch (mutex_release l s) = set_cpu (sti (cli (cpu (sch s)))) (sch s) /\ queues (mutex_release l s) = queues s.
Proof.
  intros Hw. split; [apply release_locks|]. unfold mutex_release.
  rewrite (wake_none tasks (asm_cli s) runs); [split; reflexivity|]. destruct Hw as [[R1 R2 R3] H2 H3 H4].
  split; [split|..]; assumption.
Qed.

(** The scheduler's state up to the registers. *)
Definition calm s s' : Prop := exists c, sch s' = set_cpu c (sch s).

Lemma waiting_calm s s' runs h ws : calm s s' -> waiting tasks s runs h ws -> waiting tasks s' runs h ws.
Proof.
  intros [c E] [[R1 R2 R3] H2 H3 H4]. split; [split|..]; rewrite ?E; assumption.
Qed.

Lemma queue_upd q f s q' : queue (upd_queue q f s) q' = if decide (q = q') then f (queue s q') else queue s q'.
Proof. apply upd_lookup. Qed.

Lemma circular_count_ok add q s runs :
  value (lock s (queue_lock q)) = 0 -> waiting tasks s runs (waiting_list (queue_lock q)) [] ->
  exists s', circular_count tasks add q s = Done (u32 (count (queue s q) + add)) s'
    /\ calm s s' /\ value (lock s' (queue_lock q)) = 0
    /\ (forall q', queue s' q' = if decide (q = q') then set_count (u32 (count (queue s q) + add)) (queue s q) else queue s q').
Proof.
  intros Hv Hw. destruct (acquire_free (queue_lock q) s Hv) as (s1 & E1 & L1 & S1 & Q1).
  unfold circular_count. rewrite E1. cbn [bind]. cbv zeta.
  set (s2 := upd_queue q (fun x => set_count (u32 (count x + add)) x) s1).
  assert (queue s1 q = queue s q) as Eq by (unfold queue; rewrite Q1; reflexivity).
  assert (calm s s2) as C2 by (eexists; exact S1).
  destruct (release_taken (queue_lock q) s2 runs (waiting_calm s s2 runs _ _ C2 Hw)) as (L3 & S3 & Q3).
  exists (mutex_release (queue_lock q) s2). split; [|split; [|split]].
  - f_equal. unfold s2. rewrite queue_upd, decide_True by reflexivity. cbn [count set_count]. rewrite Eq. reflexivity.
  - eexists. rewrite S3. change (sch s2) with (sch s1). rewrite S1. reflexivity.
  - rewrite L3, decide_True by reflexivity. reflexivity.
  - intros q'. unfold queue. rewrite Q3. change (queue s2 q' = if decide (q = q')
      then set_count (u32 (count (queue s q) + add)) (queue s q) else queue s q').
    unfold s2. rewrite queue_upd. case_decide as E; [subst q'; rewrite Eq; reflexivity|]. unfold queue. rewrite Q1. reflexivity.
Qed.

(** The array of a queue lies inside the address space and holds [xs], the oldest
    element first. *)
Record queue_ok s (q : Z) (xs : list Z) : Prop := {
  qu_size : 0 < size (queue s q) < 2 ^ 31;
  qu_begin : 0 <= begin (queue s q) < size (queue s q);
  qu_count : count (queue s q) = Z.of_nat (length xs) /\ Z.of_nat (length xs) <= size (queue s q);
  qu_arr : 0 <= arr (queue s q) /\ arr (queue s q) + 4 * size (queue s q) <= 2 ^ 32;
  qu_words : forall i x, xs !! i = Some x ->
    words (sch s) !!! (arr (queue s q) + 4 * ((begin (queue s q) + Z.of_nat i) mod size (queue s q))) = x
}.

(** The waiting lists of a queue: nobody waits for the lock. *)
Record queue_lists s (q : Z) (runs ps cs : list Z) : Prop := {
  ql_producer : waiting tasks s runs (producer q) ps;
  ql_consumer : waiting tasks s runs (consumer q) cs;
  ql_lock : waiting tasks s runs (waiting_list (queue_lock q)) [];
  ql_apart : disjoint_rings (producer q) (node_of <$> ps) (consumer q) (node_of <$> cs);
  ql_apart_l1 : disjoint_rings (waiting_list (queue_lock q)) [] (producer q) (node_of <$> ps);
  ql_apart_l2 : disjoint_rings (waiting_list (queue_lock q)) [] (consumer q) (node_of <$> cs)
}.

(** The first task that waited, if any, is now in front of the task that was next. *)
Definition woken s runs ws s' runs' ws' : Prop :=
  (ws = [] /\ ws' = [] /\ runs' = runs /\ _next_task (sch s') = _next_task (sch s))
  \/ (exists w xs ys, ws = w :: ws' /\ runs = xs ++ _next_task (sch s) :: ys
       /\ runs' = xs ++ w :: _next_task (sch s) :: ys /\ _next_task (sch s') = w
       /\ state (task (sch s') w) = TASK_RUNNABLE).

Lemma lists_calm s s' q runs ps cs : calm s s' -> queue_lists s q runs ps cs -> queue_lists s' q runs ps cs.
Proof. intros C [H1 H2 H3 H4 H5 H6]. split; try assumption; eapply waiting_calm; eassumption. Qed.

Lemma calm_refl s : calm s s.
Proof. exists (cpu (sch s)). destruct s as [[]]. reflexivity. Qed.

Lemma calm_trans s s1 s2 : calm s s1 -> calm s1 s2 -> calm s s2.
Proof. intros [c E] [d E2]. exists d. rewrite E2, E. reflexivity. Qed.

Lemma wake_consumer s q runs ps cs :
  queue_lists s q runs ps cs -> _next_task (sch s) ∈ runs ->
  exists runs' cs', queue_lists (wake (consumer q) s) q runs' ps cs' /\ woken s runs cs (wake (consumer q) s) runs' cs'.
Proof.
  intros [H1 H2 H3 H4 H5 H6] Hn. destruct cs as [|w cs].
  - exists runs, []. rewrite (wake_none tasks s runs) by exact H2. split; [split; assumption|]. left. auto.
  - apply list_elem_of_split in Hn as (xs & ys & Er). rewrite Er in H1, H2, H3.
    destruct (wake_some tasks s xs _ ys _ w cs H2 eq_refl) as (W1 & W2 & W3 & _).
    destruct (wake_other tasks s xs _ ys _ w cs _ _ H2 eq_refl H1 H4) as [P1 P2].
    destruct (wake_other tasks s xs _ ys _ w cs _ _ H2 eq_refl H3 H6) as [L1 L2].
    exists (xs ++ w :: _next_task (sch s) :: ys), cs. split; [split; assumption|]. right. exists w, xs, ys. auto.
Qed.

Lemma wake_producer s q runs ps cs :
  queue_lists s q runs ps cs -> _next_task (sch s) ∈ runs ->
  exists runs' ps', queue_lists (wake (producer q) s) q runs' ps' cs /\ woken s runs ps (wake (producer q) s) runs' ps'.
Proof.
  intros [H1 H2 H3 H4 H5 H6] Hn. destruct ps as [|w ps].
  - exists runs, []. rewrite (wake_none tasks s runs) by exact H1. split; [split; assumption|]. left. auto.
  - apply list_elem_of_split in Hn as (xs & ys & Er). rewrite Er in H1, H2, H3.
    destruct (wake_some tasks s xs _ ys _ w ps H1 eq_refl) as (W1 & W2 & W3 & _).
    destruct (wake_other tasks s xs _ ys _ w ps _ _ H1 eq_refl H2 (disjoint_sym _ _ _ _ H4)) as [P1 P2].
    destruct (wake_other tasks s xs _ ys _ w ps _ _ H1 eq_refl H3 H5) as [L1 L2].
    exists (xs ++ w :: _next_task (sch s) :: ys), ps.
    split; [split; try assumption; apply disjoint_sym, P2|]. right. exists w, xs, ys. auto.
Qed.

(** A task that sleeps in one of the two lists. *)
Definition slept s us vs s' : Prop :=
  state (task (sch s') (current s)) = TASK_SLEEPING /\ current s' = _next_task (sch s)
  /\ _next_task (sch s') ∈ us ++ vs.

Lemma sleep_producer s q us vs ps cs :
  queue_lists s q (us ++ current s :: vs) ps cs -> _next_task (sch s) ∈ us ++ vs ->
  queue_lists (sleep tasks (producer q) s) q (us ++ vs) (ps ++ [current s]) cs
  /\ slept s us vs (sleep tasks (producer q) s).
Proof.
  intros [H1 H2 H3 H4 H5 H6] Hn. destruct (sleep_ok tasks s us vs _ ps H1 Hn) as (S1 & S2 & S3 & S4 & _).
  destruct (sleep_other tasks s us vs _ ps _ cs H1 Hn H2 (disjoint_sym _ _ _ _ H4)) as [C1 C2].
  destruct (sleep_other tasks s us vs _ ps _ [] H1 Hn H3 H5) as [L1 L2].
  split; [split; try assumption; apply disjoint_sym, C2|]. split; auto.
Qed.

Lemma sleep_consumer s q us vs ps cs :
  queue_lists s q (us ++ current s :: vs) ps cs -> _next_task (sch s) ∈ us ++ vs ->
  queue_lists (sleep tasks (consumer q) s) q (us ++ vs) ps (cs ++ [current s])
  /\ slept s us vs (sleep tasks (consumer q) s).
Proof.
  intros [H1 H2 H3 H4 H5 H6] Hn. destruct (sleep_ok tasks s us vs _ cs H2 Hn) as (S1 & S2 & S3 & S4 & _).
  destruct (sleep_other tasks s us vs _ cs _ ps H2 Hn H1 H4) as [C1 C2].
  destruct (sleep_other tasks s us vs _ cs _ [] H2 Hn H3 H6) as [L1 L2].
  split; [split; assumption|]. split; auto.
Qed.

(** ** The elements *)

Lemma queue_ok_same s s' q xs :
  queue s' q = queue s q -> words (sch s') = words (sch s) -> queue_ok s q xs -> queue_ok s' q xs.
Proof. intros Eq Ew [H1 H2 H3 H4 H5]. split; rewrite ?Eq, ?Ew; assumption. Qed.

Lemma wake_data h s : same_data s (wake h s).
Proof. unfold wake, same_data. case_match; auto. Qed.

Lemma sleep_data h s : same_data s (sleep tasks h s).
Proof.
  split; [reflexivity|]. split; [reflexivity|]. unfold sleep, schedule. cbn [sch set_sch]. rewrite schedule_words. reflexivity.
Qed.

Lemma data_ok s s' q xs : same_data s s' -> queue_ok s q xs -> queue_ok s' q xs.
Proof. intros (_ & Eq & Ew). apply queue_ok_same; [unfold queue; rewrite Eq; reflexivity|exact Ew]. Qed.

(** Two places of the ring less than its size apart. *)
Lemma places_apart b n i j : 0 < n -> 0 <= i < j -> j < n -> (b + i) mod n <> (b + j) mod n.
Proof.
  intros Hn Hi Hj E. pose proof (Z.div_mod (b + i) n ltac:(lia)) as E1. pose proof (Z.div_mod (b + j) n ltac:(lia)) as E2.
  rewrite E in E1. set (x := (b + i) / n) in *. set (y := (b + j) / n) in *.
  assert (j - i = n * (y - x)) as Ed by (rewrite Z.mul_sub_distr_l; lia).
  assert (y - x <= 0 \/ 1 <= y - x) as [Hc|Hc] by lia; clear - Ed Hi Hj Hn Hc; nia.
Qed.

Lemma word_at_place s q xs i :
  queue_ok s q xs -> word_at q (i mod size (queue s q)) s = arr (queue s q) + 4 * (i mod size (queue s q)).
Proof.
  intros [H1 H2 H3 H4 _]. unfold word_at. apply u32_small. pose proof (Z.mod_pos_bound i (size (queue s q)) ltac:(lia)).
  unfold in_u32. lia.
Qed.

(** The new element is stored behind the others. *)
Lemma queue_put_ok s s' q xs ele :
  queue_ok s q xs -> Z.of_nat (length xs) < size (queue s q) ->
  queue s' q = set_count (count (queue s q) + 1) (queue s q) ->
  words (sch s') = <[arr (queue s q) + 4 * ((begin (queue s q) + Z.of_nat (length xs)) mod size (queue s q)) := ele]> (words (sch s)) ->
  queue_ok s' q (xs ++ [ele]).
Proof.
  intros [H1 H2 [H3 H4] H5 H6] Hlt Eq Ew. split; rewrite ?Eq; cbn [set_count size begin count arr]; try assumption.
  - rewrite length_app. simpl. lia.
  - intros i x Hi. rewrite Ew. apply lookup_app_Some in Hi as [Hi|[Hge Hi]].
    + rewrite lookup_total_insert_ne; [apply H6, Hi|]. apply lookup_lt_Some in Hi.
      pose proof (places_apart (begin (queue s q)) (size (queue s q)) (Z.of_nat i) (Z.of_nat (length xs)) ltac:(lia) ltac:(lia) Hlt). lia.
    + apply list_lookup_singleton_Some in Hi as [Hi <-]. replace i with (length xs) by lia. apply lookup_total_insert_eq.
Qed.

(** The oldest element is taken off. *)
Lemma queue_get_ok s s' q x xs :
  queue_ok s q (x :: xs) -> words (sch s') = words (sch s) ->
  queue s' q = set_begin ((begin (queue s q) + 1) mod size (queue s q)) (set_count (count (queue s q) - 1) (queue s q)) ->
  queue_ok s' q xs /\ words (sch s) !!! (arr (queue s q) + 4 * begin (queue s q)) = x.
Proof.
  intros [H1 H2 [H3 H4] H5 H6] Ew Eq. split.
  - split; rewrite ?Eq, ?Ew; cbn [set_begin set_count size begin count arr].
    + exact H1.
    + apply Z.mod_pos_bound. lia.
    + simpl in H3, H4. lia.
    + exact H5.
    + intros i y Hi. rewrite Zplus_mod_idemp_l. rewrite <- (H6 (S i) y Hi). do 4 f_equal. lia.
  - rewrite <- (H6 0%nat x eq_refl). simpl. rewrite Z.add_0_r, (Z.mod_small (begin _)) by lia. reflexivity.
Qed.

(** ** The operations *)

Lemma enqueue_room s q runs ps cs xs ele :
  queue_ok s q xs -> value (lock s (queue_lock q)) = 0 -> queue_lists s q runs ps cs -> _next_task (sch s) ∈ runs ->
  Z.of_nat (length xs) < size (queue s q) ->
  exists s' runs' cs', circular_enqueue tasks ele q s = Done tt s' /\ queue_ok s' q (xs ++ [ele])
    /\ value (lock s' (queue_lock q)) = 0 /\ queue_lists s' q runs' ps cs' /\ woken s runs cs s' runs' cs'.
Proof.
  intros K Hv L Hn Hlt. pose proof K as [H1 H2 [H3 H4] H5 H6].
  destruct (circular_count_ok 0 q s runs Hv (ql_lock _ _ _ _ _ L)) as (s1 & E1 & C1 & V1 & Q1).
  rewrite Z.add_0_r, H3, (u32_small (Z.of_nat _)) in E1, Q1 by (unfold in_u32; lia).
  assert (queue s1 q = queue s q) as Eq1 by (rewrite Q1, decide_True by reflexivity; rewrite <- H3; destruct (queue s q); reflexivity).
  destruct (circular_count_ok 1 q s1 runs V1 (waiting_calm _ _ _ _ _ C1 (ql_lock _ _ _ _ _ L))) as (s2 & E2 & C2 & V2 & Q2).
  rewrite Eq1, H3, (u32_small (_ + 1)) in E2, Q2 by (unfold in_u32; lia).
  assert (queue s2 q = set_count (count (queue s q) + 1) (queue s q)) as Eq2
    by (rewrite Q2, decide_True by reflexivity; rewrite H3; reflexivity).
  pose proof (calm_trans _ _ _ C1 C2) as C12. unfold circular_enqueue. rewrite E1. cbn [bind]. rewrite Eq1.
  rewrite (proj2 (Z.leb_gt _ _) Hlt). unfold enqueue_reserve. rewrite E2. cbn [bind].
  unfold enqueue_store. cbv zeta.
  assert (u32 (u32 (begin (queue s2 q) + (Z.of_nat (length xs) + 1)) - 1) = begin (queue s q) + Z.of_nat (length xs)) as Ei.
  { rewrite Eq2. cbn [set_count begin]. rewrite (u32_small (_ + _)), u32_small by (unfold in_u32; lia). lia. }
  rewrite Ei. assert (size (queue s2 q) = size (queue s q)) as Es by (rewrite Eq2; reflexivity). rewrite Es.
  assert (word_at q ((begin (queue s q) + Z.of_nat (length xs)) mod size (queue s q)) s2
    = arr (queue s q) + 4 * ((begin (queue s q) + Z.of_nat (length xs)) mod size (queue s q))) as Ew.
  { rewrite <- (word_at_place s q xs _ K). unfold word_at. rewrite Eq2. reflexivity. }
  rewrite Ew. match goal with |- context [wake (consumer q) ?x] => set (s3 := x) end.
  assert (queue_ok s3 q (xs ++ [ele])) as K3.
  { apply (queue_put_ok s s3 q xs ele K Hlt Eq2). destruct C12 as [c Ec]. unfold s3. cbn [sch set_sch words set_words].
    rewrite Ec. reflexivity. }
  assert (queue_lists s3 q runs ps cs) as L3.
  { destruct (lists_calm _ _ _ _ _ _ C12 L) as [[[] ? ? ?] [[] ? ? ?] [[] ? ? ?] ? ? ?].
    repeat (split; try assumption). }
  destruct (wake_consumer s3 q runs ps cs L3) as (runs' & cs' & L4 & Hwk).
  { destruct C12 as [c Ec]. unfold s3. cbn [sch set_sch set_words _next_task]. rewrite Ec. exact Hn. }
  exists (wake (consumer q) s3), runs', cs'. split; [reflexivity|]. split; [apply (data_ok s3 _ q _ (wake_data _ _) K3)|].
  split; [rewrite wake_locks; exact V2|]. split; [exact L4|].
  assert (_next_task (sch s3) = _next_task (sch s)) as En by (destruct C12 as [c Ec]; unfold s3; cbn [sch set_sch set_words _next_task]; rewrite Ec; reflexivity).
  unfold woken in Hwk |- *. rewrite En in Hwk. exact Hwk.
Qed.

Lemma calm_lists_words s s' q f runs ps cs :
  calm s s' -> queue_lists s q runs ps cs -> queue_lists (upd_queue q f s') q runs ps cs
  /\ words (sch (upd_queue q f s')) = words (sch s) /\ _next_task (sch (upd_queue q f s')) = _next_task (sch s).
Proof.
  intros C L. split; [|destruct C as [c Ec]; cbn [sch upd_queue]; rewrite Ec; auto].
  apply (lists_calm s); [|exact L]. destruct C as [c Ec]. exists c. exact Ec.
Qed.

Lemma dequeue_some s q runs ps cs x xs :
  queue_ok s q (x :: xs) -> value (lock s (queue_lock q)) = 0 -> queue_lists s q runs ps cs -> _next_task (sch s) ∈ runs ->
  exists s' runs' ps', circular_dequeue tasks q s = Done x s' /\ queue_ok s' q xs
    /\ value (lock s' (queue_lock q)) = 0 /\ queue_lists s' q runs' ps' cs /\ woken s runs ps s' runs' ps'.
Proof.
  intros K Hv L Hn. pose proof K as [H1 H2 [H3 H4] H5 H6]. cbn [length] in H3, H4.
  destruct (circular_count_ok 0 q s runs Hv (ql_lock _ _ _ _ _ L)) as (s1 & E1 & C1 & V1 & Q1).
  rewrite Z.add_0_r, H3, (u32_small (Z.of_nat _)) in E1, Q1 by (unfold in_u32; lia).
  assert (queue s1 q = queue s q) as Eq1 by (rewrite Q1, decide_True by reflexivity; rewrite <- H3; destruct (queue s q); reflexivity).
  destruct (circular_count_ok (-1) q s1 runs V1 (waiting_calm _ _ _ _ _ C1 (ql_lock _ _ _ _ _ L))) as (s2 & E2 & C2 & V2 & Q2).
  rewrite Eq1, H3, (u32_small (_ + -1)) in E2, Q2 by (unfold in_u32; lia).
  assert (queue s2 q = set_count (count (queue s q) - 1) (queue s q)) as Eq2
    by (rewrite Q2, decide_True by reflexivity; rewrite H3; reflexivity).
  pose proof (calm_trans _ _ _ C1 C2) as C12. unfold circular_dequeue. rewrite E1. cbn [bind].
  rewrite (proj2 (Z.eqb_neq _ 0)) by lia. unfold dequeue_reserve. rewrite E2. cbn [bind]. unfold dequeue_load. cbv zeta.
  set (s3 := upd_queue q (fun x => set_begin (begin x mod size x) x) (upd_queue q (fun x => set_begin (u32 (begin x + 1)) x) s2)).
  assert (queue s3 q = set_begin ((begin (queue s q) + 1) mod size (queue s q)) (set_count (count (queue s q) - 1) (queue s q))) as Eq3.
  { unfold s3. rewrite !queue_upd, !decide_True by reflexivity. rewrite Eq2. cbn [set_begin set_count begin size count arr].
    rewrite u32_small by (unfold in_u32; lia). reflexivity. }
  destruct (calm_lists_words s (upd_queue q (fun x => set_begin (u32 (begin x + 1)) x) s2) q (fun x => set_begin (begin x mod size x) x) runs ps cs)
    as (L3 & Ew3 & En3); [exact C12|exact L|]. fold s3 in L3, Ew3, En3.
  destruct (queue_get_ok s s3 q x xs K Ew3 Eq3) as [K3 Ex].
  destruct (wake_producer s3 q runs ps cs L3) as (runs' & ps' & L4 & Hwk); [rewrite En3; exact Hn|].
  exists (wake (producer q) s3), runs', ps'. split; [|split; [|split; [|split; [exact L4|]]]].
  - f_equal. rewrite <- Ex. rewrite Eq2. cbn [set_count begin]. destruct C12 as [c Ec]. rewrite Ec. cbn [set_cpu words]. f_equal.
    rewrite <- (Z.mod_small (begin (queue s q)) (size (queue s q))) at 2 by lia. rewrite <- (word_at_place s q _ _ K).
    unfold word_at. rewrite Eq2. cbn [set_count arr]. rewrite (Z.mod_small (begin _)) by lia. reflexivity.
  - apply (data_ok s3 _ q _ (wake_data _ _) K3).
  - rewrite wake_locks. exact V2.
  - unfold woken in Hwk |- *. rewrite En3 in Hwk. exact Hwk.
Qed.

Lemma calm_current s s' : calm s s' -> current s' = current s /\ _next_task (sch s') = _next_task (sch s).
Proof. intros [c E]. unfold current. rewrite E. auto. Qed.

Lemma enqueue_full s q us vs ps cs xs ele :
  queue_ok s q xs -> value (lock s (queue_lock q)) = 0 -> queue_lists s q (us ++ current s :: vs) ps cs ->
  _next_task (sch s) ∈ us ++ vs -> Z.of_nat (length xs) = size (queue s q) ->
  exists s', circular_enqueue tasks ele q s = Blocked s' /\ queue_ok s' q xs
    /\ value (lock s' (queue_lock q)) = 0 /\ queue_lists s' q (us ++ vs) (ps ++ [current s]) cs /\ slept s us vs s'.
Proof.
  intros K Hv L Hn Hl. pose proof K as [H1 H2 [H3 H4] H5 H6].
  destruct (circular_count_ok 0 q s _ Hv (ql_lock _ _ _ _ _ L)) as (s1 & E1 & C1 & V1 & Q1).
  rewrite Z.add_0_r, H3, (u32_small (Z.of_nat _)) in E1, Q1 by (unfold in_u32; lia).
  assert (queue s1 q = queue s q) as Eq1 by (rewrite Q1, decide_True by reflexivity; rewrite <- H3; destruct (queue s q); reflexivity).
  unfold circular_enqueue. rewrite E1. cbn [bind]. rewrite Eq1, (proj2 (Z.leb_le _ _)) by lia.
  destruct (calm_current _ _ C1) as [Ec En]. pose proof (lists_calm _ _ _ _ _ _ C1 L) as L1. rewrite <- Ec in L1.
  destruct (sleep_producer s1 q us vs ps cs L1) as [L2 Hs]; [rewrite En; exact Hn|]. rewrite Ec in L2.
  exists (sleep tasks (producer q) s1). split; [reflexivity|]. split; [|split; [exact V1|split; [exact L2|]]].
  - apply (data_ok s1 _ q _ (sleep_data _ _)). apply (queue_ok_same s); [exact Eq1| |exact K].
    destruct C1 as [c E]. rewrite E. reflexivity.
  - unfold slept in Hs |- *. rewrite Ec, En in Hs. exact Hs.
Qed.

Lemma dequeue_empty s q us vs ps cs :
  queue_ok s q [] -> value (lock s (queue_lock q)) = 0 -> queue_lists s q (us ++ current s :: vs) ps cs ->
  _next_task (sch s) ∈ us ++ vs ->
  exists s', circular_dequeue tasks q s = Blocked s' /\ queue_ok s' q []
    /\ value (lock s' (queue_lock q)) = 0 /\ queue_lists s' q (us ++ vs) ps (cs ++ [current s]) /\ slept s us vs s'.
Proof.
  intros K Hv L Hn. pose proof K as [H1 H2 [H3 H4] H5 H6]. change (Z.of_nat (length [])) with 0 in H3.
  destruct (circular_count_ok 0 q s _ Hv (ql_lock _ _ _ _ _ L)) as (s1 & E1 & C1 & V1 & Q1).
  rewrite Z.add_0_r, H3, (u32_small 0) in E1, Q1 by (unfold in_u32; lia).
  assert (queue s1 q = queue s q) as Eq1 by (rewrite Q1, decide_True by reflexivity; rewrite <- H3; destruct (queue s q); reflexivity).
  unfold circular_dequeue. rewrite E1. cbn [bind Z.eqb].
  destruct (calm_current _ _ C1) as [Ec En]. pose proof (lists_calm _ _ _ _ _ _ C1 L) as L1. rewrite <- Ec in L1.
  destruct (sleep_consumer s1 q us vs ps cs L1) as [L2 Hs]; [rewrite En; exact Hn|]. rewrite Ec in L2.
  exists (sleep tasks (consumer q) s1). split; [reflexivity|]. split; [|split; [exact V1|split; [exact L2|]]].
  - apply (data_ok s1 _ q _ (sleep_data _ _)). apply (queue_ok_same s); [exact Eq1| |exact K].
    destruct C1 as [c E]. rewrite E. reflexivity.
  - unfold slept in Hs |- *. rewrite Ec, En in Hs. exact Hs.
Qed.
End bounded_queue.
