(* ===== verification/SyncProps.v ===== *)
(** * Properties of locks and of the bounded queue *)

From S2P Require Import Prelude Heap Klist Task TaskProofs Sync SyncProofs.

(** ** [mutex_acquire] and its steps *)

Section steps.
Context {W : Type} (tasks : Z).
Implicit Types (s : sync W) (c : config W).

Lemma phase_goto p s c : phase_of (goto p s c) (running c) = p.
Proof. apply lookup_total_insert_eq. Qed.

(** The call is the sequence of its steps: up to the return when the mutex is free,
    up to the point where the processor is given away when it is taken. *)
Lemma mutex_acquire_steps l c :
  phase_of c (running c) = Out ->
  match mutex_acquire tasks l (machine c) with
  | Done _ s => exists c', steps tasks [Enter l; Test; Take] c = Some c' /\ machine c' = s
  | Blocked s => exists c', steps tasks [Enter l; Test; Queue; Sleep; Yield] c = Some c' /\ machine c' = s
  end.
Proof.
  intros Ep. unfold mutex_acquire. cbv zeta.
  set (c1 := goto (Testing l) (asm_cli (machine c)) c).
  assert (step_fn tasks (Enter l) c = Some c1) as E1 by (unfold step_fn; rewrite Ep; reflexivity).
  assert (phase_of c1 (running c1) = Testing l) as P1 by apply (phase_goto (Testing l) (asm_cli (machine c)) c).
  destruct (test_and_set l (asm_cli (machine c))) as [taken s2] eqn:Et.
  set (c2 := goto (if taken then Failed l else Got l) s2 c1).
  assert (step_fn tasks Test c1 = Some c2) as E2.
  { unfold step_fn. rewrite P1. change (machine c1) with (asm_cli (machine c)). rewrite Et. reflexivity. }
  assert (running c2 = running c1) as R2 by (unfold test_and_set in Et; injection Et as _ <-; reflexivity).
  assert (phase_of c2 (running c2) = if taken then Failed l else Got l) as P2 by (rewrite R2; apply phase_goto).
  destruct taken.
  - set (c3 := goto (Queued l) (sleep_list (waiting_list l) s2) c2).
    assert (phase_of c3 (running c3) = Queued l) as P3 by apply (phase_goto (Queued l) (sleep_list (waiting_list l) s2) c2).
    set (c4 := goto (Asleep l) (sleep_state (machine c3)) c3).
    assert (phase_of c4 (running c4) = Asleep l) as P4 by apply (phase_goto (Asleep l) (sleep_state (machine c3)) c3).
    exists (goto (Testing l) (schedule tasks (machine c4)) c4). split; [|reflexivity].
    cbn [steps]. rewrite E1. cbn [mbind option_bind]. rewrite E2. cbn [mbind option_bind].
    assert (step_fn tasks Queue c2 = Some c3) as -> by (unfold step_fn; rewrite P2; reflexivity). cbn [mbind option_bind].
    assert (step_fn tasks Sleep c3 = Some c4) as -> by (unfold step_fn; rewrite P3; reflexivity). cbn [mbind option_bind].
    unfold step_fn. rewrite P4. reflexivity.
  - eexists. split.
    + cbn [steps]. rewrite E1. cbn [mbind option_bind]. rewrite E2. cbn [mbind option_bind].
      unfold step_fn at 1. rewrite P2. reflexivity.
    + reflexivity.
Qed.
End steps.

(** ** Properties *)

(** [C7] In every state that the tasks and the ticks of the timer can reach, in any
    interleaving, at most one task is inside a mutex; the mutex is then marked as
    taken and carries its process number, and a mutex that is not marked belongs
    to nobody. *)
Theorem mutex_exclusion {W} tasks (c : config W) :
  reachable tasks c -> forall l,
  (forall t t', l ∈ held_by c t -> l ∈ held_by c t' -> t = t')
  /\ (forall t, l ∈ held_by c t -> value (lock (machine c) l) = 1 /\ holder (lock (machine c) l) = pid_of (machine c) t)
  /\ (value (lock (machine c) l) = ATOMIC_RELAXED -> forall t, (l ∉ held_by c t)).
Proof.
  intros R l. destruct (reachable_inv tasks c R) as [_ I2 I3 _ I5]. split; [|split].
  - intros t t' Ht Ht'. apply (I3 l); left; assumption.
  - intros t Ht. split; [apply (I2 l t); left; exact Ht|apply I5, Ht].
  - intros E t Ht. specialize (I2 l t (or_introl Ht)). rewrite E in I2. discriminate I2.
Qed.

(** [C13] One call of the operations of a mutex.  A task that finds it free has it
    when [mutex_acquire] returns.  One that finds it taken ends up asleep behind
    those that wait already, and the next task runs, provided that [_next_task] is
    another runnable task; [sleeping_next_task] below shows what happens when it is
    not.  [mutex_release] by a running task frees the mutex and, with a runnable
    [_next_task], puts the task that waited longest in front of it, so that it is
    the next to run. *)
Theorem mutex_waits_in_order {W} tasks l (s : sync W) runs ws :
  waiting tasks s runs (waiting_list l) ws ->
  (value (lock s l) = 0 ->
     exists s', mutex_acquire tasks l s = Done tt s' /\ value (lock s' l) = 1 /\ holder (lock s' l) = current_pid_of s
       /\ waiting tasks s' runs (waiting_list l) ws)
  /\ (forall xs ys, value (lock s l) = 1 -> runs = xs ++ current s :: ys -> _next_task (sch s) ∈ xs ++ ys ->
        exists s', mutex_acquire tasks l s = Blocked s' /\ value (lock s' l) = 1
          /\ waiting tasks s' (xs ++ ys) (waiting_list l) (ws ++ [current s])
          /\ state (task (sch s') (current s)) = TASK_SLEEPING /\ current s' = _next_task (sch s))
  /\ (forall xs ys w ws', ws = w :: ws' -> runs = xs ++ _next_task (sch s) :: ys -> current s <> 0 ->
        let s' := mutex_release l s in
        value (lock s' l) = 0 /\ waiting tasks s' (xs ++ w :: _next_task (sch s) :: ys) (waiting_list l) ws'
        /\ state (task (sch s') w) = TASK_RUNNABLE /\ current s' = current s
        /\ current (schedule tasks s') = w).
Proof.
  intros Hw. split; [|split].
  - intros Hv. destruct (acquire_free tasks l s Hv) as (s' & E & Hl & Hs & _). exists s'. split; [exact E|].
    rewrite Hl, decide_True by reflexivity. split; [reflexivity|]. split; [reflexivity|].
    apply (waiting_calm tasks s); [eexists; exact Hs|exact Hw].
  - intros xs ys Hv -> Hn. unfold mutex_acquire. cbv zeta.
    destruct (test_and_set_ok l (asm_cli s) (or_intror Hv)) as (s1 & E & Hl & Hs). rewrite E.
    change (lock (asm_cli s) l) with (lock s l) in *. rewrite Hv. cbn [Z.eqb Pos.eqb].
    assert (calm s s1) as C by (exists (cli (cpu (sch s))); exact Hs). destruct (calm_current s s1 C) as [Ec En].
    pose proof (waiting_calm tasks s s1 _ _ _ C Hw) as Hw1. rewrite <- Ec in Hw1. rewrite <- En in Hn.
    destruct (sleep_ok tasks s1 xs ys _ ws Hw1 Hn) as (W1 & S1 & C1 & _). rewrite Ec in W1, S1. rewrite En in C1.
    exists (sleep tasks (waiting_list l) s1). split; [reflexivity|]. split; [|auto].
    change (value (lock s1 l) = 1). rewrite Hl, decide_True by reflexivity. reflexivity.
  - intros xs ys w ws' -> -> Hc. cbv zeta. rewrite release_locks, decide_True by reflexivity. split; [reflexivity|].
    assert (calm s (asm_cli s)) as C by (eexists; reflexivity).
    destruct (wake_some tasks (asm_cli s) xs _ ys _ w ws' (waiting_calm tasks _ _ _ _ _ C Hw) eq_refl)
      as (W1 & N1 & S1 & C1 & _).
    set (s1 := wake (waiting_list l) (asm_cli s)) in *.
    assert (calm s1 (mutex_release l s)) as C2 by (eexists; reflexivity).
    pose proof (waiting_calm tasks _ _ _ _ _ C2 W1) as W2. split; [exact W2|]. split; [exact S1|].
    destruct (calm_current _ _ C2) as [C3 N3]. split; [exact (eq_trans C3 C1)|].
    destruct (turn_index (xs ++ w :: _next_task (sch s) :: ys) w) as (i & Ei); [apply elem_of_middle; auto|].
    destruct (schedule_one tasks (sch (mutex_release l s)) _ i (wt_runs _ _ _ _ _ W2)) as (_ & E & _).
    + change (current (mutex_release l s) <> 0). rewrite C3, C1. exact Hc.
    + rewrite N3, N1. symmetry. exact Ei.
    + unfold current, schedule. cbn [sch set_sch]. rewrite E. exact Ei.
Qed.

(** [C14] The bounded queue is first in, first out as long as its lock is free when a
    call begins and no other task works on it during the call ([queue_gives_stale]
    and [producers_overwrite] below show what a tick inside a call can do).  When
    [_next_task] is runnable, an element is put behind the others if there is room,
    and the oldest one taken if there is one, in each case waking the task that
    waited longest on the other side.  When it is another runnable task, a caller
    that finds the queue full or empty ends up asleep behind those that wait
    already, and the contents stay as they are. *)
Theorem circular_queue_fifo {W} tasks q (s : sync W) runs ps cs xs :
  queue_ok s q xs -> value (lock s (queue_lock q)) = 0 -> queue_lists tasks s q runs ps cs ->
  (forall ele, Z.of_nat (length xs) < size (queue s q) -> _next_task (sch s) ∈ runs ->
     exists s' runs' cs', circular_enqueue tasks ele q s = Done tt s' /\ queue_ok s' q (xs ++ [ele])
       /\ value (lock s' (queue_lock q)) = 0 /\ queue_lists tasks s' q runs' ps cs' /\ woken s runs cs s' runs' cs')
  /\ (forall x xs', xs = x :: xs' -> _next_task (sch s) ∈ runs ->
     exists s' runs' ps', circular_dequeue tasks q s = Done x s' /\ queue_ok s' q xs'
       /\ value (lock s' (queue_lock q)) = 0 /\ queue_lists tasks s' q runs' ps' cs /\ woken s runs ps s' runs' ps')
  /\ (forall us vs, runs = us ++ current s :: vs -> _next_task (sch s) ∈ us ++ vs ->
     (forall ele, Z.of_nat (length xs) = size (queue s q) ->
        exists s', circular_enqueue tasks ele q s = Blocked s' /\ queue_ok s' q xs
          /\ value (lock s' (queue_lock q)) = 0 /\ queue_lists tasks s' q (us ++ vs) (ps ++ [current s]) cs
          /\ slept s us vs s')
     /\ (xs = [] -> exists s', circular_dequeue tasks q s = Blocked s' /\ queue_ok s' q []
          /\ value (lock s' (queue_lock q)) = 0 /\ queue_lists tasks s' q (us ++ vs) ps (cs ++ [current s])
          /\ slept s us vs s')).
Proof.
  intros K Hv L. split; [|split].
  - intros ele Hlt Hn. apply enqueue_room; assumption.
  - intros x xs' -> Hn. apply dequeue_some; assumption.
  - intros us vs -> Hn. split.
    + intros ele Hl. apply enqueue_full; assumption.
    + intros ->. apply dequeue_empty; assumption.
Qed.

(** ** Instances *)

(** Tasks 1000 and 2000, a free mutex at 500 and an empty queue of two places at
    600, with its array at 4096; task 1000 runs. *)
Definition two_tasks : sync unit :=
  let pids := {[1000 := set_pid 1 inhabitant; 2000 := set_pid 2 inhabitant]} in
  let heads := foldr INIT_LIST_HEAD ∅ [10; waiting_list 500; waiting_list (queue_lock 600); producer 600; consumer 600] in
  Sync (Sched Kmap.map_init 3 1000 2000 pids (list_add_tail 2052 10 (list_add_tail 1052 10 heads)) ∅
          (Context_ 0 0 0 0 0 0x202) tt)
       ∅ {[600 := CircularQueue 0 0 2 4096]}.

Definition start : config unit := Config two_tasks ∅ ∅.

Lemma two_tasks_run : run_list 10 (sch two_tasks) [1000; 2000].
Proof.
  split.
  - split; [apply (bool_decide_unpack _); vm_compute; exact I|vm_compute; repeat split].
  - discriminate.
  - intros t Ht. repeat (apply elem_of_cons in Ht as [->|Ht]; [split; [split; vm_compute; congruence|discriminate]|]).
    apply elem_of_nil in Ht. contradiction.
Qed.

(** An empty list of waiting tasks, decided by computation. *)
Lemma waiting_none (s : sync unit) runs h :
  run_list 10 (sch s) runs -> bool_decide (h ∉ 10 :: (node_of <$> runs)) = true ->
  (next (links (sch s)) h =? h) && (prev (links (sch s)) h =? h) = true -> waiting 10 s runs h [].
Proof.
  intros R Hn Hl. apply bool_decide_eq_true in Hn. reflect_bools. split; [exact R| | |].
  - split; [apply NoDup_singleton|split; assumption].
  - intros a Ha. apply list_elem_of_singleton in Ha. subst a. exact Hn.
  - intros t Ht. apply elem_of_nil in Ht. contradiction.
Qed.

Lemma start_initial : initial start.
Proof.
  split.
  - intros t. split; [exact (lookup_total_empty (M := gmap Z) (A := phase) t)|exact (lookup_total_empty (M := gmap Z) (A := gset Z) t)].
  - intros l. unfold lock. cbn [start machine two_tasks locks]. rewrite lookup_total_empty. reflexivity.
Qed.

(** Task 1000 is inside; 2000 has found the mutex taken and sleeps. *)
Definition contended : config unit :=
  default start (steps 10 [Enter 500; Test; Take; Tick; Enter 500; Test; Queue; Sleep; Yield] start).

Lemma contended_reachable : reachable 10 contended.
Proof.
  apply (steps_reachable 10 [Enter 500; Test; Take; Tick; Enter 500; Test; Queue; Sleep; Yield] start).
  - apply reach_initial, start_initial.
  - vm_compute. reflexivity.
Qed.

Lemma mutex_exclusion_witness :
  500 ∈ held_by contended 1000 /\ value (lock (machine contended) 500) = 1
  /\ holder (lock (machine contended) 500) = 1 /\ (500 ∉ held_by contended 2000).
Proof.
  destruct (mutex_exclusion 10 contended contended_reachable 500) as (Hu & Ho & _).
  assert (500 ∈ held_by contended 1000) as Hin by (apply (bool_decide_unpack _); vm_compute; exact I).
  split; [exact Hin|]. destruct (Ho 1000 Hin) as [Hv Hh]. split; [exact Hv|]. split; [exact Hh|].
  intros H2. discriminate (Hu 1000 2000 Hin H2).
Defined.

(** The state a call ends in. *)
Definition after (m : outcome (sync unit) unit) : sync unit := match m with Done _ s | Blocked s => s end.

Lemma result_of m a s : m = Done a s -> s = after m.
Proof. intros ->. reflexivity. Qed.

Lemma blocked_of m s : m = Blocked s -> s = after m.
Proof. intros ->. reflexivity. Qed.

(** Task 1000 takes the mutex; after a tick 2000 finds it taken and sleeps; 1000
    releases it, and 2000 is the next to run. *)
Lemma mutex_waits_in_order_witness :
  exists s1 s2, mutex_acquire 10 500 two_tasks = Done tt s1 /\ holder (lock s1 500) = 1
    /\ mutex_acquire 10 500 (schedule 10 s1) = Blocked s2 /\ waiting 10 s2 [1000] (waiting_list 500) [2000]
    /\ current s2 = 1000 /\ current (schedule 10 (mutex_release 500 s2)) = 2000
    /\ waiting 10 (mutex_release 500 s2) [2000; 1000] (waiting_list 500) [].
Proof.
  destruct (mutex_waits_in_order 10 500 two_tasks [1000; 2000] []) as (F & _).
  { apply waiting_none; [exact two_tasks_run|vm_compute; reflexivity|vm_compute; reflexivity]. }
  destruct (F ltac:(vm_compute; reflexivity)) as (s1 & E1 & V1 & Hh & W1).
  assert (current s1 = 1000 /\ _next_task (sch s1) = 2000 /\ _next_task (sch (schedule 10 s1)) = 1000) as (C1 & N1 & N2)
    by (rewrite (result_of _ _ _ E1); vm_compute; auto).
  destruct (waiting_tick 10 s1 _ _ _ W1) as (W2 & C2 & L2); [rewrite C1; discriminate|rewrite N1; right; left|].
  rewrite N1 in C2.
  destruct (mutex_waits_in_order 10 500 (schedule 10 s1) [1000; 2000] [] W2) as (_ & B & _).
  destruct (B [1000] []) as (s2 & E2 & _ & W3 & _ & C3);
    [unfold lock; rewrite L2; exact V1|rewrite C2; reflexivity|rewrite N2; left|].
  rewrite N2 in C3. rewrite C2 in W3.
  assert (_next_task (sch s2) = 1000) as N3.
  { revert E2. rewrite (result_of _ _ _ E1). intros E2. rewrite (blocked_of _ _ E2). vm_compute. reflexivity. }
  destruct (mutex_waits_in_order 10 500 s2 [1000] [2000] W3) as (_ & _ & R).
  destruct (R [] [] 2000 [] eq_refl) as (_ & W4 & _ & _ & C4);
    [rewrite N3; reflexivity|rewrite C3; discriminate|].
  rewrite N3 in W4. exists s1, s2. split_and!; assumption || (rewrite Hh; vm_compute; reflexivity).
Defined.

Lemma two_tasks_lists : queue_lists 10 two_tasks 600 [1000; 2000] [] [].
Proof.
  split; try (apply waiting_none; [exact two_tasks_run|vm_compute; reflexivity|vm_compute; reflexivity]);
    intros a Ha; apply list_elem_of_singleton in Ha; subst a; apply (bool_decide_unpack _); vm_compute; exact I.
Qed.

Lemma two_tasks_queue : queue_ok two_tasks 600 [].
Proof.
  split; vm_compute; repeat split; congruence.
Qed.

Lemma circular_queue_fifo_witness :
  exists s', circular_enqueue 10 7 600 two_tasks = Done tt s' /\ queue_ok s' 600 [7]
    /\ exists s2, circular_dequeue 10 600 two_tasks = Blocked s2 /\ current s2 = 2000.
Proof.
  destruct (circular_queue_fifo 10 600 two_tasks [1000; 2000] [] [] [] two_tasks_queue ltac:(vm_compute; reflexivity) two_tasks_lists)
    as (F & _ & B).
  destruct (F 7) as (s' & _ & _ & E & K & _).
  - vm_compute. reflexivity.
  - right. apply list_elem_of_here.
  - exists s'. split; [exact E|]. split; [exact K|].
    destruct (B [] [2000] eq_refl (list_elem_of_here _ _)) as [_ D]. destruct (D eq_refl) as (s2 & E2 & _ & _ & _ & (_ & Ec & _)).
    exists s2. split; [exact E2|exact Ec].
Defined.

(** ** Outside the contract *)

(** After its first wake-up a task tries again with interrupts enabled ([sti] at the
    end of [task_schedule]).  If it finds the mutex taken again, a tick can come
    before it has queued itself: the holder then releases the mutex and finds
    nobody to wake.  Task 2000 sleeps in the waiting list of a free mutex. *)
Definition lost_wakeup : list action :=
  [Enter 500; Test; Take; Tick; Enter 500; Test; Queue; Sleep; Yield; Release 500; Enter 500; Test; Take; Tick;
   Test; Tick; Release 500; Tick; Queue; Sleep; Yield].

#[export] Instance phase_eq_dec : EqDecision phase.
Proof. solve_decision. Defined.

Definition stuck (c : config unit) : bool :=
  (value (lock (machine c) 500) =? 0) && (running c =? 1000)
  && (next (links (sch (machine c))) (waiting_list 500) =? node_of 2000)
  && bool_decide (phase_of c 1000 = Out /\ held_by c 1000 = ∅).

Lemma mutex_lost_wakeup : stuck <$> steps 10 lost_wakeup start = Some true.
Proof. vm_compute. reflexivity. Qed.

(** When the task that goes to sleep is itself [_next_task], as after [init_task],
    [next_task] follows its link into the waiting list and takes the head of that
    list for a task. *)
Lemma sleeping_next_task :
  _next_task (sch (sleep 10 (waiting_list 500) (set_sch (set_next_task 1000 (sch two_tasks)) two_tasks)))
  = container_of (waiting_list 500).
Proof. vm_compute. reflexivity. Qed.

(** A tick between the count and the array: producer 1000 has counted its element 7
    but not stored it when consumer 2000 takes the oldest element.  It gets the 0
    that the array held before, and 7 is stored in an empty queue, behind
    [begin]. *)
Definition stale_dequeue : outcome (sync unit) (Z * Z * Z) :=
  bind (circular_count 10 0 600 two_tasks) (fun _ s =>
  bind (enqueue_reserve 10 600 s) (fun index s =>
  bind (circular_dequeue 10 600 (schedule 10 s)) (fun ret s =>
    let s := enqueue_store 7 index 600 (schedule 10 s) in
    Done (ret, count (queue s 600), words (sch s) !!! word_at 600 index s) s))).

Definition result_is {A} (a : A) (m : outcome (sync unit) A) : Prop :=
  match m with Done b _ => b = a | Blocked _ => False end.

Lemma queue_gives_stale : result_is (0, 0, 7) stale_dequeue.
Proof. vm_compute. reflexivity. Qed.

(** A tick between the test and the count: with one place left both producers find
    room.  The queue of two places then counts three elements, and the second
    producer's 9 lies on the oldest element 5. *)
Definition both_producers : outcome (sync unit) (Z * Z * Z) :=
  bind (circular_enqueue 10 5 600 two_tasks) (fun _ s =>
  bind (circular_count 10 0 600 s) (fun n s =>
  bind (circular_count 10 0 600 (schedule 10 s)) (fun n' s =>
  if (size (queue s 600) <=? n) || (size (queue s 600) <=? n') then Blocked s else
  bind (enqueue_reserve 10 600 s) (fun i s =>
    let s := schedule 10 (enqueue_store 8 i 600 s) in
    bind (enqueue_reserve 10 600 s) (fun j s =>
      let s := enqueue_store 9 j 600 s in
      Done (count (queue s 600), size (queue s 600), words (sch s) !!! word_at 600 (begin (queue s 600)) s) s))))).

Lemma producers_overwrite : result_is (3, 2, 9) both_producers.
Proof. vm_compute. reflexivity. Qed.
