(* ===== verification/PrintTasks.v ===== *)
(** * printf by several tasks

    A call of [printf] is a sequence of steps: it assigns the static flags of the
    hexadecimal conversions, converts numbers in its own buffer, and hands pieces of
    text to [print], which takes the mutex [io_lock], draws one character after the
    other and gives the mutex back.  The tasks of Sync.v take such steps, and ticks
    of the timer come between any two.  The buffer and [str] belong to the call, the
    flags and the terminal to all. *)

From S2P Require Import Prelude Printf.
From S2P Require Sync.

(** ** A call as its steps *)

Inductive flag_field := Flag | Digits | Sign | Complement.

Definition assign (f : flag_field) (v : Z) (fl : hex_flags) : hex_flags :=
  match f with
  | Flag => HexFlags (hex_digits_max fl) v (hex_complement fl) (format_sign fl)
  | Digits => HexFlags v (hex_flag fl) (hex_complement fl) (format_sign fl)
  | Sign => HexFlags (hex_digits_max fl) (hex_flag fl) (hex_complement fl) v
  | Complement => HexFlags (hex_digits_max fl) (hex_flag fl) v (format_sign fl)
  end.

(** [Begin] enters [printf]; [Hex], [Dec] and [Point] assign to [str]; [Send] and
    [SendStr] are the two calls of [print]. *)
Inductive op :=
  | Begin
  | Assign (f : flag_field) (v : Z)
  | Hex (n : Z)
  | Dec (n : Z)
  | Point (s : list Z)
  | Send (data : list Z)
  | SendStr.

(** The steps of a directive up to the printing of [str], and what is left. *)
Definition directive_ops (begun fmt : list Z) (args : list argument) : option (list op * list Z * list argument) :=
  match hex_directive fmt with
  | Some (width, sign, pad, x, rest) =>
      '(n, args) ← int_arg args;
      Some ([Assign Flag x; Assign Digits width; Assign Sign sign]
              ++ match pad with Some p => [Assign Complement p] | None => [] end ++ [Hex n], rest, args)
  | None =>
    match fmt with
    | [] => Some ([Point begun], [], args)
    | c :: rest =>
      if c =? chr_c then '(n, args) ← int_arg args; Some ([Send [u8 n]], rest, args)
      else if c =? chr_s then
        match args with
        | AStr v :: args => Some ([Point v], rest, args)
        | _ => None
        end
      else if c =? chr_d then '(n, args) ← int_arg args; Some ([Dec n], rest, args)
      else Some ([Point begun], [], args)
    end
  end.

Fixpoint loop_ops (fuel : nat) (fmt : list Z) (args : list argument) : option (list op) :=
  match fuel with
  | O => match fmt with [] => Some [] | _ => None end
  | S f =>
    match fmt with
    | [] => Some []
    | c0 :: fmt1 =>
      if negb (c0 =? chr_percent) || (nth 0 fmt1 0 =? chr_percent) then
        let '(c, rest) := if c0 =? chr_percent then (chr_percent, tail fmt1) else (c0, fmt1) in
        l ← loop_ops f (drop (text_length rest) rest) args;
        Some (Send (c :: take (text_length rest) rest) :: l)
      else
        '(now, fmt, args) ← directive_ops fmt fmt1 args;
        l ← loop_ops f fmt args;
        Some (now ++ SendStr :: l)
    end
  end.

Definition printf_ops (fmt : list Z) (args : list argument) : option (list op) :=
  l ← loop_ops (length fmt) fmt args; Some (Begin :: l).

(** The variables of a call: the buffer and the string behind [str]. *)
Record frame := Frame { fr_buf : gmap Z Z; fr_str : list Z }.
Definition new_frame : frame := Frame ∅ [].

Definition converted_to (r : option (option Z * gmap Z Z)) : option frame :=
  '(off, buf) ← r;
  Some (Frame buf (match off with Some i => read_string 100 buf i | None => [] end)).

(** What a step hands to [print]. *)
Definition piece_of (o : op) (c : frame) : option (list Z) :=
  match o with
  | Send d => Some d
  | SendStr => Some (fr_str c)
  | _ => None
  end.

(** A step that does not print. *)
Definition compute (o : op) (fl : hex_flags) (c : frame) : option (hex_flags * frame) :=
  match o with
  | Begin => Some (fl, new_frame)
  | Assign f v => Some (assign f v fl, c)
  | Hex n => c ← converted_to (hex2string fl (u32 n) BUF_SIZE (fr_buf c)); Some (fl, c)
  | Dec n => c ← converted_to (int2string (s32 n) BUF_SIZE (fr_buf c)); Some (fl, c)
  | Point s => Some (fl, Frame (fr_buf c) s)
  | Send _ | SendStr => None
  end.

(** The steps of a call with nobody else printing. *)
Fixpoint run_ops {W} `{Sink W} (l : list op) (s : pf_state W) : option (pf_state W) :=
  match l with
  | [] => Some s
  | o :: l =>
    match piece_of o (Frame (pf_buf s) (pf_str s)) with
    | Some d =>
        '(ok, s) ← print d s;
        if ok : bool then run_ops l (add_written (Z.of_nat (length d)) s) else None
    | None =>
        '(fl, c) ← compute o (pf_flags s) (Frame (pf_buf s) (pf_str s));
        run_ops l (PfState fl (fr_buf c) (fr_str c) (pf_out s) (pf_written s))
    end
  end.

(** The pieces that such a run prints. *)
Fixpoint pieces (fl : hex_flags) (c : frame) (l : list op) : option (list (list Z)) :=
  match l with
  | [] => Some []
  | o :: l =>
    match piece_of o c with
    | Some d => ps ← pieces fl c l; Some (d :: ps)
    | None => '(fl, c) ← compute o fl c; pieces fl c l
    end
  end.

(** ** Tasks that print *)

(** What a task has still to do, the variables of its call, and how much of the
    piece it is printing is drawn. *)
Record thread := Thread { prog : list op; call : frame; sent : nat }.
#[export] Instance thread_idle : Inhabited thread := populate (Thread [] new_frame 0).

(** [log] lists the pieces that are printed, each with its task. *)
Record printing (O W : Type) := Printing {
  cfg : Sync.config W;
  flags : hex_flags;
  terminal : O;
  threads : gmap Z thread;
  log : list (Z * list Z)
}.
Arguments Printing {O W}. Arguments cfg {O W}. Arguments flags {O W}. Arguments terminal {O W}.
Arguments threads {O W}. Arguments log {O W}.

Definition piece (th : thread) : option (list Z) :=
  match prog th with
  | [] => None
  | o :: _ => piece_of o (call th)
  end.

(** A step of the scheduler and of the mutexes, a step of [printf] between two
    prints, and [putchar]. *)
Inductive move := Sys (a : Sync.action) | Compute | Putc.

Section printing.
Context {O W : Type} (tasks io_lock : Z) (putc : Z -> O -> O).
Implicit Types s : printing O W.

Definition thread_of s (t : Z) : thread := threads s !!! t.
Definition self s : Z := Sync.running (cfg s).
Definition holds_io s (t : Z) : bool := bool_decide (io_lock ∈ Sync.held_by (cfg s) t).
Definition is_out (p : Sync.phase) : bool := match p with Sync.Out => true | _ => false end.
Definition outside s : bool := is_out (Sync.phase_of (cfg s) (self s)).

Definition set_thread (th : thread) s : printing O W :=
  Printing (cfg s) (flags s) (terminal s) (<[self s := th]> (threads s)) (log s).

Definition sys (a : Sync.action) s : option (printing O W) :=
  c ← Sync.step_fn tasks a (cfg s); Some (Printing c (flags s) (terminal s) (threads s) (log s)).

(** [io_lock] is only taken to print a piece, and given back when the piece is out. *)
Definition move_fn (m : move) s : option (printing O W) :=
  let th := thread_of s (self s) in
  match m with
  | Sys (Sync.Enter l) =>
      if (l =? io_lock) && (holds_io s (self s) || negb (bool_decide (is_Some (piece th)))) then None else sys (Sync.Enter l) s
  | Sys (Sync.Release l) =>
      if l =? io_lock then
        d ← piece th;
        if (sent th =? length d)%nat then
          let done := set_thread (Thread (tail (prog th)) (call th) 0) s in
          sys (Sync.Release l) (Printing (cfg done) (flags done) (terminal done) (threads done) (log s ++ [(self s, d)]))
        else None
      else sys (Sync.Release l) s
  | Sys a => sys a s
  | Compute =>
      if outside s then
        match prog th with
        | [] => None
        | o :: l =>
            '(fl, c) ← compute o (flags s) (call th);
            let s := set_thread (Thread l c (sent th)) s in
            Some (Printing (cfg s) fl (terminal s) (threads s) (log s))
        end
      else None
  | Putc =>
      if outside s && holds_io s (self s) then
        d ← piece th;
        c ← d !! sent th;
        let s := set_thread (Thread (prog th) (call th) (S (sent th))) s in
        Some (Printing (cfg s) (flags s) (putc c (terminal s)) (threads s) (log s))
      else None
  end.

Fixpoint moves (l : list move) s : option (printing O W) :=
  match l with
  | [] => Some s
  | m :: l => s ← move_fn m s; moves l s
  end.

(** The states that any interleaving leads to. *)
Inductive reaches (s0 : printing O W) : printing O W -> Prop :=
  | reaches_start : reaches s0 s0
  | reaches_move m s s' : reaches s0 s -> move_fn m s = Some s' -> reaches s0 s'.

(** The pieces of one task. *)
Definition printed_by (t : Z) (l : list (Z * list Z)) : list (list Z) := snd <$> filter (fun e => fst e = t) l.
End printing.

(** The calls of a task, one after the other. *)
Fixpoint calls_ops (l : list (list Z * list argument)) : option (list op) :=
  match l with
  | [] => Some []
  | (fmt, args) :: l => now ← printf_ops fmt args; later ← calls_ops l; Some (now ++ later)
  end.
