(* ===== verification/PrintTasksProofs.v ===== *)
(** * printf by several tasks: proofs

    A successful call is its sequence of steps; in every interleaving the pieces that
    the tasks print come out whole, each task's in their order. *)

From S2P Require Import Prelude Printf PrintfProofs PrintTasks.
From S2P Require Sync SyncProofs SyncProps Task.

(** ** A call is its steps *)

#[local] Arguments read_string : simpl never.

Section calls.
Context {W : Type} `{Sink W}.
Implicit Types s : pf_state W.

Lemma run_ops_app l l' s : run_ops (l ++ l') s = (s' ← run_ops l s; run_ops l' s').
Proof.
  revert s. induction l as [|o l IH]; intros s; [reflexivity|]. cbn [app run_ops].
  destruct (piece_of o _) as [d|].
  - destruct (print d s) as [[[] s1]|]; cbn [mbind option_bind]; [apply IH|reflexivity|reflexivity].
  - destruct (compute o _ _) as [[fl c]|]; cbn [mbind option_bind]; [apply IH|reflexivity].
Qed.

Lemma convert_converted r s s' :
  convert r s = Some s' ->
  exists c, converted_to r = Some c /\ s' = PfState (pf_flags s) (fr_buf c) (fr_str c) (pf_out s) (pf_written s).
Proof.
  unfold convert, converted_to. destruct r as [[off buf]|]; [|discriminate]. cbn [mbind option_bind]. generalize (match off with Some i => read_string 100 buf i | None => [] end).
  intros t [= <-]. eexists. split; reflexivity.
Qed.

(** A piece that is printed, and the rest. *)
Lemma run_send o d l s s' :
  piece_of o (Frame (pf_buf s) (pf_str s)) = Some d -> print d s = Some (true, s') ->
  run_ops (o :: l) s = run_ops l (add_written (Z.of_nat (length d)) s').
Proof. intros Ep Es. cbn [run_ops]. rewrite Ep, Es. reflexivity. Qed.

Lemma directive_ops_run begun fmt args maxrem s fmt' args' s' :
  directive begun fmt args maxrem s = Some (inr (fmt', args', s')) ->
  exists l, directive_ops begun fmt args = Some (l, fmt', args') /\ forall l', run_ops (l ++ l') s = run_ops l' s'.
Proof.
  unfold directive, directive_ops. intros E. destruct (hex_directive fmt) as [[[[[width sign] pad] x] rest]|].
  - destruct (int_arg args) as [[n args1]|]; [|discriminate E]. cbn [mbind option_bind] in *.
    match type of E with (_ ← ?c; _) = _ => destruct c as [s1|] eqn:Ec; [|discriminate E] end.
    cbn [mbind option_bind] in E. injection E as <- <- <-. destruct (convert_converted _ _ _ Ec) as (c & Er & ->).
    eexists. split; [reflexivity|]. intros l'. cbn [pf_flags pf_out pf_written pf_buf] in *.
    destruct pad as [p|]; cbn [app run_ops piece_of compute assign mbind option_bind fr_buf fr_str pf_buf pf_flags pf_str hex_digits_max hex_flag hex_complement format_sign pf_out pf_written];
      rewrite Er; reflexivity.
  - destruct fmt as [|c rest].
    { injection E as <- <- <-. eexists. split; [reflexivity|]. intros l'. reflexivity. }
    destruct (c =? chr_c).
    { destruct (int_arg args) as [[n args1]|]; [|discriminate E]. cbn [mbind option_bind] in *.
      destruct (maxrem =? 0); [discriminate E|]. destruct (print [u8 n] s) as [[[] s1]|] eqn:Ep; try discriminate E.
      cbn [mbind option_bind] in E. injection E as <- <- <-. eexists. split; [reflexivity|]. intros l'.
      exact (run_send (Send [u8 n]) [u8 n] l' s s1 eq_refl Ep). }
    destruct (c =? chr_s).
    { destruct args as [|[n|v] args1]; try discriminate E. injection E as <- <- <-. eexists. split; [reflexivity|]. reflexivity. }
    destruct (c =? chr_d).
    { destruct (int_arg args) as [[n args1]|]; [|discriminate E]. cbn [mbind option_bind] in *.
      match type of E with (_ ← ?c; _) = _ => destruct c as [s1|] eqn:Ec; [|discriminate E] end.
      cbn [mbind option_bind] in E. injection E as <- <- <-. destruct (convert_converted _ _ _ Ec) as (c1 & Er & ->).
      eexists. split; [reflexivity|]. intros l'. cbn [app run_ops piece_of compute fr_buf fr_str pf_buf pf_str]. rewrite Er. reflexivity. }
    injection E as <- <- <-. eexists. split; [reflexivity|]. reflexivity.
Qed.

Lemma loop_ops_run fuel : forall fmt args s r s',
  printf_loop fuel fmt args s = Some (r, s') -> 0 <= r ->
  exists l, loop_ops fuel fmt args = Some l /\ run_ops l s = Some s'.
Proof.
  induction fuel as [|f IH]; intros fmt args s r s' E Hr; cbn [printf_loop loop_ops] in *.
  { destruct fmt; [|discriminate E]. injection E as _ <-. exists []. auto. }
  destruct fmt as [|c0 fmt1]; [injection E as _ <-; exists []; auto|]. cbv zeta in E.
  assert (forall x : pf_state W, Some (-1, x) = Some (r, s') -> False) as Hm1 by (intros x [= <- _]; lia).
  destruct (negb _ || _).
  - destruct (if c0 =? chr_percent then _ else _) as [c rest].
    destruct (_ <? _); [destruct (Hm1 _ E)|]. destruct (print _ s) as [[[] s1]|] eqn:Ep; cbn [mbind option_bind] in E;
      [|destruct (Hm1 _ E)|discriminate E].
    destruct (IH _ _ _ _ _ E Hr) as (l & El & Er). rewrite El. cbn [mbind option_bind]. eexists. split; [reflexivity|].
    rewrite (run_send (Send _) _ l s s1 eq_refl Ep). cbn [length]. rewrite length_take.
    rewrite Nat.min_l; [exact Er|]. clear. induction rest as [|x rest IH]; simpl; [lia|]. destruct (_ =? _); lia.
  - destruct (directive _ _ _ _ _) as [[sx|[[fmt2 args2] s2]]|] eqn:Ed; cbn [mbind option_bind] in E; [destruct (Hm1 _ E)| |discriminate E].
    destruct (_ <? _); [destruct (Hm1 _ E)|]. destruct (print _ s2) as [[[] s3]|] eqn:Ep; cbn [mbind option_bind] in E;
      [|destruct (Hm1 _ E)|discriminate E].
    destruct (directive_ops_run _ _ _ _ _ _ _ _ Ed) as (now & -> & Hnow). cbn [mbind option_bind].
    destruct (IH _ _ _ _ _ E Hr) as (l & -> & Er). cbn [mbind option_bind]. eexists. split; [reflexivity|].
    rewrite Hnow, (run_send SendStr (pf_str s2) l s2 s3 eq_refl Ep). exact Er.
Qed.

(** A call that returns the number of characters has run its steps. *)
Lemma printf_ops_run fmt args fl w r s' :
  printf fmt args fl w = Some (r, s') -> 0 <= r ->
  exists l, printf_ops fmt args = Some l /\ forall s, pf_flags s = fl -> pf_out s = w -> pf_written s = 0 -> run_ops l s = Some s'.
Proof.
  intros E Hr. destruct (loop_ops_run _ _ _ _ _ _ E Hr) as (l & El & Er). unfold printf_ops. rewrite El. cbn [mbind option_bind].
  eexists. split; [reflexivity|]. intros s Ef Eo Ew. cbn [run_ops piece_of compute mbind option_bind fr_buf fr_str new_frame].
  rewrite Ef, Eo, Ew. exact Er.
Qed.
End calls.

(** ** The pieces of a run *)

Lemma run_pieces l : forall (s s' : pf_state (list Z)),
  run_ops l s = Some s' ->
  exists ps, pieces (pf_flags s) (Frame (pf_buf s) (pf_str s)) l = Some ps /\ pf_out s' = pf_out s ++ mjoin ps.
Proof.
  induction l as [|o l IH]; intros s s' E; cbn [run_ops pieces] in *.
  - injection E as <-. exists []. rewrite app_nil_r. auto.
  - destruct (piece_of o _) as [d|].
    + cbn [print sink text_sink mbind option_bind] in E. destruct (IH _ _ E) as (ps & Ep & Eo).
      cbn [pf_flags pf_buf pf_str add_written pf_out] in *. exists (d :: ps). rewrite Ep. split; [reflexivity|].
      rewrite Eo, <- app_assoc. reflexivity.
    + destruct (compute o _ _) as [[fl c]|]; [|discriminate E]. cbn [mbind option_bind] in *. destruct (IH _ _ E) as (ps & Ep & Eo).
      destruct c. exists ps. auto.
Qed.

(** A step that leaves the flags [fl] as they are. *)
Definition steady (fl : hex_flags) (o : op) : Prop :=
  match o with
  | Assign f v => assign f v fl = fl
  | _ => True
  end.

Lemma steady_compute fl o c fl' c' : steady fl o -> compute o fl c = Some (fl', c') -> fl' = fl.
Proof.
  destruct o; cbn [steady compute]; intros Hs E; try discriminate E.
  - injection E as <- _. reflexivity.
  - injection E as <- _. exact Hs.
  - destruct (converted_to _); [|discriminate E]. injection E as <- _. reflexivity.
  - destruct (converted_to _); [|discriminate E]. injection E as <- _. reflexivity.
  - injection E as <- _. reflexivity.
Qed.

Lemma pieces_app fl l l' : forall c ps ps',
  Forall (steady fl) l -> pieces fl c l = Some ps -> (forall c, pieces fl c l' = Some ps') -> pieces fl c (l ++ l') = Some (ps ++ ps').
Proof.
  induction l as [|o l IH]; intros c ps ps' Hs E E'; cbn [app pieces] in *.
  - injection E as <-. apply E'.
  - apply Forall_cons in Hs as [Ho Hs]. destruct (piece_of o c) as [d|].
    + destruct (pieces fl c l) as [ps1|] eqn:Ep; [|discriminate E]. injection E as <-. rewrite (IH c ps1 ps' Hs Ep E'). reflexivity.
    + destruct (compute o fl c) as [[fl1 c1]|] eqn:Ec; [|discriminate E]. cbn [mbind option_bind] in *.
      pose proof (steady_compute _ _ _ _ _ Ho Ec) as ->. exact (IH c1 ps ps' Hs E E').
Qed.

Definition printable (ts : list token) : Prop := tokens_ok ts /\ Z.of_nat (length (output_of ts)) <= INT_MAX.
Definition call_of (ts : list token) : list Z * list argument := (format_of ts, args_of ts).

Lemma call_pieces fl c ts : printable ts ->
  exists l ps, printf_ops (format_of ts) (args_of ts) = Some l /\ pieces fl c l = Some ps /\ mjoin ps = output_of ts.
Proof.
  intros [Hok Hl]. destruct (printf_correct ts fl Hok Hl) as (st & E & Eo).
  destruct (printf_ops_run _ _ _ _ _ _ E ltac:(lia)) as (l & El & Er). destruct c as [buf str].
  destruct (run_pieces l (PfState fl buf str [] 0) st (Er (PfState fl buf str [] 0) eq_refl eq_refl eq_refl)) as (ps & Ep & Eps).
  exists l, ps. rewrite <- Eo, Eps. auto.
Qed.

Lemma calls_pieces fl l : forall texts,
  Forall printable texts -> calls_ops (call_of <$> texts) = Some l -> Forall (steady fl) l ->
  exists ps, (forall c, pieces fl c l = Some ps) /\ mjoin ps = mjoin (output_of <$> texts).
Proof.
  intros texts. revert l. induction texts as [|ts texts IH]; intros l Ht E Hs; cbn [fmap list_fmap calls_ops] in E.
  - injection E as <-. exists []. auto.
  - apply Forall_cons in Ht as [H1 Ht]. unfold call_of in E at 1.
    destruct (printf_ops _ _) as [now|] eqn:En; [|discriminate E]. destruct (calls_ops _) as [later|] eqn:El; [|discriminate E].
    injection E as <-. apply Forall_app in Hs as [Hn Hl]. destruct (IH later Ht eq_refl Hl) as (ps' & Ep' & Em).
    destruct (call_pieces fl new_frame ts H1) as (now' & ps & En' & Ep & Eo). rewrite En in En'. injection En' as <-.
    exists (ps ++ ps'). split; [|rewrite join_app, Eo, Em; reflexivity]. intros c.
    apply pieces_app; [exact Hn| |exact Ep']. unfold printf_ops in En. destruct (loop_ops _ _ _) as [l0|]; [|discriminate En].
    injection En as <-. exact Ep.
Qed.

(** ** What a step of the scheduler changes *)

Section steps.
Context {W : Type} (tasks : Z).
Implicit Types c : Sync.config W.

Definition wants (l : Z) (p : Sync.phase) : Prop :=
  match p with
  | Sync.Out => False
  | Sync.Testing l' | Sync.Failed l' | Sync.Queued l' | Sync.Asleep l' | Sync.Got l' => l' = l
  end.

(** The mutexes the running task holds afterwards. *)
Definition holds_after (a : Sync.action) c (x : gset Z) : Prop :=
  let t := Sync.running c in
  match a with
  | Sync.Take => exists l, Sync.phase_of c t = Sync.Got l /\ x = {[l]} ∪ Sync.held_by c t
  | Sync.Release l => Sync.phase_of c t = Sync.Out /\ l ∈ Sync.held_by c t /\ x = Sync.held_by c t ∖ {[l]}
  | _ => x = Sync.held_by c t
  end.

Lemma goto_phase p s c t : Sync.phase_of (Sync.goto p s c) t = if decide (Sync.running c = t) then p else Sync.phase_of c t.
Proof.
  unfold Sync.phase_of, Sync.goto. cbn [Sync.phases]. case_decide as E.
  - subst t. apply (lookup_total_insert_eq (M := gmap Z)).
  - apply (lookup_total_insert_ne (M := gmap Z)), E.
Qed.

(** What a step of the running task leaves: its phase, what it holds, the others. *)
Definition changes (a : Sync.action) c c' : Prop :=
  (forall t, t <> Sync.running c -> Sync.phase_of c' t = Sync.phase_of c t /\ Sync.held_by c' t = Sync.held_by c t)
  /\ (forall l, wants l (Sync.phase_of c' (Sync.running c)) -> wants l (Sync.phase_of c (Sync.running c)) \/ a = Sync.Enter l)
  /\ holds_after a c (Sync.held_by c' (Sync.running c)).

Lemma changes_goto a p s c :
  (forall l, wants l p -> wants l (Sync.phase_of c (Sync.running c)) \/ a = Sync.Enter l) ->
  holds_after a c (Sync.held_by c (Sync.running c)) -> changes a c (Sync.goto p s c).
Proof.
  intros Hp Hx. split; [|split; [|exact Hx]].
  - intros t Ht. rewrite goto_phase, decide_False by congruence. auto.
  - intros l. rewrite goto_phase, decide_True by reflexivity. apply Hp.
Qed.

Lemma changes_held a x s c :
  holds_after a c x -> changes a c (Sync.set_held x (Sync.running c) (Sync.goto Sync.Out s c)).
Proof.
  intros Hx. unfold changes.
  assert (forall t, Sync.phase_of (Sync.set_held x (Sync.running c) (Sync.goto Sync.Out s c)) t = Sync.phase_of (Sync.goto Sync.Out s c) t) as E
    by reflexivity.
  split; [|split].
  - intros t Ht. rewrite E, goto_phase, SyncProofs.held_set, !decide_False by congruence. auto.
  - intros l. rewrite E, goto_phase, decide_True by reflexivity. contradiction.
  - rewrite SyncProofs.held_set, decide_True by reflexivity. exact Hx.
Qed.

Lemma changes_nothing a s c : holds_after a c (Sync.held_by c (Sync.running c)) -> changes a c (Sync.Config s (Sync.phases c) (Sync.held c)).
Proof. intros Hx. split; [auto|]. split; [auto|exact Hx]. Qed.

Lemma step_fn_changes a c c' : Sync.step_fn tasks a c = Some c' -> changes a c c'.
Proof.
  intros E. unfold Sync.step_fn in E. cbv zeta in E.
  assert (a = Sync.Tick -> changes a c c') as Htick.
  { intros ->. destruct (Task.interruptible _); [|destruct (Sync.phase_of c (Sync.running c)); discriminate E].
    destruct (Sync.phase_of c (Sync.running c)); injection E as <-; apply changes_nothing; reflexivity. }
  destruct a; try (apply Htick; reflexivity); destruct (Sync.phase_of c (Sync.running c)) eqn:Ep; try discriminate E.
  - injection E as <-. apply changes_goto; [|reflexivity]. intros l' ->. auto.
  - destruct (Sync.test_and_set l (Sync.machine c)) as [taken s']. injection E as <-. apply changes_goto; [|reflexivity].
    intros l'. rewrite Ep. destruct taken; auto.
  - injection E as <-. apply changes_goto; [|reflexivity]. intros l'. rewrite Ep. auto.
  - injection E as <-. apply changes_goto; [|reflexivity]. intros l'. rewrite Ep. auto.
  - injection E as <-. apply changes_goto; [|reflexivity]. intros l'. rewrite Ep. auto.
  - injection E as <-. apply changes_held. exists l. auto.
  - destruct (decide _) as [Hin|]; [|discriminate E]. injection E as <-. apply changes_held. split; [exact Ep|]. auto.
  - destruct (Bool.eqb _ _); [|discriminate E]. injection E as <-. apply changes_goto; [contradiction|reflexivity].
Qed.
End steps.

Lemma step_fn_inv {W} tasks a (c c' : Sync.config W) : SyncProofs.inv c -> Sync.step_fn tasks a c = Some c' -> SyncProofs.inv c'.
Proof. intros I E. apply (SyncProofs.inv_step tasks c); [exact I|]. exists a. exact E. Qed.

(** ** Pieces come out whole *)

Section whole.
Context {O W : Type} (tasks io_lock : Z) (putc : Z -> O -> O) (o0 : O).
Implicit Types (s : printing O W) (c : Sync.config W).

(** The terminal after a text. *)
Definition drawn (text : list Z) : O := foldl (flip putc) o0 text.

Definition inside c (t : Z) : Prop := io_lock ∈ Sync.held_by c t.
#[local] Instance inside_dec c t : Decision (inside c t).
Proof. unfold inside. apply _. Defined.
Definition busy c (t : Z) : Prop := inside c t \/ wants io_lock (Sync.phase_of c t).

(** The terminal shows the pieces of the log, and what the task inside has drawn of its
    piece. *)
Definition shows_log s : Prop :=
  exists part, terminal s = drawn (mjoin (snd <$> log s) ++ part)
    /\ (forall t, inside (cfg s) t -> exists d, piece (thread_of s t) = Some d /\ part = take (sent (thread_of s t)) d)
    /\ ((forall t, ~ inside (cfg s) t) -> part = []).

Record whole s : Prop := {
  wh_locks : SyncProofs.inv (cfg s);
  wh_piece : forall t, busy (cfg s) t -> is_Some (piece (thread_of s t));
  wh_sent : forall t, ~ inside (cfg s) t -> sent (thread_of s t) = 0%nat;
  wh_log : shows_log s
}.

(** The mark of the mutex tells whether somebody is inside. *)
Lemma inside_or_not c : SyncProofs.inv c -> (exists t, inside c t) \/ (forall t, ~ inside c t).
Proof.
  intros I. destruct (SyncProofs.in_value _ I io_lock) as [E|E].
  - right. intros t H. pose proof (SyncProofs.in_owner _ I io_lock t (or_introl H)). congruence.
  - destruct (SyncProofs.in_taken _ I io_lock E) as (t & [H|H]); [left; exists t; exact H|].
    destruct (decide (inside c t)) as [Hi|Hi]; [left; exists t; exact Hi|]. right. intros t' H'. apply Hi.
    rewrite (SyncProofs.in_unique _ I io_lock t t' (or_intror H) (or_introl H')). exact H'.
Qed.

Lemma thread_set th s t : thread_of (set_thread th s) t = if decide (self s = t) then th else thread_of s t.
Proof.
  unfold thread_of, set_thread. cbn [threads]. case_decide as E.
  - subst t. apply (lookup_total_insert_eq (M := gmap Z)).
  - apply (lookup_total_insert_ne (M := gmap Z)), E.
Qed.

(** A step that neither takes nor releases [io_lock] for the running task keeps who is
    inside. *)
Lemma inside_kept a c c' t :
  changes a c c' -> (forall l, a = Sync.Release l -> l <> io_lock) -> inside c t -> inside c' t.
Proof.
  intros (C1 & _ & C3) Hr H. unfold inside in *. destruct (decide (t = Sync.running c)) as [->|Hne]; [|rewrite (proj2 (C1 t Hne)); exact H].
  destruct a; cbn [holds_after] in C3; try (rewrite C3; exact H).
  - destruct C3 as (l & _ & ->). set_solver.
  - destruct C3 as (_ & _ & ->). specialize (Hr l eq_refl). set_solver.
Qed.

Lemma inside_new a c c' t :
  changes a c c' -> inside c' t -> inside c t \/ (t = Sync.running c /\ Sync.phase_of c t = Sync.Got io_lock).
Proof.
  intros (C1 & _ & C3) H. unfold inside in *. destruct (decide (t = Sync.running c)) as [->|Hne]; [|rewrite (proj2 (C1 t Hne)) in H; auto].
  destruct a; cbn [holds_after] in C3; try (rewrite C3 in H; auto).
  - destruct C3 as (l & Hl & E). rewrite E in H. apply elem_of_union in H as [H|H]; [|auto].
    apply elem_of_singleton in H. subst l. auto.
  - destruct C3 as (_ & _ & E). rewrite E in H. left. set_solver.
Qed.

Lemma busy_new a c c' t :
  changes a c c' -> busy c' t -> busy c t \/ (t = Sync.running c /\ a = Sync.Enter io_lock).
Proof.
  intros C [H|H].
  - destruct (inside_new a c c' t C H) as [?|[-> Hg]]; [left; left; assumption|]. left. right. rewrite Hg. reflexivity.
  - destruct C as (C1 & C2 & _). destruct (decide (t = Sync.running c)) as [->|Hne].
    + destruct (C2 _ H) as [?|?]; [left; right; assumption|auto].
    + left. right. rewrite <- (proj1 (C1 t Hne)). exact H.
Qed.

(** Steps of the scheduler and of other mutexes, and the taking of [io_lock]. *)
Lemma whole_sys a s s' :
  whole s -> sys tasks a s = Some s' -> (forall l, a = Sync.Release l -> l <> io_lock) ->
  (a = Sync.Enter io_lock -> is_Some (piece (thread_of s (self s)))) -> whole s'.
Proof.
  intros [I P S L] E Hr He. unfold sys in E. destruct (Sync.step_fn tasks a (cfg s)) as [c'|] eqn:Es; [|discriminate E].
  injection E as <-. pose proof (step_fn_changes tasks a _ _ Es) as C. split; cbn [cfg].
  - exact (step_fn_inv tasks a _ _ I Es).
  - intros t H. change (is_Some (piece (thread_of s t))). destruct (busy_new a _ _ t C H) as [Hb|[-> Ha]]; [exact (P t Hb)|exact (He Ha)].
  - intros t H. apply (S t). intros Hin. apply H. exact (inside_kept a _ _ t C Hr Hin).
  - destruct L as (part & E1 & E2 & E3). exists part. split; [exact E1|]. split.
    + intros t H. change (exists d, piece (thread_of s t) = Some d /\ part = take (sent (thread_of s t)) d).
      destruct (inside_new a _ _ t C H) as [Hin|[Ht Hg]]; [exact (E2 t Hin)|]. destruct (decide (inside (cfg s) t)) as [Hin|Hin]; [exact (E2 t Hin)|].
      destruct (P t) as [d Hd]; [right; rewrite Hg; reflexivity|]. exists d. split; [exact Hd|]. rewrite (S t Hin). apply E3.
      intros t' Hin'. assert (t = t') as -> by (apply (SyncProofs.in_unique _ I io_lock); [right; exact Hg|left; exact Hin']). contradiction.
    + intros Hno. apply E3. intros t Hin. apply (Hno t). exact (inside_kept a _ _ t C Hr Hin).
Qed.

(** The piece is out: the mutex is given back. *)
Lemma whole_release s s' :
  whole s -> move_fn tasks io_lock putc (Sys (Sync.Release io_lock)) s = Some s' ->
  exists d, piece (thread_of s (self s)) = Some d /\ whole s' /\ log s' = log s ++ [(self s, d)] /\ flags s' = flags s
    /\ (forall t, thread_of s' t = if decide (self s = t) then Thread (tail (prog (thread_of s t))) (call (thread_of s t)) 0 else thread_of s t).
Proof.
  intros [I P S L] E. cbn [move_fn] in E. rewrite Z.eqb_refl in E. set (th := thread_of s (self s)) in *.
  destruct (piece th) as [d|] eqn:Ed; [|discriminate E]. cbn [mbind option_bind] in E.
  destruct (Nat.eqb_spec (sent th) (length d)) as [El|]; [|discriminate E]. unfold sys in E. cbn [cfg] in E.
  change (cfg (set_thread ?x s)) with (cfg s) in E.
  destruct (Sync.step_fn tasks (Sync.Release io_lock) (cfg s)) as [c'|] eqn:Es; [|discriminate E]. injection E as <-.
  pose proof (step_fn_changes tasks _ _ _ Es) as C. destruct C as (C1 & C2 & (Hout & Hin & Hheld)).
  assert (forall t, ~ inside c' t) as Hno.
  { intros t H. unfold inside in H. destruct (decide (t = self s)) as [->|Hne].
    - unfold self in H. rewrite Hheld in H. set_solver.
    - rewrite (proj2 (C1 t Hne)) in H. apply Hne, (SyncProofs.in_unique _ I io_lock); left; assumption. }
  assert (forall t, thread_of (set_thread (Thread (tail (prog th)) (call th) 0) s) t
    = if decide (self s = t) then Thread (tail (prog (thread_of s t))) (call (thread_of s t)) 0 else thread_of s t) as Ht
    by (intros t; rewrite thread_set; case_decide; [subst t; reflexivity|reflexivity]).
  exists d. split; [reflexivity|]. split; [|split; [reflexivity|split; [reflexivity|exact Ht]]].
  split; cbn [cfg].
  - exact (step_fn_inv tasks _ _ _ I Es).
  - intros t [H|H]; [destruct (Hno t H)|]. destruct (decide (t = self s)) as [->|Hne].
    + destruct (C2 io_lock H) as [H'|H']; [|discriminate H']. rewrite Hout in H'. destruct H'.
    + rewrite (proj1 (C1 t Hne)) in H. unfold thread_of in Ht |- *. cbn [threads set_thread] in Ht |- *.
      rewrite Ht, decide_False by congruence. apply P. right. exact H.
  - intros t _. unfold thread_of in Ht |- *. cbn [threads set_thread] in Ht |- *. rewrite Ht. case_decide as E2; [reflexivity|].
    apply (S t). intros H. apply E2, (SyncProofs.in_unique _ I io_lock); left; assumption.
  - destruct L as (part & E1 & E2 & E3). exists []. cbn [terminal log]. split; [|split; [intros t H; destruct (Hno t H)|reflexivity]].
    destruct (E2 (self s) Hin) as (d' & Hd & ->). fold th in Hd. rewrite Ed in Hd. injection Hd as <-. fold th in E1.
    rewrite El, firstn_all in E1. change (terminal (set_thread ?x s)) with (terminal s). rewrite E1, app_nil_r, fmap_app, join_app.
    cbn [fmap list_fmap mjoin list_join]. rewrite app_nil_r. reflexivity.
Qed.

Lemma outside_free s : whole s -> piece (thread_of s (self s)) = None -> ~ busy (cfg s) (self s).
Proof. intros Wh En Hb. destruct (wh_piece s Wh _ Hb) as [d Hd]. rewrite Hd in En. discriminate En. Qed.

(** A task outside takes a step of its own. *)
Lemma whole_compute s th fl :
  whole s -> ~ busy (cfg s) (self s) -> sent th = 0%nat ->
  whole (Printing (cfg s) fl (terminal s) (<[self s := th]> (threads s)) (log s)).
Proof.
  intros [I P S L] Hb H0. set (s' := Printing _ _ _ _ _).
  assert (forall t, thread_of s' t = if decide (self s = t) then th else thread_of s t) as Ht by (intros t; exact (thread_set th s t)).
  split; [exact I| | |].
  - intros t H. rewrite Ht, decide_False; [exact (P t H)|]. intros <-. exact (Hb H).
  - intros t H. rewrite Ht. case_decide; [exact H0|exact (S t H)].
  - destruct L as (part & E1 & E2 & E3). exists part. split; [exact E1|]. split; [|exact E3]. intros t H.
    rewrite Ht, decide_False; [exact (E2 t H)|]. intros <-. apply Hb. left. exact H.
Qed.

(** The task inside draws a character. *)
Lemma whole_putc s d x :
  whole s -> inside (cfg s) (self s) -> piece (thread_of s (self s)) = Some d -> d !! sent (thread_of s (self s)) = Some x ->
  let th := thread_of s (self s) in
  whole (Printing (cfg s) (flags s) (putc x (terminal s)) (<[self s := Thread (prog th) (call th) (Datatypes.S (sent th))]> (threads s)) (log s)).
Proof.
  intros [I P S L] Hin Hd Hc th. set (s' := Printing _ _ _ _ _).
  assert (forall t, thread_of s' t = if decide (self s = t) then Thread (prog th) (call th) (Datatypes.S (sent th)) else thread_of s t) as Ht
    by (intros t; exact (thread_set _ s t)).
  split; [exact I| | |].
  - intros t H. rewrite Ht. case_decide; [exists d; exact Hd|exact (P t H)].
  - intros t H. rewrite Ht. case_decide; [subst t; contradiction|exact (S t H)].
  - destruct L as (part & E1 & E2 & E3). destruct (E2 _ Hin) as (d' & Hd' & ->). rewrite Hd in Hd'. injection Hd' as <-.
    exists (take (Datatypes.S (sent th)) d). split; [|split].
    + unfold s'. cbn [terminal log]. rewrite (take_S_r d (sent th) x Hc), app_assoc. unfold drawn in *. rewrite foldl_app, E1. reflexivity.
    + intros t H. pose proof (SyncProofs.in_unique _ I io_lock t (self s) (or_introl H) (or_introl Hin)) as ->.
      exists d. rewrite Ht, decide_True by reflexivity. split; [exact Hd|reflexivity].
    + intros Hno. destruct (Hno _ Hin).
Qed.

(** ** The pieces of each task, in their order *)

Record in_order (fl : hex_flags) (all : Z -> list (list Z)) s : Prop := {
  io_flags : flags s = fl;
  io_steady : forall t, Forall (steady fl) (prog (thread_of s t));
  io_pieces : forall t, exists ps, pieces fl (call (thread_of s t)) (prog (thread_of s t)) = Some ps /\ printed_by t (log s) ++ ps = all t
}.

Lemma order_same fl all s s' :
  in_order fl all s -> flags s' = flags s -> log s' = log s ->
  (forall t, prog (thread_of s' t) = prog (thread_of s t) /\ call (thread_of s' t) = call (thread_of s t)) -> in_order fl all s'.
Proof.
  intros [F S P] Ef El Ht. split; [congruence| |]; intros t; destruct (Ht t) as [-> Ec]; [apply S|]. rewrite Ec, El. apply P.
Qed.

Lemma printed_snoc t l u d : printed_by t (l ++ [(u, d)]) = printed_by t l ++ (if decide (u = t) then [d] else []).
Proof.
  unfold printed_by. rewrite filter_app, fmap_app. f_equal. case_decide as E.
  - rewrite filter_cons_True by exact E. reflexivity.
  - rewrite filter_cons_False by exact E. reflexivity.
Qed.

Lemma order_release fl all s s' d :
  in_order fl all s -> piece (thread_of s (self s)) = Some d -> flags s' = flags s -> log s' = log s ++ [(self s, d)] ->
  (forall t, thread_of s' t = if decide (self s = t) then Thread (tail (prog (thread_of s t))) (call (thread_of s t)) 0 else thread_of s t) ->
  in_order fl all s'.
Proof.
  intros [F S P] Hd Ef El Ht. split; [congruence| |]; intros t; rewrite Ht.
  - case_decide; [|apply S]. cbn [prog]. pose proof (S t) as St. destruct (prog (thread_of s t)); [constructor|].
    apply Forall_cons in St as [_ St]. exact St.
  - destruct (P t) as (ps & Ep & Ea). rewrite El, printed_snoc. case_decide as E; [|rewrite app_nil_r; eauto]. subst t.
    unfold piece in Hd. cbn [prog call]. destruct (prog (thread_of s (self s))) as [|o l]; [discriminate Hd|].
    cbn [pieces tail] in *. rewrite Hd in Ep. destruct (pieces fl _ l) as [ps'|]; [|discriminate Ep]. injection Ep as <-.
    exists ps'. split; [reflexivity|]. rewrite <- app_assoc. exact Ea.
Qed.

Lemma order_compute fl all s o l fl' cl :
  in_order fl all s -> prog (thread_of s (self s)) = o :: l -> compute o (flags s) (call (thread_of s (self s))) = Some (fl', cl) ->
  piece_of o (call (thread_of s (self s))) = None ->
  in_order fl all (Printing (cfg s) fl' (terminal s) (<[self s := Thread l cl (sent (thread_of s (self s)))]> (threads s)) (log s)).
Proof.
  intros [F S P] Ep Ec Eo. pose proof (S (self s)) as St. rewrite Ep in St. apply Forall_cons in St as [So Sl]. rewrite F in Ec.
  pose proof (steady_compute _ _ _ _ _ So Ec) as ->. set (s' := Printing _ _ _ _ _).
  assert (forall t, thread_of s' t = if decide (self s = t) then Thread l cl (sent (thread_of s (self s))) else thread_of s t) as Ht
    by (intros t; exact (thread_set _ s t)).
  split; [reflexivity| |]; intros t; rewrite Ht.
  - case_decide; [exact Sl|apply S].
  - case_decide as E; [|apply P]. subst t. destruct (P (self s)) as (ps & E1 & E2). exists ps. split; [|exact E2].
    rewrite Ep in E1. cbn [pieces] in E1. rewrite Eo, Ec in E1. exact E1.
Qed.

Lemma compute_piece o fl cl r : compute o fl cl = Some r -> piece_of o cl = None.
Proof. destruct o; [reflexivity..|discriminate|discriminate]. Qed.

(** ** Every move *)

(** The moves that are steps of the scheduler and change no thread. *)
Lemma move_sys a s s' :
  move_fn tasks io_lock putc (Sys a) s = Some s' -> a <> Sync.Release io_lock ->
  sys tasks a s = Some s' /\ (a = Sync.Enter io_lock -> is_Some (piece (thread_of s (self s)))).
Proof.
  intros E Hr. destruct a; cbn [move_fn] in E; try (split; [exact E|discriminate]).
  - destruct (Z.eqb_spec l io_lock) as [->|Hne]; cbn [andb] in E.
    + destruct (holds_io _ _ _); [discriminate E|]. cbn [orb] in E. destruct (bool_decide_reflect (is_Some (piece (thread_of s (self s))))); [|discriminate E].
      split; [exact E|auto].
    + split; [exact E|]. intros [= ->]. contradiction.
  - destruct (Z.eqb_spec l io_lock) as [->|Hne]; [contradiction|]. split; [exact E|discriminate].
Qed.

Lemma sys_kept a s s' : sys tasks a s = Some s' -> threads s' = threads s /\ log s' = log s /\ flags s' = flags s.
Proof. unfold sys. destruct (Sync.step_fn _ _ _); [|discriminate]. intros [= <-]. auto. Qed.

Lemma move_ok m s s' :
  move_fn tasks io_lock putc m s = Some s' -> whole s -> whole s' /\ forall fl all, in_order fl all s -> in_order fl all s'.
Proof.
  intros E Wh. destruct m as [a| |].
  - assert (a = Sync.Release io_lock \/ a <> Sync.Release io_lock) as [->|Hr]
      by (destruct a; try (right; discriminate); destruct (Z.eq_dec l io_lock); [left|right]; congruence).
    + destruct (whole_release s s' Wh E) as (d & Hd & W' & El & Ef & Ht). split; [exact W'|]. intros fl all I.
      exact (order_release fl all s s' d I Hd Ef El Ht).
    + destruct (move_sys a s s' E Hr) as [Es He]. destruct (sys_kept a s s' Es) as (K1 & K2 & K3).
      split; [apply (whole_sys a s s' Wh Es); [intros l -> ->; contradiction|exact He]|]. intros fl all I.
      apply (order_same fl all s s' I K3 K2). intros t. unfold thread_of. rewrite K1. auto.
  - cbn [move_fn] in E. destruct (outside s); [|discriminate E]. destruct (prog (thread_of s (self s))) as [|o l] eqn:Ep; [discriminate E|].
    destruct (compute o _ _) as [[fl' c']|] eqn:Ec; [|discriminate E]. cbn [mbind option_bind] in E. injection E as <-.
    pose proof (compute_piece _ _ _ _ Ec) as En.
    assert (~ busy (cfg s) (self s)) as Hb by (apply outside_free; [exact Wh|]; unfold piece; rewrite Ep; exact En).
    split.
    + apply whole_compute; [exact Wh|exact Hb|]. cbn [sent]. apply (wh_sent s Wh). intros H. apply Hb. left. exact H.
    + intros fl all I. exact (order_compute fl all s o l fl' c' I Ep Ec En).
  - cbn [move_fn] in E. destruct (outside s); [|discriminate E]. cbn [andb] in E.
    destruct (holds_io io_lock s (self s)) eqn:Hh; [|discriminate E]. apply bool_decide_eq_true in Hh as Hin.
    destruct (piece _) as [d|] eqn:Hd; [|discriminate E]. cbn [mbind option_bind] in E.
    destruct (d !! _) as [x|] eqn:Hx; [|discriminate E]. cbn [mbind option_bind] in E. injection E as <-.
    split; [exact (whole_putc s d x Wh Hin Hd Hx)|]. intros fl all I.
    apply (order_same fl all s); [exact I|reflexivity|reflexivity|]. intros t.
    match goal with |- prog ?x = _ /\ _ => assert (x = _) as -> by exact (thread_set _ s t) end. case_decide; [subst t|]; auto.
Qed.
End whole.

Lemma reaches_ok {O W} tasks io_lock putc (s0 s : printing O W) :
  reaches tasks io_lock putc s0 s -> whole io_lock putc (terminal s0) s0 ->
  whole io_lock putc (terminal s0) s /\ forall fl all, in_order fl all s0 -> in_order fl all s.
Proof.
  intros R W0. induction R as [|m s s' _ [IH1 IH2] E]; [auto|].
  destruct (move_ok tasks io_lock putc (terminal s0) m s s' E IH1) as [H1 H2]. split; [exact H1|]. auto.
Qed.

(** ** Properties *)

(** Nobody has printed yet: no task has taken a mutex or begun a piece. *)
Record unbegun {O W} (s : printing O W) : Prop := {
  ub_locks : Sync.initial (cfg s);
  ub_log : log s = [];
  ub_sent : forall t, sent (thread_of s t) = 0%nat
}.

(** Every task is about to make its calls of [printf], and no call changes the flags of
    the hexadecimal conversions. *)
Record starts {O W} (texts : Z -> list (list token)) (s : printing O W) : Prop := {
  st_thread : forall t, calls_ops (call_of <$> texts t) = Some (prog (thread_of s t)) /\ Forall (steady (flags s)) (prog (thread_of s t));
  st_texts : forall t, Forall printable (texts t)
}.

Lemma unbegun_whole {O W} io_lock putc (s : printing O W) : unbegun s -> whole io_lock putc (terminal s) s.
Proof.
  intros [SL Sl St]. pose proof SL as [Hp _].
  assert (forall t, ~ inside io_lock (cfg s) t) as Hno by (intros t H; unfold inside in H; rewrite (proj2 (Hp t)) in H; set_solver).
  split.
  - exact (SyncProofs.initial_inv (cfg s) SL).
  - intros t [H|H]; [destruct (Hno t H)|]. rewrite (proj1 (Hp t)) in H. destruct H.
  - intros t _. apply St.
  - exists []. rewrite Sl. split; [reflexivity|]. split; [intros t H; destruct (Hno t H)|auto].
Qed.

(** Several tasks call [printf] at once, with ticks between any two steps: whatever they
    print, what the terminal shows is always a sequence of whole pieces, followed by the
    beginning of the one that the task inside the mutex is printing. *)
Lemma pieces_whole {O W} tasks io_lock putc (s0 s : printing O W) :
  unbegun s0 -> reaches tasks io_lock putc s0 s ->
  exists part, terminal s = foldl (flip putc) (terminal s0) (mjoin (snd <$> log s) ++ part)
    /\ (part = [] \/ exists t d, io_lock ∈ Sync.held_by (cfg s) t /\ piece (thread_of s t) = Some d /\ part `prefix_of` d).
Proof.
  intros U R. destruct (reaches_ok tasks io_lock putc s0 s R (unbegun_whole io_lock putc s0 U)) as [Wh _].
  destruct (wh_log _ _ _ _ Wh) as (part & E1 & E2 & E3). exists part. split; [exact E1|].
  destruct (inside_or_not io_lock (cfg s) (wh_locks _ _ _ _ Wh)) as [[t H]|Hn]; [|left; exact (E3 Hn)].
  right. destruct (E2 t H) as (d & Hd & ->). exists t, d. split; [exact H|]. split; [exact Hd|]. apply prefix_take.
Qed.

(** As long as no call changes the flags of the hexadecimal conversions, the pieces of
    each task come in its order and make up the text its calls stand for. *)
Lemma pieces_in_order {O W} tasks io_lock putc texts (s0 s : printing O W) :
  unbegun s0 -> starts texts s0 -> reaches tasks io_lock putc s0 s ->
  forall t, exists rest, mjoin (printed_by t (log s)) ++ rest = mjoin (output_of <$> texts t)
    /\ (prog (thread_of s t) = [] -> rest = []) /\ forall d, piece (thread_of s t) = Some d -> d `prefix_of` rest.
Proof.
  intros U [St Sp] R. destruct (reaches_ok tasks io_lock putc s0 s R (unbegun_whole io_lock putc s0 U)) as [_ Ho].
  destruct U as [_ Sl _].
  intros t. set (all := fun t => match pieces (flags s0) (call (thread_of s0 t)) (prog (thread_of s0 t)) with Some ps => ps | None => [] end).
  assert (in_order (flags s0) all s0) as I0.
  { split; [reflexivity|intros u; apply St|]. intros u. destruct (St u) as (E1 & E3).
    destruct (calls_pieces (flags s0) _ _ (Sp u) E1 E3) as (ps & Ep & _). exists ps. unfold all. rewrite Ep, Sl. auto. }
  destruct (io_pieces _ _ _ (Ho _ _ I0) t) as (ps & Ep & Ea). exists (mjoin ps). destruct (St t) as (E1 & E3).
  destruct (calls_pieces (flags s0) _ _ (Sp t) E1 E3) as (ps0 & Ep0 & Em). split.
  - rewrite <- join_app, Ea. unfold all. rewrite Ep0. exact Em.
  - split; [intros En; rewrite En in Ep; injection Ep as <-; reflexivity|]. intros d Hd. unfold piece in Hd.
    destruct (prog (thread_of s t)) as [|o l]; [discriminate Hd|]. cbn [pieces] in Ep. rewrite Hd in Ep.
    destruct (pieces _ _ l) as [ps'|]; [|discriminate Ep]. injection Ep as <-. exists (mjoin ps'). reflexivity.
Qed.

(** ** Instances *)

(** Two tasks that each make one call, on a terminal that keeps its text. *)
Definition two_calls (l1 l2 : list op) : printing (list Z) unit :=
  Printing SyncProps.start (HexFlags 0 chr_x chr_0 chr_hash) []
    {[1000 := Thread l1 new_frame 0; 2000 := Thread l2 new_frame 0]} [].
Definition put_char (c : Z) (o : list Z) : list Z := o ++ [c].
Definition ops_of (ts : list token) : list op := default [] (printf_ops (format_of ts) (args_of ts)).

Lemma put_all l o : foldl (flip put_char) o l = o ++ l.
Proof.
  revert o. induction l as [|c l IH]; intros o; [symmetry; apply app_nil_r|]. cbn [foldl]. rewrite IH. unfold flip, put_char.
  rewrite <- app_assoc. reflexivity.
Qed.

(** ["a%d"] on 7 and ["%s"] on ["xy"]. *)
Definition text1 : list token := [Text 97 []; PrintfProofs.Dec 7].
Definition text2 : list token := [Str [120; 121]].
Definition texts0 (t : Z) : list (list token) := if t =? 1000 then [text1] else if t =? 2000 then [text2] else [].
Definition both_print : printing (list Z) unit := two_calls (ops_of text1) (ops_of text2).

(** Task 1000 prints its first piece; 2000 gets the mutex and is interrupted inside, and
    1000 sleeps until it is released. *)
Definition schedule0 : list move :=
  [Sys (Sync.Work (Task.Context_ 0 0 0 0 0 0x202))]
  ++ [Compute; Sys (Sync.Enter 500); Sys Sync.Test; Sys Sync.Take; Putc; Sys (Sync.Release 500); Sys Sync.Tick;
      Compute; Compute; Sys (Sync.Enter 500); Sys Sync.Test; Sys Sync.Take; Putc; Sys Sync.Tick;
      Compute; Sys (Sync.Enter 500); Sys Sync.Test; Sys Sync.Queue; Sys Sync.Sleep; Sys Sync.Yield; Putc].
Definition midway : printing (list Z) unit := default both_print (moves 10 500 put_char schedule0 both_print).

Lemma moves_reach {O W} tasks io_lock putc l (s0 s s' : printing O W) :
  reaches tasks io_lock putc s0 s -> moves tasks io_lock putc l s = Some s' -> reaches tasks io_lock putc s0 s'.
Proof.
  revert s. induction l as [|m l IH]; intros s R E; cbn [moves] in E; [injection E as <-; exact R|].
  destruct (move_fn tasks io_lock putc m s) as [s1|] eqn:E1; [|discriminate E]. exact (IH s1 (reaches_move _ _ _ _ _ _ _ R E1) E).
Qed.

Lemma thread_two l1 l2 t :
  thread_of (two_calls l1 l2) t = Thread (if t =? 1000 then l1 else if t =? 2000 then l2 else []) new_frame 0.
Proof.
  unfold thread_of, two_calls. cbn [threads]. destruct (Z.eqb_spec t 1000) as [->|H1]; [reflexivity|].
  destruct (Z.eqb_spec t 2000) as [->|H2]; [reflexivity|].
  rewrite (lookup_total_insert_ne (M := gmap Z)) by congruence. 
  assert (2000 <> t) as Hne by congruence. exact (lookup_total_singleton_ne (M := gmap Z) (A := thread) 2000 t _ Hne).
Qed.

Lemma both_print_unbegun : unbegun both_print.
Proof. split; [exact SyncProps.start_initial|reflexivity|]. intros t. unfold both_print. rewrite thread_two. reflexivity. Qed.

Lemma both_print_starts : starts texts0 both_print.
Proof.
  split.
  - intros t. unfold both_print. rewrite thread_two. unfold texts0. cbn [prog].
    destruct (t =? 1000); [|destruct (t =? 2000)]; (split; [vm_compute; reflexivity|]);
      [change (ops_of text1) with [Begin; Send [97]; Dec 7; SendStr]|change (ops_of text2) with [Begin; Point [120; 121]; SendStr]|]; repeat constructor.
  - intros t. unfold texts0. destruct (t =? 1000); [|destruct (t =? 2000)]; repeat constructor; try discriminate; try lia;
      apply (bool_decide_unpack _); vm_compute; exact I.
Qed.

Lemma midway_pieces :
  terminal midway = [97; 120; 121] /\ log midway = [(1000, [97])]
  /\ (exists part, [97; 120; 121] = [97] ++ part /\ (part = [] \/ exists t d, 500 ∈ Sync.held_by (cfg midway) t
        /\ piece (thread_of midway t) = Some d /\ part `prefix_of` d))
  /\ exists rest, [97] ++ rest = [97; 55].
Proof.
  assert (reaches 10 500 put_char both_print midway) as R.
  { apply (moves_reach 10 500 put_char schedule0 both_print both_print); [apply reaches_start|vm_compute; reflexivity]. }
  assert (terminal midway = [97; 120; 121] /\ log midway = [(1000, [97])]) as [E1 E2] by (split; vm_compute; reflexivity).
  destruct (pieces_whole 10 500 put_char both_print midway both_print_unbegun R) as (part & E & H).
  pose proof (pieces_in_order 10 500 put_char texts0 both_print midway both_print_unbegun both_print_starts R) as P.
  split; [exact E1|]. split; [exact E2|]. split.
  - exists part. split; [|exact H]. rewrite E1, E2, put_all in E. exact E.
  - destruct (P 1000) as (rest & Er & _). exists rest. rewrite E2 in Er. exact Er.
Qed.

(** The flags are shared: a task that prints ["%x"] on 255 and is interrupted after its
    first assignment by one that prints ["%X"] prints the digits of the other. *)
Lemma flags_race :
  let hex upper := [PrintfProofs.Hex false Plain upper 255] in
  exists l s, moves 10 500 put_char l (two_calls (ops_of (hex false)) (ops_of (hex true))) = Some s
    /\ log s = [(2000, [70; 70]); (1000, [70; 70])] /\ output_of (hex false) = [102; 102].
Proof.
  exists ([Sys (Sync.Work (Task.Context_ 0 0 0 0 0 0x202))] ++ [Compute; Compute; Sys Sync.Tick]
     ++ [Compute; Compute; Compute; Compute; Compute; Sys (Sync.Enter 500); Sys Sync.Test; Sys Sync.Take; Putc; Putc; Sys (Sync.Release 500); Sys Sync.Tick]
     ++ [Compute; Compute; Compute; Sys (Sync.Enter 500); Sys Sync.Test; Sys Sync.Take; Putc; Putc; Sys (Sync.Release 500)]).
  eexists. split; [vm_compute; reflexivity|]. split; reflexivity.
Qed.
