(* ===== verification/Vbe.v ===== *)
(** * kernel/kernel/vbe.c: the linear frame buffer

    The screen memory at [vram] and the back buffer that the timer copies to it
    are ranges of the byte store of [CString].  The fields of the mode information
    are those the code reads.  Mapping the screen memory and allocating the buffer
    go through interfaces. *)

From S2P Require Import Prelude Heap CString Machine.
From S2P Require KMath Pmm VmmPmm Vmm Kmm KmmPmm KmmProps Timer.

Record mode_info_block := ModeInfo { pitch : Z; Xres : Z; Yres : Z; bpp : Z; physbase : Z }.

(** What vbe.c asks of vmm.c. *)
Class Paging (W : Type) := { p_map : Z -> Z -> Z -> Z -> W -> option W }.

Record video (W : Type) := Video {
  pixels : memory;
  vram : Z;
  vram_size : Z;
  vbe_buffer : Z;
  timers : Timer.timer_list W
}.
Arguments Video {W}. Arguments pixels {W}. Arguments vram {W}. Arguments vram_size {W}.
Arguments vbe_buffer {W}. Arguments timers {W}.

(** The coordinates are [int]s, [offset] is the code's [where]. *)
Definition put_pixel (screen x bbs y pitch color : Z) (m : memory) : memory :=
  let offset := u32 (Z.quot (s32 x * s32 bbs) 8 + s32 y * s32 pitch) in
  let m := st (ptr_at screen offset) (Z.land color 255) m in
  let m := st (ptr_at screen (u32 (offset + 1))) (Z.land (Z.shiftr color 8) 255) m in
  let m := st (ptr_at screen (u32 (offset + 2))) (Z.land (Z.shiftr color 16) 255) m in
  st (ptr_at screen (u32 (offset + 3))) (Z.land (Z.shiftr color 24) 255) m.

Section code.
Context {W : Type} `{Heap W} `{Paging W}.

Definition swap_buffer (v : video W) : video W :=
  Video (memcpy (vram v) (vbe_buffer v) (vram_size v) (pixels v)) (vram v) (vram_size v) (vbe_buffer v) (timers v).

Definition screen_pages (mode : mode_info_block) : Z :=
  let bpp := KMath.next_power_of_2 (bpp mode) in
  u32 (u32 (Xres mode * Yres mode) * (bpp / 8)) / Vmm.PAGE_SIZE.

Definition map_screen (pgd_k vram pages : Z) (w : W) : option W :=
  for_loop (Z.to_nat pages) 0
    (fun i acc => w ← acc; p_map pgd_k (u32 (vram + i * Vmm.PAGE_SIZE)) (u32 (vram + i * Vmm.PAGE_SIZE)) (Z.lor Vmm.PAGE_PRESENT Vmm.PAGE_WRITE) w)
    (Some w).

Definition clear_screens (mode : mode_info_block) (vram buffer : Z) (m : memory) : memory :=
  for_loop (Z.to_nat (Xres mode)) 0
    (fun i m => for_loop (Z.to_nat (Yres mode)) 0
       (fun j m =>
          let m := put_pixel vram i (bpp mode) j (pitch mode) 0xffffff m in
          put_pixel buffer i (bpp mode) j (pitch mode) 0xffffff m) m) m.

(** [mode] is what the boot loader left at [vbe_mode_info]; the addresses of
    [pgd_k] and of [swap_buffer] are those of the linker. *)
Definition init_vbe (mode : mode_info_block) (pgd_k swap_buffer_addr : Z) (v : video W) : option (video W) :=
  let pages := screen_pages mode in
  let vram := physbase mode in
  '(buffer, w) ← h_kmalloc (u32 (pages * Vmm.PAGE_SIZE)) (Timer.world (timers v));
  let vram_size := u32 (pages * Vmm.PAGE_SIZE) in
  w ← map_screen pgd_k vram pages w;
  let m := clear_screens mode vram buffer (pixels v) in
  ts ← Timer.register_timer swap_buffer_addr 60 (Timer.set_world w (timers v));
  Some (Video m vram vram_size buffer ts).
End code.

(** ** Pixels *)

Definition color_bytes (c : Z) : list Z :=
  [Z.land c 255; Z.land (Z.shiftr c 8) 255; Z.land (Z.shiftr c 16) 255; Z.land (Z.shiftr c 24) 255].

(** A mode of four bytes per pixel without padding, on a screen at [base]. *)
Record true_color (base : Z) (mode : mode_info_block) : Prop := {
  tc_bpp : bpp mode = 32;
  tc_pitch : pitch mode = 4 * Xres mode;
  tc_x : 0 < Xres mode < 2 ^ 14;
  tc_y : 0 < Yres mode < 2 ^ 14;
  tc_base : 0 <= base /\ base + 4 * (Xres mode * Yres mode) <= 2 ^ 32
}.

(** The four bytes of the pixel at column [x] of row [y]. *)
Definition pixel (base : Z) (mode : mode_info_block) (m : memory) (x y : Z) : list Z :=
  let a := base + 4 * (x + y * Xres mode) in [ld m a; ld m (a + 1); ld m (a + 2); ld m (a + 3)].

Definition in_screen (mode : mode_info_block) (x y : Z) : Prop := 0 <= x < Xres mode /\ 0 <= y < Yres mode.

(** The bytes of a screen; two memories that agree on all others. *)
Definition screen_bytes (base : Z) (mode : mode_info_block) (a : Z) : Prop :=
  base <= a < base + 4 * (Xres mode * Yres mode).
Definition same_elsewhere (base : Z) (mode : mode_info_block) (m m' : memory) : Prop :=
  forall a, ~ screen_bytes base mode a -> ld m' a = ld m a.

Lemma s32_small x : 0 <= x < 2 ^ 31 -> s32 x = x.
Proof.
  intros Hx. unfold s32. rewrite u32_small by (unfold in_u32; lia). rewrite (proj2 (Z.ltb_lt _ _)) by lia. reflexivity.
Qed.

Section pixels.
Context (base : Z) (mode : mode_info_block) (TC : true_color base mode).
Let X := Xres mode.
Let Y := Yres mode.

Lemma pixel_index x y : in_screen mode x y -> 0 <= x + y * X <= X * Y - 1.
Proof. intros [Hx Hy]. fold X in Hx. fold Y in Hy. nia. Qed.

Lemma pixel_index_inj x y x' y' :
  in_screen mode x y -> in_screen mode x' y' -> x + y * X = x' + y' * X -> x = x' /\ y = y'.
Proof.
  intros [Hx Hy] [Hx' Hy'] E. fold X in Hx, Hx'.
  assert (y = y') as -> by (destruct (Z.lt_trichotomy y y') as [?|[?|?]]; [nia|assumption|nia]). lia.
Qed.

(** [put_pixel] writes the four bytes of its pixel. *)
Lemma put_pixel_eq x y c m :
  in_screen mode x y ->
  put_pixel base x (bpp mode) y (pitch mode) c m
  = let a := base + 4 * (x + y * X) in
    st (a + 3) (Z.land (Z.shiftr c 24) 255) (st (a + 2) (Z.land (Z.shiftr c 16) 255)
      (st (a + 1) (Z.land (Z.shiftr c 8) 255) (st a (Z.land c 255) m))).
Proof.
  intros Hxy. pose proof (pixel_index x y Hxy) as Hi. destruct TC as [T1 T2 T3 T4 T5]. destruct Hxy as [Hx Hy].
  unfold put_pixel. rewrite T1, T2. fold X Y in Hx, Hy, T3, T4, T5. fold X. rewrite !s32_small by lia.
  replace (Z.quot (x * 32) 8) with (4 * x) by (replace (x * 32) with (4 * x * 8) by lia; symmetry; apply Z.quot_mul; lia).
  assert (0 <= y * (4 * X) <= 4 * (X * Y) - 4 * X) as Hyx by nia.
  rewrite (u32_small (4 * x + _)) by (unfold in_u32; lia). cbv zeta.
  rewrite !u32_small by (unfold in_u32; lia). rewrite !ptr_at_small by lia.
  replace (base + (4 * x + y * (4 * X))) with (base + 4 * (x + y * X)) by lia.
  replace (base + (4 * x + y * (4 * X) + 1)) with (base + 4 * (x + y * X) + 1) by lia.
  replace (base + (4 * x + y * (4 * X) + 2)) with (base + 4 * (x + y * X) + 2) by lia.
  replace (base + (4 * x + y * (4 * X) + 3)) with (base + 4 * (x + y * X) + 3) by lia. reflexivity.
Qed.

Lemma put_pixel_ld x y c m b :
  in_screen mode x y ->
  let a := base + 4 * (x + y * X) in
  ld (put_pixel base x (bpp mode) y (pitch mode) c m) b
  = if decide (a <= b < a + 4) then color_bytes c !!! Z.to_nat (b - a) else ld m b.
Proof.
  intros Hxy. cbv zeta. rewrite put_pixel_eq by exact Hxy. cbv zeta. set (a := base + 4 * (x + y * X)). rewrite !ld_st.
  destruct (decide (a <= b < a + 4)) as [Hb|Hb].
  - assert (b = a \/ b = a + 1 \/ b = a + 2 \/ b = a + 3) as [->|[->|[-> | ->]]] by lia;
      repeat (case_decide; [try lia|]); try lia;
      match goal with |- _ = _ !!! Z.to_nat ?d => ring_simplify d end; reflexivity.
  - repeat (case_decide; [lia|]). reflexivity.
Qed.

Lemma put_pixel_same x y c m : in_screen mode x y -> same_elsewhere base mode m (put_pixel base x (bpp mode) y (pitch mode) c m).
Proof.
  intros Hxy a Ha. pose proof (pixel_index x y Hxy) as Hi. rewrite put_pixel_ld by exact Hxy. cbv zeta.
  rewrite decide_False; [reflexivity|]. intros Hb. apply Ha. unfold screen_bytes. fold X Y. lia.
Qed.

(** The pixel that is written, and the others. *)
Lemma put_pixel_pixel x y c m x' y' :
  in_screen mode x y -> in_screen mode x' y' ->
  pixel base mode (put_pixel base x (bpp mode) y (pitch mode) c m) x' y'
  = if decide (x' = x /\ y' = y) then color_bytes c else pixel base mode m x' y'.
Proof.
  intros Hxy Hxy'. unfold pixel. fold X. rewrite !put_pixel_ld by exact Hxy. cbv zeta.
  destruct (decide (x' = x /\ y' = y)) as [[-> ->]|Hne].
  - rewrite !decide_True by lia.
    replace (base + 4 * (x + y * X) + 1 - (base + 4 * (x + y * X))) with 1 by lia.
    replace (base + 4 * (x + y * X) + 2 - (base + 4 * (x + y * X))) with 2 by lia.
    replace (base + 4 * (x + y * X) + 3 - (base + 4 * (x + y * X))) with 3 by lia.
    replace (base + 4 * (x + y * X) - (base + 4 * (x + y * X))) with 0 by lia. reflexivity.
  - assert (x' + y' * X <> x + y * X) as Hi by (intros E; apply Hne; apply (pixel_index_inj x' y' x y Hxy' Hxy E)).
    rewrite !decide_False by lia. reflexivity.
Qed.

(** Bytes elsewhere do not matter. *)
Lemma pixel_ext m m' x y :
  in_screen mode x y -> (forall a, screen_bytes base mode a -> ld m' a = ld m a) -> pixel base mode m' x y = pixel base mode m x y.
Proof.
  intros Hxy Hm. pose proof (pixel_index x y Hxy) as Hi. unfold pixel. fold X.
  rewrite !Hm by (unfold screen_bytes; fold X Y; lia). reflexivity.
Qed.
End pixels.

(** ** Painting

    A loop over rows and columns that gives every cell of a rectangle its value;
    [R s f] says that the state [s] shows the cells [f].  The body may look at the
    state its row began with. *)

Section paint.
Context {S A : Type} (R : S -> (Z -> Z -> A) -> Prop)
  (R_ext : forall s f g, (forall u v, g u v = f u v) -> R s f -> R s g).

Definition within (a n u : Z) : bool := (a <=? u) && (u <? a + n).

Lemma within_in a n u : a <= u < a + n -> within a n u = true.
Proof. intros Hu. unfold within. apply andb_true_iff. rewrite Z.leb_le, Z.ltb_lt. lia. Qed.

Lemma within_out a n u : u < a \/ a + n <= u -> within a n u = false.
Proof. intros Hu. unfold within. apply andb_false_iff. rewrite Z.leb_gt, Z.ltb_ge. lia. Qed.

Lemma within_S a k u : within a (k + 1) u = (u =? a + k) || within a k u \/ k < 0.
Proof. destruct (Z.lt_ge_cases k 0); [right; assumption|left]. unfold within. case_bools; simpl; lia. Qed.

Lemma paint_rect (na nb : nat) a0 b0 body (col : Z -> Z -> A) s f :
  (forall a b s0 f0 s f, 0 <= a < Z.of_nat na -> 0 <= b < Z.of_nat nb -> R s0 f0 -> R s f ->
     R (body a s0 b s) (fun u v => if (u =? a0 + a) && (v =? b0 + b) then col u v else f u v)) ->
  R s f ->
  R (for_loop na 0 (fun a s => for_loop nb 0 (body a s) s) s)
    (fun u v => if within a0 (Z.of_nat na) u && within b0 (Z.of_nat nb) v then col u v else f u v).
Proof.
  intros Hb H0.
  pose proof (for_loop_ind (fun k s' => R s' (fun u v => if within a0 k u && within b0 (Z.of_nat nb) v then col u v else f u v))
    na 0 (fun a s => for_loop nb 0 (body a s) s) s) as L.
  rewrite Z.add_0_l in L. apply L; clear L.
  - revert H0. apply R_ext. intros u v. unfold within. case_bools; simpl; try lia; reflexivity.
  - intros k s1 Hk H1.
    pose proof (for_loop_ind (fun j s' => R s' (fun u v => if (u =? a0 + k) && within b0 j v then col u v
      else if within a0 k u && within b0 (Z.of_nat nb) v then col u v else f u v)) nb 0 (body k s1) s1) as L.
    rewrite Z.add_0_l in L. refine (R_ext _ _ _ _ (L _ _)); clear L.
    + intros u v. destruct (within_S a0 k u) as [->|]; [|lia]. destruct (u =? a0 + k), (within a0 k u), (within b0 _ v); reflexivity.
    + revert H1. apply R_ext. intros u v. unfold within. case_bools; simpl; try lia; reflexivity.
    + intros j s2 Hj H2. refine (R_ext _ _ _ _ (Hb k j s1 _ s2 _ _ _ H1 H2)); [|lia|lia].
      intros u v. destruct (within_S b0 j v) as [->|]; [|lia]. destruct (u =? a0 + k), (v =? b0 + j); reflexivity.
Qed.
End paint.

(** ** The screen and its buffer *)

Definition size_of (mode : mode_info_block) : Z := 4 * (Xres mode * Yres mode).

Definition all_pixels (base : Z) (mode : mode_info_block) (m : memory) (c : Z) : Prop :=
  forall x y, in_screen mode x y -> pixel base mode m x y = color_bytes c.

Definition apart (mode : mode_info_block) (a b : Z) : Prop := a + size_of mode <= b \/ b + size_of mode <= a.

Lemma apart_bytes mode a b z : apart mode a b -> screen_bytes a mode z -> ~ screen_bytes b mode z.
Proof. unfold apart, screen_bytes, size_of. lia. Qed.

Lemma apart_sym mode a b : apart mode a b -> apart mode b a.
Proof. unfold apart. tauto. Qed.

(** A pixel of one screen leaves the other as it is. *)
Lemma put_pixel_apart base other mode x y c m x' y' :
  true_color base mode -> apart mode base other -> in_screen mode x y -> in_screen mode x' y' ->
  pixel other mode (put_pixel base x (bpp mode) y (pitch mode) c m) x' y' = pixel other mode m x' y'.
Proof.
  intros TC Ha Hxy Hxy'. apply pixel_ext; [exact Hxy'|]. intros z Hz. apply (put_pixel_same base mode TC x y c m Hxy).
  apply (apart_bytes mode other base); [apply apart_sym, Ha|exact Hz].
Qed.

Lemma clear_screens_white mode screen buffer m :
  true_color screen mode -> true_color buffer mode -> apart mode screen buffer ->
  let m' := clear_screens mode screen buffer m in
  all_pixels screen mode m' 0xffffff /\ all_pixels buffer mode m' 0xffffff
  /\ forall a, ~ screen_bytes screen mode a -> ~ screen_bytes buffer mode a -> ld m' a = ld m a.
Proof.
  intros T1 T2 Hap. cbv zeta. unfold clear_screens.
  set (R := fun (m' : memory) (f : Z -> Z -> bool) =>
    (forall x y, in_screen mode x y -> f x y = true ->
       pixel screen mode m' x y = color_bytes 0xffffff /\ pixel buffer mode m' x y = color_bytes 0xffffff)
    /\ forall a, ~ screen_bytes screen mode a -> ~ screen_bytes buffer mode a -> ld m' a = ld m a).
  pose proof (paint_rect R) as P.
  specialize (P ltac:(unfold R; intros s f g E [H1 H2]; split; [intros x y Hxy Hg; apply H1; [exact Hxy|rewrite <- E; exact Hg]|exact H2])).
  specialize (P (Z.to_nat (Xres mode)) (Z.to_nat (Yres mode)) 0 0
    (fun i _ j m => put_pixel buffer i (bpp mode) j (pitch mode) 0xffffff (put_pixel screen i (bpp mode) j (pitch mode) 0xffffff m))
    (fun _ _ => true) m (fun _ _ => false)).
  pose proof (tc_x _ _ T1) as HX. pose proof (tc_y _ _ T1) as HY. rewrite !Z2Nat.id in P by lia.
  match type of P with ?A -> ?B -> R ?l _ => assert (A /\ B) as [PA PB] end.
  - split; [|split; [intros; discriminate|reflexivity]].
    intros i j m0 f0 m1 f Hi Hj _ [R1 R2]. assert (in_screen mode i j) as Hij by (split; lia). split.
    + intros x y Hxy Hc. rewrite put_pixel_pixel by assumption.
      rewrite (put_pixel_apart buffer screen) by (try assumption; apply apart_sym, Hap).
      rewrite put_pixel_pixel by assumption.
      rewrite (put_pixel_apart screen buffer) by assumption.
      destruct (decide (x = i /\ y = j)) as [|Hn]; [split; reflexivity|]. apply R1; [exact Hxy|].
      rewrite <- Hc. case_bools; simpl; try reflexivity. exfalso. apply Hn. lia.
    + intros a H1 H2. rewrite (put_pixel_same buffer mode T2 i j _ _ Hij a H2).
      rewrite (put_pixel_same screen mode T1 i j _ _ Hij a H1). apply R2; assumption.
  - destruct (P PA PB) as [R1 R2]; clear P PA PB. change (R _ (fun x y => true)) in R1 || idtac.
    split; [|split; [|exact R2]]; intros x y Hxy; apply (R1 x y Hxy);
      unfold within; destruct Hxy; case_bools; simpl; lia || reflexivity.
Qed.

Section init.
Context {W : Type} `{Heap W} `{Paging W}.
Implicit Types v : video W.

(** Whole pages of true colour, apart from the buffer, and a heap that serves
    the buffer and the timer. *)
Record vbe_room (mode : mode_info_block) (pgd_k buffer timer : Z) (ts : list Z) v (w1 w2 w3 : W) : Prop := {
  room_screen : true_color (physbase mode) mode;
  room_buffer : true_color buffer mode;
  room_apart : apart mode (physbase mode) buffer;
  room_pages : size_of mode mod Vmm.PAGE_SIZE = 0;
  room_kmalloc : h_kmalloc (size_of mode) (Timer.world (timers v)) = Some (buffer, w1);
  room_map : map_screen pgd_k (physbase mode) (size_of mode / Vmm.PAGE_SIZE) w1 = Some w2;
  room_timer : h_kmalloc Timer.SIZEOF_TIMER w2 = Some (timer, w3);
  room_new : timer <> 0 /\ timer ∉ ts;
  room_chain : Timer.timer_chain (timers v) ts
}.

Lemma area_bounds x y : 0 < x < 2 ^ 14 -> 0 < y < 2 ^ 14 -> 0 < x * y < 2 ^ 28.
Proof.
  intros Hx Hy. split; [apply Z.mul_pos_pos; lia|]. change (2 ^ 28) with (2 ^ 14 * 2 ^ 14).
  apply Z.mul_lt_mono_nonneg; lia.
Qed.

Lemma screen_pages_eq base mode : true_color base mode -> screen_pages mode = size_of mode / Vmm.PAGE_SIZE.
Proof.
  intros [T1 _ T2 T3 _]. unfold screen_pages. rewrite T1. change (KMath.next_power_of_2 32) with 32.
  pose proof (area_bounds _ _ T2 T3) as Hxy.
  rewrite (u32_small (Xres mode * Yres mode)) by (unfold in_u32; lia). change (32 / 8) with 4. rewrite u32_small by (unfold in_u32; lia).
  unfold size_of. f_equal. lia.
Qed.

(** [init_vbe] in a true-colour mode whose screen is whole pages clears the
    screen and its buffer to white without touching any other byte, records both,
    and leaves one new timer, first in the list, that calls [swap_buffer] every 16
    ticks. *)
Lemma init_vbe_white mode pgd_k swap_addr buffer timer ts v w1 w2 w3 :
  vbe_room mode pgd_k buffer timer ts v w1 w2 w3 ->
  exists v', init_vbe mode pgd_k swap_addr v = Some v'
    /\ vram v' = physbase mode /\ vbe_buffer v' = buffer /\ vram_size v' = size_of mode
    /\ all_pixels (vram v') mode (pixels v') 0xffffff
    /\ all_pixels (vbe_buffer v') mode (pixels v') 0xffffff
    /\ (forall a, ~ screen_bytes (vram v') mode a -> ~ screen_bytes (vbe_buffer v') mode a ->
          ld (pixels v') a = ld (pixels v) a)
    /\ Timer.world (timers v') = w3
    /\ Timer.timer_chain (timers v') (timer :: ts)
    /\ Timer.callback_func (Timer.timer (timers v') timer) = swap_addr
    /\ Timer.interval (Timer.timer (timers v') timer) = 16
    /\ Timer.elapse (Timer.timer (timers v') timer) = 16
    /\ (forall a, a <> timer -> Timer.timer (timers v') a = Timer.timer (timers v) a).
Proof.
  intros [R1 R2 R3 R4 R5 R6 R7 [R8 R9] R10].
  destruct (Timer.new_timer_ok (Timer.set_world w2 (timers v)) swap_addr 60 timer w3 ts) as (s' & E1 & E2 & E3 & E4 & _ & E5);
    [exact R10|exact R7|exact R8|exact R9|split; discriminate|].
  destruct (clear_screens_white mode (physbase mode) buffer (pixels v) R1 R2 R3) as (C1 & C2 & C3).
  unfold init_vbe. cbv zeta. rewrite (screen_pages_eq _ _ R1).
  pose proof (tc_base _ _ R1) as Hb. pose proof (tc_x _ _ R1) as HX. pose proof (tc_y _ _ R1) as HY.
  assert (0 < size_of mode < 2 ^ 30) as Hs by (pose proof (area_bounds _ _ HX HY); unfold size_of; lia).
  assert (size_of mode / Vmm.PAGE_SIZE * Vmm.PAGE_SIZE = size_of mode) as ->.
  { rewrite Z.mul_comm. symmetry. apply Z.div_exact; [discriminate|exact R4]. }
  rewrite u32_small by (unfold in_u32; lia).
  rewrite R5. cbn [mbind option_bind]. rewrite R6. cbn [mbind option_bind]. rewrite E1. cbn [mbind option_bind].
  eexists. split; [reflexivity|]. cbn [vram vbe_buffer vram_size pixels timers].
  rewrite E4. cbn [Timer.callback_func Timer.interval Timer.elapse].
  repeat (split; [first [reflexivity|assumption]|]). exact E5.
Qed.

(** After a tick of its timer the screen shows what the buffer shows. *)
Lemma swap_buffer_shows mode v x y :
  true_color (vram v) mode -> true_color (vbe_buffer v) mode -> apart mode (vram v) (vbe_buffer v) ->
  vram_size v = size_of mode -> in_screen mode x y ->
  pixel (vram v) mode (pixels (swap_buffer v)) x y = pixel (vbe_buffer v) mode (pixels v) x y.
Proof.
  intros T1 T2 Ha Hs Hxy. unfold swap_buffer. cbn [pixels].
  destruct (tc_base _ _ T1) as [B1 B2]. destruct (tc_base _ _ T2) as [B3 B4].
  destruct (copy_up_spec (vram v) (vbe_buffer v) (vram_size v) (pixels v)) as [F _];
    [lia|lia|rewrite Hs; exact B2|rewrite Hs; exact B4|unfold apart in Ha; lia|].
  pose proof (pixel_index mode x y Hxy) as Hi. unfold pixel.
  rewrite <- !Z.add_assoc, !F by (rewrite Hs; unfold size_of; lia). reflexivity.
Qed.
End init.

(** ** An instance: the kernel's own heap and page tables *)

#[export] Instance machine_paging : Paging machine := {| p_map := machine_map |}.

(** A screen of 64 by 16 pixels, one page. *)
Definition small_mode : mode_info_block := ModeInfo 256 64 16 32 0xFD000000.
Definition boot_video : video machine :=
  Video ∅ 0 0 0 (Timer.Timers 0 ∅ (Machine ∅ 0 KmmProps.kmm0)).

Lemma machine_serves :
  match h_kmalloc 4096 (Timer.world (timers boot_video)) with
  | Some (b, w1) =>
    (0xC0000000 <=? b) && (b + 4096 <=? 0xFD000000)
    && match map_screen VmmPmm.PD 0xFD000000 1 w1 with
       | Some w2 => match h_kmalloc Timer.SIZEOF_TIMER w2 with Some (t, _) => negb (t =? 0) | None => false end
       | None => false
       end
  | None => false
  end = true.
Proof. vm_compute. reflexivity. Qed.

Lemma small_true_color base : 0 <= base <= 2 ^ 32 - 4096 -> true_color base small_mode.
Proof. intros Hb. split; try reflexivity; try (split; reflexivity). split; [apply Hb|]. change (4 * (Xres small_mode * Yres small_mode)) with 4096. lia. Qed.

Lemma boot_video_room : exists buffer timer w1 w2 w3, vbe_room small_mode VmmPmm.PD buffer timer [] boot_video w1 w2 w3.
Proof.
  pose proof machine_serves as Hm.
  destruct (h_kmalloc 4096 (Timer.world (timers boot_video))) as [[b w1]|] eqn:E1; [|discriminate Hm].
  destruct (map_screen VmmPmm.PD 0xFD000000 1 w1) as [w2|] eqn:E2; [|rewrite andb_false_r in Hm; discriminate Hm].
  destruct (h_kmalloc Timer.SIZEOF_TIMER w2) as [[t w3]|] eqn:E3; [|rewrite andb_false_r in Hm; discriminate Hm].
  reflect_bools. exists b, t, w1, w2, w3. split; try assumption.
  - apply small_true_color. simpl. lia.
  - apply small_true_color. lia.
  - right. change (size_of small_mode) with 4096. simpl. lia.
  - reflexivity.
  - split; [lia|apply not_elem_of_nil].
  - split; [constructor|reflexivity].
Qed.

Lemma init_vbe_white_witness :
  exists v' t, init_vbe small_mode VmmPmm.PD 7 boot_video = Some v'
    /\ pixel 0xFD000000 small_mode (pixels v') 63 15 = [255; 255; 255; 0]
    /\ Timer.interval (Timer.timer (timers v') t) = 16.
Proof.
  destruct boot_video_room as (b & t & w1 & w2 & w3 & R).
  destruct (init_vbe_white small_mode VmmPmm.PD 7 b t [] boot_video w1 w2 w3 R) as (v' & E & Ev & _ & _ & Hp & _ & _ & _ & _ & _ & Hi & _ & _).
  exists v', t. split; [exact E|]. split; [|exact Hi].
  rewrite Ev in Hp. refine (Hp 63 15 _). split; vm_compute; split; [discriminate|reflexivity|discriminate|reflexivity].
Defined.

(** ** Outside the contract *)

(** At 24 bits per pixel [put_pixel] still writes four bytes (line 54 of vbe.c):
    it clears the first byte of the next pixel. *)
Lemma put_pixel_24_spills :
  let m := put_pixel 0x1000 1 24 0 192 0xffffff ∅ in
  let m := put_pixel 0x1000 0 24 0 192 0xffffff m in
  [ld m 0x1003; ld m 0x1004; ld m 0x1005] = [0; 255; 255].
Proof. vm_compute. reflexivity. Qed.

(** The pages are rounded down (line 28): of an 800 by 600 screen the last 3072
    bytes are neither mapped, nor allocated, nor copied, but they are written. *)
Lemma partial_page_lost :
  let mode := ModeInfo 3200 800 600 32 0xFD000000 in
  size_of mode - screen_pages mode * Vmm.PAGE_SIZE = 3072.
Proof. vm_compute. reflexivity. Qed.
