(* ===== verification/Multiboot.v ===== *)
(** * What the boot loader leaves in memory: kernel/multiboot.h, kernel/vbe.h

    The structures are packed, so each is the sequence of its fields in memory, low
    byte first.  A [codec] says how many bytes a type takes, how a value is laid out
    and how it is read back; structures are codecs of their fields.  The loops over
    the memory map walk from the first entry to the end the loader gave. *)

From S2P Require Import Prelude CString.
From S2P Require Pmm Vbe.

(** ** Packed data *)

Record codec (A : Type) := Codec {
  size : nat;
  encode : A -> list Z;
  decode : (Z -> Z) -> A;
  fits : A -> Prop
}.
Arguments Codec {A}. Arguments size {A}. Arguments encode {A}. Arguments decode {A}. Arguments fits {A}.

(** The bytes [l] are those that [b] gives from offset 0. *)
Definition holds (b : Z -> Z) (l : list Z) : Prop := forall i v, l !! i = Some v -> b (Z.of_nat i) = v.

Class Lawful {A} (c : codec A) : Prop := {
  encode_size : forall x, fits c x -> length (encode c x) = size c;
  decode_encode : forall x b, fits c x -> holds b (encode c x) -> decode c b = x
}.

Definition shifted (n : nat) (b : Z -> Z) : Z -> Z := fun i => b (Z.of_nat n + i).

(** A number of [n] bytes. *)
Fixpoint le_bytes (n : nat) (x : Z) : list Z :=
  match n with
  | O => []
  | S n => x mod 256 :: le_bytes n (x / 256)
  end.
Fixpoint le_value (n : nat) (b : Z -> Z) : Z :=
  match n with
  | O => 0
  | S n => b 0 + 256 * le_value n (shifted 1 b)
  end.
Definition uint (n : nat) : codec Z := Codec n (le_bytes n) (le_value n) (fun x => 0 <= x < 256 ^ Z.of_nat n).

(** Bytes as they are: arrays of characters and unions. *)
Definition raw (n : nat) : codec (list Z) :=
  Codec n id (fun b => (fun i => b (Z.of_nat i)) <$> seq 0 n) (fun l => length l = n).

Definition both {A B} (c : codec A) (d : codec B) : codec (A * B) :=
  Codec (size c + size d) (fun '(x, y) => encode c x ++ encode d y)
    (fun b => (decode c b, decode d (shifted (size c) b))) (fun '(x, y) => fits c x /\ fits d y).

(** A structure, from the tuple of its fields. *)
Definition struct {A B} (c : codec A) (make : A -> B) (fields : B -> A) : codec B :=
  Codec (size c) (fun s => encode c (fields s)) (fun b => make (decode c b)) (fun s => fits c (fields s)).

Declare Scope codec_scope.
Delimit Scope codec_scope with codec.
Infix "⊗" := both (at level 40, left associativity) : codec_scope.

Definition uint8 : codec Z := uint 1.
Definition uint16 : codec Z := uint 2.
Definition uint32 : codec Z := uint 4.
Definition uint64 : codec Z := uint 8.

(** The value at an address, and the bytes there. *)
Definition read_at {A} (c : codec A) (p : Z) (m : memory) : A := decode c (fun i => ld m (ptr_at p i)).
Definition at_bytes (m : memory) (p : Z) (l : list Z) : Prop := forall i v, l !! i = Some v -> ld m (p + Z.of_nat i) = v.

(** ** The laws *)

Lemma holds_app b l l' : holds b (l ++ l') -> holds b l /\ holds (shifted (length l) b) l'.
Proof.
  intros H. split; intros i v E.
  - apply H. rewrite lookup_app_l; [exact E|]. exact (lookup_lt_Some _ _ _ E).
  - unfold shifted. rewrite <- Nat2Z.inj_add. apply H. rewrite lookup_app_r by lia. rewrite <- E. f_equal. lia.
Qed.

#[export] Instance uint_lawful n : Lawful (uint n).
Proof.
  split; unfold uint; cbn [fits encode decode size].
  - intros x _. revert x. induction n as [|n IH]; intros x; simpl; [reflexivity|rewrite IH; reflexivity].
  - induction n as [|n IH]; intros x b Hx Hb.
    + change (256 ^ Z.of_nat 0) with 1 in Hx. simpl. lia.
    + cbn [le_bytes le_value] in *. rewrite Nat2Z.inj_succ, Z.pow_succ_r in Hx by lia.
      change (x mod 256 :: le_bytes n (x / 256)) with ([x mod 256] ++ le_bytes n (x / 256)) in Hb.
      apply holds_app in Hb as [H1 H2]. pose proof (H1 0%nat (x mod 256) eq_refl : b 0 = _) as ->.
      rewrite (IH (x / 256) (shifted 1 b)); [pose proof (Z.div_mod x 256); lia| |exact H2].
      split; [apply Z.div_pos; lia|apply Z.div_lt_upper_bound; lia].
Qed.

#[export] Instance raw_lawful n : Lawful (raw n).
Proof.
  split; unfold raw; cbn [fits encode decode size]; [auto|]. intros l b Hl Hb. apply list_eq. intros i.
  rewrite list_lookup_fmap. destruct (decide (i < n)%nat) as [Hi|Hi].
  - rewrite lookup_seq_lt by exact Hi. simpl. destruct (lookup_lt_is_Some_2 l i) as [v E]; [lia|].
    unfold id in Hb. rewrite (Hb i v E). symmetry. exact E.
  - rewrite lookup_seq_ge by lia. simpl. symmetry. apply lookup_ge_None. lia.
Qed.

#[export] Instance both_lawful {A B} (c : codec A) (d : codec B) : Lawful c -> Lawful d -> Lawful (both c d).
Proof.
  intros C D. split; intros [x y]; cbn [fits encode decode size both].
  - intros [Hx Hy]. rewrite length_app, (encode_size x Hx), (encode_size y Hy). reflexivity.
  - intros b [Hx Hy] Hb. apply holds_app in Hb as [H1 H2]. rewrite (encode_size x Hx) in H2.
    rewrite (decode_encode x b Hx H1), (decode_encode y _ Hy H2). reflexivity.
Qed.

Lemma struct_lawful {A B} (c : codec A) (make : A -> B) (fields : B -> A) :
  Lawful c -> (forall s, make (fields s) = s) -> Lawful (struct c make fields).
Proof.
  intros C Hm. split; cbn [fits encode decode size struct].
  - intros s Hs. apply encode_size, Hs.
  - intros s b Hs Hb. rewrite (decode_encode _ b Hs Hb). apply Hm.
Qed.

(** What is laid out inside the address space is read back. *)
Lemma read_at_bytes {A} (c : codec A) (p : Z) (m : memory) (x : A) `{!Lawful c} :
  fits c x -> at_bytes m p (encode c x) -> 0 <= p -> p + Z.of_nat (size c) <= 2 ^ 32 -> read_at c p m = x.
Proof.
  intros Hx Hm H0 H1. apply decode_encode; [exact Hx|]. intros i v E. pose proof (lookup_lt_Some _ _ _ E) as Hi.
  rewrite (encode_size x Hx) in Hi. rewrite ptr_at_small by lia. apply Hm, E.
Qed.

Lemma at_bytes_app m p l l' : at_bytes m p (l ++ l') <-> at_bytes m p l /\ at_bytes m (p + Z.of_nat (length l)) l'.
Proof.
  split.
  - intros H. split; intros i v E.
    + apply H. rewrite lookup_app_l; [exact E|]. exact (lookup_lt_Some _ _ _ E).
    + replace (p + Z.of_nat (length l) + Z.of_nat i) with (p + Z.of_nat (length l + i)) by lia.
      apply H. rewrite lookup_app_r by lia. rewrite <- E. f_equal. lia.
  - intros [H1 H2] i v E. apply lookup_app_Some in E as [E|[Hi E]]; [apply H1, E|].
    rewrite <- (H2 _ _ E). f_equal. lia.
Qed.

Lemma at_bytes_ext m m' p l : (forall a, p <= a < p + Z.of_nat (length l) -> ld m' a = ld m a) -> at_bytes m p l -> at_bytes m' p l.
Proof. intros Hm H i v E. pose proof (lookup_lt_Some _ _ _ E). rewrite Hm by lia. apply H, E. Qed.

(** ** multiboot.h *)

(** The fields of a structure, in the order of the source. *)
Record multiboot_aout_symbol_table_t := AoutSymbolTable { tabsize : Z; strsize : Z; aout_addr : Z; aout_reserved : Z }.
Record multiboot_elf_section_header_table_t := ElfSectionHeaderTable { elf_num : Z; elf_size : Z; elf_addr : Z; shndx : Z }.

(** The two views of the last union. *)
Record framebuffer_palette := Palette { framebuffer_palette_addr : Z; framebuffer_palette_num_colors : Z }.
Record framebuffer_rgb := Rgb {
  framebuffer_red_field_position : Z; framebuffer_red_mask_size : Z;
  framebuffer_green_field_position : Z; framebuffer_green_mask_size : Z;
  framebuffer_blue_field_position : Z; framebuffer_blue_mask_size : Z
}.

(** The unions are kept as their bytes. *)
Record multiboot_t := MultibootInfo {
  flags : Z;
  mem_lower : Z; mem_upper : Z;
  boot_device : Z; cmdline : Z;
  mods_count : Z; mods_addr : Z;
  u : list Z;
  mmap_length : Z; mmap_addr : Z;
  drives_length : Z; drives_addr : Z;
  config_table : Z; boot_loader_name : Z; apm_table : Z;
  vbe_control_info : Z; vbe_mode_info : Z; vbe_mode : Z;
  vbe_interface_seg : Z; vbe_interface_off : Z; vbe_interface_len : Z;
  framebuffer_addr : Z; framebuffer_pitch : Z; framebuffer_width : Z; framebuffer_height : Z;
  framebuffer_bpp : Z; framebuffer_type : Z;
  color_info : list Z
}.

(** An entry of the memory map, whose first word is the size of the rest. *)
Record mmap_entry := Entry { entry_size : Z; entry : Pmm.mmap_entry_t }.

Section structures.
#[local] Open Scope codec_scope.

Definition words4 : codec (Z * Z * Z * Z) := uint32 ⊗ uint32 ⊗ uint32 ⊗ uint32.

Definition aout_codec : codec multiboot_aout_symbol_table_t :=
  struct words4 (fun '(a, b, c, d) => AoutSymbolTable a b c d) (fun s => (tabsize s, strsize s, aout_addr s, aout_reserved s)).
Definition elf_codec : codec multiboot_elf_section_header_table_t :=
  struct words4 (fun '(a, b, c, d) => ElfSectionHeaderTable a b c d) (fun s => (elf_num s, elf_size s, elf_addr s, shndx s)).
Definition palette_codec : codec framebuffer_palette :=
  struct (uint32 ⊗ uint16) (fun '(a, b) => Palette a b) (fun s => (framebuffer_palette_addr s, framebuffer_palette_num_colors s)).
Definition rgb_codec : codec framebuffer_rgb :=
  struct (uint8 ⊗ uint8 ⊗ uint8 ⊗ uint8 ⊗ uint8 ⊗ uint8) (fun '(a, b, c, d, e, f) => Rgb a b c d e f)
    (fun s => (framebuffer_red_field_position s, framebuffer_red_mask_size s, framebuffer_green_field_position s,
               framebuffer_green_mask_size s, framebuffer_blue_field_position s, framebuffer_blue_mask_size s)).

(** A member of a union reads the bytes of the union. *)
Definition member {A} (c : codec A) (l : list Z) : A := decode c (fun i => nth (Z.to_nat i) l 0).
Definition aout_sym (mb : multiboot_t) : multiboot_aout_symbol_table_t := member aout_codec (u mb).
Definition elf_sec (mb : multiboot_t) : multiboot_elf_section_header_table_t := member elf_codec (u mb).
Definition palette (mb : multiboot_t) : framebuffer_palette := member palette_codec (color_info mb).
Definition rgb (mb : multiboot_t) : framebuffer_rgb := member rgb_codec (color_info mb).

Definition multiboot_codec : codec multiboot_t :=
  struct
    (uint32 ⊗ (uint32 ⊗ uint32) ⊗ (uint32 ⊗ uint32) ⊗ (uint32 ⊗ uint32) ⊗ raw 16
     ⊗ (uint32 ⊗ uint32) ⊗ (uint32 ⊗ uint32) ⊗ (uint32 ⊗ uint32 ⊗ uint32)
     ⊗ (uint32 ⊗ uint32 ⊗ uint32 ⊗ uint32 ⊗ uint32 ⊗ uint32)
     ⊗ (uint64 ⊗ uint32 ⊗ uint32 ⊗ uint32 ⊗ uint8 ⊗ uint8) ⊗ raw 6)
    (fun '(fl, (ml, mu), (bd, cl), (mc, ma), un, (len, addr), (dl, da), (ct, bn, at'), (ci, mi, mo, seg, off, il), (fa, fp, fw, fh, fb, ft), co) =>
       MultibootInfo fl ml mu bd cl mc ma un len addr dl da ct bn at' ci mi mo seg off il fa fp fw fh fb ft co)
    (fun s => (flags s, (mem_lower s, mem_upper s), (boot_device s, cmdline s), (mods_count s, mods_addr s), u s,
               (mmap_length s, mmap_addr s), (drives_length s, drives_addr s), (config_table s, boot_loader_name s, apm_table s),
               (vbe_control_info s, vbe_mode_info s, vbe_mode s, vbe_interface_seg s, vbe_interface_off s, vbe_interface_len s),
               (framebuffer_addr s, framebuffer_pitch s, framebuffer_width s, framebuffer_height s, framebuffer_bpp s, framebuffer_type s),
               color_info s)).

Definition mmap_entry_codec : codec mmap_entry :=
  struct (uint32 ⊗ uint32 ⊗ uint32 ⊗ uint32 ⊗ uint32 ⊗ uint32)
    (fun '(n, bl, bh, ll, lh, ty) => Entry n (Pmm.MmapEntry bl bh ll lh ty))
    (fun s => (entry_size s, Pmm.base_addr_low (entry s), Pmm.base_addr_high (entry s),
               Pmm.length_low (entry s), Pmm.length_high (entry s), Pmm.mmap_type (entry s))).
End structures.

(** ** vbe.h *)

Record vbe_info_block_t := VbeInfoBlock {
  VbeSignature : list Z;
  VbeVersion : Z;
  OemStringPtr : Z * Z;
  Capabilities : list Z;
  VideoModePtr : Z * Z;
  TotalMemory : Z
}.

Record mode_info_block_t := ModeInfoBlock {
  attributes : Z;
  winA : Z; winB : Z;
  granularity : Z; winsize : Z;
  segmentA : Z; segmentB : Z;
  win_func : Z;
  pitch : Z; Xres : Z; Yres : Z;
  Wchar : Z; Ychar : Z; planes : Z; bpp : Z; banks : Z;
  memory_model : Z; bank_size : Z; image_pages : Z; reserved0 : Z;
  red_mask : Z; red_position : Z; green_mask : Z; green_position : Z;
  blue_mask : Z; blue_position : Z; rsv_mask : Z; rsv_position : Z;
  directcolor_attributes : Z;
  physbase : Z;
  reserved1 : Z; reserved2 : Z
}.

Section vbe.
#[local] Open Scope codec_scope.

Definition vbe_info_codec : codec vbe_info_block_t :=
  struct (raw 4 ⊗ uint16 ⊗ (uint16 ⊗ uint16) ⊗ raw 4 ⊗ (uint16 ⊗ uint16) ⊗ uint16)
    (fun '(sg, ve, oem, ca, vm, tm) => VbeInfoBlock sg ve oem ca vm tm)
    (fun s => (VbeSignature s, VbeVersion s, OemStringPtr s, Capabilities s, VideoModePtr s, TotalMemory s)).

Definition mode_info_codec : codec mode_info_block_t :=
  struct
    (uint16 ⊗ (uint8 ⊗ uint8) ⊗ (uint16 ⊗ uint16) ⊗ (uint16 ⊗ uint16) ⊗ uint32
     ⊗ (uint16 ⊗ uint16 ⊗ uint16) ⊗ (uint8 ⊗ uint8 ⊗ uint8 ⊗ uint8 ⊗ uint8)
     ⊗ (uint8 ⊗ uint8 ⊗ uint8 ⊗ uint8)
     ⊗ (uint8 ⊗ uint8 ⊗ uint8 ⊗ uint8) ⊗ (uint8 ⊗ uint8 ⊗ uint8 ⊗ uint8) ⊗ uint8
     ⊗ (uint32 ⊗ uint32 ⊗ uint16))
    (fun '(at', (wa, wb), (gr, ws), (sa, sb), wf, (pi, xr, yr), (wc, yc, pl, bp, bk), (mm, bs, ip, r0),
           (rm, rp, gm, gp), (bm, bpos, sm, sp), dc, (pb, r1, r2)) =>
       ModeInfoBlock at' wa wb gr ws sa sb wf pi xr yr wc yc pl bp bk mm bs ip r0 rm rp gm gp bm bpos sm sp dc pb r1 r2)
    (fun s => (attributes s, (winA s, winB s), (granularity s, winsize s), (segmentA s, segmentB s), win_func s,
               (pitch s, Xres s, Yres s), (Wchar s, Ychar s, planes s, bpp s, banks s),
               (memory_model s, bank_size s, image_pages s, reserved0 s),
               (red_mask s, red_position s, green_mask s, green_position s), (blue_mask s, blue_position s, rsv_mask s, rsv_position s),
               directcolor_attributes s, (physbase s, reserved1 s, reserved2 s))).
End vbe.

(** The fields that vbe.c and terminal.c read. *)
Definition mode_of (s : mode_info_block_t) : Vbe.mode_info_block := Vbe.ModeInfo (pitch s) (Xres s) (Yres s) (bpp s) (physbase s).

#[export] Instance aout_lawful : Lawful aout_codec.
Proof. apply struct_lawful; [apply _|intros []; reflexivity]. Qed.
#[export] Instance elf_lawful : Lawful elf_codec.
Proof. apply struct_lawful; [apply _|intros []; reflexivity]. Qed.
#[export] Instance palette_lawful : Lawful palette_codec.
Proof. apply struct_lawful; [apply _|intros []; reflexivity]. Qed.
#[export] Instance rgb_lawful : Lawful rgb_codec.
Proof. apply struct_lawful; [apply _|intros []; reflexivity]. Qed.
#[export] Instance multiboot_lawful : Lawful multiboot_codec.
Proof. apply struct_lawful; [apply _|intros []; reflexivity]. Qed.
#[export] Instance mmap_entry_lawful : Lawful mmap_entry_codec.
Proof. apply struct_lawful; [apply _|intros [n []]; reflexivity]. Qed.
#[export] Instance vbe_info_lawful : Lawful vbe_info_codec.
Proof. apply struct_lawful; [apply _|intros []; reflexivity]. Qed.
#[export] Instance mode_info_lawful : Lawful mode_info_codec.
Proof. apply struct_lawful; [apply _|intros []; reflexivity]. Qed.

(** ** The loops over the memory map *)

Definition SIZEOF_MMAP_ENTRY : Z := Z.of_nat (size mmap_entry_codec).

(** The structure behind [global_multiboot_ptr]. *)
Definition multiboot_at (ptr : Z) (m : memory) : multiboot_t := read_at multiboot_codec ptr m.

(** [for (; mmap < mmap_addr + mmap_length; ++mmap)]: the entries the body sees, in
    their order; [None] when the loop takes more than [fuel] turns. *)
Definition mmap_entries (fuel : nat) (ptr : Z) (m : memory) : option (list Pmm.mmap_entry_t) :=
  let mb := multiboot_at ptr m in
  let mmap_addr := u32 (mmap_addr mb + Pmm.PAGE_OFFSET) in
  let mmap_length := mmap_length mb in
  '(_, seen) ← while fuel (fun '(mmap, _) => mmap <? u32 (mmap_addr + mmap_length))
    (fun '(mmap, seen) => (ptr_at mmap SIZEOF_MMAP_ENTRY, seen ++ [entry (read_at mmap_entry_codec mmap m)])) (mmap_addr, []);
  Some seen.

(** What [init_vbe] finds behind [vbe_mode_info]. *)
Definition vbe_mode_at (ptr : Z) (m : memory) : Vbe.mode_info_block :=
  let mb := multiboot_at ptr m in
  mode_of (read_at mode_info_codec (u32 (vbe_mode_info mb + Pmm.PAGE_OFFSET)) m).

Example struct_sizes :
  (size multiboot_codec, size mmap_entry_codec, size vbe_info_codec, size mode_info_codec) = (124, 24, 20, 50)%nat.
Proof. reflexivity. Qed.

(** ** Reading what was laid out *)

(** The loader's data below [limit]: the information at [ptr] with the memory map
    [es] and the mode [mi] where it says they are. *)
Record laid_out (m : memory) (limit ptr : Z) (mb : multiboot_t) (es : list mmap_entry) (mi : mode_info_block_t) : Prop := {
  lo_info : at_bytes m ptr (encode multiboot_codec mb) /\ fits multiboot_codec mb;
  lo_map : at_bytes m (mmap_addr mb + Pmm.PAGE_OFFSET) (mjoin (encode mmap_entry_codec <$> es)) /\ Forall (fits mmap_entry_codec) es;
  lo_length : mmap_length mb = SIZEOF_MMAP_ENTRY * Z.of_nat (length es);
  lo_mode : at_bytes m (vbe_mode_info mb + Pmm.PAGE_OFFSET) (encode mode_info_codec mi) /\ fits mode_info_codec mi;
  lo_ptr : 0 <= ptr /\ ptr + Z.of_nat (size multiboot_codec) <= limit;
  lo_limit : mmap_addr mb + Pmm.PAGE_OFFSET + mmap_length mb <= limit
    /\ vbe_mode_info mb + Pmm.PAGE_OFFSET + Z.of_nat (size mode_info_codec) <= limit /\ limit < 2 ^ 32
}.

Lemma mjoin_size {A} (c : codec A) `{!Lawful c} l : Forall (fits c) l -> length (mjoin (encode c <$> l)) = (size c * length l)%nat.
Proof.
  induction 1 as [|x l Hx _ IH]; [simpl; lia|].
  change (mjoin (encode c <$> x :: l)) with (encode c x ++ mjoin (encode c <$> l)).
  rewrite length_app, IH, (encode_size x Hx), length_cons. lia.
Qed.

(** The walk over entries that follow each other. *)
Lemma mmap_walk m es : forall fuel p e seen,
  Forall (fits mmap_entry_codec) es -> at_bytes m p (mjoin (encode mmap_entry_codec <$> es)) ->
  0 <= p -> e = p + SIZEOF_MMAP_ENTRY * Z.of_nat (length es) -> e < 2 ^ 32 -> (length es <= fuel)%nat ->
  while fuel (fun '(mmap, _) => mmap <? e)
    (fun '(mmap, seen) => (ptr_at mmap SIZEOF_MMAP_ENTRY, seen ++ [entry (read_at mmap_entry_codec mmap m)])) (p, seen)
  = Some (e, seen ++ (entry <$> es)).
Proof.
  unfold SIZEOF_MMAP_ENTRY. change (Z.of_nat (size mmap_entry_codec)) with 24.
  induction es as [|x es IH]; intros fuel p e seen Hes Hm Hp Ee He Hf; simpl length in *.
  - rewrite while_false by (apply Z.ltb_ge; lia). rewrite app_nil_r. do 2 f_equal. lia.
  - destruct fuel as [|fuel]; [lia|]. apply Forall_cons in Hes as [Hx Hes]. rewrite fmap_cons in Hm. cbn [mjoin list_join] in Hm.
    apply at_bytes_app in Hm as [H1 H2]. rewrite (encode_size x Hx) in H2. rewrite while_true by (apply Z.ltb_lt; lia).
    rewrite (read_at_bytes _ p m x Hx H1) by (change (Z.of_nat (size mmap_entry_codec)) with 24; lia).
    rewrite ptr_at_small by lia.
    rewrite (IH fuel (p + 24) e (seen ++ [entry x])); [|exact Hes|exact H2|lia..].
    rewrite <- app_assoc. reflexivity.
Qed.

Section laid_out.
Context (m : memory) (limit ptr : Z) (mb : multiboot_t) (es : list mmap_entry) (mi : mode_info_block_t).
Context (L : laid_out m limit ptr mb es mi).

Lemma read_info : multiboot_at ptr m = mb.
Proof. destruct L as [[H1 H2] _ _ _ [P1 P2] (_ & _ & P3)]. apply read_at_bytes; [apply _|assumption..|lia]. Qed.

Lemma info_addresses : 0 <= mmap_addr mb /\ 0 <= vbe_mode_info mb.
Proof. destruct (lo_info _ _ _ _ _ _ L) as [_ F]. cbn in F. unfold uint in F. cbn in F. tauto. Qed.

Lemma read_map fuel : (length es <= fuel)%nat -> mmap_entries fuel ptr m = Some (entry <$> es).
Proof.
  intros Hf. destruct L as [_ [H1 H2] HL _ _ (P1 & _ & P3)]. destruct info_addresses as [A _].
  unfold mmap_entries. rewrite read_info. cbv zeta. unfold Pmm.PAGE_OFFSET in *.
  rewrite (u32_small (mmap_addr mb + _)) by (unfold in_u32; unfold SIZEOF_MMAP_ENTRY in HL; lia).
  rewrite (u32_small (_ + mmap_length mb)) by (unfold in_u32; unfold SIZEOF_MMAP_ENTRY in HL; lia).
  rewrite (mmap_walk m es fuel _ _ []) by (assumption || lia). reflexivity.
Qed.

Lemma read_mode : vbe_mode_at ptr m = mode_of mi.
Proof.
  destruct L as [_ _ _ [H1 H2] _ (_ & P2 & P3)]. destruct info_addresses as [_ A]. unfold vbe_mode_at. rewrite read_info. cbv zeta.
  unfold Pmm.PAGE_OFFSET in *. rewrite u32_small by (unfold in_u32; lia).
  rewrite (read_at_bytes _ _ m mi H2 H1) by lia. reflexivity.
Qed.

(** Stores behind the limit do not matter. *)
Lemma laid_out_ext m' : (forall a, 0 <= a < limit -> ld m' a = ld m a) -> laid_out m' limit ptr mb es mi.
Proof.
  intros Hm. destruct info_addresses as [A1 A2].
  destruct L as [[H1 H2] [H3 H4] HL [H5 H6] [P0 P1] (P2 & P3 & P4)].
  assert (Z.of_nat (length (mjoin (encode mmap_entry_codec <$> es))) = mmap_length mb) as E
    by (rewrite (mjoin_size mmap_entry_codec es H4), HL, Nat2Z.inj_mul; reflexivity).
  unfold Pmm.PAGE_OFFSET in *.
  split; try (repeat split; assumption); try assumption; (split; [|assumption]).
  - apply (at_bytes_ext m); [|exact H1]. rewrite (encode_size mb H2). intros a Ha. apply Hm. lia.
  - apply (at_bytes_ext m); [|exact H3]. rewrite E. intros a Ha. apply Hm. unfold Pmm.PAGE_OFFSET in *. lia.
  - apply (at_bytes_ext m); [|exact H5]. rewrite (encode_size mi H6). intros a Ha. apply Hm. unfold Pmm.PAGE_OFFSET in *. lia.
Qed.
End laid_out.

(** ** Memory with given bytes *)

Fixpoint lay (p : Z) (l : list Z) (m : memory) : memory :=
  match l with
  | [] => m
  | v :: l => st p v (lay (p + 1) l m)
  end.

Lemma at_bytes_list m p l : (fun i => ld m (p + Z.of_nat i)) <$> seq 0 (length l) = l -> at_bytes m p l.
Proof.
  intros E i v Hi. rewrite <- E in Hi. rewrite list_lookup_fmap in Hi. apply fmap_Some in Hi as (j & Hj & ->).
  apply lookup_seq in Hj as [-> _]. reflexivity.
Qed.

(** Entries may say that they are longer than the structure, and the size word is not
    read: behind a first entry of 28 bytes the usable region is not found. *)
Definition long_entry_memory : memory :=
  lay 0xC0009000 (encode multiboot_codec (MultibootInfo 0 0 0 0 0 0 0 (replicate 16 0) 52 0xA000 0 0 0 0 0 0 0xB000 0 0 0 0 0 0 0 0 0 0 (replicate 6 0)))
    (lay 0xC000A000 (encode mmap_entry_codec (Entry 24 (Pmm.MmapEntry 0 0 0x9FC00 0 1)))
      (lay 0xC000A01C (encode mmap_entry_codec (Entry 20 (Pmm.MmapEntry 0x100000 0 0x8000000 0 1))) ∅)).

Lemma long_entries_misread :
  exists es, mmap_entries 3 0xC0009000 long_entry_memory = Some es /\ List.find Pmm.usable_entry es = None.
Proof.
  exists [Pmm.MmapEntry 0 0 0x9FC00 0 1; Pmm.MmapEntry 20 0x100000 0 0x8000000 0; Pmm.MmapEntry 0 0 0 0 0].
  split; vm_compute; reflexivity.
Qed.
