(* ===== verification/GuiTerminal.v ===== *)
(** * kernel/kernel/terminal.c and psf.c: text on the frame buffer

    The terminal draws the glyphs of the font, which lies in the byte store of
    [CString], into the back buffer of [Vbe].  The text it shows is laid out by
    [Layout], whose lemmas carry a character from the page to the pixels. *)

From S2P Require Import Prelude Layout CString Vbe.

(** ** psf.c *)

Definition ld32 (m : memory) (a : Z) : Z :=
  u32 (ld m a + Z.shiftl (ld m (a + 1)) 8 + Z.shiftl (ld m (a + 2)) 16 + Z.shiftl (ld m (a + 3)) 24).

(** Fields of the header at [font]. *)
Definition headersize (m : memory) (font : Z) : Z := ld32 m (font + 8).
Definition bytesperglyph (m : memory) (font : Z) : Z := ld32 m (font + 20).
Definition font_height (m : memory) (font : Z) : Z := ld32 m (font + 24).
Definition font_width (m : memory) (font : Z) : Z := ld32 m (font + 28).

(** [font] and [glyphs], given the address the linker chose for the font file. *)
Definition init_psf (psf_start : Z) (m : memory) : Z * Z :=
  let font := psf_start in (font, u32 (font + headersize m font)).

(** ** terminal.c *)

Record terminal_t := Terminal {
  width : Z; height : Z; posX : Z; posY : Z; charX : Z; charY : Z; rows : Z; cols : Z; bc : Z; fc : Z
}.

Definition set_charX (v : Z) (t : terminal_t) : terminal_t :=
  Terminal (width t) (height t) (posX t) (posY t) (u16 v) (charY t) (rows t) (cols t) (bc t) (fc t).
Definition set_charY (v : Z) (t : terminal_t) : terminal_t :=
  Terminal (width t) (height t) (posX t) (posY t) (charX t) (u16 v) (rows t) (cols t) (bc t) (fc t).

(** [main_terminal] and the memory it draws in. *)
Record gui := Gui { main_terminal : terminal_t; mem : memory }.
Definition set_mem (m : memory) (g : gui) : gui := Gui (main_terminal g) m.
Definition upd_terminal (f : terminal_t -> terminal_t) (g : gui) : gui := Gui (f (main_terminal g)) (mem g).

Section code.
Context (mode : mode_info_block) (vbe_buffer vram_size font glyphs : Z).
Implicit Types g : gui.

Definition init_main_terminal (m : memory) : gui :=
  let char_height := font_height m font in
  let char_width := font_width m font in
  Gui (Terminal (u16 (Xres mode)) (u16 (Yres mode)) 0 0 0 0
         (u16 (u16 (Yres mode) / char_height)) (u16 (u16 (Xres mode) / char_width)) 0x00ffffff 0x00000000) m.

(** The regions of the [memcpy] overlap as soon as two lines of text fit the screen,
    which its [restrict] forbids; the definition follows the loop of memcpy.c. *)
Definition main_terminal_roll g : gui :=
  let t := main_terminal g in
  let line := u32 (u32 (font_height (mem g) font * Xres mode) * 4) in
  let m := memcpy vbe_buffer (u32 (vbe_buffer + line)) (u32 (vram_size - line)) (mem g) in
  set_mem (for_loop (Z.to_nat (font_height (mem g) font)) 0
    (fun y m => let ytmp := u32 (y + height t - font_height m font) in
       for_loop (Z.to_nat (width t)) 0
         (fun x m => put_pixel vbe_buffer x (bpp mode) ytmp (pitch mode) (bc t) m) m) m) g.

Definition main_terminal_newline g : gui :=
  let g := upd_terminal (fun t => set_charY (charY t + 1) t) g in
  let g := if charY (main_terminal g) =? rows (main_terminal g) then
             upd_terminal (fun t => set_charY (rows t - 1) t) (main_terminal_roll g)
           else g in
  upd_terminal (set_charX 0) g.

Definition main_terminal_putchar (ch : Z) g : gui :=
  if ch =? 10 then main_terminal_newline g
  else
    let t := main_terminal g in
    let glyph := u32 (glyphs + u32 (ch * bytesperglyph (mem g) font)) in
    let char_height := font_height (mem g) font in
    let char_width := font_width (mem g) font in
    let pixelX := u32 (charX t * char_width) in
    let pixelY := u32 (charY t * char_height) in
    let m := for_loop (Z.to_nat char_height) 0
      (fun i m => for_loop (Z.to_nat char_width) 0
         (fun j m =>
            let index := u32 (j + u32 (i * char_width)) / 8 in
            let bit_off := u32 (j + u32 (i * char_width)) mod 8 in
            let c := if negb (Z.land (ld m (ptr_at glyph index)) (Z.shiftl 1 (7 - bit_off)) =? 0) then fc t else bc t in
            put_pixel vbe_buffer (u32 (pixelX + j)) (bpp mode) (u32 (pixelY + i)) (pitch mode) c m) m) (mem g) in
    let g := upd_terminal (fun t => set_charX (charX t + 1) t) (set_mem m g) in
    if charX (main_terminal g) =? cols (main_terminal g) then main_terminal_newline g else g.

Definition main_terminal_write (str : list Z) g : gui := foldl (fun g c => main_terminal_putchar c g) g str.
End code.

(** ** Memory outside the buffer *)

Lemma ld32_ext m m' a : (forall k, 0 <= k < 4 -> ld m' (a + k) = ld m (a + k)) -> ld32 m' a = ld32 m a.
Proof. intros E. unfold ld32. pose proof (E 0) as E0. rewrite Z.add_0_r in E0. rewrite E0, !E by lia. reflexivity. Qed.

(** A single bit, as C tests it. *)
Lemma land_bit b n : 0 <= n -> negb (Z.land b (Z.shiftl 1 n) =? 0) = Z.testbit b n.
Proof.
  intros Hn. rewrite Z.shiftl_1_l, (Z.land_comm b). destruct (Z.testbit b n) eqn:E.
  - apply negb_true_iff, Z.eqb_neq. intros H. apply (f_equal (fun z => Z.testbit z n)) in H.
    rewrite Z.land_spec, Z.pow2_bits_true, E, Z.bits_0 in H by exact Hn. discriminate H.
  - apply negb_false_iff, Z.eqb_eq. apply Z.bits_inj'. intros k Hk.
    rewrite Z.land_spec, Z.pow2_bits_eqb, Z.bits_0 by exact Hn. destruct (Z.eqb_spec n k) as [<-|]; [rewrite E|]; reflexivity.
Qed.

(** Cells of one size do not overlap. *)
Lemma apart_cells x y n k : 0 <= k < n -> x <> y -> x * n + k < y * n \/ y * n + n <= x * n + k.
Proof. intros Hk Hne. assert (x < y \/ y < x) as [|] by lia; [left|right]; nia. Qed.

(** A font whose bytes lie outside the back buffer, on a screen of at least one
    character. *)
Record ready (mode : mode_info_block) (vbe_buffer vram_size font glyphs : Z) (m0 : memory) : Prop := {
  rd_screen : true_color vbe_buffer mode;
  rd_size : vram_size = size_of mode /\ vbe_buffer + vram_size < 2 ^ 32;
  rd_height : 0 < font_height m0 font <= Yres mode;
  rd_width : 0 < font_width m0 font <= Xres mode;
  rd_glyph : font_height m0 font * font_width m0 font <= 8 * bytesperglyph m0 font;
  rd_range : 0 <= glyphs /\ glyphs + 128 * bytesperglyph m0 font <= 2 ^ 32;
  rd_font : forall a, font + 20 <= a < font + 32 \/ glyphs <= a < glyphs + 128 * bytesperglyph m0 font ->
    ~ screen_bytes vbe_buffer mode a
}.

Definition WHITE : Z := 0x00ffffff.
Definition BLACK : Z := 0.

Section proofs.
Context (mode : mode_info_block) (vbe_buffer vram_size font glyphs : Z) (m0 : memory)
  (RD : ready mode vbe_buffer vram_size font glyphs m0).
Implicit Types g : gui.
Let X := Xres mode.
Let Y := Yres mode.
Let h := font_height m0 font.
Let w := font_width m0 font.
Let bpg := bytesperglyph m0 font.

Lemma sizes : 0 < X < 2 ^ 14 /\ 0 < Y < 2 ^ 14 /\ 0 < h <= Y /\ 0 < w <= X /\ h * w <= 8 * bpg.
Proof. destruct RD as [[_ _ TX TY _] _ Hh Hw Hg _ _]. unfold X, Y, h, w, bpg. auto. Qed.

(** The header does not change while the screen is drawn. *)
Lemma font_kept m : same_elsewhere vbe_buffer mode m0 m ->
  font_height m font = h /\ font_width m font = w /\ bytesperglyph m font = bpg.
Proof.
  intros Hs. destruct RD as [_ _ _ _ _ _ Hf].
  split; [|split]; apply ld32_ext; intros k Hk; apply Hs, Hf; left; lia.
Qed.

Definition draws (m : memory) (f : Z -> Z -> list Z) : Prop :=
  same_elsewhere vbe_buffer mode m0 m
  /\ forall x y, in_screen mode x y -> pixel vbe_buffer mode m x y = f y x.

Lemma draws_ext m f f' : (forall u v, f' u v = f u v) -> draws m f -> draws m f'.
Proof. intros E [H1 H2]. split; [exact H1|]. intros x y Hxy. rewrite E. apply H2, Hxy. Qed.

Lemma draws_pixel x y c m f :
  in_screen mode x y -> draws m f ->
  draws (put_pixel vbe_buffer x (bpp mode) y (pitch mode) c m)
    (fun u v => if (u =? y) && (v =? x) then color_bytes c else f u v).
Proof.
  intros Hxy [H1 H2]. pose proof (rd_screen _ _ _ _ _ _ RD) as TC. split.
  - intros a Ha. rewrite (put_pixel_same _ _ TC x y c m Hxy a Ha). apply H1, Ha.
  - intros x' y' Hxy'. rewrite (put_pixel_pixel _ _ TC x y c m x' y' Hxy Hxy'), (H2 _ _ Hxy').
    case_bools; case_decide; simpl; try reflexivity; exfalso; lia.
Qed.

(** A rectangle of pixels drawn row by row. *)
Lemma draws_rect (nr nc : nat) x0 y0 body (color : Z -> Z -> Z) m f :
  0 <= x0 -> 0 <= y0 -> x0 + Z.of_nat nc <= X -> y0 + Z.of_nat nr <= Y ->
  (forall i j m1 m, 0 <= i < Z.of_nat nr -> 0 <= j < Z.of_nat nc ->
     same_elsewhere vbe_buffer mode m0 m1 -> same_elsewhere vbe_buffer mode m0 m ->
     body i m1 j m = put_pixel vbe_buffer (x0 + j) (bpp mode) (y0 + i) (pitch mode) (color i j) m) ->
  draws m f ->
  draws (for_loop nr 0 (fun i m => for_loop nc 0 (body i m) m) m)
    (fun u v => if within y0 (Z.of_nat nr) u && within x0 (Z.of_nat nc) v then color_bytes (color (u - y0) (v - x0)) else f u v).
Proof.
  intros Hx Hy Hx2 Hy2 Hb Hd.
  apply (paint_rect draws draws_ext nr nc y0 x0 body (fun u v => color_bytes (color (u - y0) (v - x0)))); [|exact Hd].
  intros i j m1 f1 m2 f2 Hi Hj Hd1 Hd2. rewrite Hb; [|exact Hi|exact Hj|apply Hd1|apply Hd2].
  refine (draws_ext _ _ _ _ (draws_pixel (x0 + j) (y0 + i) (color i j) m2 f2 _ Hd2)).
  - intros u v. destruct (Z.eqb_spec u (y0 + i)) as [->|]; [|reflexivity].
    destruct (Z.eqb_spec v (x0 + j)) as [->|]; [|reflexivity]. simpl. do 2 f_equal; lia.
  - split; fold X Y; lia.
Qed.

(** ** The cells of the terminal *)

Let R := Y / h.
Let C := X / w.

Lemma grid : 1 <= R /\ R * h <= Y /\ 1 <= C /\ C * w <= X /\ R < 2 ^ 14 /\ C < 2 ^ 14.
Proof.
  destruct sizes as (HX & HY & Hh & Hw & _). unfold R, C.
  pose proof (Z.mul_div_le Y h ltac:(lia)). pose proof (Z.mul_div_le X w ltac:(lia)).
  assert (1 <= Y / h) by (apply Z.div_le_lower_bound; lia). assert (1 <= X / w) by (apply Z.div_le_lower_bound; lia).
  assert (Y / h <= Y) by (apply Z.div_le_upper_bound; nia). assert (X / w <= X) by (apply Z.div_le_upper_bound; nia). lia.
Qed.

(** Row [i], column [j] of the glyph of [c]: bits from the left, rows without
    padding. *)
Definition ink (c i j : Z) : bool :=
  Z.testbit (ld m0 (glyphs + c * bpg + (j + i * w) / 8)) (7 - (j + i * w) mod 8).

Definition cell_color (o : option Z) (i j : Z) : Z :=
  match o with Some c => if ink c i j then BLACK else WHITE | None => WHITE end.

(** The rectangle of a cell shows a character, or is blank, on the screen at [base]. *)
Definition drawn (base : Z) (m : memory) (y x : Z) (o : option Z) : Prop :=
  forall i j, 0 <= i < h -> 0 <= j < w ->
    pixel base mode m (x * w + j) (y * h + i) = color_bytes (cell_color o i j).

(** What the terminal keeps: its geometry, the bytes outside the buffer, and the
    blank margin at the right and at the bottom. *)
Record gui_ok g : Prop := {
  go_mem : same_elsewhere vbe_buffer mode m0 (mem g);
  go_width : width (main_terminal g) = X;
  go_height : height (main_terminal g) = Y;
  go_rows : rows (main_terminal g) = R;
  go_cols : cols (main_terminal g) = C;
  go_bc : bc (main_terminal g) = WHITE;
  go_fc : fc (main_terminal g) = BLACK;
  go_margin : forall x y, in_screen mode x y -> R * h <= y \/ C * w <= x ->
    pixel vbe_buffer mode (mem g) x y = color_bytes WHITE
}.

Abbreviation gui_shows := (shows R C (fun g => charY (main_terminal g)) (fun g => charX (main_terminal g))
  (fun g => drawn vbe_buffer (mem g)) gui_ok).

Lemma cell_in_screen y x i j : on_screen R C y x -> 0 <= i < h -> 0 <= j < w -> in_screen mode (x * w + j) (y * h + i).
Proof. intros [Hy Hx] Hi Hj. destruct grid as (_ & ? & _ & ? & _). split; fold X Y; nia. Qed.

(** ** Scrolling *)

Lemma draws_self m : same_elsewhere vbe_buffer mode m0 m -> draws m (fun u v => pixel vbe_buffer mode m v u).
Proof. intros Hs. split; [exact Hs|reflexivity]. Qed.

Lemma roll_draws g :
  gui_ok g ->
  draws (mem (main_terminal_roll mode vbe_buffer vram_size font g))
    (fun u v => if u <? Y - h then pixel vbe_buffer mode (mem g) v (u + h) else color_bytes WHITE).
Proof.
  intros G. destruct sizes as (HX & HY & Hh & Hw & _). pose proof (area_bounds X Y HX HY) as Ha.
  destruct (font_kept (mem g) (go_mem g G)) as (F1 & _ & _).
  pose proof (rd_screen _ _ _ _ _ _ RD) as TC. pose proof (tc_base _ _ TC) as [B1 _].
  destruct (rd_size _ _ _ _ _ _ RD) as [Es B2]. unfold size_of in Es. fold X Y in Es. rewrite Es in B2.
  assert (0 < h * X <= X * Y) as Hhx by nia.
  unfold main_terminal_roll. cbv zeta. cbn [mem set_mem]. rewrite F1, (go_width g G), (go_height g G), (go_bc g G). fold X.
  rewrite (u32_small (h * X)) by (unfold in_u32; lia). rewrite (u32_small (h * X * 4)) by (unfold in_u32; lia).
  rewrite Es.
  rewrite (u32_small (vbe_buffer + _)) by (unfold in_u32; lia). rewrite (u32_small (_ - _)) by (unfold in_u32; lia).
  destruct (copy_up_spec vbe_buffer (vbe_buffer + h * X * 4) (4 * (X * Y) - h * X * 4) (mem g))
    as [M1 M2]; [lia|lia|lia|lia|left; lia|].
  set (m1 := memcpy _ _ _ _) in *.
  assert (same_elsewhere vbe_buffer mode m0 m1) as Hm1.
  { intros a Hs. rewrite M2; [apply (go_mem g G), Hs|]. intros Hin. apply Hs. unfold screen_bytes. fold X Y. lia. }
  match goal with |- draws ?m2 _ => assert (draws m2 (fun u v => if within (Y - h) h u && within 0 X v then color_bytes WHITE else pixel vbe_buffer mode m1 v u)) as [D1 D2] end.
  { pose proof (draws_rect (Z.to_nat h) (Z.to_nat X) 0 (Y - h)
      (fun y m x => put_pixel vbe_buffer x (bpp mode) (u32 (y + Y - font_height m font)) (pitch mode) WHITE) (fun _ _ => WHITE) m1) as D.
    rewrite !Z2Nat.id in D by lia. apply D; [lia|lia|lia|lia| |apply draws_self, Hm1].
    intros i j m m2 Hi Hj Hm _. destruct (font_kept m Hm) as (-> & _ & _). rewrite u32_small by (unfold in_u32; lia).
    f_equal; lia. }
  split; [exact D1|]. intros x y Hxy. rewrite (D2 x y Hxy). destruct Hxy as [Hx Hy]. fold X in Hx. fold Y in Hy.
  unfold within. destruct (Z.ltb_spec y (Y - h)).
  - rewrite (proj2 (Z.leb_gt _ _)) by lia. cbn [andb].
    pose proof (pixel_index mode x (y + h) ltac:(split; fold X Y; lia)) as Hi. fold X Y in Hi. rewrite Z.mul_add_distr_r in Hi.
    assert (0 <= y * X) by (apply Z.mul_nonneg_nonneg; lia).
    unfold pixel. fold X. rewrite <- !Z.add_assoc, !M1 by lia. rewrite Z.mul_add_distr_r.
    replace (4 * (x + (y * X + h * X))) with (h * X * 4 + 4 * (x + y * X)) by lia.
    rewrite !Z.add_assoc. reflexivity.
  - rewrite !(proj2 (Z.leb_le _ _)), !(proj2 (Z.ltb_lt _ _)) by lia. reflexivity.
Qed.

(** One line up: the cells, and a blank last line. *)
Lemma roll_cells g :
  gui_ok g ->
  let g' := main_terminal_roll mode vbe_buffer vram_size font g in
  gui_ok g'
  /\ (forall y x o, on_screen R C y x -> y < R - 1 -> drawn vbe_buffer (mem g) (y + 1) x o -> drawn vbe_buffer (mem g') y x o)
  /\ (forall x, 0 <= x < C -> drawn vbe_buffer (mem g') (R - 1) x None).
Proof.
  intros G. destruct (roll_draws g G) as [D1 D2]. cbv zeta. destruct sizes as (HX & HY & Hh & Hw & _).
  pose proof grid as (G1 & G2 & G3 & G4 & _).
  set (g' := main_terminal_roll _ _ _ _ _) in *.
  assert (main_terminal g' = main_terminal g) as Et by reflexivity.
  split; [|split].
  - destruct G as [_ A1 A2 A3 A4 A5 A6 A7]. split; rewrite ?Et; try assumption.
    intros x y Hxy Hm. rewrite (D2 x y Hxy). destruct (Z.ltb_spec y (Y - h)); [|reflexivity].
    destruct Hxy as [Hx Hy]. fold X in Hx. fold Y in Hy. apply A7; [split; fold X Y; lia|lia].
  - intros y x o Hyx Hy Hd i j Hi Hj.
    rewrite (D2 _ _ (cell_in_screen y x i j Hyx Hi Hj)). rewrite (proj2 (Z.ltb_lt _ _)) by nia.
    rewrite <- (Hd i j Hi Hj). f_equal. lia.
  - intros x Hx i j Hi Hj. assert (on_screen R C (R - 1) x) as Hyx by (split; lia).
    pose proof (cell_in_screen _ x i j Hyx Hi Hj) as Hin.
    rewrite (D2 _ _ Hin). destruct (Z.ltb_spec ((R - 1) * h + i) (Y - h)); [|reflexivity].
    destruct Hin as [Hx' Hy']. apply (go_margin g G); [split; [exact Hx'|]; fold Y; lia|left; lia].
Qed.

Lemma gui_newline_scrolls g :
  gui_ok g -> 0 <= charY (main_terminal g) < R ->
  scrolled R C (fun g => charY (main_terminal g)) (fun g => drawn vbe_buffer (mem g)) gui_ok g
    (main_terminal_newline mode vbe_buffer vram_size font g)
  /\ charX (main_terminal (main_terminal_newline mode vbe_buffer vram_size font g)) = 0.
Proof.
  intros G Hy. pose proof grid as (G1 & _ & _ & _ & G5 & _). unfold main_terminal_newline, scrolled. cbv zeta.
  set (g1 := upd_terminal (fun t => set_charY (charY t + 1) t) g).
  assert (charY (main_terminal g1) = charY (main_terminal g) + 1) as Ey by (simpl; unfold u16; apply Z.mod_small; lia).
  assert (gui_ok g1) as G' by (destruct G; split; assumption).
  assert (rows (main_terminal g1) = R) as Er by apply G. rewrite Ey, Er.
  destruct (roll_cells g1 G') as (K1 & K2 & K3). set (g2 := main_terminal_roll _ _ _ _ g1) in *.
  assert (rows (main_terminal g2) = R) as Er2 by apply K1.
  destruct (Z.eqb_spec (charY (main_terminal g) + 1) R) as [E|E].
  - split; [|reflexivity]. split; [destruct K1; split; assumption|]. split.
    + cbn [upd_terminal main_terminal set_charX set_charY charY]. rewrite Er2. unfold u16. apply Z.mod_small. lia.
    + split; assumption.
  - split; [|reflexivity]. split; [destruct G'; split; assumption|]. split; [exact Ey|]. intros y x o _ Hd. exact Hd.
Qed.

(** ** Drawing a character *)

Lemma glyph_byte c i j m :
  0 <= c < 128 -> 0 <= i < h -> 0 <= j < w -> same_elsewhere vbe_buffer mode m0 m ->
  ld m (ptr_at (u32 (glyphs + u32 (c * bpg))) (u32 (j + u32 (i * w)) / 8)) = ld m0 (glyphs + c * bpg + (j + i * w) / 8)
  /\ u32 (j + u32 (i * w)) = j + i * w.
Proof.
  intros Hc Hi Hj Hm. destruct sizes as (HX & HY & Hh & Hw & Hg). destruct RD as [_ _ _ _ _ [R1 R2] Rf]. fold bpg in R2, Rf.
  assert (0 <= j + i * w < h * w) as Hk by nia. assert (0 <= c * bpg /\ c * bpg + bpg <= 128 * bpg) as Hcb by nia.
  assert (0 <= i * w) by nia. rewrite (u32_small (i * w)), (u32_small (j + i * w)) by (unfold in_u32; nia).
  assert (0 <= (j + i * w) / 8 < bpg) as Hq by (split; [apply Z.div_pos; lia|apply Z.div_lt_upper_bound; lia]).
  split; [|reflexivity]. rewrite (u32_small (c * bpg)), (u32_small (glyphs + _)) by (unfold in_u32; lia).
  rewrite ptr_at_small by lia. apply Hm, Rf. right. lia.
Qed.

Lemma putchar_marks ch g :
  0 <= ch < 128 -> ch <> 10 -> gui_ok g ->
  on_screen R C (charY (main_terminal g)) (charX (main_terminal g)) ->
  exists g1, marked R C (fun g => charY (main_terminal g)) (fun g => charX (main_terminal g))
      (fun g => drawn vbe_buffer (mem g)) gui_ok ch g g1
    /\ main_terminal_putchar mode vbe_buffer vram_size font glyphs ch g
       = if charX (main_terminal g1) =? C then main_terminal_newline mode vbe_buffer vram_size font g1 else g1.
Proof.
  intros Hc Hn G Hyx. unfold main_terminal_putchar. rewrite (proj2 (Z.eqb_neq ch 10) Hn). cbv zeta.
  destruct (font_kept (mem g) (go_mem g G)) as (-> & -> & ->). rewrite (go_fc g G), (go_bc g G).
  destruct sizes as (HX & HY & Hh & Hw & _). pose proof grid as (G1 & G2 & G3 & G4 & G5 & G6).
  destruct Hyx as [Hy Hx]. set (cy := charY (main_terminal g)) in *. set (cx := charX (main_terminal g)) in *.
  assert (0 <= cx * w /\ cx * w + w <= X) as Hpx by nia. assert (0 <= cy * h /\ cy * h + h <= Y) as Hpy by nia.
  rewrite (u32_small (cx * w)), (u32_small (cy * h)) by (unfold in_u32; lia).
  set (m := for_loop _ _ _ (mem g)).
  assert (draws m (fun u v => if within (cy * h) h u && within (cx * w) w v
    then color_bytes (cell_color (Some ch) (u - cy * h) (v - cx * w)) else pixel vbe_buffer mode (mem g) v u)) as [D1 D2].
  { pose proof (draws_rect (Z.to_nat h) (Z.to_nat w) (cx * w) (cy * h)
      (fun i _ j m => put_pixel vbe_buffer (u32 (cx * w + j)) (bpp mode) (u32 (cy * h + i)) (pitch mode)
         (if negb (Z.land (ld m (ptr_at (u32 (glyphs + u32 (ch * bpg))) (u32 (j + u32 (i * w)) / 8)))
                     (Z.shiftl 1 (7 - u32 (j + u32 (i * w)) mod 8)) =? 0) then BLACK else WHITE) m)
      (cell_color (Some ch)) (mem g)) as D.
    rewrite !Z2Nat.id in D by lia. apply D; [lia|lia|lia|lia| |apply draws_self, G].
    intros i j m1 m2 Hi Hj _ Hm. destruct (glyph_byte ch i j m2 Hc Hi Hj Hm) as [Eb Ek].
    rewrite !u32_small by (unfold in_u32; lia). rewrite Eb, Ek, land_bit by (pose proof (Z.mod_pos_bound (j + i * w) 8); lia).
    reflexivity. }
  clearbody m. set (g1 := upd_terminal _ (set_mem m g)).
  assert (charX (main_terminal g1) = cx + 1) as Ex by (cbn; unfold u16; apply Z.mod_small; fold cx; lia).
  exists g1. split; [|rewrite <- (go_cols g G); reflexivity].
  split; [|split; [reflexivity|split; [exact Ex|split]]].
  - destruct G as [_ A1 A2 A3 A4 A5 A6 A7]. split; try assumption. intros x y Hxy Hm. cbn [g1 upd_terminal set_mem mem].
    rewrite (D2 x y Hxy).
    assert (cx * w + w <= C * w /\ cy * h + h <= R * h) as [Hcw Hch] by nia.
    destruct Hm; [rewrite (within_out (cy * h)) by lia|rewrite (within_out (cx * w)), andb_false_r by lia];
      apply A7; try assumption; [left|right]; assumption.
  - intros i j Hi Hj. cbn [g1 upd_terminal set_mem mem]. fold cx cy. rewrite (D2 _ _ (cell_in_screen cy cx i j (conj Hy Hx) Hi Hj)).
    rewrite !within_in by lia. cbn [andb]. do 2 f_equal; lia.
  - intros y x o Hyx Hne Ho i j Hi Hj. cbn [g1 upd_terminal set_mem mem]. rewrite (D2 _ _ (cell_in_screen y x i j Hyx Hi Hj)). rewrite <- (Ho i j Hi Hj).
    destruct (Z.eq_dec y cy) as [->|Hy2].
    + rewrite (within_out (cx * w)), andb_false_r by (apply (apart_cells x cx w j); [lia|intros ->; apply Hne; reflexivity]). reflexivity.
    + rewrite (within_out (cy * h)) by (apply (apart_cells y cy h i); [lia|exact Hy2]). reflexivity.
Qed.

Lemma gui_putchar_shows ch g p :
  0 <= ch < 128 -> gui_shows g p ->
  gui_shows (main_terminal_putchar mode vbe_buffer vram_size font glyphs ch g) (page_put C ch p).
Proof.
  intros Hc S. pose proof grid as (G1 & _ & G3 & _).
  pose proof (shows_row R C _ _ _ _ g p G1 S) as Hy. pose proof (sl_inv _ _ _ _ _ _ _ (sh_lines _ _ _ _ _ _ _ _ S)) as G.
  assert (on_screen R C (charY (main_terminal g)) (charX (main_terminal g))) as Hon.
  { split; [exact Hy|]. destruct S as [_ S2 S3]. rewrite S3. exact S2. }
  apply (put_shows _ _ _ _ _ _ ch g); [exact G1|exact G3|exact S| |].
  - intros ->. apply gui_newline_scrolls; assumption.
  - intros Hn. destruct (putchar_marks ch g Hc Hn G Hon) as (g1 & M & E). exists g1. split; [exact M|].
    rewrite E. destruct (charX (main_terminal g1) =? C); [|reflexivity].
    apply gui_newline_scrolls; [apply M|]. destruct M as (_ & -> & _). exact Hy.
Qed.

Lemma init_shows : all_pixels vbe_buffer mode m0 WHITE -> gui_shows (init_main_terminal mode font m0) blank_page.
Proof.
  intros Ha. destruct sizes as (HX & HY & _). pose proof grid as (G1 & G2 & G3 & G4 & G5 & G6).
  apply blank_shows; try reflexivity; try lia.
  - split; cbn [init_main_terminal main_terminal mem width height rows cols bc fc]; try reflexivity;
      fold X Y h w; fold R C; unfold u16; try (rewrite !Z.mod_small by lia; reflexivity).
    + intros a _. reflexivity.
    + rewrite (Z.mod_small Y) by lia. fold R. apply Z.mod_small. lia.
    + rewrite (Z.mod_small X) by lia. fold C. apply Z.mod_small. lia.
    + intros x y Hxy _. apply Ha, Hxy.
  - intros y x Hyx i j Hi Hj. apply Ha, (cell_in_screen y x i j Hyx Hi Hj).
Qed.
End proofs.

(** ** Property *)

(** The size of the terminal in characters. *)
Definition text_rows (mode : mode_info_block) (font : Z) (m : memory) : Z := Yres mode / font_height m font.
Definition text_cols (mode : mode_info_block) (font : Z) (m : memory) : Z := Xres mode / font_width m font.

(** The text [p] in the cells of the screen at [base], the cursor behind it. *)
Definition terminal_shows (mode : mode_info_block) (vbe_buffer font glyphs : Z) (m0 : memory) (g : gui) (p : page) : Prop :=
  shows (text_rows mode font m0) (text_cols mode font m0)
    (fun g => charY (main_terminal g)) (fun g => charX (main_terminal g))
    (fun g => drawn mode font glyphs m0 vbe_buffer (mem g)) (gui_ok mode vbe_buffer font m0) g p.

(** [C30] In a true-colour mode (32 bits per pixel, lines without padding), with a
    font that fits the screen and lies outside the buffer ([ready]), a text of ASCII
    characters written to the fresh terminal on a white buffer appears as the glyphs
    of its last lines, laid out in the columns and rows of the screen; the cursor
    stays inside it, the margins stay white, no byte outside the buffer changes, and
    after the next swap the screen memory, if it is such a screen apart from the
    buffer, shows the same.  In other modes every scroll tears the picture
    ([padded_roll]). *)
Theorem main_terminal_write_shows (W : Type) (v : video W) mode psf_start m0 text :
  let font := fst (init_psf psf_start m0) in
  let glyphs := snd (init_psf psf_start m0) in
  ready mode (vbe_buffer v) (vram_size v) font glyphs m0 ->
  all_pixels (vbe_buffer v) mode m0 WHITE ->
  (forall c, c ∈ text -> 0 <= c < 128) ->
  let g := main_terminal_write mode (vbe_buffer v) (vram_size v) font glyphs text (init_main_terminal mode font m0) in
  let p := lay_out (text_cols mode font m0) text in
  terminal_shows mode (vbe_buffer v) font glyphs m0 g p
  /\ 0 <= charY (main_terminal g) < text_rows mode font m0
  /\ 0 <= charX (main_terminal g) < text_cols mode font m0
  /\ (true_color (vram v) mode -> apart mode (vram v) (vbe_buffer v) -> pixels v = mem g ->
      forall y x, on_screen (text_rows mode font m0) (text_cols mode font m0) y x ->
        drawn mode font glyphs m0 (vram v) (pixels (swap_buffer v)) y x (pg_char p (top (text_rows mode font m0) p + y) x)).
Proof.
  intros font glyphs RD Ha Hc g p.
  assert (terminal_shows mode (vbe_buffer v) font glyphs m0 g p) as S.
  { apply (write_shows _ _ _ _ _ _ (main_terminal_putchar mode (vbe_buffer v) (vram_size v) font glyphs)).
    - intros c t q Hi. apply (gui_putchar_shows _ _ _ _ _ _ RD), Hc, Hi.
    - apply (init_shows _ _ _ _ _ _ RD), Ha. }
  split; [exact S|]. split; [|split].
  - exact (shows_row _ _ _ _ _ _ g p (proj1 (grid _ _ _ _ _ _ RD)) S).
  - destruct S as [_ S2 S3]. rewrite S3. exact S2.
  - intros T Hap Ep y x Hyx i j Hi Hj.
    rewrite (swap_buffer_shows mode v _ _ T (rd_screen _ _ _ _ _ _ RD) Hap (proj1 (rd_size _ _ _ _ _ _ RD))
      (cell_in_screen _ _ _ _ _ _ RD y x i j Hyx Hi Hj)).
    rewrite Ep. exact (sl_cells _ _ _ _ _ _ _ (sh_lines _ _ _ _ _ _ _ _ S) y x Hyx i j Hi Hj).
Qed.

(** A font of 8 by 8 pixels at 0x100, with a glyph for [A]; the screen and the
    buffer of 16 by 16 pixels, cleared: two lines of two characters. *)
Definition tiny_mode : mode_info_block := ModeInfo 64 16 16 32 0x4000.

Lemma tiny_true_color base : 0 <= base <= 2 ^ 32 - 1024 -> true_color base tiny_mode.
Proof. intros Hb. split; try reflexivity; try (split; reflexivity). split; [apply Hb|]. change (4 * (Xres tiny_mode * Yres tiny_mode)) with 1024. lia. Qed.

Definition font_file : memory :=
  st 0x108 32 (st 0x114 8 (st 0x118 8 (st 0x11C 8 (st (0x120 + 65 * 8) 0x80 (st (0x120 + 65 * 8 + 7) 0xFF ∅))))).
Definition white_memory : memory := clear_screens tiny_mode 0x4000 0x2000 font_file.

Definition drawn_memory : memory :=
  mem (main_terminal_write tiny_mode 0x2000 1024 0x100 0x120 [65; 10; 66; 10; 65] (init_main_terminal tiny_mode 0x100 white_memory)).
Definition drawn_video : video unit := Video drawn_memory 0x4000 1024 0x2000 (Timer.Timers 0 ∅ tt).

Lemma drawn_memory_eq :
  drawn_memory
  = mem (main_terminal_write tiny_mode 0x2000 1024 0x100 0x120 [65; 10; 66; 10; 65] (init_main_terminal tiny_mode 0x100 white_memory)).
Proof. unfold drawn_memory. reflexivity. Qed.

Lemma small_screens_white : all_pixels 0x2000 tiny_mode white_memory WHITE.
Proof.
  destruct (clear_screens_white tiny_mode 0x4000 0x2000 font_file) as (_ & Hb & _).
  - apply tiny_true_color. lia.
  - apply tiny_true_color. lia.
  - right. vm_compute. discriminate.
  - exact Hb.
Qed.

Lemma small_checks :
  init_psf 0x100 white_memory = (0x100, 0x120) /\ font_height white_memory 0x100 = 8
  /\ font_width white_memory 0x100 = 8 /\ bytesperglyph white_memory 0x100 = 8.
Proof. split; [|split; [|split]]; vm_compute; reflexivity. Qed.

#[local] Opaque white_memory.

Lemma small_ready : ready tiny_mode 0x2000 1024 0x100 0x120 white_memory.
Proof.
  destruct small_checks as (_ & E1 & E2 & E3).
  split.
  - apply tiny_true_color. lia.
  - split; reflexivity.
  - rewrite E1. split; [reflexivity|discriminate].
  - rewrite E2. split; [reflexivity|discriminate].
  - rewrite E1, E2, E3. discriminate.
  - rewrite E3. split; discriminate.
  - rewrite E3. intros a Ha. unfold screen_bytes. change (4 * (Xres tiny_mode * Yres tiny_mode)) with 1024. lia.
Qed.

Lemma last_cell : on_screen (Yres tiny_mode / 8) (Xres tiny_mode / 8) 1 0.
Proof. split; vm_compute; split; discriminate || reflexivity. Qed.

Lemma main_terminal_write_shows_witness :
  let m := pixels (swap_buffer drawn_video) in
  pixel 0x4000 tiny_mode m 0 8 = color_bytes BLACK /\ pixel 0x4000 tiny_mode m 1 8 = color_bytes WHITE.
Proof.
  destruct small_checks as (E0 & E1 & E2 & E3).
  destruct (main_terminal_write_shows unit drawn_video tiny_mode 0x100 white_memory [65; 10; 66; 10; 65]) as (_ & _ & _ & D).
  - rewrite E0. exact small_ready.
  - exact small_screens_white.
  - intros c Hc. rewrite !elem_of_cons in Hc. destruct Hc as [->|[->|[->|[->|[->|Hc]]]]]; try lia. apply elem_of_nil in Hc. contradiction.
  - rewrite E0 in D. cbn [fst snd] in D. unfold text_rows, text_cols in D. rewrite E1, E2 in D.
    specialize (D (tiny_true_color 0x4000 ltac:(lia)) ltac:(right; vm_compute; discriminate)).
    change (vbe_buffer drawn_video) with 0x2000 in D. change (vram_size drawn_video) with 1024 in D.
    change (pixels drawn_video) with drawn_memory in D.
    specialize (D drawn_memory_eq 1 0 last_cell).
    unfold drawn in D. rewrite E1, E2 in D. change (vram drawn_video) with 0x4000 in D.
    change (1 * 8 + 0) with 8 in D.
    intros m. split; [refine (eq_trans (D 0 0 _ _) _)|refine (eq_trans (D 0 1 _ _) _)];
      try (split; [discriminate|reflexivity]); f_equal; vm_compute; reflexivity.
Defined.

(** ** Outside the contract *)

(** [char] is signed: from 128 on, a character takes its glyph in front of the font
    (line 43), so [\255] is drawn from the last bytes of the header. *)
Lemma high_characters_before_font m font glyphs :
  0 <= glyphs - bytesperglyph m font -> 0 <= bytesperglyph m font -> glyphs < 2 ^ 32 ->
  u32 (glyphs + u32 (-1 * bytesperglyph m font)) = glyphs - bytesperglyph m font.
Proof.
  intros H1 H2 H3. unfold u32. rewrite Zplus_mod_idemp_r. rewrite Z.mod_small; lia.
Qed.

(** With bytes between the lines of the screen ([pitch] larger than [4 * Xres]) the
    terminal scrolls by less than a line of text (line 82): on a screen of 16 columns
    and 80 bytes per line, the first pixel is not the one that was 8 lines below. *)
Definition padded_mode : mode_info_block := ModeInfo 80 16 16 32 0x4000.

Lemma padded_roll :
  let m := put_pixel 0x2000 0 32 8 80 0x112233 (st 0x118 8 ∅) in
  let g := Gui (Terminal 16 16 0 0 0 1 2 2 WHITE BLACK) m in
  let m' := mem (main_terminal_roll padded_mode 0x2000 1280 0x100 g) in
  (ld m 0x2280, ld m' 0x2000, ld m' 0x2080) = (0x33, 0, 0x33).
Proof. vm_compute. reflexivity. Qed.
