(* ===== verification/Kernel.v ===== *)
(** * kernel/kernel/kernel.c: the kernel as a whole

    The state of all the components, and [kernel_main] on it up to the idle loop.
    The state of a component that another one works on is nested in that one: the
    timers carry the scheduler, whose heap is the [machine] of frames and page
    tables. *)

From S2P Require Import Prelude Heap Pmm Vmm CString Machine.
From S2P Require Boot Gdt Tty Interrupts Keyboard Kmm Timer Klist Task Vbe GuiTerminal Sync Printf.

(** Addresses that the linker chooses. *)
Record image := Image {
  pgd_k : Z;
  kernel_end_phys : Z;
  gdt_entries : Z;
  idt_entries : Z;
  isr : Z -> Z;
  isr_handler255 : Z;
  page_fault : Z;
  timer_schedule : Z;
  task_schedule : Z;
  tasks : Z;
  kernel_stack : Z;
  swap_buffer : Z;
  psf_start : Z;
  keyboard_input_handler : Z;
  io_lock : Z
}.

(** What the boot loader leaves: the memory map and the graphics mode. *)
Record loader := Loader { mmap : list mmap_entry_t; mode_info : Vbe.mode_info_block }.

Record kernel := Kernel {
  gdt : Gdt.gdt;
  idt : Interrupts.idt;
  tty : Tty.terminal;
  video : Vbe.video (Task.sched machine);
  font : Z;
  glyphs : Z;
  main_terminal : GuiTerminal.terminal_t;
  keyboard : Keyboard.keyboard;
  keyboard_output_buffer : Z;
  locks : gmap Z Sync.lock_t;
  printf_flags : Printf.hex_flags
}.

Definition set_gdt g k := Kernel g (idt k) (tty k) (video k) (font k) (glyphs k) (main_terminal k) (keyboard k) (keyboard_output_buffer k) (locks k) (printf_flags k).
Definition set_idt i k := Kernel (gdt k) i (tty k) (video k) (font k) (glyphs k) (main_terminal k) (keyboard k) (keyboard_output_buffer k) (locks k) (printf_flags k).
Definition set_tty t k := Kernel (gdt k) (idt k) t (video k) (font k) (glyphs k) (main_terminal k) (keyboard k) (keyboard_output_buffer k) (locks k) (printf_flags k).
Definition set_video v k := Kernel (gdt k) (idt k) (tty k) v (font k) (glyphs k) (main_terminal k) (keyboard k) (keyboard_output_buffer k) (locks k) (printf_flags k).
Definition set_font f g k := Kernel (gdt k) (idt k) (tty k) (video k) f g (main_terminal k) (keyboard k) (keyboard_output_buffer k) (locks k) (printf_flags k).
Definition set_terminal t k := Kernel (gdt k) (idt k) (tty k) (video k) (font k) (glyphs k) t (keyboard k) (keyboard_output_buffer k) (locks k) (printf_flags k).
Definition set_keyboard b kb k := Kernel (gdt k) (idt k) (tty k) (video k) (font k) (glyphs k) (main_terminal k) kb b (locks k) (printf_flags k).
Definition set_locks l k := Kernel (gdt k) (idt k) (tty k) (video k) (font k) (glyphs k) (main_terminal k) (keyboard k) (keyboard_output_buffer k) l (printf_flags k).
Definition set_printf_flags f k := Kernel (gdt k) (idt k) (tty k) (video k) (font k) (glyphs k) (main_terminal k) (keyboard k) (keyboard_output_buffer k) (locks k) f.

(** The nested states. *)
Definition timer_list k : Timer.timer_list (Task.sched machine) := Vbe.timers (video k).
Definition sched k : Task.sched machine := Timer.world (timer_list k).
Definition machine_of k : machine := Task.heap (sched k).

Definition set_timer_list ts k : kernel :=
  let v := video k in set_video (Vbe.Video (Vbe.pixels v) (Vbe.vram v) (Vbe.vram_size v) (Vbe.vbe_buffer v) ts) k.
Definition set_sched s k : kernel := set_timer_list (Timer.set_world s (timer_list k)) k.
Definition set_machine w k : kernel := set_sched (Task.set_heap w (sched k)) k.
Definition set_pixels m k : kernel :=
  let v := video k in set_video (Vbe.Video m (Vbe.vram v) (Vbe.vram_size v) (Vbe.vbe_buffer v) (Vbe.timers v)) k.

(** The scheduler's state reaches the page tables through its heap. *)
#[export] Instance sched_paging : Vbe.Paging (Task.sched machine) := {|
  Vbe.p_map pd va pa flags s := w ← machine_map pd va pa flags (Task.heap s); Some (Task.set_heap w s)
|}.

#[local] Existing Instances Task.sched_heap KmmPmm.pmm_frames.

Section kernel_main.
Context (im : image) (ld : loader).
(** The bounds of the hash table's model. *)
Context (depth fuel : nat).
Implicit Types k : kernel.

(** The frame allocator inside the machine. *)
Definition init_memory k : option kernel :=
  let w := machine_of k in
  p ← init_normal_mem_zone (kernel_end_phys im) (mmap ld) (Kmm.pool (heap w));
  Some (set_machine (set_heap (Kmm.set_pool p (heap w)) w) k).

Definition init_heap k : option kernel :=
  let w := machine_of k in
  h ← Kmm.init_kmm (heap w);
  Some (set_machine (set_heap h w) k).

Definition sti k : kernel := set_sched (Task.set_cpu (Task.sti (Task.cpu (sched k))) (sched k)) k.

Definition start_schedule k : option kernel :=
  ts ← Task.init_schedule (tasks im) (kernel_stack im) (pgd_k im) depth fuel (task_schedule im) (timer_list k);
  Some (set_timer_list ts k).

Definition start_vbe k : option kernel :=
  v ← Vbe.init_vbe (mode_info ld) (pgd_k im) (swap_buffer im) (video k);
  Some (set_video v k).

Definition load_font k : kernel :=
  let '(f, g) := GuiTerminal.init_psf (psf_start im) (Vbe.pixels (video k)) in set_font f g k.

Definition start_terminal k : kernel :=
  let g := GuiTerminal.init_main_terminal (mode_info ld) (font k) (Vbe.pixels (video k)) in
  set_terminal (GuiTerminal.main_terminal g) (set_pixels (GuiTerminal.mem g) k).

Definition start_keyboard k : option kernel :=
  '(b, kb, i, s) ← Keyboard.init_keyboard (keyboard_input_handler im) (keyboard k) (idt k) (sched k);
  Some (set_sched s (set_idt i (set_keyboard b kb k))).

(** Up to the idle loop.  The calls follow one another without an interrupt in
    between, also behind [sti] (kernel.c:66), where in the program the clock already
    ticks while the rest is set up. *)
Definition kernel_main k : option kernel :=
  let k := set_machine (set_vm (Boot.leave_tmp (pgd_k im) (vm_of (machine_of k))) (machine_of k)) k in
  let k := set_gdt (Gdt.init_gdt (gdt_entries im) (gdt k)) k in
  let k := set_idt (Interrupts.init_idt (isr im) (isr_handler255 im) (page_fault im) (idt_entries im) (idt k)) k in
  let k := set_tty (Tty.terminal_initialize (tty k)) k in
  let k := sti k in
  k ← init_memory k;
  k ← init_heap k;
  let k := set_idt (Timer.init_timer (timer_schedule im) (idt k)) k in
  k ← start_schedule k;
  k ← start_vbe k;
  let k := load_font k in
  let k := start_terminal k in
  start_keyboard k.

(** Text for the screen. *)
Definition main_terminal_write (str : list Z) k : kernel :=
  let g := GuiTerminal.main_terminal_write (mode_info ld) (Vbe.vbe_buffer (video k)) (Vbe.vram_size (video k)) (font k) (glyphs k)
             str (GuiTerminal.Gui (main_terminal k) (Vbe.pixels (video k))) in
  set_terminal (GuiTerminal.main_terminal g) (set_pixels (GuiTerminal.mem g) k).
End kernel_main.
