(* ===== verification/KernelBoot.v ===== *)
(** * The start of the kernel

    [kernel_main] on what the boot loader and [kernel_main_init] leave: every step
    succeeds, and the state of the idle loop is one in which the components rely on
    each other as they may. *)

From S2P Require Import Prelude KMath Heap CString Pmm PmmSpec PmmInit PmmProps Vmm VmmPmm Mmu Boot.
From S2P Require Import KmmSpec KmmPmm Reserve Machine Supply MachineRun Kernel.
From S2P Require Kmm KmmProps Klist Sync Printf Timer Task TaskProofs TaskBoot Vbe GuiTerminal Interrupts Keyboard Gdt Tty.

(** ** Frames and heap *)

(** One usable region that ends inside the linear mapping, with [n] blocks of 4 MiB
    behind the kernel. *)
Record region_ok (ke : Z) (mmap : list mmap_entry_t) (n : nat) (e : mmap_entry_t) : Prop := {
  rg_found : List.find usable_entry mmap = Some e;
  rg_high : base_addr_high e = 0 /\ length_high e = 0;
  rg_range : 0 <= length_low e /\ 0x100000 + length_low e <= KERNEL_NORMAL_ZONE_SIZE;
  rg_size : 0 < ke /\ 1024 * Z.of_nat (S n) <= zone_frames ke (length_low e)
}.

Section memory.
Context (pd tables ke : Z) (mmap : list mmap_entry_t) (n : nat) (e : mmap_entry_t).
Context (LK : linked pd tables) (RG : region_ok ke mmap (8 + n) e).
Context (Himage : pd - PAGE_OFFSET + PAGE_SIZE <= ke /\ tables + PAGE_SIZE * 224 - PAGE_OFFSET <= ke).
Let len := length_low e.
Let z := Zone (zone_base ke len) ke (zone_frames ke len).

Lemma zone_placed : placed pd z /\ ke <= z_base z.
Proof.
  destruct RG as [_ _ [R1 R2] [R3 R4]]. destruct LK as [(_ & D2 & _) _ _]. fold len in R1, R2, R4.
  unfold KERNEL_NORMAL_ZONE_SIZE in *. destruct (zone_base_spec ke len R3 ltac:(lia) ltac:(lia)) as (H1 & _ & H2).
  split; [|unfold z; cbn [z_base]; lia]. split; unfold z; cbn [z_base z_number]; unfold PAGE_SIZE, KERNEL_NORMAL_ZONE_SIZE in *; [|lia].
  split; [exact D2|lia].
Qed.

(** The zone that [init_normal_mem_zone] sets up. *)
Lemma zone_start p0 :
  exists p, init_normal_mem_zone ke mmap p0 = Some p /\ res_ok z (fun _ => False) p /\ room (S (8 + n)) p.
Proof.
  destruct RG as [Rf [Rb Rl] [R1 R2] [R3 R4]]. fold len in R1, R2, R4. unfold KERNEL_NORMAL_ZONE_SIZE in R2.
  pose proof (zone_base_spec ke len R3 ltac:(lia) ltac:(lia)) as (H1 & _ & H2).
  destruct (init_zone_spec ke len 1 p0 R3 R1 ltac:(lia) ltac:(lia)) as (p & E & B & C & T & U & N & Eb & Ef & Hl).
  exists p. split; [|split].
  - unfold init_normal_mem_zone. rewrite Rf. pose proof (List.find_some _ _ Rf) as [_ Hu]. unfold usable_entry in Hu. reflect_bools.
    destruct e as [bl bh ll lh ty]. cbn [base_addr_high length_high base_addr_low length_low mmap_type] in *. subst. exact E.
  - split; [|split; [|contradiction]].
    + split; [exact B|]. split; [exact T|]. rewrite Eb, Ef, N. unfold PAGE_FRAME_SIZE, SIZEOF_PAGE_FRAME. lia.
    + unfold zone_of. rewrite Eb, Ef, N. reflexivity.
  - apply zone_room; [exact B|exact T| |rewrite N; exact R4]. rewrite N. exact Hl.
Qed.

(** The heap on it, and the page tables that were there before. *)
Lemma memory_start (s : vmm pmm) (h0 : Kmm.kmm pmm) :
  Kmm.alloc_ms h0 = ∅ -> (forall a, in_u8 (Kmm.load h0 a)) -> (forall i, 992 <= i < 1024 -> rd s (pd + 4 * i) = 0) ->
  exists p h Ms, init_normal_mem_zone ke mmap (Kmm.pool h0) = Some p /\ Kmm.init_kmm (Kmm.set_pool p h0) = Some h
    /\ memory_inv pd z (first_machine pd tables s h) [] Ms KmmProps.no_slices (fun _ => False) /\ room (S n) (Kmm.pool h).
Proof.
  intros Ha Hb Hr. destruct (zone_start (Kmm.pool h0)) as (p & E & R & HR). destruct zone_placed as [PL Hz].
  pose proof HR as (B & T & Hs). pose proof (spare_supplies 8 p B T (spare_le 8 (S (8 + n)) p ltac:(lia) Hs)) as Hsup.
  destruct (KmmProps.init_kmm_spec (H0 := reserved_laws z (fun _ => False)) p (Kmm.managers h0) (Kmm.bytes h0) R Hb Hsup)
    as (h & Ms & Eh & _ & K & _). rewrite <- Ha in Eh.
  exists p, h, Ms. split; [exact E|]. split; [exact Eh|].
  split; [|exact (room_init_kmm (S n) _ h Eh (room_le (8 + S n) (S (8 + n)) _ ltac:(lia) HR))].
  apply (first_memory_ok pd tables z LK PL ltac:(lia) s h Ms _ Hr K).
Qed.
End memory.

(** ** The clients of the heap *)

#[local] Existing Instances Task.sched_heap KmmPmm.pmm_frames Interrupts.idt_entry_zero.

(** A graphics mode that vbe.c can handle: true colour, whole pages, at most what
    [kmalloc] serves, behind the linear mapping. *)
Record screen_ok (mode : Vbe.mode_info_block) : Prop := {
  sc_color : Vbe.true_color (Vbe.physbase mode) mode;
  sc_pages : Vbe.size_of mode mod PAGE_SIZE = 0;
  sc_max : Vbe.size_of mode <= Kmm.MAX_ALLOC;
  sc_base : (PAGE_SIZE | Vbe.physbase mode) /\ PAGE_OFFSET + KERNEL_NORMAL_ZONE_SIZE <= Vbe.physbase mode
}.

Lemma screen_size mode :
  screen_ok mode -> 2048 < Vbe.size_of mode <= Kmm.MAX_ALLOC
  /\ Vbe.size_of mode = Z.of_nat (Z.to_nat (Vbe.size_of mode / PAGE_SIZE)) * PAGE_SIZE
  /\ 0 < Vbe.size_of mode / PAGE_SIZE <= 1024
  /\ Vbe.physbase mode + Vbe.size_of mode <= 2 ^ 32.
Proof.
  intros [[_ _ Hx Hy [_ Hb]] Sp Sm _]. pose proof (Vbe.area_bounds _ _ Hx Hy) as Ha. unfold Vbe.size_of in *. unfold PAGE_SIZE in *.
  change Kmm.MAX_ALLOC with 4194304 in *. set (n := 4 * (Vbe.Xres mode * Vbe.Yres mode)) in *.
  pose proof (Z.div_mod n 4096 ltac:(lia)). assert (0 < n / 4096) by (destruct (Z.eq_dec (n / 4096) 0); [lia|]; pose proof (Z.div_pos n 4096); lia).
  rewrite Z2Nat.id by lia. lia.
Qed.

(** Four megabytes need two tables at most. *)
Lemma tables_two pd va n (s : vmm pmm) :
  0 <= va -> (0 < n <= 1024)%nat -> va + Z.of_nat n * PAGE_SIZE <= 2 ^ 32 ->
  (tables_left pd va (PGD_INDEX (va + (Z.of_nat n - 1) * PAGE_SIZE)) 0 s <= 2)%nat.
Proof.
  intros Hv Hn Hh. unfold tables_left. cbv zeta. rewrite Z.add_0_r. unfold PAGE_SIZE in *.
  assert (PGD_INDEX (va + (Z.of_nat n - 1) * 4096) <= PGD_INDEX va + 1).
  { rewrite !VmmProofs.PGD_INDEX_div by (unfold in_u32; lia).
    replace (va / 2 ^ 22 + 1) with ((va + 1 * 2 ^ 22) / 2 ^ 22) by (apply Z.div_add; lia). apply Z.div_le_mono; lia. }
  destruct (_ =? 0); lia.
Qed.

(** The first task runs, alone, with number 0. *)
Definition first_task (im : image) (s : Task.sched machine) (t : Z) : Prop :=
  TaskProofs.run_list (tasks im) s [t] /\ Task.current_task s = t /\ Task.pid (Task.task s t) = 0.

Section clients.
Context (im : image) (depth fuel : nat) (z : zone) (PL : placed (pgd_k im) z).
Let pd := pgd_k im.

(** An object is not at an address of the kernel image. *)
Lemma obj_fresh w a n objs Ms X G :
  memory_inv pd z w ((a, n) :: objs) Ms X G -> 0 < n -> PAGE_OFFSET + z_base z <= a /\ a + n <= PAGE_OFFSET + KERNEL_NORMAL_ZONE_SIZE.
Proof.
  intros I Hn. destruct PL as [[P1 P2] P3].
  pose proof (obj_zone pd z w _ Ms X G a n a I (list_elem_of_here _ _) ltac:(lia)).
  pose proof (obj_zone pd z w _ Ms X G a n (a + n - 1) I (list_elem_of_here _ _) ltac:(lia)). lia.
Qed.

(** Adding to an empty list leaves the other nodes alone. *)
Lemma add_tail_next s new head a : Klist.ring s head [] -> a <> new -> a <> head -> Klist.next (Klist.list_add_tail new head s) a = Klist.next s a.
Proof.
  intros [_ [_ Hp]] H1 H2. unfold Klist.list_add_tail, Klist._list_add. rewrite Hp.
  do 2 rewrite Klist.next_set_prev, Klist.next_set_next, decide_False by congruence. reflexivity.
Qed.

(** The first task and its timer. *)
Lemma schedule_start (ts0 : Timer.timer_list (Task.sched machine)) objs Ms X G n :
  (10 <= fuel)%nat /\ Z.of_nat fuel < 2 ^ 32 ->
  memory_inv pd z (Task.heap (Timer.world ts0)) objs Ms X G -> room (4 + n) (Kmm.pool (heap (Task.heap (Timer.world ts0)))) ->
  Timer.timer_chain ts0 [] -> Klist.ring (Task.links (Timer.world ts0)) (tasks im) [] -> tasks im < PAGE_OFFSET + z_base z ->
  exists ts t u Ms' X', Task.init_schedule (tasks im) (kernel_stack im) pd (S depth) fuel (task_schedule im) ts0 = Some ts
    /\ memory_inv pd z (Task.heap (Timer.world ts)) ((u, 16) :: (t, 60) :: objs) Ms' X' G
    /\ room n (Kmm.pool (heap (Task.heap (Timer.world ts)))) /\ same_tables (Task.heap (Timer.world ts0)) (Task.heap (Timer.world ts))
    /\ first_task im (Timer.world ts) t
    /\ Task.cpu (Timer.world ts) = Task.cpu (Timer.world ts0)
    /\ (forall a, a < PAGE_OFFSET + z_base z -> a <> tasks im -> Klist.next (Task.links (Timer.world ts)) a = Klist.next (Task.links (Timer.world ts0)) a)
    /\ Timer.timer_chain ts [u] /\ Timer.timer ts u = Timer.Timer (task_schedule im) 2 2 0.
Proof.
  intros Hfuel I R Hc Hr Ht.
  destruct (serve_small pd z PL _ _ _ _ _ (2 + n) Task.SIZEOF_TASK I R ltac:(unfold Task.SIZEOF_TASK; lia)) as (t & w1 & Ms1 & X1 & E1 & I1 & R1 & S1).
  destruct (serve_small pd z PL _ _ _ _ _ n Timer.SIZEOF_TIMER I1 R1 ltac:(unfold Timer.SIZEOF_TIMER; lia)) as (u & w2 & Ms2 & X2 & E2 & I2 & R2 & S2).
  pose proof (obj_fresh _ _ _ _ _ _ _ I1 ltac:(unfold Task.SIZEOF_TASK; lia)) as Ht2. unfold Task.SIZEOF_TASK in Ht2.
  pose proof (obj_fresh _ _ _ _ _ _ _ I2 ltac:(unfold Timer.SIZEOF_TIMER; lia)) as Hu2. unfold Timer.SIZEOF_TIMER in Hu2.
  destruct PL as [[P1 P2] P3]. unfold PAGE_OFFSET, KERNEL_NORMAL_ZONE_SIZE, PAGE_SIZE in *.
  destruct (TaskBoot.init_schedule_ok (tasks im) (kernel_stack im) pd (task_schedule im) depth fuel ts0 [] t w1 u w2)
    as (ts & s & E & Ew & Hrun & Hcur & _ & Hpid & _ & Hh & Hcpu & Hli & Hch & Et & _); try assumption; try apply Hfuel.
  - unfold in_u32. lia.
  - lia.
  - unfold Task.node_of, Task.LIST_HEAD_OFFSET. rewrite u32_small by (unfold in_u32; lia). lia.
  - lia.
  - apply not_elem_of_nil.
  - exists ts, t, u, Ms2, X2. subst s. rewrite Hh. split; [exact E|]. split; [exact I2|]. split; [exact R2|].
    split; [destruct S1 as [A1 A2], S2 as [A3 A4]; split; congruence|].
    split; [exact (conj Hrun (conj Hcur Hpid))|]. split; [exact Hcpu|]. split; [|split; [exact Hch|]].
    { intros a Ha Ha2. rewrite Hli. apply (add_tail_next _ _ _ _ Hr); [|exact Ha2].
      unfold Task.node_of, Task.LIST_HEAD_OFFSET. rewrite u32_small by (unfold in_u32; lia). lia. }
    rewrite Et. destruct Hc as [_ Hc]. cbn in Hc. rewrite Hc. reflexivity.
Qed.

(** Mapping goes through the scheduler's state to the machine. *)
Lemma map_screen_machine va n (s : Task.sched machine) :
  Vbe.map_screen pd va n s
  = w ← for_loop (Z.to_nat n) 0
        (fun i acc => w ← acc; machine_map pd (u32 (va + i * PAGE_SIZE)) (u32 (va + i * PAGE_SIZE)) flags3 w) (Some (Task.heap s));
    Some (Task.set_heap w s).
Proof.
  unfold Vbe.map_screen.
  assert (forall m i acc, for_loop m i (fun i acc => w ← acc; Vbe.p_map pd (u32 (va + i * PAGE_SIZE)) (u32 (va + i * PAGE_SIZE)) flags3 w)
            (w ← acc; Some (Task.set_heap w s))
          = w ← for_loop m i (fun i acc => w ← acc; machine_map pd (u32 (va + i * PAGE_SIZE)) (u32 (va + i * PAGE_SIZE)) flags3 w) acc;
            Some (Task.set_heap w s)) as L.
  { induction m as [|m IH]; intros i acc; [reflexivity|]. cbn [for_loop]. rewrite <- IH. f_equal.
    destruct acc as [w|]; [|reflexivity]. cbn [mbind option_bind]. cbn [Vbe.p_map sched_paging].
    change (Task.heap (Task.set_heap w s)) with w. destruct (machine_map _ _ _ _ w); reflexivity. }
  rewrite <- (L _ 0 (Some (Task.heap s))). cbn [mbind option_bind]. destruct s; reflexivity.
Qed.

(** The back buffer, the mapping of the screen and its timer. *)
Lemma screen_start mode (v : Vbe.video (Task.sched machine)) objs Ms X G n u :
  screen_ok mode -> memory_inv pd z (Task.heap (Timer.world (Vbe.timers v))) objs Ms X G ->
  room (5 + n) (Kmm.pool (heap (Task.heap (Timer.world (Vbe.timers v))))) ->
  Timer.timer_chain (Vbe.timers v) [u] -> (u, 16) ∈ objs ->
  exists b t w1 w2 w objs' Ms' X' G', let s := Timer.world (Vbe.timers v) in
    Vbe.vbe_room mode pd b t [u] v (Task.set_heap w1 s) (Task.set_heap w2 s) (Task.set_heap w s)
    /\ memory_inv pd z w ((t, 16) :: objs') Ms' X' G' /\ (b, Vbe.size_of mode) ∈ objs' /\ objs ⊆ objs' /\ room n (Kmm.pool (heap w))
    /\ forall x, 0 <= x < Vbe.size_of mode -> walk PAGE_OFFSET (vm_of w) (Vbe.physbase mode + x) = Some (Vbe.physbase mode + x).
Proof.
  intros S I R Hc Hu. destruct (screen_size mode S) as (Hs & En & Hn & Hh). destruct S as [S1 S2 S3 [S4 S5]].
  set (n4 := Z.to_nat (Vbe.size_of mode / PAGE_SIZE)) in *. set (s := Timer.world (Vbe.timers v)) in *.
  destruct (serve_large pd z PL _ _ _ _ _ (4 + n) _ I R Hs) as (b & w1 & G1 & E1 & I1 & R1 & _).
  pose proof (obj_fresh _ _ _ _ _ _ _ I1 ltac:(lia)) as Hb.
  assert (0 <= Vbe.physbase mode) as Hv by (unfold PAGE_OFFSET, KERNEL_NORMAL_ZONE_SIZE in *; lia).
  destruct (serve_range pd z PL (Vbe.physbase mode) n4 w1 _ Ms X (2 + n) S4 S5 ltac:(rewrite <- En; exact Hh) G1 ltac:(lia) I1)
    as (w2 & objs2 & G2 & E2 & I2 & Ho & R2 & W2).
  { refine (room_le _ _ _ _ R1).
    pose proof (tables_two pd (Vbe.physbase mode) n4 (vm_of w1) Hv ltac:(lia) ltac:(rewrite <- En; exact Hh)). lia. }
  destruct (serve_small pd z PL _ _ _ _ _ n Timer.SIZEOF_TIMER I2 R2 ltac:(unfold Timer.SIZEOF_TIMER; lia)) as (t & w & Ms' & X' & E3 & I3 & R3 & S3').
  pose proof (obj_fresh _ _ _ _ _ _ _ I3 ltac:(unfold Timer.SIZEOF_TIMER; lia)) as Ht.
  exists b, t, w1, w2, w, objs2, Ms', X', G2. cbv zeta. split; [|split; [exact I3|split; [apply Ho; left|split; [|split; [exact R3|]]]]].
  - destruct PL as [[P1 P2] P3]. unfold PAGE_OFFSET, KERNEL_NORMAL_ZONE_SIZE, PAGE_SIZE in *. split; try assumption.
    + destruct S1 as [T1 T2 T3 T4 T5]. split; try assumption. unfold Vbe.size_of in *. lia.
    + right. lia.
    + fold s. cbn [h_kmalloc Task.sched_heap]. rewrite E1. reflexivity.
    + change Vmm.PAGE_SIZE with 4096. rewrite map_screen_machine. change (Task.heap (Task.set_heap w1 s)) with w1. unfold PAGE_SIZE. fold n4. rewrite E2. reflexivity.
    + cbn [h_kmalloc Task.sched_heap]. change (Task.heap (Task.set_heap w2 s)) with w2. rewrite E3. reflexivity.
    + split; [lia|]. intros Hin. apply list_elem_of_singleton in Hin. subst u.
      refine (obj_apart _ _ _ _ _ (iv_apart _ _ _ _ _ _ _ I3) (Ho _ (list_elem_of_further _ _ _ Hu)) _ _ eq_refl); [unfold Timer.SIZEOF_TIMER|]; lia.
  - intros o Hin. apply Ho. right. exact Hin.
  - intros x Hx. rewrite (walk_same _ _ _ S3'). apply W2. rewrite <- En. exact Hx.
Qed.
End clients.

(** ** What [kernel_main] starts from *)

(** Nobody holds the lock of [printf] or waits for it. *)
Definition idle_lock (im : image) (k : kernel) : Prop :=
  locks k !! io_lock im = Some (Sync.Lock 0 (-1))
  /\ let w := Sync.waiting_list (io_lock im) in Klist.next (Task.links (sched k)) w = w.

(** The static data of the kernel, and the page tables that [kernel_main_init] made
    from what was in memory. *)
Record fresh (im : image) (tables stack loader_at : Z) (b : boot pmm) (k : kernel) : Prop := {
  fr_tables : vm_of (machine_of k) = vm (kernel_main_init stack loader_at (pgd_k im) tables b);
  fr_zero : forall i, 992 <= i < 1024 -> rd (vm b) (pgd_k im + 4 * i) = 0;
  fr_heap : Kmm.alloc_ms (heap (machine_of k)) = ∅ /\ forall a, in_u8 (Kmm.load (heap (machine_of k)) a);
  fr_timers : Timer.timer_chain (timer_list k) [];
  fr_lock : idle_lock im k;
  fr_tasks : Klist.ring (Task.links (sched k)) (tasks im) []
}.

(** The font file behind the symbol of the linker fits the mode, and ends with the
    kernel image. *)
Record font_ok (mode : Vbe.mode_info_block) (font image_end : Z) (m : memory) : Prop := {
  ft_height : 0 < GuiTerminal.font_height m font <= Vbe.Yres mode;
  ft_width : 0 < GuiTerminal.font_width m font <= Vbe.Xres mode;
  ft_glyph : GuiTerminal.font_height m font * GuiTerminal.font_width m font <= 8 * GuiTerminal.bytesperglyph m font;
  ft_header : 0 <= font /\ font + 32 <= image_end;
  ft_glyphs : let glyphs := snd (GuiTerminal.init_psf font m) in
    0 <= glyphs /\ glyphs + 128 * GuiTerminal.bytesperglyph m font <= image_end
}.

(** The image lies in front of [kernel_end]. *)
Record image_ok (im : image) (tables : Z) (mode : Vbe.mode_info_block) (m : memory) : Prop := {
  ig_linked : linked (pgd_k im) tables;
  ig_tables : pgd_k im - PAGE_OFFSET + PAGE_SIZE <= kernel_end_phys im
    /\ tables + PAGE_SIZE * 224 - PAGE_OFFSET <= kernel_end_phys im;
  ig_tasks : tasks im < PAGE_OFFSET + kernel_end_phys im;
  ig_lock : let w := Sync.waiting_list (io_lock im) in w < PAGE_OFFSET + kernel_end_phys im /\ w <> tasks im;
  ig_isr : forall n, in_u32 (isr im n);
  ig_font : font_ok mode (psf_start im) (PAGE_OFFSET + kernel_end_phys im) m
}.

(** ** What it leads to *)

(** The two timers of the running kernel. *)
Record clock_ok (im : image) (k : kernel) (tv tt : Z) : Prop := {
  ck_chain : Timer.timer_chain (timer_list k) [tv; tt];
  ck_screen : Timer.callback_func (Timer.timer (timer_list k) tv) = swap_buffer im
    /\ Timer.interval (Timer.timer (timer_list k) tv) = 16 /\ 1 <= Timer.elapse (Timer.timer (timer_list k) tv) <= 16;
  ck_tasks : Timer.callback_func (Timer.timer (timer_list k) tt) = task_schedule im
    /\ Timer.interval (Timer.timer (timer_list k) tt) = 2 /\ 1 <= Timer.elapse (Timer.timer (timer_list k) tt) <= 2
}.

(** The text on the terminal is that of the page [p]. *)
Definition shows_text (mode : Vbe.mode_info_block) (k : kernel) (p : Layout.page) : Prop :=
  GuiTerminal.terminal_shows mode (Vbe.vbe_buffer (video k)) (font k) (glyphs k) (Vbe.pixels (video k))
    (GuiTerminal.Gui (main_terminal k) (Vbe.pixels (video k))) p.

(** The handlers: clock, keyboard, page fault and the last vector. *)
Definition handler_table (im : image) : gmap Z Z :=
  <[33 := keyboard_input_handler im]> (<[32 := timer_schedule im]> (<[14 := page_fault im]> (<[255 := isr_handler255 im]> ∅))).

Record running (im : image) (mode : Vbe.mode_info_block) (k : kernel) : Prop := {
  rn_clock : exists tv tt, clock_ok im k tv tt;
  rn_handlers : Interrupts.interrupt_handlers (idt k) = handler_table im;
  rn_screen : Vbe.true_color (Vbe.vram (video k)) mode /\ Vbe.apart mode (Vbe.vram (video k)) (Vbe.vbe_buffer (video k));
  rn_ready : GuiTerminal.ready mode (Vbe.vbe_buffer (video k)) (Vbe.vram_size (video k)) (font k) (glyphs k) (Vbe.pixels (video k));
  rn_font : forall a, font k + 20 <= a < font k + 32
      \/ glyphs k <= a < glyphs k + 128 * GuiTerminal.bytesperglyph (Vbe.pixels (video k)) (font k) ->
    ~ Vbe.screen_bytes (Vbe.vram (video k)) mode a
}.

(** Everything that was allocated is there, does not overlap, and translates. *)
Record settled (mode : Vbe.mode_info_block) (k : kernel) (objs : list (Z * Z)) : Prop := {
  st_keyboard : (keyboard_output_buffer k, 512) ∈ objs;
  st_buffer : (Vbe.vbe_buffer (video k), Vbe.size_of mode) ∈ objs;
  st_task : (Task.current_task (sched k), Task.SIZEOF_TASK) ∈ objs;
  st_apart : ForallOrdPairs separate objs;
  st_linear : forall x, 0 <= x < KERNEL_NORMAL_ZONE_SIZE -> walk PAGE_OFFSET (vm_of (machine_of k)) (PAGE_OFFSET + x) = Some x;
  st_objs : forall a n c, (a, n) ∈ objs -> a <= c < a + n -> walk PAGE_OFFSET (vm_of (machine_of k)) c = Some (c - PAGE_OFFSET);
  st_screen : forall x, 0 <= x < Vbe.size_of mode ->
    walk PAGE_OFFSET (vm_of (machine_of k)) (Vbe.physbase mode + x) = Some (Vbe.physbase mode + x)
}.

Lemma enable_paging_high (b : boot pmm) a : PAGE_OFFSET <= a -> rd (vm (enable_paging b)) a = rd (vm b) a.
Proof.
  intros Ha. unfold enable_paging, upd_vm. cbn [vm]. rewrite VmmProofs.rd_switch_pgd. unfold fill_tmp. cbv zeta. unfold PAGE_OFFSET in Ha.
  match goal with |- rd (for_loop ?n ?i ?f ?x) _ = _ =>
    pose proof (for_loop_ind (fun k s => k <= 1024 -> rd s a = rd (vm b) a) n i f x) as L end.
  apply L; [|intros k s Hk IH Hk2|discriminate].
  - intros _. change (word_at pgd_tmp 0) with 0x1000. change (word_at pgd_tmp (PGD_INDEX PAGE_OFFSET)) with 0x1C00.
    rewrite !VmmProofs.rd_wr_ne by lia. reflexivity.
  - cbv zeta. unfold word_at, pt0, pt1. rewrite !VmmProofs.rd_wr_ne by (rewrite u32_small by (unfold in_u32; lia); lia). apply IH. lia.
Qed.

(** The image does not reach into the screen and its buffer. *)
Lemma font_ready mode font image_end m m' vram b :
  font_ok mode font image_end m -> Vbe.true_color b mode -> b + Vbe.size_of mode < 2 ^ 32 -> image_end <= b -> image_end <= vram -> image_end <= 2 ^ 32 ->
  (forall a, ~ Vbe.screen_bytes vram mode a -> ~ Vbe.screen_bytes b mode a -> ld m' a = ld m a) ->
  let glyphs := snd (GuiTerminal.init_psf font m') in
  GuiTerminal.ready mode b (Vbe.size_of mode) font glyphs m'
  /\ forall a, font + 20 <= a < font + 32 \/ glyphs <= a < glyphs + 128 * GuiTerminal.bytesperglyph m' font ->
       ~ Vbe.screen_bytes vram mode a.
Proof.
  intros [F1 F2 F3 F4 F5] TC Hb Hi Hv Hi2 Hm.
  assert (forall a, a < image_end -> ld m' a = ld m a) as Hl by (intros a Ha; apply Hm; unfold Vbe.screen_bytes; lia).
  assert (forall o, 0 <= o <= 28 -> GuiTerminal.ld32 m' (font + o) = GuiTerminal.ld32 m (font + o)) as H32
    by (intros o Ho; apply GuiTerminal.ld32_ext; intros k Hk; apply Hl; lia).
  unfold GuiTerminal.init_psf, GuiTerminal.headersize, GuiTerminal.font_height, GuiTerminal.font_width, GuiTerminal.bytesperglyph in *.
  cbn [snd] in *. rewrite (H32 8) by lia. set (gl := u32 _) in *.
  assert (forall a, font + 20 <= a < font + 32 \/ gl <= a < gl + 128 * GuiTerminal.ld32 m' (font + 20) -> a < image_end) as Ha
    by (rewrite (H32 20) by lia; intros a [?|?]; lia).
  split; [split|]; unfold GuiTerminal.font_height, GuiTerminal.font_width, GuiTerminal.bytesperglyph;
    rewrite ?(H32 20), ?(H32 24), ?(H32 28) in * by lia; try assumption; try lia.
  - intros a Hin. specialize (Ha a Hin). unfold Vbe.screen_bytes. lia.
  - intros a Hin. specialize (Ha a Hin). unfold Vbe.screen_bytes. lia.
Qed.

(** ** [kernel_main] *)

(** Memory in front of [limit] is that of [m], and the screens lie behind. *)
Record low_kept (limit : Z) (m : memory) (k : kernel) : Prop := {
  lk_same : forall a, a < limit -> ld (Vbe.pixels (video k)) a = ld m a;
  lk_screens : limit <= Vbe.vram (video k) /\ limit <= Vbe.vbe_buffer (video k)
}.

Section boot.
Context (im : image) (ld : loader) (tables stack loader_at : Z) (b : boot pmm) (e : mmap_entry_t) (depth fuel : nat) (k0 : kernel).
Context (Hfuel : (10 <= fuel)%nat /\ Z.of_nat fuel < 2 ^ 32).
Let mode := mode_info ld.
Let pd := pgd_k im.
Let ke := kernel_end_phys im.
Context (FR : fresh im tables stack loader_at b k0) (IM : image_ok im tables mode (Vbe.pixels (video k0))).
Context (RG : region_ok ke (mmap ld) 18 e) (SC : screen_ok mode).
Let z := Zone (zone_base ke (length_low e)) ke (zone_frames ke (length_low e)).

(** The state before the memory is set up, and its parts. *)
Definition early : kernel :=
  let k := set_machine (set_vm (leave_tmp (pgd_k im) (vm_of (machine_of k0))) (machine_of k0)) k0 in
  let k := set_gdt (Gdt.init_gdt (gdt_entries im) (gdt k)) k in
  let k := set_idt (Interrupts.init_idt (isr im) (isr_handler255 im) (page_fault im) (idt_entries im) (idt k)) k in
  let k := set_tty (Tty.terminal_initialize (tty k)) k in
  sti k.

Lemma machine_of_set w k : machine_of (set_machine w k) = w.
Proof. reflexivity. Qed.

Lemma set_machine_twice w w' k : set_machine w' (set_machine w k) = set_machine w' k.
Proof. reflexivity. Qed.

(** The frame allocator and the heap, in a state whose machine is [w]. *)
Lemma memory_steps w k p h :
  machine_of k = w -> init_normal_mem_zone ke (mmap ld) (Kmm.pool (heap w)) = Some p ->
  Kmm.init_kmm (Kmm.set_pool p (heap w)) = Some h ->
  (k ← init_memory im ld k; init_heap k) = Some (set_machine (Machine (words w) (cr3 w) h) k).
Proof.
  intros Ew E1 E2. unfold init_memory. rewrite Ew. fold ke. rewrite E1. cbn [mbind option_bind].
  unfold init_heap. rewrite machine_of_set. change (heap (set_heap (Kmm.set_pool p (heap w)) w)) with (Kmm.set_pool p (heap w)).
  rewrite E2. cbn [mbind option_bind]. rewrite set_machine_twice. reflexivity.
Qed.

Lemma memory_phase :
  exists w Ms, (k ← init_memory im ld early; init_heap k) = Some (set_machine w early)
    /\ memory_inv pd z w [] Ms KmmProps.no_slices (fun _ => False) /\ room 11 (Kmm.pool (heap w)).
Proof.
  destruct FR as [F1 F2 [F3 F4] _ _ _]. destruct IM as [LK IT _ _ _ _].
  set (w1 := set_vm (leave_tmp (pgd_k im) (vm_of (machine_of k0))) (machine_of k0)).
  destruct (memory_start pd tables ke (mmap ld) 10 e LK RG IT (vm (enable_paging b)) (heap w1)) as (p & h & Ms & E1 & E2 & I & R).
  - exact F3.
  - exact F4.
  - intros i Hi. rewrite enable_paging_high; [apply F2, Hi|]. destruct LK as [(_ & D & _) _ _]. fold pd in D. lia.
  - exists (Machine (words w1) (cr3 w1) h), Ms.
    split; [apply (memory_steps w1 early p h eq_refl E1 E2)|].
    assert (Machine (words w1) (cr3 w1) h = first_machine pd tables (vm (enable_paging b)) h) as ->; [|split; [exact I|exact R]].
    unfold w1. rewrite F1. reflexivity.
Qed.
(** The rest of [kernel_main]. *)
Definition late (k : kernel) : option kernel :=
  let k := set_idt (Timer.init_timer (timer_schedule im) (idt k)) k in
  k ← start_schedule im (S depth) fuel k;
  k ← start_vbe im ld k;
  let k := load_font im k in
  let k := start_terminal ld k in
  start_keyboard im k.

Lemma kernel_main_phases : kernel_main im ld (S depth) fuel k0 = k ← (k ← init_memory im ld early; init_heap k); late k.
Proof.
  unfold kernel_main. cbv zeta. fold early. destruct (init_memory im ld early) as [k|]; [|reflexivity].
  cbn [mbind option_bind]. destruct (init_heap k); reflexivity.
Qed.

Section late.
Context (k : kernel) (Ms : Z -> list Z) (X : Z -> Z -> list Z) (G : Z -> Prop).
Context (I : memory_inv pd z (machine_of k) [] Ms X G) (R : room 11 (Kmm.pool (heap (machine_of k)))).
Context (Hc : Timer.timer_chain (timer_list k) []) (Hr : Klist.ring (Task.links (sched k)) (tasks im) []).
Context (Hp : Vbe.pixels (video k) = Vbe.pixels (video k0)) (Hlock : idle_lock im k).
Context (Hidt : Interrupts.interrupt_handlers (idt k) = <[14 := page_fault im]> (<[255 := isr_handler255 im]> ∅)).

Lemma late_placed : placed pd z /\ ke <= z_base z.
Proof. destruct IM as [LK IT _ _ _ _]. apply (zone_placed pd tables ke (mmap ld) 10 e LK RG IT). Qed.

(** The scheduler and the screen. *)
Lemma screen_phase :
  exists ts v t u tv bf w objs Ms' X' G',
    Task.init_schedule (tasks im) (kernel_stack im) pd (S depth) fuel (task_schedule im) (timer_list k) = Some ts
    /\ Vbe.init_vbe mode pd (swap_buffer im) (video (set_timer_list ts k)) = Some v
    /\ first_task im (Timer.world ts) t
    /\ Task.cpu (Timer.world ts) = Task.cpu (sched k)
    /\ (let q := Sync.waiting_list (io_lock im) in Klist.next (Task.links (Timer.world ts)) q = q)
    /\ Timer.world (Vbe.timers v) = Task.set_heap w (Timer.world ts)
    /\ memory_inv pd z w objs Ms' X' G' /\ room 2 (Kmm.pool (heap w))
    /\ (bf, Vbe.size_of mode) ∈ objs /\ (t, 60) ∈ objs
    /\ (forall x, 0 <= x < Vbe.size_of mode -> walk PAGE_OFFSET (vm_of w) (Vbe.physbase mode + x) = Some (Vbe.physbase mode + x))
    /\ Vbe.vram v = Vbe.physbase mode /\ Vbe.vbe_buffer v = bf /\ Vbe.vram_size v = Vbe.size_of mode
    /\ Vbe.true_color bf mode /\ Vbe.apart mode (Vbe.physbase mode) bf
    /\ PAGE_OFFSET + ke <= bf /\ bf + Vbe.size_of mode < 2 ^ 32
    /\ Vbe.all_pixels (Vbe.physbase mode) mode (Vbe.pixels v) 0xffffff /\ Vbe.all_pixels bf mode (Vbe.pixels v) 0xffffff
    /\ (forall a, ~ Vbe.screen_bytes (Vbe.physbase mode) mode a -> ~ Vbe.screen_bytes bf mode a ->
          CString.ld (Vbe.pixels v) a = CString.ld (Vbe.pixels (video k0)) a)
    /\ Timer.timer_chain (Vbe.timers v) [tv; u]
    /\ (Timer.callback_func (Timer.timer (Vbe.timers v) tv) = swap_buffer im
         /\ Timer.interval (Timer.timer (Vbe.timers v) tv) = 16 /\ Timer.elapse (Timer.timer (Vbe.timers v) tv) = 16)
    /\ Timer.timer (Vbe.timers v) u = Timer.Timer (task_schedule im) 2 2 0.
Proof.
  destruct late_placed as [PL Hz]. pose proof (ig_tasks _ _ _ _ IM) as Ht. fold ke in Ht.
  destruct (schedule_start im depth fuel z PL (timer_list k) [] Ms X G 7 Hfuel I R Hc Hr ltac:(lia))
    as (ts & t & u & Ms1 & X1 & E & I1 & R1 & _ & Hrun & Hcpu & Hli & Hch & Eu).
  destruct (screen_start im z PL mode (video (set_timer_list ts k)) _ Ms1 X1 G 2 u SC I1 R1 Hch (list_elem_of_here _ _))
    as (bf & tv & w1 & w2 & w & objs & Ms2 & X2 & G2 & VR & I2 & Hb & Ho & R2 & W).
  pose proof VR as [_ V2 V3 _ V5 _ _ [_ V8] _].
  destruct (Vbe.init_vbe_white mode pd (swap_buffer im) bf tv [u] _ _ _ _ VR)
    as (v & Ev & A1 & A2 & A3 & P1 & P2 & P3 & Wd & Ch & C1 & C2 & C3 & C4).
  pose proof (fun c => obj_zone pd z w ((tv, 16) :: objs) Ms2 X2 G2 bf (Vbe.size_of mode) c) as Hobj.
  destruct (screen_size mode SC) as (Hs & _). destruct PL as [[PL1 PL2] PL3].
  pose proof (Hobj bf I2 (list_elem_of_further _ _ _ Hb) ltac:(lia)). pose proof (Hobj (bf + Vbe.size_of mode - 1) I2 (list_elem_of_further _ _ _ Hb) ltac:(lia)).
  unfold KERNEL_NORMAL_ZONE_SIZE, PAGE_OFFSET in *.
  rewrite A1 in P1, P3. rewrite A2 in P2, P3.
  exists ts, v, t, u, tv, bf, w, ((tv, 16) :: objs), Ms2, X2, G2.
  split; [exact E|]. split; [exact Ev|]. split; [exact Hrun|]. split; [exact Hcpu|]. split.
  { destruct (ig_lock _ _ _ _ IM) as [L1 L2]. fold ke in L1. cbv zeta. rewrite Hli; [apply Hlock| |exact L2]. exact (Z.lt_le_trans _ _ _ L1 (Zplus_le_compat_l _ _ _ Hz)). }
  split; [exact Wd|].
  split; [exact I2|]. split; [exact R2|]. split; [right; exact Hb|]. split; [right; apply Ho; right; left|]. split; [exact W|].
  split; [first [exact A1|reflexivity]|]. split; [first [exact A2|reflexivity]|]. split; [exact A3|]. split; [exact V2|]. split; [exact V3|].
  split; [lia|]. split; [lia|]. split; [exact P1|]. split; [exact P2|].
  split; [intros a H1 H2; rewrite <- Hp; apply P3; assumption|]. split; [exact Ch|]. split; [auto|].
  rewrite C4; [exact Eu|]. intros ->. apply V8. left.
Qed.

(** The state that [late] ends in, after the allocations. *)
Definition late_state (ts : Timer.timer_list (Task.sched machine)) (v : Vbe.video (Task.sched machine)) (w : machine) (kb : Z) (w' : machine) : kernel :=
  let i := Interrupts.register_interrupt_handler 0x21 (keyboard_input_handler im) (Timer.init_timer (timer_schedule im) (idt k)) in
  let kbd := Keyboard.set_caps 0 (Keyboard.set_alt 0 (Keyboard.set_shift 0 (Keyboard.set_crtl 0 (keyboard k)))) in
  let k5 := start_terminal ld (load_font im (set_video v (set_timer_list ts (set_idt (Timer.init_timer (timer_schedule im) (idt k)) k)))) in
  set_sched (Task.set_heap w' (Task.set_heap w (Timer.world ts))) (set_idt i (set_keyboard kb kbd k5)).

Lemma late_run ts v w kb w' :
  Task.init_schedule (tasks im) (kernel_stack im) pd (S depth) fuel (task_schedule im) (timer_list k) = Some ts ->
  Vbe.init_vbe mode pd (swap_buffer im) (video (set_timer_list ts k)) = Some v ->
  Timer.world (Vbe.timers v) = Task.set_heap w (Timer.world ts) ->
  h_kmalloc Keyboard.keyboard_output_buffer_length w = Some (kb, w') ->
  late k = Some (late_state ts v w kb w').
Proof.
  intros E1 E2 Wd E3. unfold late. cbv zeta. unfold start_schedule at 1.
  change (timer_list (set_idt (Timer.init_timer (timer_schedule im) (idt k)) k)) with (timer_list k). fold pd. rewrite E1. cbn [mbind option_bind].
  unfold start_vbe at 1. fold mode pd.
  change (video (set_timer_list ts (set_idt (Timer.init_timer (timer_schedule im) (idt k)) k))) with (video (set_timer_list ts k)).
  rewrite E2. cbn [mbind option_bind]. unfold late_state. set (k5 := start_terminal ld _). cbv zeta.
  unfold start_keyboard, Keyboard.init_keyboard. cbv zeta.
  change (sched k5) with (Timer.world (Vbe.timers v)). rewrite Wd. cbn [h_kmalloc Task.sched_heap].
  change (Task.heap (Task.set_heap w (Timer.world ts))) with w. rewrite E3. reflexivity.
Qed.

(** An address in front of the screens. *)
Lemma low_screens a bf (m m' : memory) :
  PAGE_OFFSET + ke <= bf -> PAGE_OFFSET + ke <= Vbe.physbase mode -> a < PAGE_OFFSET + ke ->
  (forall a, ~ Vbe.screen_bytes (Vbe.physbase mode) mode a -> ~ Vbe.screen_bytes bf mode a -> CString.ld m' a = CString.ld m a) -> CString.ld m' a = CString.ld m a.
Proof. intros Hb Hv Ha Hm. apply Hm; unfold Vbe.screen_bytes; lia. Qed.

Lemma late_phase :
  exists k' objs, late k = Some k' /\ running im mode k' /\ shows_text mode k' Layout.blank_page /\ settled mode k' objs
    /\ first_task im (sched k') (Task.current_task (sched k'))
    /\ Task.cpu (sched k') = Task.cpu (sched k) /\ idle_lock im k'
    /\ Vbe.all_pixels (Vbe.physbase mode) mode (Vbe.pixels (video k')) 0xffffff
    /\ low_kept (PAGE_OFFSET + ke) (Vbe.pixels (video k0)) k'
    /\ Interrupts.idt_entries (idt k') = Interrupts.idt_entries (idt k)
    /\ Interrupts.events (idt k') = Interrupts.events (idt k)
         ++ [Interrupts.Outb 0x43 0x36; Interrupts.Outb 0x40 0xA9; Interrupts.Outb 0x40 0x4].
Proof.
  destruct screen_phase as (ts & v & t & u & tv & bf & w & objs & Ms2 & X2 & G2 & E1 & E2 & Hrun & Hcpu & Hli & Wd & I2 & R2
    & Hb & Htin & W & A1 & A2 & A3 & T2 & Hap & B1 & B2 & P1 & P2 & P3 & Ch & (C1 & C2 & C3) & Cu).
  destruct late_placed as [PL _].
  destruct (serve_small pd z PL w _ _ _ _ 0 Keyboard.keyboard_output_buffer_length I2 R2 ltac:(unfold Keyboard.keyboard_output_buffer_length; lia))
    as (kb & w' & Ms3 & X3 & E3 & I3 & _ & S3).
  destruct (screen_size mode SC) as (Hs & _ & _ & Hh).
  assert (PAGE_OFFSET + ke <= Vbe.physbase mode) as Hk.
  { destruct SC as [_ _ _ [_ S5]]. destruct late_placed as [[_ [P4 P5]] P6]. unfold PAGE_SIZE in *. lia. }
  destruct (font_ready mode (psf_start im) (PAGE_OFFSET + ke) (Vbe.pixels (video k0)) (Vbe.pixels v) (Vbe.physbase mode) bf) as [RD RF];
    [exact (ig_font _ _ _ _ IM)|exact T2|exact B2|exact B1|exact Hk|lia|exact P3|].
  set (k6 := late_state ts v w kb w'). pose proof (late_run ts v w kb w' E1 E2 Wd E3 : late k = Some k6) as E.
  exists k6, ((kb, 512) :: objs). split; [exact E|].
  assert (Vbe.vram (video k6) = Vbe.physbase mode) as F1 by exact A1.
  assert (Vbe.vbe_buffer (video k6) = bf) as F2 by exact A2.
  assert (Vbe.vram_size (video k6) = Vbe.size_of mode) as F3 by exact A3.
  assert (machine_of k6 = w') as F4 by reflexivity.
  assert (timer_list k6 = Timer.set_world (Task.set_heap w' (Task.set_heap w (Timer.world ts))) (Vbe.timers v)) as F5 by reflexivity.
  clear E. split; [split|split; [|split]].
  - exists tv, u. split; [exact Ch| |].
    + rewrite F5.
      change (Timer.timer (Timer.set_world ?x ?y)) with (Timer.timer y). rewrite C1, C2, C3. split; [reflexivity|]. split; [reflexivity|lia].
    + rewrite F5.
      change (Timer.timer (Timer.set_world ?x ?y)) with (Timer.timer y). rewrite Cu. cbn [Timer.callback_func Timer.interval Timer.elapse].
      split; [reflexivity|]. split; [reflexivity|lia].
  - change (Interrupts.interrupt_handlers (idt k6))
      with (<[33 := keyboard_input_handler im]> (<[32 := timer_schedule im]> (Interrupts.interrupt_handlers (idt k)))).
    rewrite Hidt. reflexivity.
  - rewrite F1, F2. split; [apply SC|exact Hap].
  - rewrite F2, F3. exact RD.
  - rewrite F1. exact RF.
  - unfold shows_text. rewrite F2. exact (GuiTerminal.init_shows mode bf (Vbe.size_of mode) _ _ (Vbe.pixels v) RD P2).
  - split; [left|rewrite F2; right; exact Hb| |exact (iv_apart _ _ _ _ _ _ _ I3)| | |]; rewrite ?F4.
    + change (Task.current_task (sched k6)) with (Task.current_task (Timer.world ts)). rewrite (proj1 (proj2 Hrun)). right. exact Htin.
    + exact (iv_linear _ _ _ _ _ _ _ I3).
    + intros a n c Hin Hca. pose proof (obj_address pd z PL w' _ _ _ _ a n c I3 Hin Hca) as Hz2.
      rewrite <- (iv_linear _ _ _ _ _ _ _ I3 _ Hz2). f_equal. lia.
    + intros x Hx. rewrite (walk_same _ _ _ S3). apply W, Hx.
  - change (Task.current_task (sched k6)) with (Task.current_task (Timer.world ts)). destruct Hrun as ([Q1 Q2 Q3] & Hcur & Hpid). rewrite Hcur.
    split; [split; [split; assumption|split; [exact Hcur|exact Hpid]]|]. split; [exact Hcpu|]. split; [split; [apply Hlock|exact Hli]|]. split; [exact P1|].
    split; [split; [exact (fun a H => low_screens a bf _ _ B1 Hk H P3)|rewrite F1, F2; split; assumption]|]. split; [reflexivity|].
    cbn. rewrite <- !app_assoc. reflexivity.
Qed.
End late.

Lemma early_phase :
  Timer.timer_chain (timer_list early) [] /\ Klist.ring (Task.links (sched early)) (tasks im) []
  /\ Vbe.pixels (video early) = Vbe.pixels (video k0) /\ Task.cpu (sched early) = Task.sti (Task.cpu (sched k0))
  /\ idt early = Interrupts.init_idt (isr im) (isr_handler255 im) (page_fault im) (idt_entries im) (idt k0) /\ idle_lock im early.
Proof. destruct FR as [_ _ _ F4 F6 F5]. split; [exact F4|]. split; [exact F5|]. auto. Qed.

Lemma kernel_main_ok :
  exists k objs, kernel_main im ld (S depth) fuel k0 = Some k
    /\ running im mode k /\ shows_text mode k Layout.blank_page /\ settled mode k objs
    /\ first_task im (sched k) (Task.current_task (sched k))
    /\ Task.cpu (sched k) = Task.sti (Task.cpu (sched k0)) /\ idle_lock im k
    /\ Vbe.all_pixels (Vbe.physbase mode) mode (Vbe.pixels (video k)) 0xffffff
    /\ low_kept (PAGE_OFFSET + ke) (Vbe.pixels (video k0)) k
    /\ (let i := Interrupts.init_idt (isr im) (isr_handler255 im) (page_fault im) (idt_entries im) (idt k0) in
        Interrupts.idt_entries (idt k) = Interrupts.idt_entries i
        /\ Interrupts.events (idt k) = Interrupts.events i
           ++ [Interrupts.Outb 0x43 0x36; Interrupts.Outb 0x40 0xA9; Interrupts.Outb 0x40 0x4]).
Proof.
  rewrite kernel_main_phases. destruct memory_phase as (w & Ms & E & I & R). destruct early_phase as (H1 & H2 & H3 & H4 & H5 & H6).
  destruct (Interrupts.init_idt_ok (isr im) (isr_handler255 im) (page_fault im) (idt_entries im) (idt k0) (ig_isr _ _ _ _ IM)) as (_ & _ & _ & Hi).
  rewrite <- H5 in Hi. rewrite E. cbn [mbind option_bind]. generalize dependent early. intros k1 _ H1 H2 H3 H4 H5 H6 Hi.
  destruct (late_phase (set_machine w k1) Ms _ _ I R H1 H2 H3 H6 Hi) as (k & objs & E2 & Rn & St & Se & Ru & Hc & Hlk & Hp & Hlow & He & Hv).
  exists k, objs. split; [exact E2|]. split; [exact Rn|]. split; [exact St|]. split; [exact Se|]. split; [exact Ru|].
  change (Vbe.pixels (video (set_machine w k1))) with (Vbe.pixels (video k1)) in *. change (idt (set_machine w k1)) with (idt k1) in *. change (Task.cpu (sched (set_machine w k1))) with (Task.cpu (sched k1)) in Hc.
  rewrite H4 in Hc. rewrite H5 in He, Hv. auto 8.
Qed.
End boot.

(** [C1] Loaded on a machine with enough memory and a true-colour mode, the kernel
    starts: [kernel_main] reaches its idle loop with interrupts enabled, every
    interrupt line routed to its stub and the clock and keyboard handlers in place;
    the first task runs with number 0 and is alone in the run list; the two timers call the
    scheduler and the screen update at their rates; all that was allocated on the
    way, the task, the timers, the back buffer, the keyboard buffer and the tables
    for the screen, lies apart and is mapped; the screen is white, the terminal is
    empty and ready to draw, and the lock of [printf] is free. *)
Theorem kernel_main_boots im ld tables stack loader_at b e depth fuel k0 :
  (10 <= fuel)%nat -> Z.of_nat fuel < 2 ^ 32 ->
  fresh im tables stack loader_at b k0 -> image_ok im tables (mode_info ld) (Vbe.pixels (video k0)) ->
  region_ok (kernel_end_phys im) (mmap ld) 18 e -> screen_ok (mode_info ld) ->
  exists k objs, kernel_main im ld (S depth) fuel k0 = Some k
    /\ running im (mode_info ld) k /\ shows_text (mode_info ld) k Layout.blank_page /\ settled (mode_info ld) k objs
    /\ first_task im (sched k) (Task.current_task (sched k))
    /\ Task.interruptible (Task.cpu (sched k)) = true /\ idle_lock im k
    /\ Vbe.all_pixels (Vbe.physbase (mode_info ld)) (mode_info ld) (Vbe.pixels (video k)) 0xffffff
    /\ (forall irq, 0 <= irq < 16 -> Interrupts.irq_vector (Interrupts.pics (Interrupts.events (idt k))) irq = Some (32 + irq))
    /\ (forall n, 0 <= n < 48 \/ n = 255 -> Interrupts.reaches (Interrupts.idt_entries (idt k) !!! n) (isr im n)).
Proof.
  intros Hf Hf2 FR IM RG SC.
  destruct (kernel_main_ok im ld tables stack loader_at b e depth fuel k0 (conj Hf Hf2) FR IM RG SC)
    as (k & objs & E & Rn & St & Se & Ru & Hc & Hlk & Hp & _ & He & Hv).
  destruct (Interrupts.init_idt_ok (isr im) (isr_handler255 im) (page_fault im) (idt_entries im) (idt k0) (ig_isr _ _ _ _ IM)) as (I1 & _ & I3 & _).
  exists k, objs. split; [exact E|]. split; [exact Rn|]. split; [exact St|]. split; [exact Se|]. split; [exact Ru|].
  split; [rewrite Hc; apply TaskProofs.sti_interruptible|]. split; [exact Hlk|]. split; [exact Hp|]. split.
  - intros irq Hirq. rewrite Hv, I3, <- !app_assoc. apply Interrupts.lines_routed; [|exact Hirq]. intros [? ?]. reflexivity.
  - intros n Hn. rewrite He. apply I1, Hn.
Qed.

(** ** An instance *)

(** A kernel that ends at 3 MiB on a machine of 129 MiB, in a mode of 64 by 16
    pixels, with a font of 8 by 8 pixels. *)
Definition image0 : image :=
  Image 0xC0100000 0x300000 0xC01E2000 0xC01E3000 (fun n => 0xC0102000 + 16 * (n mod 256)) 1 2 3 4 0xC01F0000 0xC01E8000 5 0xC0200000 6 0xC01F1000.
Definition loader0 : loader :=
  Loader [MmapEntry 0 0 0x9FC00 0 1; MmapEntry 0x100000 0 0x8000000 0 1] (Vbe.ModeInfo 256 64 16 32 0xFD000000).
Definition font0 : memory :=
  st 0xC0200008 32 (st 0xC0200014 8 (st 0xC0200018 8 (st 0xC020001C 8 (st (0xC0200020 + 65 * 8) 0x80 ∅)))).

(** What [kernel_main_init] leaves of an empty memory. *)
Definition boot0 : boot pmm := Boot (empty_vmm empty_pmm) 0 0 0.
Definition tables0 : vmm pmm := vm (kernel_main_init 0xC01E8000 0x9000 0xC0100000 0xC0101000 boot0).

(** The static data of the kernel, with page tables [s]. *)
Definition kernel_with (s : vmm pmm) : kernel :=
  Kernel (Gdt.Gdt ∅ (Gdt.GdtPtr 0 0) None) (Interrupts.Idt ∅ ∅ []) (Tty.Terminal 0 0 0 ∅ [])
    (Vbe.Video font0 0 0 0
       (Timer.Timers 0 ∅
          (Task.Sched Kmap.map_init 0 0 0 ∅ (Klist.INIT_LIST_HEAD 0xC01F1008 (Klist.INIT_LIST_HEAD 0xC01F0000 ∅)) ∅ (Task.Context_ 0 0 0 0 0 0)
             (Machine (vm_mem s) (vm_cr3 s) (Kmm.Kmm ∅ ∅ ∅ (vm_pool s))))))
    0 0 (GuiTerminal.Terminal 0 0 0 0 0 0 0 0 0 0) Keyboard.keyboard0 0 {[0xC01F1000 := Sync.Lock 0 (-1)]} (Printf.HexFlags 0 0 0 0).
Definition kernel0 : kernel := kernel_with tables0.

Lemma fresh0 : fresh image0 0xC0101000 0xC01E8000 0x9000 boot0 kernel0.
Proof.
  split.
  - change (vm (kernel_main_init 0xC01E8000 0x9000 (pgd_k image0) 0xC0101000 boot0)) with tables0.
    unfold kernel0. generalize tables0. intros [m p c]. reflexivity.
  - intros i _. reflexivity.
  - unfold kernel0. generalize tables0. intros s. split; [reflexivity|]. intros a. unfold Kmm.load.
    change (in_u8 ((∅ : gmap Z Z) !!! a)). rewrite lookup_total_empty. split; vm_compute; congruence.
  - split; [constructor|reflexivity].
  - unfold kernel0. generalize tables0. intros s. split; vm_compute; reflexivity.
  - unfold kernel0. generalize tables0. intros s. split; [apply NoDup_singleton|vm_compute; auto].
Qed.

Lemma image0_ok : image_ok image0 0xC0101000 (mode_info loader0) font0.
Proof.
  split.
  - exact linked0.
  - split; vm_compute; discriminate.
  - reflexivity.
  - split; [reflexivity|discriminate].
  - intros n. cbn [isr image0]. pose proof (Z.mod_pos_bound n 256 ltac:(lia)). unfold in_u32. lia.
  - split; vm_compute; repeat split; discriminate.
Qed.

Lemma region0_ok : region_ok 0x300000 (mmap loader0) 18 (MmapEntry 0x100000 0 0x8000000 0 1).
Proof. split; [reflexivity|split; reflexivity|split; vm_compute; discriminate|split; vm_compute; [reflexivity|discriminate]]. Qed.

Lemma screen0_ok : screen_ok (mode_info loader0).
Proof.
  split; [|reflexivity|vm_compute; discriminate|split; [exists 0xFD000; reflexivity|vm_compute; discriminate]].
  apply (Vbe.small_true_color 0xFD000000). split; discriminate.
Qed.

Lemma kernel_main_boots_witness :
  exists k objs, kernel_main image0 loader0 1 10 kernel0 = Some k
    /\ shows_text (mode_info loader0) k Layout.blank_page /\ (keyboard_output_buffer k, 512) ∈ objs /\ ForallOrdPairs separate objs
    /\ walk PAGE_OFFSET (vm_of (machine_of k)) 0xFD000abc = Some 0xFD000abc.
Proof.
  destruct (kernel_main_boots image0 loader0 0xC0101000 0xC01E8000 0x9000 boot0 (MmapEntry 0x100000 0 0x8000000 0 1) 0 10 kernel0
    ltac:(lia) ltac:(lia) fresh0 image0_ok region0_ok screen0_ok) as (k & objs & E & _ & Ht & S & _).
  exists k, objs. split; [exact E|]. split; [exact Ht|]. split; [exact (st_keyboard _ _ _ S)|]. split; [exact (st_apart _ _ _ S)|].
  exact (st_screen _ _ _ S 0xabc ltac:(split; [discriminate|reflexivity])).
Defined.
