(* ===== verification/KernelText.v ===== *)
(** * Text on the running kernel

    What the terminal shows does not depend on memory outside its buffer and the
    font; what is written to it extends the page it shows, and the kernel keeps
    running. *)

From S2P Require Import Prelude CString Layout Machine Kernel KernelBoot.
From S2P Require Interrupts Timer Vbe GuiTerminal.

(** ** The terminal after memory outside its buffer has changed *)

Section moved.
Context (mode : Vbe.mode_info_block) (b vs font glyphs : Z) (m0 m1 : memory).
Context (RD : GuiTerminal.ready mode b vs font glyphs m0).
Context (Hfont : forall a, font + 20 <= a < font + 32 \/ glyphs <= a < glyphs + 128 * GuiTerminal.bytesperglyph m0 font -> ld m1 a = ld m0 a).

Lemma font_fields :
  GuiTerminal.font_height m1 font = GuiTerminal.font_height m0 font /\ GuiTerminal.font_width m1 font = GuiTerminal.font_width m0 font
  /\ GuiTerminal.bytesperglyph m1 font = GuiTerminal.bytesperglyph m0 font.
Proof. split; [|split]; apply GuiTerminal.ld32_ext; intros k Hk; apply Hfont; left; lia. Qed.

Lemma ready_moved : GuiTerminal.ready mode b vs font glyphs m1.
Proof. destruct RD as [R1 R2 R3 R4 R5 R6 R7]. destruct font_fields as (E1 & E2 & E3). split; rewrite ?E1, ?E2, ?E3; assumption. Qed.

(** A page of ASCII characters only needs the glyphs of the font. *)
Definition ascii (p : page) : Prop := forall l x c, pg_char p l x = Some c -> 0 <= c < 128.

Lemma ink_moved c i j :
  0 <= c < 128 -> 0 <= i < GuiTerminal.font_height m0 font -> 0 <= j < GuiTerminal.font_width m0 font ->
  GuiTerminal.ink font glyphs m1 c i j = GuiTerminal.ink font glyphs m0 c i j.
Proof.
  intros Hc Hi Hj. unfold GuiTerminal.ink. destruct font_fields as (_ & -> & ->). f_equal. apply Hfont. right.
  destruct RD as [_ _ _ _ R5 _ _]. set (h := GuiTerminal.font_height m0 font) in *. set (w := GuiTerminal.font_width m0 font) in *.
  set (g := GuiTerminal.bytesperglyph m0 font) in *. assert (0 <= j + i * w < h * w) by nia.
  assert (0 <= (j + i * w) / 8 < g) by (split; [apply Z.div_pos; lia|apply Z.div_lt_upper_bound; lia]).
  assert (0 <= c * g /\ c * g + g <= 128 * g) by nia. lia.
Qed.

Lemma drawn_moved base base' m m' y x o :
  (forall x y, Vbe.in_screen mode x y -> Vbe.pixel base' mode m' x y = Vbe.pixel base mode m x y) ->
  on_screen (GuiTerminal.text_rows mode font m0) (GuiTerminal.text_cols mode font m0) y x ->
  (forall c, o = Some c -> 0 <= c < 128) ->
  GuiTerminal.drawn mode font glyphs m0 base m y x o -> GuiTerminal.drawn mode font glyphs m1 base' m' y x o.
Proof.
  intros Hp Hyx Ho D i j. destruct font_fields as (E1 & E2 & E3). rewrite E1, E2. intros Hi Hj.
  rewrite Hp by (apply (GuiTerminal.cell_in_screen _ _ _ _ _ _ RD); assumption).
  rewrite (D i j Hi Hj). f_equal. destruct o as [c|]; [|reflexivity]. unfold GuiTerminal.cell_color.
  rewrite ink_moved by (try assumption; apply Ho; reflexivity). reflexivity.
Qed.

(** The terminal [t] on the buffer, whose pixels are the same. *)
Lemma shows_moved t m m' p :
  (forall x y, Vbe.in_screen mode x y -> Vbe.pixel b mode m' x y = Vbe.pixel b mode m x y) ->
  Vbe.same_elsewhere b mode m1 m' -> ascii p ->
  GuiTerminal.terminal_shows mode b font glyphs m0 (GuiTerminal.Gui t m) p ->
  GuiTerminal.terminal_shows mode b font glyphs m1 (GuiTerminal.Gui t m') p.
Proof.
  intros Hp Hm Ha [[G L1 L2 L3 L4] S2 S3]. destruct font_fields as (E1 & E2 & E3).
  assert (GuiTerminal.text_rows mode font m1 = GuiTerminal.text_rows mode font m0
          /\ GuiTerminal.text_cols mode font m1 = GuiTerminal.text_cols mode font m0) as [E4 E5]
    by (unfold GuiTerminal.text_rows, GuiTerminal.text_cols; rewrite E1, E2; auto).
  unfold GuiTerminal.terminal_shows. rewrite E4, E5. split; [split|exact S2|exact S3]; try assumption.
  - destruct G as [_ G2 G3 G4 G5 G6 G7 G8]. split; cbn [GuiTerminal.main_terminal GuiTerminal.mem] in *; rewrite ?E1, ?E2; try assumption.
    intros x y Hxy Ho. rewrite (Hp x y Hxy). apply G8; assumption.
  - intros y x Hyx. apply (drawn_moved b b m m' y x _ Hp Hyx); [intros c; apply Ha|]. apply L3, Hyx.
Qed.
End moved.

Lemma ascii_blank : ascii blank_page.
Proof. intros l x c E. discriminate E. Qed.

Lemma ascii_put cols c p : 0 <= c < 128 -> ascii p -> ascii (page_put cols c p).
Proof.
  intros Hc Ha l x d. unfold page_put, page_newline, page_mark. case_match; [apply Ha|]. cbv zeta. cbn [pg_col].
  assert ((if (l =? pg_line p) && (x =? pg_col p) then Some c else pg_char p l x) = Some d -> 0 <= d < 128) as Hl
    by (destruct (_ && _); [intros E; injection E as <-; exact Hc|apply Ha]).
  destruct (_ =? cols); exact Hl.
Qed.

Lemma ascii_text cols text p : (forall c, c ∈ text -> 0 <= c < 128) -> ascii p -> ascii (foldl (fun p c => page_put cols c p) p text).
Proof.
  revert p. induction text as [|c text IH]; intros p Hc Ha; [exact Ha|]. apply IH.
  - intros d Hd. apply Hc. right. exact Hd.
  - apply ascii_put; [apply Hc; left|exact Ha].
Qed.

(** ** The kernel after such a change *)

Section kept.
Context (im : image) (mode : Vbe.mode_info_block) (k k' : kernel) (tv tt : Z).
Context (RN : running im mode k).

Definition same_font : Prop := forall a,
  font k + 20 <= a < font k + 32 \/ glyphs k <= a < glyphs k + 128 * GuiTerminal.bytesperglyph (Vbe.pixels (video k)) (font k) ->
  ld (Vbe.pixels (video k')) a = ld (Vbe.pixels (video k)) a.

Lemma kept_running :
  same_font -> clock_ok im k' tv tt -> Vbe.vram (video k') = Vbe.vram (video k) -> Vbe.vbe_buffer (video k') = Vbe.vbe_buffer (video k) ->
  Vbe.vram_size (video k') = Vbe.vram_size (video k) -> font k' = font k -> glyphs k' = glyphs k ->
  Interrupts.interrupt_handlers (idt k') = Interrupts.interrupt_handlers (idt k) -> running im mode k'.
Proof.
  intros kept_font CK V1 V2 V3 V4 V5 V7.
  pose proof RN as [_ R2 R3 R4 R5].
  destruct (font_fields _ _ _ _ kept_font) as (_ & _ & E).
  split; rewrite ?V1, ?V2, ?V3, ?V4, ?V5, ?V7; try assumption; [exists tv, tt; exact CK| |].
  - exact (ready_moved _ _ _ _ _ _ _ R4 kept_font).
  - rewrite E. exact R5.
Qed.

End kept.

(** Only the screen, the font, the timers and the handlers matter. *)
Lemma clock_ext im k k' tv tt : timer_list k' = timer_list k -> clock_ok im k tv tt -> clock_ok im k' tv tt.
Proof. intros E [C1 C2 C3]. split; rewrite E; assumption. Qed.


(** ** Text *)

Section text.
Context (im : image) (ld : loader) (k : kernel) (text : list Z) (p : page).
Let mode := mode_info ld.
Let v := video k.
Let C := GuiTerminal.text_cols mode (font k) (Vbe.pixels v).
Context (RN : running im mode k) (ST : shows_text mode k p) (Ha : ascii p) (Ht : forall c, c ∈ text -> 0 <= c < 128).

(** The lines that [text] adds to the page. *)
Definition written : page := foldl (fun p c => page_put C c p) p text.

(** The terminal after the text: the page, and memory outside the buffer. *)
Lemma terminal_written :
  let k' := main_terminal_write ld text k in
  GuiTerminal.terminal_shows mode (Vbe.vbe_buffer v) (font k) (glyphs k) (Vbe.pixels v) (GuiTerminal.Gui (main_terminal k') (Vbe.pixels (video k'))) written
  /\ Vbe.same_elsewhere (Vbe.vbe_buffer v) mode (Vbe.pixels v) (Vbe.pixels (video k')).
Proof.
  pose proof (write_shows _ _ _ _ _ _ (GuiTerminal.main_terminal_putchar mode (Vbe.vbe_buffer v) (Vbe.vram_size v) (font k) (glyphs k)) text _ p
    (fun c t q Hc => GuiTerminal.gui_putchar_shows _ _ _ _ _ _ (rn_ready _ _ _ RN) c t q (Ht c Hc)) ST) as S.
  unfold main_terminal_write. unfold GuiTerminal.main_terminal_write. fold mode v.
  set (g := foldl _ _ text) in *. clearbody g. destruct g as [t m]. fold C in S. fold written in S.
  split; [exact S|]. exact (GuiTerminal.go_mem _ _ _ _ _ (sl_inv _ _ _ _ _ _ _ (sh_lines _ _ _ _ _ _ _ _ S))).
Qed.

Lemma main_terminal_write_ok :
  running im mode (main_terminal_write ld text k) /\ shows_text mode (main_terminal_write ld text k) written.
Proof.
  pose proof RN as [(tv & tt & CK) _ _ RD _]. destruct terminal_written as [S Hm]. set (k' := main_terminal_write ld text k) in *.
  assert (same_font k k') as Hf by (intros a Hin; apply Hm, (GuiTerminal.rd_font _ _ _ _ _ _ RD), Hin).
  split.
  - apply (kept_running im mode k k' tv tt RN Hf); try reflexivity. apply (clock_ext im k); [reflexivity|exact CK].
  - refine (shows_moved mode _ _ _ _ _ _ RD Hf _ _ _ _ _ _ (ascii_text _ _ _ Ht Ha) S); [reflexivity|intros a _; reflexivity].
Qed.
End text.
