(* ===== verification/Console.v ===== *)
(** * printf on the running kernel

    libc's [putchar] draws on the graphical terminal, [print] holds the mutex
    [io_lock] while it does, and [printf] is the interpreter of Printf.v on that
    sink.  What the kernel reports with it: an interrupt without a device, a page
    fault, the memory map, a call of [abort]. *)

From stdpp Require Import strings.
From S2P Require Import Prelude Layout Machine Kernel KernelBoot KernelText.
From S2P Require Pmm Interrupts Klist Task Vbe GuiTerminal Sync Printf PrintfProofs.

(** A [char], which is signed. *)
Definition s8 (x : Z) : Z := let y := u8 x in if y <? 128 then y else y - 256.
Definition EOF : Z := -1.

(** A string literal, and one that ends with a new line. *)
Fixpoint chars (s : string) : list Z :=
  match s with
  | EmptyString => []
  | String c s => Z.of_N (Ascii.N_of_ascii c) :: chars s
  end.
Definition line (s : string) : list Z := chars s ++ [10].

Section io.
Context (im : image) (ld : loader).
Implicit Types k : kernel.

Definition putchar (ic : Z) k : Z * kernel :=
  let c := s8 ic in
  let k := main_terminal_write ld [c] k in
  (ic, k).

(** The locks beside the scheduler. *)
Definition sync_of k : Sync.sync machine := Sync.Sync (sched k) (locks k) ∅.
Definition set_sync (s : Sync.sync machine) k : kernel := set_locks (Sync.locks s) (set_sched (Sync.sch s) k).

Fixpoint put_bytes (bytes : list Z) k : bool * kernel :=
  match bytes with
  | [] => (true, k)
  | c :: bytes =>
      let '(r, k) := putchar (u8 c) k in
      if r =? EOF then (false, k) else put_bytes bytes k
  end.

(** [None] when the task has to wait for the lock. *)
Definition print (data : list Z) k : option (bool * kernel) :=
  match Sync.mutex_acquire (tasks im) (io_lock im) (sync_of k) with
  | Sync.Done _ s =>
      let '(ok, k) := put_bytes data (set_sync s k) in
      Some (ok, set_sync (Sync.mutex_release (io_lock im) (sync_of k)) k)
  | Sync.Blocked _ => None
  end.

Definition console : Printf.Sink kernel := {| Printf.sink := print |}.
#[local] Existing Instance console.

Definition printf (format : list Z) (args : list Printf.argument) k : option (Z * kernel) :=
  '(written, st) ← Printf.printf format args (printf_flags k) k;
  Some (written, set_printf_flags (Printf.pf_flags st) (Printf.pf_out st)).

(** A call of [printf] whose result is not used. *)
Definition say (format : list Z) (args : list Printf.argument) k : option kernel :=
  '(_, k) ← printf format args k; Some k.

Definition puts (string : list Z) k : option (Z * kernel) := printf (line "%s") [Printf.AStr string] k.

(** The state in which [abort] loops. *)
Definition abort k : option kernel := say (line "kernel: panic: abort()") [] k.

Definition isr_handler255 (regs : Interrupts.pt_regs) k : option kernel := say (line "Interrupt No.255 is processed") [] k.

Definition report_fault (pid cr2 : Z) (regs : Interrupts.pt_regs) k : option kernel :=
  let bit m := negb (Z.land (Interrupts.err_code regs) m =? 0) in
  k ← say (line "At thread PID = %d:") [Printf.AInt pid] k;
  k ← say (line "Page fault at %#08X, virtual faulting address %#08X") [Printf.AInt (Interrupts.eip regs); Printf.AInt cr2] k;
  k ← say (line "Error code: %x") [Printf.AInt (Interrupts.err_code regs)] k;
  k ← (if negb (bit 0x1) then say (line "Because the page wasn't present.") [] k else Some k);
  k ← (if bit 0x2 then say (line "Write error.") [] k else say (line "Read error.") [] k);
  k ← (if bit 0x4 then say (line "In user mode.") [] k else say (line "In kernel mode.") [] k);
  k ← (if bit 0x8 then say (line "Reserved bits being overwritten.") [] k else Some k);
  if bit 0x10 then say (line "The fault occurred during an instruction fetch.") [] k else Some k.

(** The state in which the handler loops; [cr2] is the faulting address. *)
Definition page_fault (cr2 : Z) (regs : Interrupts.pt_regs) k : option kernel :=
  report_fault (Task.pid (Task.task (sched k) (Task.current_task (sched k)))) cr2 regs k.

Definition show_memory_map k : option kernel :=
  k ← say (line "Memory map:") [] k;
  foldl (fun acc e =>
           k ← acc;
           say (line "base_addr = 0x%X%X, length = 0x%X%X, type = 0x%X")
             [Printf.AInt (Pmm.base_addr_high e); Printf.AInt (Pmm.base_addr_low e);
              Printf.AInt (Pmm.length_high e); Printf.AInt (Pmm.length_low e); Printf.AInt (Pmm.mmap_type e)] k)
    (Some k) (mmap ld).
End io.

(** ** The mutex around the output *)

(** Nobody prints, and interrupts are enabled. *)
Definition idle (im : image) (k : kernel) : Prop := idle_lock im k /\ Task.interruptible (Task.cpu (sched k)) = true.

Lemma sti_cli c : Task.interruptible c = true -> Task.sti (Task.cli c) = c.
Proof.
  intros H. destruct c as [c1 c2 c3 c4 c5 e]. unfold Task.sti, Task.cli, Task.set_eflags. cbn [Task.eflags Task.esp Task.ebp Task.ebx Task.esi Task.edi].
  f_equal. unfold Task.interruptible in H. cbn [Task.eflags] in H. change Task.IF with (Z.shiftl 1 9) in *. rewrite GuiTerminal.land_bit in H by lia.
  apply Z.bits_inj'. intros n Hn. rewrite Z.lor_spec, Z.ldiff_spec, Z.shiftl_1_l, Z.pow2_bits_eqb by lia.
  destruct (Z.eqb_spec 9 n) as [<-|]; [rewrite H; reflexivity|]. rewrite andb_true_r, orb_false_r. reflexivity.
Qed.

Lemma cli_twice c : Task.cli (Task.cli c) = Task.cli c.
Proof.
  destruct c as [c1 c2 c3 c4 c5 e]. unfold Task.cli, Task.set_eflags. cbn [Task.eflags Task.esp Task.ebp Task.ebx Task.esi Task.edi].
  f_equal. apply Z.bits_inj'. intros n Hn. rewrite !Z.ldiff_spec. destruct (Z.testbit e n), (Z.testbit Task.IF n); reflexivity.
Qed.

Lemma acquire_unlocked {W} tasks l (s : Sync.sync W) :
  Sync.value (Sync.lock s l) = 0 -> Task.interruptible (Task.cpu (Sync.sch s)) = true ->
  exists h, Sync.mutex_acquire tasks l s = Sync.Done tt (Sync.Sync (Sync.sch s) (<[l := Sync.Lock 1 h]> (Sync.locks s)) (Sync.queues s)).
Proof.
  intros Hv Hi. unfold Sync.mutex_acquire, Sync.test_and_set. cbv zeta.
  change (Sync.lock (Sync.asm_cli s) l) with (Sync.lock s l). rewrite Hv. change (negb (0 mod 256 =? 0)) with false. cbv iota.
  exists (Sync.current_pid_of s). f_equal. unfold Sync.take, Sync.asm_sti, Sync.asm_cli, Sync.upd_lock, Sync.set_sch, upd.
  cbn [Sync.sch Sync.locks Sync.queues]. destruct s as [[mp pi cu nx ts li wo cp he] lo qu]. cbn [Task.set_cpu Task.cpu Sync.sch] in *.
  rewrite (sti_cli cp Hi), insert_insert_eq, (lookup_total_insert_eq (M := gmap Z)). reflexivity.
Qed.

Lemma release_alone {W} l (s : Sync.sync W) :
  Klist.next (Task.links (Sync.sch s)) (Sync.waiting_list l) = Sync.waiting_list l ->
  Task.interruptible (Task.cpu (Sync.sch s)) = true ->
  Sync.mutex_release l s = Sync.Sync (Sync.sch s) (<[l := Sync.Lock 0 (-1)]> (Sync.locks s)) (Sync.queues s).
Proof.
  intros Hn Hi. unfold Sync.mutex_release. cbv zeta. unfold Sync.wake.
  change (Task.links (Sync.sch (Sync.asm_cli s))) with (Task.links (Sync.sch s)). rewrite Hn, Z.eqb_refl. cbn [negb].
  unfold Sync.asm_sti, Sync.asm_cli, Sync.upd_lock, Sync.set_sch, upd.
  cbn [Sync.sch Sync.locks Sync.queues]. destruct s as [[mp pi cu nx ts li wo cp he] lo qu]. cbn [Task.set_cpu Task.cpu Sync.sch Sync.locks] in *.
  rewrite (sti_cli cp Hi), insert_insert_eq, (lookup_total_insert_eq (M := gmap Z)). reflexivity.
Qed.

Lemma set_sched_same k : set_sched (sched k) k = k.
Proof. destruct k as [g i t [px vr vs vb [tm ce w]] f gl mt kb ko lo fl]. reflexivity. Qed.

Section proofs.
Context (im : image) (ld : loader).
Implicit Types k : kernel.

(** What [k] is when [text] has been written. *)
Definition wrote (text : list Z) k : kernel := main_terminal_write ld (s8 ∘ u8 <$> text) k.

Lemma wrote_kept text k : sched (wrote text k) = sched k /\ locks (wrote text k) = locks k.
Proof. split; reflexivity. Qed.

Lemma wrote_idle text k : idle im k -> idle im (wrote text k).
Proof. intros H. exact H. Qed.

Lemma wrote_nothing k : wrote [] k = k.
Proof. destruct k as [g i t [px vr vs vb tm] f gl mt kb ko lo fl]. reflexivity. Qed.

Lemma wrote_twice d d' k : wrote (d ++ d') k = wrote d' (wrote d k).
Proof.
  unfold wrote. rewrite fmap_app. unfold main_terminal_write, GuiTerminal.main_terminal_write. cbv zeta. rewrite foldl_app.
  set (g := foldl _ (GuiTerminal.Gui _ _) (_ <$> d)). destruct g as [t m]. reflexivity.
Qed.

Lemma put_bytes_ok bytes k : put_bytes ld bytes k = (true, wrote bytes k).
Proof.
  revert k. induction bytes as [|c bytes IH]; intros k; [rewrite wrote_nothing; reflexivity|].
  change (put_bytes ld (c :: bytes) k) with (if u8 c =? EOF then (false, main_terminal_write ld [s8 (u8 c)] k) else put_bytes ld bytes (main_terminal_write ld [s8 (u8 c)] k)).
  rewrite (proj2 (Z.eqb_neq _ _)) by (unfold u8, EOF; pose proof (Z.mod_pos_bound c 256); lia).
  rewrite IH. f_equal. change (c :: bytes) with ([c] ++ bytes). rewrite wrote_twice. reflexivity.
Qed.

(** The free lock is taken and given back. *)
Lemma print_ok text k : idle im k -> print im ld text k = Some (true, wrote text k).
Proof.
  intros [[L1 L2] Hi]. unfold print.
  destruct (acquire_unlocked (tasks im) (io_lock im) (sync_of k)) as (h & ->); [|exact Hi|].
  { unfold Sync.lock. exact (f_equal Sync.value (lookup_total_correct (M := gmap Z) _ _ _ L1)). }
  rewrite put_bytes_ok. rewrite release_alone; [|exact L2|exact Hi].
  unfold sync_of at 1. cbn [Sync.sch Sync.locks Sync.queues]. do 2 f_equal. unfold set_sync. cbn [Sync.sch Sync.locks].
  change (Sync.locks (sync_of ?x)) with (locks x). change (Sync.sch (sync_of ?x)) with (sched x).
  rewrite set_sched_same. change (wrote text (set_locks ?l k)) with (set_locks l (wrote text k)).
  change (sched (set_locks ?l ?k)) with (sched k). change (locks (set_locks ?l ?k)) with l.
  rewrite insert_insert_eq, insert_id by exact L1.
  change (sched (wrote text k)) with (sched k). destruct k as [g i t [px vr vs vb [tm ce w]] f gl mt kb ko lo fl]. reflexivity.
Qed.
End proofs.
