(* ===== verification/ConsoleProofs.v ===== *)
(** * What the kernel prints

    The text of the reports of Console.v, and that it appears on the terminal. *)

From stdpp Require Import strings.
From S2P Require Import Prelude Layout Printf PrintfProofs Kernel KernelBoot KernelText Console.
From S2P Require Pmm Interrupts Task Sync Machine GuiTerminal.

(** ** The characters printf makes *)

Definition is_ascii (c : Z) : Prop := 0 <= c < 128.

(** Length of what a piece prints, at most; and its own text is ASCII. *)
Definition width (t : token) : nat :=
  match t with Text _ s | Pct s => S (length s) | Dec _ => 11 | Str s => length s | Hex _ _ _ _ => 18 end.
Definition plain (t : token) : Prop :=
  match t with Text c s => Forall is_ascii (c :: s) | Pct s | Str s => Forall is_ascii s | _ => True end.

Lemma notation_digits b n : 2 <= b -> 0 <= n -> Forall (fun d => 0 <= d < b) (notation b n).
Proof.
  intros Hb Hn. unfold notation. destruct (n =? 0); [repeat constructor; lia|].
  apply Forall_forall. intros d. apply digits_range; assumption.
Qed.

Lemma decimal_ascii n : 0 <= n -> Forall is_ascii (decimal n).
Proof.
  intros Hn. apply Forall_fmap. eapply Forall_impl; [apply (notation_digits 10 n); lia|].
  cbv beta. intros d Hd. unfold is_ascii, compose, chr_0. lia.
Qed.

Lemma render_ascii t : token_ok t -> plain t -> Forall is_ascii (render t).
Proof.
  destruct t as [c s|s|n|s|sharp k upper n]; cbn [token_ok plain render]; intros Ht Hp; try exact Hp.
  - constructor; [unfold is_ascii, chr_percent; lia|exact Hp].
  - unfold signed_decimal. destruct (Z.ltb_spec n 0); [constructor; [unfold is_ascii, chr_minus; lia|]|]; apply decimal_ascii; lia.
  - unfold hex_text. rewrite !Forall_app. split; [|split].
    + destruct (_ =? _); repeat constructor; unfold chr_0, chr_x; lia.
    + apply Forall_forall. intros c Hc. apply elem_of_replicate in Hc as [-> _].
      unfold is_ascii. destruct k; vm_compute; split; congruence.
    + apply Forall_fmap. eapply Forall_impl; [apply (notation_digits 16 n); lia|].
      cbv beta. intros d Hd. unfold is_ascii, compose, mapx, mapX, chr_0. case_bools; lia.
Qed.

Lemma render_width t : token_ok t -> (length (render t) <= width t)%nat.
Proof.
  destruct t as [c s|s|n|s|sharp k upper n]; cbn [token_ok width render]; intros Ht; try lia; try (simpl; lia).
  - apply signed_decimal_nonzero, Ht.
  - apply hex_text_nonzero; [exact Ht|destruct k; simpl; lia|destruct k; discriminate].
Qed.

Lemma tokens_each ts : tokens_ok ts -> Forall token_ok ts.
Proof. induction ts as [|t ts IH]; [constructor|]. intros (H1 & H2 & _). constructor; [exact H1|apply IH, H2]. Qed.

Lemma output_ascii ts : tokens_ok ts -> Forall plain ts -> Forall is_ascii (output_of ts).
Proof.
  intros Hok Hp. apply Forall_join, Forall_fmap. apply tokens_each in Hok.
  induction Hok as [|t ts Ht _ IH]; [constructor|]. apply Forall_cons in Hp as [H1 H2].
  constructor; [apply render_ascii; assumption|apply IH, H2].
Qed.

Lemma output_width ts : tokens_ok ts -> (length (output_of ts) <= sum_list_with width ts)%nat.
Proof.
  intros Hok. apply tokens_each in Hok. induction Hok as [|t ts Ht _ IH]; [apply le_n|].
  change (output_of (t :: ts)) with (render t ++ output_of ts). rewrite length_app. simpl sum_list_with.
  pose proof (render_width t Ht). lia.
Qed.

(** The pieces of a concrete format. *)
Ltac pieces_tac := unfold in_u32 in *; repeat split; first [lia|discriminate|apply (bool_decide_unpack _); vm_compute; exact I].

(** ** printf with the lock free *)

Section proofs.
Context (im : image) (ld : loader).
Implicit Types k : kernel.
#[local] Instance here : Sink kernel := console im ld.

#[local] Instance here_laws : SinkLaws kernel.
Proof.
  refine {| accepts := idle im; sent := wrote ld |}.
  - exact (print_ok im ld).
  - intros d k H. exact H.
  - intros k _. apply wrote_nothing.
  - intros d d' k _. apply wrote_twice.
Defined.

(** [text] has been printed. *)
Definition said (text : list Z) k k' : Prop := exists fl, k' = set_printf_flags fl (wrote ld text k).

Lemma said_idle text k k' : said text k k' -> idle im k -> idle im k'.
Proof. intros [fl ->] H. exact H. Qed.

Lemma said_nothing k : said [] k k.
Proof. exists (printf_flags k). rewrite wrote_nothing. destruct k; reflexivity. Qed.

Lemma said_app a b k1 k2 k3 : said a k1 k2 -> said b k2 k3 -> said (a ++ b) k1 k3.
Proof. intros [f1 ->] [f2 ->]. exists f2. rewrite wrote_twice. reflexivity. Qed.

Lemma printf_said ts k :
  tokens_ok ts -> Z.of_nat (length (output_of ts)) <= INT_MAX -> idle im k ->
  exists k', Console.printf im ld (format_of ts) (args_of ts) k = Some (Z.of_nat (length (output_of ts)), k') /\ said (output_of ts) k k'.
Proof.
  intros Hok Hl Hi. destruct (printf_ok (H0 := here_laws) ts (printf_flags k) k Hok Hl Hi) as (st & E & Eo).
  unfold Console.printf. change (console im ld) with here. rewrite E. cbn [mbind option_bind]. eexists. split; [reflexivity|]. exists (pf_flags st). rewrite Eo. reflexivity.
Qed.

(** [f] prints [text] and returns. *)
Definition prints (f : kernel -> option kernel) (text : list Z) : Prop :=
  forall k, idle im k -> exists k', f k = Some k' /\ said text k k' /\ idle im k'.

Lemma prints_nothing : prints Some [].
Proof. intros k Hi. exists k. split; [reflexivity|]. split; [apply said_nothing|exact Hi]. Qed.

Lemma prints_then f g a b : prints f a -> prints g b -> prints (fun k => k ← f k; g k) (a ++ b).
Proof.
  intros Hf Hg k Hi. destruct (Hf k Hi) as (k1 & E1 & S1 & I1). destruct (Hg k1 I1) as (k2 & E2 & S2 & I2).
  exists k2. rewrite E1. split; [exact E2|]. split; [exact (said_app _ _ _ _ _ S1 S2)|exact I2].
Qed.

Lemma prints_if (b : bool) f g x y : prints f x -> prints g y -> prints (fun k => if b then f k else g k) (if b then x else y).
Proof. intros Hf Hg. destruct b; assumption. Qed.

(** A call of [printf]: the format and the arguments are those of the pieces,
    which are short. *)
Definition short (ts : list token) : bool := (sum_list_with width ts <=? 1000)%nat.

Lemma say_prints ts format args :
  format = format_of ts -> args = args_of ts -> tokens_ok ts -> short ts = true -> prints (say im ld format args) (output_of ts).
Proof.
  intros -> -> Hok Hl k Hi. apply Nat.leb_le in Hl. pose proof (output_width ts Hok).
  destruct (printf_said ts k Hok) as (k' & E & S); [unfold INT_MAX; lia|exact Hi|].
  exists k'. unfold say. rewrite E. split; [reflexivity|]. split; [exact S|exact (said_idle _ _ _ S Hi)].
Qed.

Lemma say_pieces ts format args out :
  format = format_of ts -> args = args_of ts -> out = output_of ts -> tokens_ok ts -> short ts = true -> prints (say im ld format args) out.
Proof. intros Ef Ea -> Hok Hs. exact (say_prints ts format args Ef Ea Hok Hs). Qed.

Lemma line_prints s : (chr_percent ∉ line s) -> (length (line s) <= 1000)%nat -> prints (say im ld (line s) []) (line s).
Proof.
  intros Hs Hl. destruct (line s) as [|c l] eqn:El; [destruct s; discriminate El|]. apply not_elem_of_cons in Hs as [Hc Hs].
  assert (output_of [Text c l] = c :: l) as Eo by (unfold output_of; simpl; rewrite app_nil_r; reflexivity).
  rewrite <- Eo at 2. apply say_prints.
  - unfold format_of. simpl. rewrite app_nil_r. reflexivity.
  - reflexivity.
  - repeat split; [congruence|exact Hs].
  - unfold short. simpl in *. apply Nat.leb_le. lia.
Qed.

(** What is said appears on the terminal. *)
Lemma wrote_ascii text k : Forall is_ascii text -> wrote ld text k = main_terminal_write ld text k.
Proof.
  intros Ha. unfold wrote. f_equal. rewrite <- (list_fmap_id text) at 2. apply list_fmap_ext. intros i c Hc.
  apply list_elem_of_lookup_2 in Hc. rewrite Forall_forall in Ha. specialize (Ha c Hc). unfold is_ascii in Ha.
  unfold compose, s8, id. assert (u8 c = c) as Eu by (apply u8_small; unfold in_u8; lia). rewrite !Eu. rewrite (proj2 (Z.ltb_lt _ _)) by lia. reflexivity.
Qed.

Lemma said_shows text k k' p :
  said text k k' -> Forall is_ascii text -> running im (mode_info ld) k -> shows_text (mode_info ld) k p -> ascii p ->
  running im (mode_info ld) k' /\ shows_text (mode_info ld) k' (written ld k text p).
Proof.
  intros [fl ->] Ht RN ST Ha. rewrite wrote_ascii by exact Ht. rewrite Forall_forall in Ht.
  destruct (main_terminal_write_ok im ld k text p RN ST Ha Ht) as [R2 S2]. split; [|exact S2].
  destruct R2 as [[tv [tt CK]] R3 R4 R5 R6]. split; try assumption. exists tv, tt. destruct CK as [C1 C2 C3]. split; assumption.
Qed.

(** ** The reports *)

(** A piece of text. *)
Definition text (l : list Z) : token := match l with [] => Text 0 [] | c :: l => Text c l end.

(** How numbers are shown: at least eight digits behind a prefix, or plainly. *)
Definition hex8 (n : Z) : list Z := hex_text (kind_flags true Wide08 true) n.
Definition hex (upper : bool) (n : Z) : list Z := hex_text (kind_flags false Plain upper) n.

(** The report of a page fault, from the bits of the processor's error code. *)
Definition fault_report (pid cr2 eip err : Z) : list Z :=
  (chars "At thread PID = " ++ signed_decimal pid ++ line ":")
  ++ (chars "Page fault at " ++ hex8 eip ++ chars ", virtual faulting address " ++ hex8 cr2 ++ [10])
  ++ (chars "Error code: " ++ hex false err ++ [10])
  ++ (if Z.testbit err 0 then [] else line "Because the page wasn't present.")
  ++ line (if Z.testbit err 1 then "Write error." else "Read error.")
  ++ line (if Z.testbit err 2 then "In user mode." else "In kernel mode.")
  ++ (if Z.testbit err 3 then line "Reserved bits being overwritten." else [])
  ++ (if Z.testbit err 4 then line "The fault occurred during an instruction fetch." else []).

Ltac line_tac := apply line_prints; [apply (bool_decide_unpack _); vm_compute; exact I|apply Nat.leb_le; vm_compute; reflexivity].

Lemma report_prints pid cr2 regs :
  - 2 ^ 31 <= pid < 2 ^ 31 -> in_u32 cr2 -> in_u32 (Interrupts.eip regs) -> in_u32 (Interrupts.err_code regs) ->
  prints (report_fault im ld pid cr2 regs) (fault_report pid cr2 (Interrupts.eip regs) (Interrupts.err_code regs)).
Proof.
  intros Hp Hc He Hr. unfold report_fault, fault_report. cbv zeta.
  set (err := Interrupts.err_code regs) in *. set (eip := Interrupts.eip regs) in *. clearbody err eip.
  assert (forall n, 0 <= n -> negb (Z.land err (Z.shiftl 1 n) =? 0) = Z.testbit err n) as B by (intros n; apply GuiTerminal.land_bit).
  rewrite (B 0 ltac:(lia) : negb (Z.land err 1 =? 0) = _), (B 1 ltac:(lia) : negb (Z.land err 2 =? 0) = _), (B 2 ltac:(lia) : negb (Z.land err 4 =? 0) = _),
    (B 3 ltac:(lia) : negb (Z.land err 8 =? 0) = _), (B 4 ltac:(lia) : negb (Z.land err 16 =? 0) = _).
  apply prints_then; [|apply prints_then; [|apply prints_then]].
  - apply (say_pieces [text (chars "At thread PID = "); Dec pid; text (line ":")]); [reflexivity|reflexivity|reflexivity|pieces_tac|reflexivity].
  - apply (say_pieces [text (chars "Page fault at "); Hex true Wide08 true eip; text (chars ", virtual faulting address "); Hex true Wide08 true cr2; text [10]]);
      [reflexivity|reflexivity|reflexivity|pieces_tac|reflexivity].
  - apply (say_pieces [text (chars "Error code: "); Hex false Plain false err; text [10]]); [reflexivity|reflexivity|reflexivity|pieces_tac|reflexivity].
  - repeat apply prints_then.
    + destruct (Z.testbit err 0); [apply prints_nothing|line_tac].
    + destruct (Z.testbit err 1); line_tac.
    + destruct (Z.testbit err 2); line_tac.
    + destruct (Z.testbit err 3); [line_tac|apply prints_nothing].
    + destruct (Z.testbit err 4); [line_tac|apply prints_nothing].
Qed.

Lemma chars_ascii s : forallb (fun c => (0 <=? c) && (c <? 128)) (chars s) = true -> Forall is_ascii (chars s).
Proof. intros H. apply Forall_forall. intros c Hc. apply list_elem_of_In in Hc. rewrite forallb_forall in H. specialize (H c Hc). reflect_bools. split; lia. Qed.

Ltac ascii_tac := repeat first [assumption | apply Forall_app_2 | apply Forall_nil_2 | apply Forall_cons_2; [unfold is_ascii; lia|] | apply chars_ascii; vm_compute; reflexivity].

Lemma fault_report_ascii pid cr2 eip err :
  - 2 ^ 31 <= pid < 2 ^ 31 -> in_u32 cr2 -> in_u32 eip -> in_u32 err -> Forall is_ascii (fault_report pid cr2 eip err).
Proof.
  intros Hp Hc He Hr. unfold fault_report, line.
  pose proof (render_ascii (Dec pid) Hp I). pose proof (fun n Hn => render_ascii (Hex true Wide08 true n) Hn I) as H8.
  pose proof (render_ascii (Hex false Plain false err) Hr I). pose proof (H8 eip He). pose proof (H8 cr2 Hc).
  destruct (Z.testbit err 0), (Z.testbit err 1), (Z.testbit err 2), (Z.testbit err 3), (Z.testbit err 4); ascii_tac.
Qed.

(** The line of a region, and all of them. *)
Definition entry_line (e : Pmm.mmap_entry_t) : list Z :=
  chars "base_addr = 0x" ++ hex true (Pmm.base_addr_high e) ++ hex true (Pmm.base_addr_low e)
  ++ chars ", length = 0x" ++ hex true (Pmm.length_high e) ++ hex true (Pmm.length_low e)
  ++ chars ", type = 0x" ++ hex true (Pmm.mmap_type e) ++ [10].
Definition memory_map (l : list Pmm.mmap_entry_t) : list Z := line "Memory map:" ++ mjoin (entry_line <$> l).

Record entry_ok (e : Pmm.mmap_entry_t) : Prop := {
  eo_base : in_u32 (Pmm.base_addr_high e) /\ in_u32 (Pmm.base_addr_low e);
  eo_length : in_u32 (Pmm.length_high e) /\ in_u32 (Pmm.length_low e);
  eo_type : in_u32 (Pmm.mmap_type e)
}.

Lemma entry_prints e : entry_ok e ->
  prints (say im ld (line "base_addr = 0x%X%X, length = 0x%X%X, type = 0x%X")
    [AInt (Pmm.base_addr_high e); AInt (Pmm.base_addr_low e); AInt (Pmm.length_high e); AInt (Pmm.length_low e); AInt (Pmm.mmap_type e)]) (entry_line e).
Proof.
  intros [[H1 H2] [H3 H4] H5]. unfold entry_line. destruct e as [bl bh ll lh ty].
  cbn [Pmm.base_addr_high Pmm.base_addr_low Pmm.length_high Pmm.length_low Pmm.mmap_type] in *.
  apply (say_pieces [text (chars "base_addr = 0x"); Hex false Plain true bh; Hex false Plain true bl; text (chars ", length = 0x");
    Hex false Plain true lh; Hex false Plain true ll; text (chars ", type = 0x"); Hex false Plain true ty; text [10]]);
    [reflexivity|reflexivity|reflexivity|pieces_tac|reflexivity].
Qed.

Lemma memory_map_ascii l : Forall entry_ok l -> Forall is_ascii (memory_map l).
Proof.
  intros Hl. unfold memory_map, line. ascii_tac. apply Forall_join, Forall_fmap. eapply Forall_impl; [exact Hl|].
  intros e [[H1 H2] [H3 H4] H5]. pose proof (fun n (Hn : in_u32 n) => render_ascii (Hex false Plain true n) Hn I) as H.
  pose proof (H _ H1). pose proof (H _ H2). pose proof (H _ H3). pose proof (H _ H4). pose proof (H _ H5).
  unfold compose, entry_line. ascii_tac.
Qed.

Lemma memory_map_prints : Forall entry_ok (mmap ld) -> prints (show_memory_map im ld) (memory_map (mmap ld)).
Proof.
  intros Hl. unfold show_memory_map, memory_map. apply prints_then; [line_tac|].
  assert (forall f, prints f [] -> prints (fun k => foldl (fun acc e => k ← acc; say im ld (line "base_addr = 0x%X%X, length = 0x%X%X, type = 0x%X")
    [AInt (Pmm.base_addr_high e); AInt (Pmm.base_addr_low e); AInt (Pmm.length_high e); AInt (Pmm.length_low e); AInt (Pmm.mmap_type e)] k) (f k) (mmap ld))
    (mjoin (entry_line <$> mmap ld))) as L; [|exact (L Some prints_nothing)].
  intros f. change (mjoin (entry_line <$> mmap ld)) with ([] ++ mjoin (entry_line <$> mmap ld)). generalize (@nil Z) as out. revert f.
  induction Hl as [|e l He _ IH]; intros f out Hf; [simpl; rewrite app_nil_r; exact Hf|].
  cbn [foldl fmap list_fmap mjoin list_join]. rewrite app_assoc. apply (IH (fun k => k ← f k; _)). apply prints_then; [exact Hf|]. exact (entry_prints e He).
Qed.
End proofs.
