(* ===== verification/Dispatch.v ===== *)
(** * Interrupts of the running kernel

    The clock calls the timers, whose callbacks update the screen and run the
    scheduler; the keyboard types; the other two handlers print.  The gates are
    interrupt gates: the processor disables interrupts on the way in, and enables
    them again when it returns to a task that was interrupted with interrupts
    enabled, unless the handler did before. *)

From S2P Require Import Prelude Machine Kernel.
From S2P Require Interrupts Keyboard Timer Task Vbe Console.

Section dispatch.
Context (im : image) (ld : loader).
Implicit Types k : kernel.

(** What the timers call back works on the screen and on the tasks. *)
Definition callback (f : Z) (w : Vbe.video (Task.sched machine)) : Vbe.video (Task.sched machine) :=
  if f =? swap_buffer im then Vbe.swap_buffer w
  else if f =? task_schedule im then
    Vbe.Video (Vbe.pixels w) (Vbe.vram w) (Vbe.vram_size w) (Vbe.vbe_buffer w)
      (Timer.set_world (Task.task_schedule (tasks im) (Timer.world (Vbe.timers w))) (Vbe.timers w))
  else w.

(** [timer_schedule], whose callbacks see everything but the list of timers
    itself. *)
Definition clock_tick (timers_fuel : nat) k : option kernel :=
  let ts := timer_list k in
  ts' ← Timer.timer_schedule callback timers_fuel (Timer.Timers (Timer.timers ts) (Timer.cells ts) (video k));
  let v := Timer.world ts' in
  Some (set_video (Vbe.Video (Vbe.pixels v) (Vbe.vram v) (Vbe.vram_size v) (Vbe.vbe_buffer v)
          (Timer.Timers (Timer.timers ts') (Timer.cells ts') (Timer.world (Vbe.timers v)))) k).

(** What a handler finds outside memory: the byte at the keyboard port and the
    address of a page fault. *)
Record input := Input { scancode : Z; cr2 : Z }.

(** The interrupt flag on the way in and, by [iret], on the way out. *)
Definition interruptible k : bool := Task.interruptible (Task.cpu (sched k)).
Definition masked k : kernel := set_sched (Task.set_cpu (Task.cli (Task.cpu (sched k))) (sched k)) k.
Definition iret (enabled : bool) k : kernel :=
  let c := Task.cpu (sched k) in set_sched (Task.set_cpu (if enabled then Task.sti c else Task.cli c) (sched k)) k.

(** The handlers.  That of a page fault does not return: the result is the state in
    which it loops, and further interrupts find it there. *)
Definition run_handler (timers_fuel : nat) (i : input) (enabled : bool) (h : Z) (regs : Interrupts.pt_regs) k : option kernel :=
  if h =? page_fault im then Console.page_fault im ld (cr2 i) regs k
  else
    k ← (if h =? timer_schedule im then clock_tick timers_fuel k
         else if h =? keyboard_input_handler im then
           Some (set_keyboard (keyboard_output_buffer k) (Keyboard.keyboard_input_handler (scancode i) (keyboard k)) k)
         else if h =? isr_handler255 im then Console.isr_handler255 im ld regs k
         else Some k);
    Some (iret enabled k).

(** [isr_handler], and what it calls.  The interrupt lines of the controllers only
    get through when interrupts are enabled. *)
Definition interrupt (timers_fuel : nat) (i : input) (regs : Interrupts.pt_regs) k : option kernel :=
  let n := u8 (Z.land (Interrupts.int_no regs) 0xFF) in
  let enabled := interruptible k in
  if (32 <=? n) && (n <? 48) && negb enabled then None
  else
    let h := Interrupts.interrupt_handlers (idt k) !!! n in
    let k := masked (set_idt (Interrupts.isr_handler regs (idt k)) k) in
    if h =? 0 then Some (iret enabled k) else run_handler timers_fuel i enabled h regs k.

(** Interrupts in the order in which they come. *)
Fixpoint interrupts (timers_fuel : nat) (l : list (input * Interrupts.pt_regs)) k : option kernel :=
  match l with
  | [] => Some k
  | (i, regs) :: l => k ← interrupt timers_fuel i regs k; interrupts timers_fuel l k
  end.
End dispatch.
