(* ===== verification/KernelRun.v ===== *)
(** * The running kernel

    What the interrupts of the clock do to a kernel that [kernel_main] has started:
    the scheduler runs at its rate, and what was written to the terminal reaches
    the screen. *)

From S2P Require Import Prelude CString Layout Machine Kernel KernelBoot KernelText Dispatch.
From S2P Require Console Pmm Interrupts Keyboard Timer Task TaskProofs Vbe GuiTerminal.

(** ** The screen update *)

Section swap.
Context {W : Type} (mode : Vbe.mode_info_block) (v : Vbe.video W).
Context (T1 : Vbe.true_color (Vbe.vram v) mode) (T2 : Vbe.true_color (Vbe.vbe_buffer v) mode).
Context (Ha : Vbe.apart mode (Vbe.vram v) (Vbe.vbe_buffer v)) (Hs : Vbe.vram_size v = Vbe.size_of mode).

(** Only the bytes of the screen change. *)
Lemma swap_elsewhere a : ~ Vbe.screen_bytes (Vbe.vram v) mode a -> ld (Vbe.pixels (Vbe.swap_buffer v)) a = ld (Vbe.pixels v) a.
Proof.
  intros Hn. unfold Vbe.swap_buffer. cbn [Vbe.pixels].
  destruct (Vbe.tc_base _ _ T1) as [B1 B2]. destruct (Vbe.tc_base _ _ T2) as [B3 B4]. unfold Vbe.apart, Vbe.size_of, Vbe.screen_bytes in *.
  destruct (copy_up_spec (Vbe.vram v) (Vbe.vbe_buffer v) (Vbe.vram_size v) (Vbe.pixels v)) as [_ F]; [lia..|]. apply F. lia.
Qed.

Lemma swap_buffer_pixel x y :
  Vbe.in_screen mode x y -> Vbe.pixel (Vbe.vbe_buffer v) mode (Vbe.pixels (Vbe.swap_buffer v)) x y = Vbe.pixel (Vbe.vbe_buffer v) mode (Vbe.pixels v) x y.
Proof.
  intros Hxy. apply Vbe.pixel_ext; [exact Hxy|]. intros a Hin. apply swap_elsewhere.
  unfold Vbe.apart, Vbe.size_of, Vbe.screen_bytes in *. lia.
Qed.
End swap.

(** ** One tick of the clock *)

(** The screen shows what the buffer shows. *)
Definition on_display (mode : Vbe.mode_info_block) (k : kernel) : Prop :=
  forall x y, Vbe.in_screen mode x y ->
    Vbe.pixel (Vbe.vram (video k)) mode (Vbe.pixels (video k)) x y = Vbe.pixel (Vbe.vbe_buffer (video k)) mode (Vbe.pixels (video k)) x y.

(** Memory outside the screen is the same. *)
Definition kept_memory (mode : Vbe.mode_info_block) (k k' : kernel) : Prop :=
  forall a, ~ Vbe.screen_bytes (Vbe.vram (video k)) mode a -> ld (Vbe.pixels (video k')) a = ld (Vbe.pixels (video k)) a.

(** The same terminal on the same screen. *)
Record same_view (k k' : kernel) : Prop := {
  sv_vram : Vbe.vram (video k') = Vbe.vram (video k);
  sv_buffer : Vbe.vbe_buffer (video k') = Vbe.vbe_buffer (video k);
  sv_size : Vbe.vram_size (video k') = Vbe.vram_size (video k);
  sv_font : font k' = font k /\ glyphs k' = glyphs k;
  sv_terminal : main_terminal k' = main_terminal k;
  sv_idt : Interrupts.interrupt_handlers (idt k') = Interrupts.interrupt_handlers (idt k)
}.

Section kept.
Context (im : image) (mode : Vbe.mode_info_block) (k k' : kernel) (RN : running im mode k) (SV : same_view k k').
Context (Hm : kept_memory mode k k').

Lemma kept_font : same_font k k'.
Proof. intros a Ha. apply Hm, (rn_font _ _ _ RN), Ha. Qed.

(** The buffer is not on the screen. *)
Lemma kept_pixel x y :
  Vbe.in_screen mode x y ->
  Vbe.pixel (Vbe.vbe_buffer (video k)) mode (Vbe.pixels (video k')) x y = Vbe.pixel (Vbe.vbe_buffer (video k)) mode (Vbe.pixels (video k)) x y.
Proof.
  intros Hxy. apply Vbe.pixel_ext; [exact Hxy|]. intros a Ha. apply Hm. destruct (rn_screen _ _ _ RN) as [_ Hap].
  unfold Vbe.apart, Vbe.size_of, Vbe.screen_bytes in *. lia.
Qed.

Lemma kept_text p : ascii p -> shows_text mode k p -> shows_text mode k' p.
Proof.
  intros Ha S. pose proof RN as [_ _ _ R4 _]. pose proof SV as [V1 V2 V3 [V4 V5] V6 _].
  unfold shows_text. rewrite V2, V4, V5, V6.
  refine (shows_moved mode _ _ _ _ _ _ R4 kept_font _ _ _ p _ _ Ha S); [exact kept_pixel|intros a _; reflexivity].
Qed.
End kept.

Lemma rings_small t : 1 <= Timer.elapse t <= 16 -> Timer.rings t = (Timer.elapse t =? 1) /\ u32 (Timer.elapse t - 1) = Timer.elapse t - 1.
Proof. intros H. unfold Timer.rings. rewrite u32_small by (unfold in_u32; lia). split; [case_bools; lia|reflexivity]. Qed.

Section tick.
Context (im : image) (mode : Vbe.mode_info_block) (timers_fuel : nat) (k : kernel) (tv tt : Z) (p : page).
Context (Hf : (2 <= timers_fuel)%nat) (Hne : swap_buffer im <> task_schedule im).
Context (RN : running im mode k) (CK : clock_ok im k tv tt).
Let ev := Timer.elapse (Timer.timer (timer_list k) tv).
Let et := Timer.elapse (Timer.timer (timer_list k) tt).

(** What the callbacks of the tick do to screen and tasks. *)
Definition rung (v : Vbe.video (Task.sched machine)) : Vbe.video (Task.sched machine) :=
  let v := if ev =? 1 then Vbe.swap_buffer v else v in
  if et =? 1 then callback im (task_schedule im) v else v.

Lemma clock_tick_rung :
  exists ts, Timer.timer_chain ts [tv; tt]
    /\ (forall a, Timer.timer ts a = if decide (a ∈ [tv; tt]) then Timer.ticked (Timer.timer (timer_list k) a) else Timer.timer (timer_list k) a)
    /\ let v := rung (video k) in
       clock_tick im timers_fuel k
       = Some (set_video (Vbe.Video (Vbe.pixels v) (Vbe.vram v) (Vbe.vram_size v) (Vbe.vbe_buffer v)
                 (Timer.set_world (Timer.world (Vbe.timers v)) ts)) k).
Proof.
  destruct CK as [C1 (C2 & _ & C3) (C4 & _ & C5)].
  set (ts0 := Timer.Timers (Timer.timers (timer_list k)) (Timer.cells (timer_list k)) (video k)).
  destruct (Timer.timer_schedule_ok (callback im) timers_fuel ts0 [tv; tt] C1 Hf) as (ts & E & Hc & Ht & Ew).
  exists (Timer.Timers (Timer.timers ts) (Timer.cells ts) (sched k)). split; [exact Hc|]. split; [exact Ht|].
  unfold clock_tick. cbv zeta. fold ts0. rewrite E. cbn [mbind option_bind]. rewrite Ew. unfold Timer.ring_all. cbn [foldl].
  change (Timer.timer ts0) with (Timer.timer (timer_list k)). change (Timer.world ts0) with (video k).
  rewrite C2, C4. destruct (rings_small _ C3) as [-> _]. destruct (rings_small (Timer.timer (timer_list k) tt)) as [-> _]; [lia|].
  assert (forall v, callback im (swap_buffer im) v = Vbe.swap_buffer v) as Es by (intros v; unfold callback; rewrite Z.eqb_refl; reflexivity).
  rewrite Es. reflexivity.
Qed.

Lemma rung_ok v (v' := rung v) :
  Vbe.pixels v' = (if ev =? 1 then Vbe.pixels (Vbe.swap_buffer v) else Vbe.pixels v)
  /\ Vbe.vram v' = Vbe.vram v /\ Vbe.vram_size v' = Vbe.vram_size v /\ Vbe.vbe_buffer v' = Vbe.vbe_buffer v
  /\ Timer.world (Vbe.timers v')
     = if et =? 1 then Task.task_schedule (tasks im) (Timer.world (Vbe.timers v)) else Timer.world (Vbe.timers v).
Proof.
  unfold v', rung, callback. rewrite (proj2 (Z.eqb_neq (task_schedule im) (swap_buffer im))) by congruence. rewrite Z.eqb_refl.
  destruct (ev =? 1), (et =? 1); auto.
Qed.

Lemma clock_tick_ok :
  exists k', clock_tick im timers_fuel k = Some k' /\ running im mode k' /\ clock_ok im k' tv tt
    /\ (ascii p -> shows_text mode k p -> shows_text mode k' p) /\ same_view k k' /\ keyboard k' = keyboard k
    /\ sched k' = (if et =? 1 then Task.task_schedule (tasks im) (sched k) else sched k)
    /\ Timer.elapse (Timer.timer (timer_list k') tv) = (if ev =? 1 then 16 else ev - 1)
    /\ Timer.elapse (Timer.timer (timer_list k') tt) = (if et =? 1 then 2 else et - 1)
    /\ (ev = 1 \/ on_display mode k -> on_display mode k') /\ kept_memory mode k k'.
Proof.
  destruct clock_tick_rung as (ts & Hc & Ht & E). destruct (rung_ok (video k)) as (P1 & P2 & P3 & P4 & P5).
  cbv zeta in E. set (v := rung (video k)) in *. clearbody v.
  match type of E with _ = Some ?x => set (k' := x) in * end. exists k'. split; [exact E|].
  pose proof CK as [_ (C2 & C3 & C4) (C5 & C6 & C7)]. fold ev in C4. fold et in C7.
  assert (SV : same_view k k') by (split; cbn; auto).
  assert (forall a, Timer.timer (timer_list k') a = if decide (a ∈ [tv; tt]) then Timer.ticked (Timer.timer (timer_list k) a) else Timer.timer (timer_list k) a) as Ht' by exact Ht.
  assert (Timer.elapse (Timer.timer (timer_list k') tv) = (if ev =? 1 then 16 else ev - 1)
          /\ Timer.elapse (Timer.timer (timer_list k') tt) = (if et =? 1 then 2 else et - 1)) as [Ev Et].
  { rewrite !Ht', !decide_True by set_solver. unfold Timer.ticked. cbn [Timer.set_elapse Timer.elapse]. rewrite C3, C6. fold ev et.
    rewrite !u32_small by (unfold in_u32; lia). split; case_bools; lia. }
  assert (CK' : clock_ok im k' tv tt).
  { split; [exact Hc| |]; rewrite ?Ev, ?Et; rewrite Ht', decide_True by set_solver; cbn [Timer.ticked Timer.set_elapse Timer.callback_func Timer.interval];
      (split; [assumption|split; [assumption|case_bools; lia]]). }
  destruct (rn_screen _ _ _ RN) as [T1 Hap]. pose proof (GuiTerminal.rd_screen _ _ _ _ _ _ (rn_ready _ _ _ RN)) as T2.
  destruct (GuiTerminal.rd_size _ _ _ _ _ _ (rn_ready _ _ _ RN)) as [Hs _].
  assert (Hm : kept_memory mode k k').
  { intros a Ha. change (Vbe.pixels (video k')) with (Vbe.pixels v). rewrite P1. destruct (ev =? 1); [|reflexivity].
    apply (swap_elsewhere mode); assumption. }
  split.
  { pose proof SV as [V1 V2 V3 [V4 V5] _ V7]. apply (kept_running im mode k k' tv tt RN (kept_font im mode k k' RN Hm) CK'); assumption. }
  split; [exact CK'|].
  split; [exact (kept_text im mode k k' RN SV Hm p)|]. split; [exact SV|]. split; [reflexivity|]. split; [exact P5|].
  split; [exact Ev|]. split; [exact Et|]. split; [|exact Hm]. intros Hd x y Hxy.
  rewrite (sv_vram _ _ SV), (sv_buffer _ _ SV). change (Vbe.pixels (video k')) with (Vbe.pixels v). rewrite P1.
  destruct (Z.eqb_spec ev 1) as [E1|E1].
  - rewrite (swap_buffer_pixel mode (video k)) by assumption. apply (Vbe.swap_buffer_shows mode); assumption.
  - destruct Hd as [|Hd]; [contradiction|]. apply Hd, Hxy.
Qed.
End tick.

(** ** Interrupts *)

(** The vector, as [isr_handler] reads it. *)
Definition vector (regs : Interrupts.pt_regs) : Z := u8 (Z.land (Interrupts.int_no regs) 0xFF).

Definition ticks (l : list (input * Interrupts.pt_regs)) : Z := Z.of_nat (length (filter (fun i => vector (snd i) = 32) l)).
Definition scancodes (l : list (input * Interrupts.pt_regs)) : list Z := scancode ∘ fst <$> filter (fun i => vector (snd i) = 33) l.

(** The functions whose addresses are compared are different ones. *)
Record distinct (im : image) : Prop := {
  di_handlers : NoDup [0; timer_schedule im; keyboard_input_handler im; isr_handler255 im; page_fault im];
  di_callbacks : swap_buffer im <> task_schedule im
}.

Lemma isr_handlers regs s : Interrupts.interrupt_handlers (Interrupts.isr_handler regs s) = Interrupts.interrupt_handlers s.
Proof. unfold Interrupts.isr_handler, Interrupts.emit. cbv zeta. repeat (case_match; cbn [Interrupts.interrupt_handlers]); reflexivity. Qed.

(** Only the screen, the font, the timers and the handlers matter. *)
Lemma running_ext im mode k k' :
  video k' = video k -> font k' = font k -> glyphs k' = glyphs k ->
  Interrupts.interrupt_handlers (idt k') = Interrupts.interrupt_handlers (idt k) -> running im mode k -> running im mode k'.
Proof.
  intros E1 E2 E3 E4 [(tv & tt & R1) R2 R3 R4 R5]. split; rewrite ?E1, ?E2, ?E3, ?E4; try assumption.
  exists tv, tt. apply (clock_ext im k); [unfold timer_list; rewrite E1; reflexivity|exact R1].
Qed.

Section run.
Context (im : image) (ld : loader) (mode : Vbe.mode_info_block) (timers_fuel : nat) (tv tt : Z) (p : page).
Context (Hf : (2 <= timers_fuel)%nat) (Hd : distinct im).

Lemma table_at n :
  handler_table im !!! n
  = if n =? 33 then keyboard_input_handler im else if n =? 32 then timer_schedule im
    else if n =? 14 then page_fault im else if n =? 255 then isr_handler255 im else 0.
Proof.
  unfold handler_table. repeat (case_match; reflect_bools); subst;
    rewrite ?(lookup_total_insert_eq (M := gmap Z)), ?(lookup_total_insert_ne (M := gmap Z)) by congruence; try reflexivity;
    repeat first [rewrite (lookup_total_insert_eq (M := gmap Z)) | rewrite (lookup_total_insert_ne (M := gmap Z)) by congruence]; try reflexivity.
Qed.

(** What an interrupt calls. *)
Lemma interrupt_calls c regs k :
  running im mode k -> interruptible k = true ->
  interrupt im ld timers_fuel c regs k
  = let k1 := masked (set_idt (Interrupts.isr_handler regs (idt k)) k) in
    if vector regs =? 14 then Console.page_fault im ld (cr2 c) regs k1
    else
      k2 ← (if vector regs =? 33 then
              Some (set_keyboard (keyboard_output_buffer k) (Keyboard.keyboard_input_handler (scancode c) (keyboard k)) k1)
            else if vector regs =? 32 then clock_tick im timers_fuel k1
            else if vector regs =? 255 then Console.isr_handler255 im ld regs k1
            else Some k1);
      Some (iret true k2).
Proof.
  intros RN He. unfold interrupt. fold (vector regs). rewrite He. cbv zeta. cbn [negb]. rewrite andb_false_r, (rn_handlers _ _ _ RN), table_at. unfold run_handler.
  pose proof (di_handlers _ Hd) as N. rewrite !NoDup_cons, !not_elem_of_cons in N. destruct N as ((?&?&?&?&_)&(?&?&?&_)&(?&?&_)&(?&_)&_).
  destruct (Z.eqb_spec (vector regs) 33) as [E|E]; [rewrite E|destruct (Z.eqb_spec (vector regs) 32) as [E2|E2]; [rewrite E2|destruct (vector regs =? 14); [|destruct (vector regs =? 255); [|reflexivity]]]];
    rewrite ?Z.eqb_refl; repeat rewrite (proj2 (Z.eqb_neq _ _)) by congruence; reflexivity.
Qed.

(** The flag comes back. *)
Lemma set_sched_twice s s' k : set_sched s (set_sched s' k) = set_sched s k.
Proof. reflexivity. Qed.

Lemma unmasked (s : Task.sched machine) :
  Task.interruptible (Task.cpu s) = true ->
  let s' := Task.set_cpu (Task.cli (Task.cpu s)) s in Task.set_cpu (Task.sti (Task.cpu s')) s' = s.
Proof. intros He. destruct s as [mp pi cu nx ts li wo cp he]. cbn in *. rewrite Console.sti_cli by exact He. reflexivity. Qed.

Lemma iret_masked k : interruptible k = true -> iret true (masked k) = k.
Proof. intros He. transitivity (set_sched (sched k) k); [|apply Console.set_sched_same]. rewrite <- (unmasked (sched k) He). reflexivity. Qed.

Lemma schedule_masked (s : Task.sched machine) : Task.task_schedule (tasks im) (Task.set_cpu (Task.cli (Task.cpu s)) s) = Task.task_schedule (tasks im) s.
Proof.
  unfold Task.task_schedule. cbv zeta. change (Task.cpu (Task.set_cpu ?c s)) with c.
  rewrite Console.cli_twice. reflexivity.
Qed.

Lemma sti_enabled (s : Task.sched machine) :
  let s' := Task.set_cpu (Task.sti (Task.cpu s)) s in Task.set_cpu (Task.sti (Task.cpu s')) s' = s' /\ Task.interruptible (Task.cpu s') = true.
Proof.
  cbv zeta. change (Task.cpu (Task.set_cpu ?c s)) with c. split; [|apply TaskProofs.sti_interruptible].
  assert (forall c, Task.sti (Task.sti c) = Task.sti c) as ->; [|reflexivity].
  intros [c1 c2 c3 c4 c5 e]. unfold Task.sti, Task.set_eflags. cbn. f_equal. rewrite <- Z.lor_assoc, Z.lor_diag. reflexivity.
Qed.

Lemma schedule_enabled (s : Task.sched machine) :
  let s' := Task.task_schedule (tasks im) s in Task.set_cpu (Task.sti (Task.cpu s')) s' = s' /\ Task.interruptible (Task.cpu s') = true.
Proof. exact (sti_enabled _). Qed.

(** The scheduler's state matters neither for the screen nor for the timers. *)
Lemma clock_sched s k : clock_ok im k tv tt -> clock_ok im (set_sched s k) tv tt.
Proof. intros [C1 C2 C3]. split; assumption. Qed.

Lemma running_sched s k : running im mode k -> running im mode (set_sched s k).
Proof. intros [[a [b [C1 C2 C3]]] R2 R3 R4 R5]. split; try assumption. exists a, b. split; assumption. Qed.

(** Calls of the scheduler in [n] ticks when its timer has [e] left. *)
Definition switches (n e : Z) : nat := Z.to_nat ((n + 2 - e) / 2).

Lemma switches_tick n e : 0 <= n -> 1 <= e <= 2 ->
  switches (1 + n) e = ((if (e =? 1)%Z then 1 else 0) + switches n (if e =? 1 then 2 else e - 1)%Z)%nat.
Proof.
  intros Hn He. unfold switches. destruct (Z.eqb_spec e 1) as [->|He1].
  - replace (1 + n + 2 - 1) with (n + 1 * 2) by lia. rewrite Z.div_add by lia. replace (n + 2 - 2) with n by lia.
    pose proof (Z.div_pos n 2). lia.
  - assert (e = 2) as -> by lia. rewrite Nat.add_0_l. f_equal. f_equal. lia.
Qed.

(** What a sequence of interrupts leads to. *)
Record after (l : list (input * Interrupts.pt_regs)) (k k' : kernel) : Prop := {
  af_running : running im mode k';
  af_clock : clock_ok im k' tv tt;
  af_enabled : interruptible k' = true;
  af_text : ascii p -> shows_text mode k p -> shows_text mode k' p;
  af_view : same_view k k';
  af_keyboard : keyboard k' = Keyboard.handle_all (scancodes l) (keyboard k);
  af_tasks : sched k' = Nat.iter (switches (ticks l) (Timer.elapse (Timer.timer (timer_list k) tt))) (Task.task_schedule (tasks im)) (sched k);
  af_memory : kept_memory mode k k';
  af_display : Timer.elapse (Timer.timer (timer_list k) tv) <= ticks l \/ on_display mode k -> on_display mode k'
}.

Lemma memory_trans k1 k2 k3 : Vbe.vram (video k2) = Vbe.vram (video k1) -> kept_memory mode k1 k2 -> kept_memory mode k2 k3 -> kept_memory mode k1 k3.
Proof. intros E H1 H2 a Ha. rewrite H2 by (rewrite E; exact Ha). apply H1, Ha. Qed.

Lemma view_trans k1 k2 k3 : same_view k1 k2 -> same_view k2 k3 -> same_view k1 k3.
Proof. intros [A1 A2 A3 [A4 A5] A6 A7] [B1 B2 B3 [B4 B5] B6 B7]. split; try congruence. split; congruence. Qed.

Lemma ticks_clock c r l : vector r = 32 -> ticks ((c, r) :: l) = 1 + ticks l /\ scancodes ((c, r) :: l) = scancodes l.
Proof.
  intros E. unfold ticks, scancodes. rewrite filter_cons_True by exact E. rewrite filter_cons_False by (simpl; lia).
  split; [rewrite length_cons; lia|reflexivity].
Qed.

Lemma ticks_key c r l : vector r = 33 -> ticks ((c, r) :: l) = ticks l /\ scancodes ((c, r) :: l) = scancode c :: scancodes l.
Proof.
  intros E. unfold ticks, scancodes. rewrite filter_cons_False by (simpl; lia). rewrite filter_cons_True by exact E. split; reflexivity.
Qed.

Lemma ticks_other c r l : vector r <> 32 -> vector r <> 33 -> ticks ((c, r) :: l) = ticks l /\ scancodes ((c, r) :: l) = scancodes l.
Proof. intros E1 E2. unfold ticks, scancodes. rewrite !filter_cons_False by assumption. split; reflexivity. Qed.

(** One interrupt before the others. *)
Lemma after_clock c r l k :
  running im mode k -> clock_ok im k tv tt -> interruptible k = true -> vector r = 32 ->
  exists k2, clock_tick im timers_fuel (masked (set_idt (Interrupts.isr_handler r (idt k)) k)) = Some k2
    /\ running im mode (iret true k2) /\ clock_ok im (iret true k2) tv tt /\ interruptible (iret true k2) = true
    /\ forall k', after l (iret true k2) k' -> after ((c, r) :: l) k k'.
Proof.
  intros RN CK He Hv. pose proof CK as [_ (_ & _ & C4) (_ & _ & C7)]. set (k1 := masked (set_idt (Interrupts.isr_handler r (idt k)) k)).
  pose proof (running_sched (sched k1) _ (running_ext im mode k (set_idt (Interrupts.isr_handler r (idt k)) k) eq_refl eq_refl eq_refl (isr_handlers r _) RN)) as RN1.
  pose proof (clock_sched (sched k1) _ (clock_ext im k (set_idt (Interrupts.isr_handler r (idt k)) k) tv tt eq_refl CK)) as CK1.
  change (set_sched (sched k1) _) with k1 in RN1, CK1.
  assert (same_view k k1) as V1 by (split; cbn; auto using isr_handlers).
  destruct (ticks_clock c r l Hv) as [Et Es].
  destruct (clock_tick_ok im mode timers_fuel k1 tv tt p Hf (di_callbacks _ Hd) RN1 CK1)
    as (k2 & E & RN2 & CK2 & T2 & V2 & K2 & S2 & E1 & E2 & D2 & M2).
  change (Timer.elapse (Timer.timer (timer_list k1) ?a)) with (Timer.elapse (Timer.timer (timer_list k) a)) in *.
  assert (sched (iret true k2) = (if Timer.elapse (Timer.timer (timer_list k) tt) =? 1 then Task.task_schedule (tasks im) (sched k) else sched k)
          /\ interruptible (iret true k2) = true) as [S3 He3].
  { unfold interruptible. change (sched (iret true k2)) with (Task.set_cpu (Task.sti (Task.cpu (sched k2))) (sched k2)). rewrite S2.
    change (sched k1) with (Task.set_cpu (Task.cli (Task.cpu (sched k))) (sched k)). destruct (_ =? 1).
    - rewrite schedule_masked. destruct (schedule_enabled (sched k)) as [-> H]. split; [reflexivity|exact H].
    - rewrite (unmasked (sched k) He). split; [reflexivity|exact He]. }
  assert (same_view k2 (iret true k2)) as V3 by (split; cbn; auto).
  exists k2. split; [exact E|]. split; [exact (running_sched _ _ RN2)|]. split; [exact (clock_sched _ _ CK2)|]. split; [exact He3|].
  intros k' [A1 A2 A8 A3 A4 A5 A6 A9 A7].
  change (timer_list (iret true k2)) with (Timer.set_world (sched (iret true k2)) (timer_list k2)) in *.
  change (Timer.timer (Timer.set_world ?x ?y)) with (Timer.timer y) in *.
  split; [exact A1|exact A2|exact A8|intros Ha Hs; exact (A3 Ha (T2 Ha Hs))|exact (view_trans _ _ _ V1 (view_trans _ _ _ V2 (view_trans _ _ _ V3 A4)))| | | |].
  - rewrite A5, Es. change (keyboard (iret true k2)) with (keyboard k2). rewrite K2. reflexivity.
  - rewrite A6, Et, E2, S3, switches_tick by (unfold ticks; lia).
    destruct (_ =? 1); [rewrite Nat.add_comm, Nat.iter_add|]; reflexivity.
  - refine (memory_trans k k2 k' (sv_vram _ _ V2) M2 (memory_trans k2 (iret true k2) k' eq_refl (fun _ _ => eq_refl) A9)).
  - rewrite Et, E1 in *. intros Hdd. apply A7. destruct (Z.eqb_spec (Timer.elapse (Timer.timer (timer_list k) tv)) 1) as [Ee|Ee].
    + right. apply D2. left. exact Ee.
    + destruct Hdd as [Hdd|Hdd]; [left; lia|right; apply D2; right; exact Hdd].
Qed.

Lemma after_still c r l k k2 :
  video k2 = video k -> font k2 = font k -> glyphs k2 = glyphs k -> main_terminal k2 = main_terminal k ->
  Interrupts.interrupt_handlers (idt k2) = Interrupts.interrupt_handlers (idt k) ->
  running im mode k -> clock_ok im k tv tt -> interruptible k = true -> ticks ((c, r) :: l) = ticks l ->
  Keyboard.handle_all (scancodes l) (keyboard k2) = Keyboard.handle_all (scancodes ((c, r) :: l)) (keyboard k) ->
  running im mode k2 /\ clock_ok im k2 tv tt /\ interruptible k2 = true /\ forall k', after l k2 k' -> after ((c, r) :: l) k k'.
Proof.
  intros E1 E2 E3 E4 E5 RN CK He Et Es. split; [exact (running_ext im mode k k2 E1 E2 E3 E5 RN)|].
  assert (timer_list k2 = timer_list k) as Ets by (unfold timer_list; rewrite E1; reflexivity).
  split; [exact (clock_ext im k k2 tv tt Ets CK)|].
  split; [unfold interruptible, sched in *; rewrite Ets; exact He|]. intros k' [A1 A2 A8 A3 A4 A5 A6 A9 A7].
  assert (same_view k k2) as V by (split; rewrite ?E1, ?E2, ?E3, ?E4; auto).
  split; [exact A1|exact A2|exact A8| |exact (view_trans _ _ _ V A4)|congruence| | |].
  - unfold shows_text in *. rewrite E1, E2, E3, E4 in A3. exact A3.
  - unfold sched in *. rewrite A6, Et, Ets. reflexivity.
  - refine (memory_trans k k2 k' _ _ A9); [rewrite E1; reflexivity|]. intros a _. rewrite E1. reflexivity.
  - unfold on_display in *. rewrite Et, <- Ets. rewrite E1 in A7. exact A7.
Qed.

(** Everything but what prints. *)
Definition quiet (i : input * Interrupts.pt_regs) : Prop := vector (snd i) <> 14 /\ vector (snd i) <> 255.

Lemma interrupts_ok l k :
  running im mode k -> clock_ok im k tv tt -> interruptible k = true -> Forall quiet l ->
  exists k', interrupts im ld timers_fuel l k = Some k' /\ after l k k'.
Proof.
  intros RN CK He Hl. revert k RN CK He. induction Hl as [|[c r] l [Q1 Q2] _ IH]; intros k RN CK He.
  - pose proof CK as [_ (_ & _ & C4) (_ & _ & C7)]. exists k. split; [reflexivity|]. split; [exact RN|exact CK|exact He|auto|split; auto|reflexivity| |intros a _; reflexivity|].
    + replace (switches (ticks []) (Timer.elapse (Timer.timer (timer_list k) tt))) with 0%nat; [reflexivity|].
      unfold switches. change (ticks []) with 0. rewrite Z.div_small by lia. reflexivity.
    + intros [H|H]; [change (ticks []) with 0 in H; lia|exact H].
  - cbn [snd] in Q1, Q2. cbn [interrupts]. rewrite (interrupt_calls c r k RN He). cbv zeta.
    rewrite (proj2 (Z.eqb_neq _ _) Q1), (proj2 (Z.eqb_neq _ _) Q2). set (k1 := set_idt (Interrupts.isr_handler r (idt k)) k).
    destruct (Z.eqb_spec (vector r) 33) as [Hv|Hv]; [|destruct (Z.eqb_spec (vector r) 32) as [Hv2|Hv2]]; cbn [mbind option_bind].
    + destruct (ticks_key c r l Hv) as [Et Es]. set (k2 := set_keyboard (keyboard_output_buffer k) (Keyboard.keyboard_input_handler (scancode c) (keyboard k)) k1).
      change (iret true (set_keyboard _ _ (masked k1))) with (iret true (masked k2)). rewrite iret_masked by exact He.
      destruct (after_still c r l k k2 eq_refl eq_refl eq_refl eq_refl (isr_handlers r _) RN CK He Et) as (RN2 & CK2 & He2 & L); [rewrite Es; reflexivity|].
      destruct (IH k2 RN2 CK2 He2) as (k' & E & A). exists k'. split; [exact E|exact (L k' A)].
    + destruct (after_clock c r l k RN CK He Hv2) as (k2 & E2 & RN2 & CK2 & He2 & L). fold k1 in E2. rewrite E2. cbn [mbind option_bind].
      destruct (IH (iret true k2) RN2 CK2 He2) as (k' & E & A). exists k'. split; [exact E|exact (L k' A)].
    + rewrite iret_masked by exact He. destruct (ticks_other c r l Hv2 Hv) as [Et Es].
      destruct (after_still c r l k k1 eq_refl eq_refl eq_refl eq_refl (isr_handlers r _) RN CK He Et) as (RN2 & CK2 & He2 & L); [rewrite Es; reflexivity|].
      destruct (IH k1 RN2 CK2 He2) as (k' & E & A). exists k'. split; [exact E|exact (L k' A)].
Qed.
End run.

(** The screen memory holds the last lines of the page as glyphs. *)
Definition screen_shows (mode : Vbe.mode_info_block) (k : kernel) (p : page) : Prop :=
  let m := Vbe.pixels (video k) in
  let R := GuiTerminal.text_rows mode (font k) m in
  forall y x, on_screen R (GuiTerminal.text_cols mode (font k) m) y x ->
    GuiTerminal.drawn mode (font k) (glyphs k) m (Vbe.vram (video k)) m y x (pg_char p (top R p + y) x).

(** What the terminal shows is on the screen sixteen ticks later. *)
Lemma shown_reaches_screen im ld timers_fuel k p l :
  (2 <= timers_fuel)%nat -> distinct im -> running im (mode_info ld) k -> interruptible k = true -> shows_text (mode_info ld) k p -> ascii p ->
  Forall quiet l -> 16 <= ticks l ->
  exists k' n, interrupts im ld timers_fuel l k = Some k' /\ running im (mode_info ld) k' /\ interruptible k' = true /\ shows_text (mode_info ld) k' p
    /\ screen_shows (mode_info ld) k' p
    /\ keyboard k' = Keyboard.handle_all (scancodes l) (keyboard k)
    /\ sched k' = Nat.iter n (Task.task_schedule (tasks im)) (sched k) /\ ticks l / 2 <= Z.of_nat n <= (ticks l + 1) / 2.
Proof.
  intros Hf Hd RN He ST Ha Hl H16. pose proof (rn_clock _ _ _ RN) as (tv & tt & CK).
  destruct (interrupts_ok im ld (mode_info ld) timers_fuel tv tt p Hf Hd l k RN CK He Hl) as (k' & E & [A1 _ A2 A3 _ A5 A6 _ A7]).
  pose proof CK as [_ (_ & _ & Hv) (_ & _ & Hs)]. specialize (A7 ltac:(left; lia)). specialize (A3 Ha ST).
  eexists k', _. split; [exact E|]. split; [exact A1|]. split; [exact A2|]. split; [exact A3|]. split; [|split; [exact A5|split; [exact A6|]]].
  - unfold screen_shows. cbv zeta. intros y x Hyx i j Hi Hj.
    rewrite A7 by (apply (GuiTerminal.cell_in_screen _ _ _ _ _ _ (rn_ready _ _ _ A1)); assumption).
    exact (sl_cells _ _ _ _ _ _ _ (sh_lines _ _ _ _ _ _ _ _ A3) y x Hyx i j Hi Hj).
  - unfold switches. rewrite Z2Nat.id by (apply Z.div_pos; lia).
    assert (ticks l + 2 - Timer.elapse (Timer.timer (timer_list k) tt) = ticks l
            \/ ticks l + 2 - Timer.elapse (Timer.timer (timer_list k) tt) = ticks l + 1) as [-> | ->] by lia.
    + split; [lia|apply Z.div_le_mono; lia].
    + split; [apply Z.div_le_mono; lia|lia].
Qed.

(** [C3] What is written to the terminal reaches the screen: whatever interrupts come
    that do not print themselves, once sixteen of them were ticks of the clock the
    screen memory holds the glyphs of the text behind what was there before, in rows
    and columns.  Every scancode has gone through the keyboard driver in order, the
    scheduler has run on every second tick, and the kernel still runs with interrupts
    enabled. *)
Theorem text_reaches_screen im ld timers_fuel k p text l :
  (2 <= timers_fuel)%nat -> distinct im -> running im (mode_info ld) k -> interruptible k = true ->
  shows_text (mode_info ld) k p -> ascii p -> (forall c, c ∈ text -> 0 <= c < 128) -> Forall quiet l -> 16 <= ticks l ->
  let p' := written ld k text p in
  exists k' n, interrupts im ld timers_fuel l (main_terminal_write ld text k) = Some k'
    /\ running im (mode_info ld) k' /\ interruptible k' = true /\ shows_text (mode_info ld) k' p' /\ screen_shows (mode_info ld) k' p'
    /\ keyboard k' = Keyboard.handle_all (scancodes l) (keyboard k)
    /\ sched k' = Nat.iter n (Task.task_schedule (tasks im)) (sched k)
    /\ ticks l / 2 <= Z.of_nat n <= (ticks l + 1) / 2.
Proof.
  intros Hf Hd RN He ST Ha Ht Hl H16 p'. destruct (main_terminal_write_ok im ld k text p RN ST Ha Ht) as [RN1 ST1].
  assert (ascii p') as Ha1 by (apply ascii_text; assumption).
  exact (shown_reaches_screen im ld timers_fuel _ p' l Hf Hd RN1 He ST1 Ha1 Hl H16).
Qed.

(** The kernel of the instance, an [A], sixteen ticks and a key. *)
Definition clock_and_key : list (input * Interrupts.pt_regs) :=
  replicate 10 (Input 0 0, Interrupts.PtRegs 32 0 0) ++ (Input 0x1E 0, Interrupts.PtRegs 33 0 0) :: replicate 6 (Input 0 0, Interrupts.PtRegs 32 0 0).

Lemma clock_and_key_quiet : Forall quiet clock_and_key.
Proof. repeat constructor; discriminate. Qed.

Lemma distinct0 : distinct image0.
Proof. split; [|discriminate]. apply (bool_decide_unpack _). vm_compute. exact I. Qed.

Lemma kernel0_runs :
  exists k, kernel_main image0 loader0 1 10 kernel0 = Some k /\ running image0 (mode_info loader0) k
    /\ shows_text (mode_info loader0) k blank_page /\ Console.idle image0 k /\ Task.pid (Task.task (sched k) (Task.current_task (sched k))) = 0.
Proof.
  destruct (kernel_main_ok image0 loader0 0xC0101000 0xC01E8000 0x9000 boot0 (Pmm.MmapEntry 0x100000 0 0x8000000 0 1) 0 10 kernel0
    ltac:(lia) fresh0 image0_ok region0_ok screen0_ok) as (k & objs & E & R & S & _ & (_ & _ & P) & C & L & _).
  exists k. split; [exact E|]. split; [exact R|]. split; [exact S|]. split; [split; [exact L|]|exact P].
  rewrite C. apply TaskProofs.sti_interruptible.
Qed.

Lemma text_reaches_screen_witness :
  exists k k' q, kernel_main image0 loader0 1 10 kernel0 = Some k
    /\ interrupts image0 loader0 2 clock_and_key (main_terminal_write loader0 [65] k) = Some k'
    /\ screen_shows (mode_info loader0) k' q /\ pg_char q 0 0 = Some 65
    /\ keyboard k' = Keyboard.handle_all [0x1E] (keyboard k).
Proof.
  destruct kernel0_runs as (k & E & R & S & I & _).
  destruct (text_reaches_screen image0 loader0 2 k blank_page [65] clock_and_key (le_n 2) distinct0 R (proj2 I) S ascii_blank)
    as (k' & n & E2 & _ & _ & _ & D & K & _).
  - intros c ->%list_elem_of_singleton. lia.
  - exact clock_and_key_quiet.
  - apply Z.le_refl.
  - exists k, k', (written loader0 k [65] blank_page). split; [exact E|]. split; [exact E2|]. split; [exact D|]. split; [|exact K].
    unfold written. cbn [foldl]. unfold page_put. change (65 =? 10) with false. cbv iota zeta. destruct (_ =? _); reflexivity.
Defined.
