(* ===== verification/LoaderData.v ===== *)
(** * The data of the boot loader under the running kernel

    The kernel reads the memory map and the graphics mode through the pointer that
    [kernel_main_init] has set, again and again: at every use of a field.  Nothing
    the kernel writes lies there, so that each reading gives the values that the
    other files take as [loader]. *)

From S2P Require Import Prelude CString Pmm Machine Boot Multiboot Kernel KernelBoot KernelText Dispatch KernelRun.
From S2P Require Interrupts Layout Vbe TaskProofs GuiTerminal.

(** The data behind the pointer, with at most [fuel] entries. *)
Definition read_loader (fuel : nat) (ptr : Z) (m : memory) : option loader :=
  es ← mmap_entries fuel ptr m; Some (Loader es (vbe_mode_at ptr m)).

Lemma read_loader_ok m limit ptr mb es mi fuel :
  laid_out m limit ptr mb es mi -> (length es <= fuel)%nat ->
  read_loader fuel ptr m = Some (Loader (entry <$> es) (mode_of mi)).
Proof.
  intros L Hf. unfold read_loader. rewrite (read_map m limit ptr mb es mi L fuel Hf). cbn [mbind option_bind].
  rewrite (read_mode m limit ptr mb es mi L). reflexivity.
Qed.

(** ** The loops of [init_vbe], which read the mode at every pixel *)

Definition mode_behind (vbe_mode_info : Z) (m : memory) : Vbe.mode_info_block := mode_of (read_at mode_info_codec vbe_mode_info m).

Definition clear_screens_reading (vbe_mode_info vram buffer : Z) (m : memory) : memory :=
  let Xres := Vbe.Xres (mode_behind vbe_mode_info m) in
  let Yres := Vbe.Yres (mode_behind vbe_mode_info m) in
  for_loop (Z.to_nat Xres) 0
    (fun i m => for_loop (Z.to_nat Yres) 0
       (fun j m =>
          let m := Vbe.put_pixel vram i (Vbe.bpp (mode_behind vbe_mode_info m)) j (Vbe.pitch (mode_behind vbe_mode_info m)) 0xffffff m in
          Vbe.put_pixel buffer i (Vbe.bpp (mode_behind vbe_mode_info m)) j (Vbe.pitch (mode_behind vbe_mode_info m)) 0xffffff m) m) m.

Section clear.
Context (p vram buffer : Z) (mi : mode_info_block_t).
Let mode := mode_of mi.
Context (T1 : Vbe.true_color vram mode) (T2 : Vbe.true_color buffer mode) (Hf : fits mode_info_codec mi).
Context (Hp : 0 <= p /\ p + Z.of_nat (size mode_info_codec) <= vram /\ p + Z.of_nat (size mode_info_codec) <= buffer).

Definition mode_there (m : memory) : Prop := at_bytes m p (encode mode_info_codec mi).

Lemma mode_read m : mode_there m -> mode_behind p m = mode.
Proof.
  intros H. pose proof (Vbe.tc_base _ _ T1) as [B1 B2]. pose proof (Vbe.area_bounds _ _ (Vbe.tc_x _ _ T1) (Vbe.tc_y _ _ T1)).
  unfold mode_behind. rewrite (read_at_bytes _ p m mi Hf H) by lia. reflexivity.
Qed.

Lemma put_pixel_there base x y c m :
  Vbe.true_color base mode -> p + Z.of_nat (size mode_info_codec) <= base -> Vbe.in_screen mode x y ->
  mode_there m -> mode_there (Vbe.put_pixel base x (Vbe.bpp mode) y (Vbe.pitch mode) c m).
Proof.
  intros T Hb Hxy H. apply (at_bytes_ext m); [|exact H]. rewrite (encode_size mi Hf). intros a Ha.
  apply (Vbe.put_pixel_same base mode T x y c m Hxy). unfold Vbe.screen_bytes. lia.
Qed.

Lemma clear_screens_rereads m :
  mode_there m -> clear_screens_reading p vram buffer m = Vbe.clear_screens mode vram buffer m.
Proof.
  intros H. unfold clear_screens_reading, Vbe.clear_screens. rewrite (mode_read m H). cbv zeta.
  assert (0 <= Vbe.Xres mode /\ 0 <= Vbe.Yres mode) as [HX HY] by (destruct T1 as [_ _ ? ? _]; lia).
  refine (proj1 (for_loop_same mode_there _ _ _ _ _ H _)). intros i m1 Hi H1.
  apply (for_loop_same mode_there); [exact H1|]. intros j m2 Hj H2.
  assert (Vbe.in_screen mode i j) as Hij by (split; lia).
  rewrite (mode_read m2 H2). pose proof (put_pixel_there vram i j 0xffffff m2 T1 (proj1 (proj2 Hp)) Hij H2) as H3.
  rewrite (mode_read _ H3). split; [reflexivity|]. apply put_pixel_there; [exact T2|apply Hp|exact Hij|exact H3].
Qed.
End clear.

(** ** The running kernel *)

Section kept.
Context (im : image) (ld : loader).
Let limit := PAGE_OFFSET + kernel_end_phys im.

(** Text and interrupts only write behind the limit. *)
Lemma low_text m k text p :
  running im (mode_info ld) k -> shows_text (mode_info ld) k p -> ascii p -> (forall c, c ∈ text -> 0 <= c < 128) ->
  low_kept limit m k -> low_kept limit m (main_terminal_write ld text k).
Proof.
  intros RN ST Ha Ht [H [B1 B2]]. destruct (terminal_written im ld k text p RN ST Ht) as [_ Hm]. split; [|split; assumption].
  intros a Hlow. rewrite Hm; [apply H, Hlow|]. unfold Vbe.screen_bytes. lia.
Qed.

Lemma low_interrupts tv tt p l m k k' :
  after im (mode_info ld) tv tt p l k k' -> low_kept limit m k -> low_kept limit m k'.
Proof.
  intros A [H [B1 B2]]. pose proof (af_view _ _ _ _ _ _ _ _ A) as V. split.
  - intros a Hlow. rewrite (af_memory _ _ _ _ _ _ _ _ A); [apply H, Hlow|]. unfold Vbe.screen_bytes. lia.
  - rewrite (sv_vram _ _ V), (sv_buffer _ _ V). split; assumption.
Qed.

Lemma low_data ptr mb es mi m k :
  laid_out m limit ptr mb es mi -> low_kept limit m k -> laid_out (Vbe.pixels (video k)) limit ptr mb es mi.
Proof. intros L [H _]. apply (laid_out_ext m limit ptr mb es mi L). intros a Ha. apply H. lia. Qed.
End kept.

(** [C16] The values that the kernel takes from the boot loader are those that lie
    behind [global_multiboot_ptr], whenever it reads them: the loop over the memory map
    sees the entries in their order and ends, [kernel_main] on these values comes to its
    idle loop, the loops of [init_vbe], which read the mode at every pixel, do what
    they do with the mode read once, and the data is still there after any text and any
    interrupts that do not print. *)
Theorem loader_data_stays im tables stack loader_at b e depth fuel k0 mb es mi n tf :
  (10 <= fuel)%nat -> Z.of_nat fuel < 2 ^ 32 -> (2 <= tf)%nat -> (length es <= n)%nat -> distinct im ->
  fresh im tables stack loader_at b k0 -> image_ok im tables (mode_of mi) (Vbe.pixels (video k0)) ->
  region_ok (kernel_end_phys im) (entry <$> es) 18 e -> screen_ok (mode_of mi) ->
  let ptr := global_multiboot_ptr (kernel_main_init stack loader_at (pgd_k im) tables b) in
  laid_out (Vbe.pixels (video k0)) (PAGE_OFFSET + kernel_end_phys im) ptr mb es mi ->
  exists ld, read_loader n ptr (Vbe.pixels (video k0)) = Some ld /\ mmap ld = entry <$> es /\ mode_info ld = mode_of mi
    /\ exists k, kernel_main im ld (S depth) fuel k0 = Some k /\ read_loader n ptr (Vbe.pixels (video k)) = Some ld
    /\ clear_screens_reading (vbe_mode_info mb + PAGE_OFFSET) (Vbe.vram (video k)) (Vbe.vbe_buffer (video k)) (Vbe.pixels (video k0))
       = Vbe.clear_screens (mode_info ld) (Vbe.vram (video k)) (Vbe.vbe_buffer (video k)) (Vbe.pixels (video k0))
    /\ forall text l, (forall c, c ∈ text -> 0 <= c < 128) -> Forall quiet l ->
       exists k', interrupts im ld tf l (main_terminal_write ld text k) = Some k' /\ read_loader n ptr (Vbe.pixels (video k')) = Some ld.
Proof.
  intros Hf Hf2 Htf Hn Hd FR IM RG SC ptr L. set (ld := Loader (entry <$> es) (mode_of mi)).
  assert (forall k, low_kept (PAGE_OFFSET + kernel_end_phys im) (Vbe.pixels (video k0)) k -> read_loader n ptr (Vbe.pixels (video k)) = Some ld) as Hr
    by (intros k Hk; exact (read_loader_ok _ _ _ _ _ _ n (low_data im ptr mb es mi _ k L Hk) Hn)).
  exists ld. split; [exact (read_loader_ok _ _ _ _ _ _ n L Hn)|]. split; [reflexivity|]. split; [reflexivity|].
  destruct (kernel_main_ok im ld tables stack loader_at b e depth fuel k0 (conj Hf Hf2) FR IM RG SC)
    as (k & objs & E & RN & ST & _ & _ & Hc & _ & _ & Low & _).
  exists k. split; [exact E|]. split; [exact (Hr k Low)|]. split.
  - destruct (info_addresses _ _ _ _ _ _ L) as [_ A]. destruct L as [_ _ _ [M1 M2] _ (_ & M3 & _)].
    pose proof (lk_screens _ _ _ Low) as [B1 B2].
    apply (clear_screens_rereads _ _ _ mi); [apply (rn_screen _ _ _ RN)|exact (GuiTerminal.rd_screen _ _ _ _ _ _ (rn_ready _ _ _ RN))|exact M2| |exact M1].
    unfold PAGE_OFFSET in *. lia.
  - intros text l Ht Hl. pose proof (low_text im ld _ k text _ RN ST KernelText.ascii_blank Ht Low) as Low1.
    destruct (main_terminal_write_ok im ld k text _ RN ST KernelText.ascii_blank Ht) as [RN1 ST1].
    set (k1 := main_terminal_write ld text k) in *. pose proof (rn_clock _ _ _ RN1) as (tv & tt & CK).
    assert (interruptible k1 = true) as He by (unfold interruptible; change (sched k1) with (sched k); rewrite Hc; apply TaskProofs.sti_interruptible).
    destruct (interrupts_ok im ld (mode_info ld) tf tv tt Layout.blank_page Htf Hd l k1 RN1 CK He Hl) as (k' & E' & A).
    exists k'. split; [exact E'|]. exact (Hr k' (low_interrupts im ld _ _ _ _ _ _ _ A Low1)).
Qed.

(** ** An instance *)

(** The data of [loader0] where GRUB could put it. *)
Definition info0 : multiboot_t :=
  MultibootInfo 0x841 639 0x1FC00 0x8000FFFF 0 0 0 (replicate 16 0) 48 0xA000 0 0 0 0 0 0 0xB000 0 0 0 0 0 0 0 0 0 0 (replicate 6 0).
Definition entries0 : list mmap_entry := [Entry 20 (MmapEntry 0 0 0x9FC00 0 1); Entry 20 (MmapEntry 0x100000 0 0x8000000 0 1)].
Definition mode0 : mode_info_block_t :=
  ModeInfoBlock 0xFB 7 0 64 64 0xA000 0 0 256 64 16 8 16 1 32 1 6 0 0 0 8 16 8 8 8 0 8 24 0 0xFD000000 0 0.
Definition memory0 : memory :=
  lay 0xC0009000 (encode multiboot_codec info0)
    (lay 0xC000A000 (mjoin (encode mmap_entry_codec <$> entries0)) (lay 0xC000B000 (encode mode_info_codec mode0) font0)).
Definition kernel1 : kernel := set_pixels memory0 kernel0.

Lemma laid_out0 : laid_out memory0 0xC0300000 0xC0009000 info0 entries0 mode0.
Proof.
  split; try (split; [apply at_bytes_list; vm_compute; reflexivity|]).
  - cbn. unfold uint. cbn. repeat split; lia.
  - repeat constructor; cbn; unfold uint; cbn; lia.
  - reflexivity.
  - cbn. unfold uint. cbn. repeat split; lia.
  - split; vm_compute; discriminate.
  - repeat split; vm_compute; try discriminate; reflexivity.
Qed.

Lemma image1_ok : image_ok image0 0xC0101000 (mode_info loader0) memory0.
Proof. destruct image0_ok as [I1 I2 I3 I4 I5 _]. split; try assumption. split; vm_compute; repeat split; discriminate. Qed.

Lemma fresh_pixels im tables stack at' b m k : fresh im tables stack at' b k -> fresh im tables stack at' b (set_pixels m k).
Proof. intros [F1 F2 F3 F4 F5 F6]. split; assumption. Qed.

Lemma loader_data_stays_witness :
  exists ld k k', read_loader 5 0xC0009000 (Vbe.pixels (video kernel1)) = Some ld /\ kernel_main image0 ld 1 10 kernel1 = Some k
    /\ interrupts image0 ld 2 clock_and_key (main_terminal_write ld [65] k) = Some k'
    /\ read_loader 5 0xC0009000 (Vbe.pixels (video k')) = Some ld.
Proof.
  destruct (loader_data_stays image0 0xC0101000 0xC01E8000 0x9000 boot0 (MmapEntry 0x100000 0 0x8000000 0 1) 0 10 kernel1 info0 entries0 mode0 5 2
    ltac:(lia) ltac:(lia) (le_n 2) ltac:(simpl; lia) distinct0 (fresh_pixels _ _ _ _ _ _ _ fresh0) image1_ok region0_ok screen0_ok laid_out0)
    as (ld & E & _ & _ & k & Ek & _ & _ & H).
  destruct (H [65] clock_and_key) as (k' & E' & R).
  - intros c ->%list_elem_of_singleton. lia.
  - exact clock_and_key_quiet.
  - exists ld, k, k'. split; [exact E|]. split; [exact Ek|]. split; [exact E'|exact R].
Defined.
