(* ===== verification/KernelPrinting.v ===== *)
(** * Several tasks that print on the running kernel

    The tasks of PrintTasks on the kernel's own terminal and scheduler. *)

From S2P Require Import Prelude Layout Machine PrintfProofs PrintTasks PrintTasksProofs.
From S2P Require Import Kernel KernelBoot KernelText Console ConsoleProofs KernelRun.
From S2P Require GuiTerminal Vbe Sync Task Pmm Kmm Keyboard.

Section screen.
Context (im : image) (ld : loader) (k : kernel).

(** [putchar] of a byte of the piece. *)
Definition draw_char (c : Z) (g : GuiTerminal.gui) : GuiTerminal.gui :=
  GuiTerminal.main_terminal_write (mode_info ld) (Vbe.vbe_buffer (video k)) (Vbe.vram_size (video k)) (font k) (glyphs k) [s8 (u8 c)] g.

(** The kernel that the tasks have made of [k]. *)
Definition kernel_at (s : printing GuiTerminal.gui machine) : kernel :=
  set_printf_flags (flags s)
    (set_terminal (GuiTerminal.main_terminal (terminal s)) (set_pixels (GuiTerminal.mem (terminal s)) (set_sync (Sync.machine (cfg s)) k))).

Lemma draw_chars text g :
  foldl (flip draw_char) g text
  = GuiTerminal.main_terminal_write (mode_info ld) (Vbe.vbe_buffer (video k)) (Vbe.vram_size (video k)) (font k) (glyphs k) (s8 ∘ u8 <$> text) g.
Proof. revert g. induction text as [|c text IH]; intros g; [reflexivity|]. cbn [foldl]. rewrite IH. reflexivity. Qed.

Lemma ascii_chars text : Forall is_ascii text -> s8 ∘ u8 <$> text = text.
Proof.
  intros H. rewrite <- (list_fmap_id text) at 2. apply list_fmap_ext. intros i c Hc. unfold compose, id.
  assert (is_ascii c) as Ha by exact (proj1 (Forall_lookup _ _) H i c Hc). unfold is_ascii in Ha.
  unfold s8, u8. rewrite !Z.mod_mod, Z.mod_small by lia. rewrite (proj2 (Z.ltb_lt _ _)) by lia. reflexivity.
Qed.
End screen.

Lemma prefix_ascii l l' : l `prefix_of` l' -> Forall is_ascii l' -> Forall is_ascii l.
Proof. intros [x ->]. rewrite Forall_app. tauto. Qed.

Lemma printed_ascii t d l : (t, d) ∈ l -> Forall is_ascii (mjoin (printed_by t l)) -> Forall is_ascii d.
Proof.
  intros Hin H. apply Forall_forall. intros c Hc. apply (proj1 (Forall_forall _ _) H). apply list_elem_of_join.
  exists d. split; [exact Hc|]. unfold printed_by. apply list_elem_of_fmap. exists (t, d). split; [reflexivity|].
  apply list_elem_of_filter. auto.
Qed.

Lemma texts_ascii (texts : list (list token)) :
  Forall printable texts -> Forall (Forall plain) texts -> Forall is_ascii (mjoin (output_of <$> texts)).
Proof.
  intros H1 H2. apply Forall_join, Forall_fmap, Forall_forall. intros ts Hts.
  pose proof (proj1 (Forall_forall _ _) H1 ts Hts) as [Hok _]. exact (output_ascii ts Hok (proj1 (Forall_forall _ _) H2 ts Hts)).
Qed.

(** ** Properties *)

(** The tasks start on the kernel [k]. *)
Record on_kernel (k : kernel) (s : printing GuiTerminal.gui machine) : Prop := {
  ok_sync : Sync.machine (cfg s) = sync_of k;
  ok_flags : flags s = printf_flags k;
  ok_terminal : terminal s = GuiTerminal.Gui (main_terminal k) (Vbe.pixels (video k))
}.

(** The pieces in the log, and a piece in print, of tasks that print ASCII texts. *)
Lemma pieces_ascii {O W} tasks io_lock putc texts (s0 s : printing O W) part :
  unbegun s0 -> starts texts s0 -> (forall t, Forall (Forall plain) (texts t)) -> reaches tasks io_lock putc s0 s ->
  (part = [] \/ exists t d, io_lock ∈ Sync.held_by (cfg s) t /\ piece (thread_of s t) = Some d /\ part `prefix_of` d) ->
  Forall is_ascii (mjoin (snd <$> log s) ++ part).
Proof.
  intros U S0 Hpl R Hpart. pose proof (pieces_in_order tasks io_lock putc texts s0 s U S0 R) as Hrest.
  assert (forall t, Forall is_ascii (mjoin (output_of <$> texts t))) as Hall by (intros t; apply texts_ascii; [apply (st_texts _ _ S0)|apply Hpl]).
  apply Forall_app. split.
  - apply Forall_join, Forall_fmap, Forall_forall. intros [t d] Hin. destruct (Hrest t) as (rest & Er & _). specialize (Hall t).
    rewrite <- Er, Forall_app in Hall. exact (printed_ascii t d (log s) Hin (proj1 Hall)).
  - destruct Hpart as [->|(t & d & _ & Hd & Hp)]; [constructor|]. destruct (Hrest t) as (rest & Er & _ & Hpre). specialize (Hall t).
    rewrite <- Er, Forall_app in Hall. exact (prefix_ascii _ _ Hp (prefix_ascii _ _ (Hpre d Hd) (proj2 Hall))).
Qed.

(** [C8] Several tasks of the running kernel print at once, with ticks of the scheduler
    between any two steps.  Whatever they print, at any time a sequence of whole pieces
    is drawn behind what was there, and the beginning of the one that the task inside
    [io_lock] is printing; while the pieces are ASCII the kernel keeps running and the
    terminal shows this text.  If the tasks make calls of [printf] that
    [printf_correct] covers and that do not change the flags of the hexadecimal
    conversions, the pieces of each task come in its order and make up the text its
    calls stand for; if the text of the calls is ASCII, so is what is drawn. *)
Theorem tasks_print_whole im ld k p s0 s :
  running im (mode_info ld) k -> shows_text (mode_info ld) k p -> ascii p ->
  on_kernel k s0 -> unbegun s0 -> reaches (tasks im) (io_lock im) (draw_char ld k) s0 s ->
  exists part, let text := mjoin (snd <$> log s) ++ part in
    terminal s = foldl (flip (draw_char ld k)) (terminal s0) text
    /\ (part = [] \/ exists t d, io_lock im ∈ Sync.held_by (cfg s) t /\ piece (thread_of s t) = Some d /\ part `prefix_of` d)
    /\ (Forall is_ascii text ->
         running im (mode_info ld) (kernel_at k s) /\ shows_text (mode_info ld) (kernel_at k s) (written ld k text p))
    /\ (forall texts, starts texts s0 ->
         (forall t, exists rest, mjoin (printed_by t (log s)) ++ rest = mjoin (output_of <$> texts t)
            /\ (prog (thread_of s t) = [] -> rest = []))
         /\ ((forall t, Forall (Forall plain) (texts t)) -> Forall is_ascii text)).
Proof.
  intros RN ST Ha [_ _ K3] U R.
  destruct (pieces_whole (tasks im) (io_lock im) (draw_char ld k) s0 s U R) as (part & E & Hpart).
  exists part. cbv zeta. split; [exact E|]. split; [exact Hpart|]. split.
  - intros Ht. set (text := mjoin _ ++ part) in *. rewrite K3, draw_chars, (ascii_chars _ Ht) in E.
    destruct (main_terminal_write_ok im ld k text p RN ST Ha (fun c Hc => proj1 (Forall_forall _ _) Ht c Hc)) as [RN1 ST1].
    unfold kernel_at. rewrite E. split; [|exact ST1]. clearbody text.
    apply (running_ext im (mode_info ld) (set_sched (Sync.sch (Sync.machine (cfg s))) (main_terminal_write ld text k)));
      [reflexivity..|apply running_sched, RN1].
  - intros texts S0. split.
    + intros t. destruct (pieces_in_order _ _ _ texts s0 s U S0 R t) as (rest & Er & En & _). exists rest. auto.
    + intros Hpl. exact (pieces_ascii _ _ _ texts s0 s part U S0 Hpl R Hpart).
Qed.

(** ** An instance *)

(** [kernel_main] touches no lock. *)
Lemma kernel_main_locks im ld depth fuel k0 k : kernel_main im ld depth fuel k0 = Some k -> locks k = locks k0.
Proof.
  unfold kernel_main. cbv zeta. set (k1 := sti _). assert (locks k1 = locks k0) as <- by reflexivity. generalize k1. clear. intros k1.
  unfold init_memory. destruct (Pmm.init_normal_mem_zone _ _ _) as [p|]; [|discriminate]. cbn [mbind option_bind].
  set (k2 := set_machine _ k1). assert (locks k2 = locks k1) as <- by reflexivity. generalize k2. clear. intros k2.
  unfold init_heap. destruct (Kmm.init_kmm _) as [h|]; [|discriminate]. cbn [mbind option_bind].
  set (k3 := set_idt _ _). assert (locks k3 = locks k2) as <- by reflexivity. generalize k3. clear. intros k3.
  unfold start_schedule. destruct (Task.init_schedule _ _ _ _ _ _ _) as [ts|]; [|discriminate]. cbn [mbind option_bind].
  set (k4 := set_timer_list ts k3). assert (locks k4 = locks k3) as <- by reflexivity. generalize k4. clear. intros k4.
  unfold start_vbe. destruct (Vbe.init_vbe _ _ _ _) as [v|]; [|discriminate]. cbn [mbind option_bind].
  unfold start_keyboard. destruct (Keyboard.init_keyboard _ _ _ _) as [[[[b kb] i] s]|]; [|discriminate]. cbn [mbind option_bind].
  intros [= <-]. reflexivity.
Qed.

(** Two tasks at 1000 and 2000 on the lock and the run list of [image0]; the first
    prints ["a%d"] on 7, the second ["%s"] on ["xy"]. *)
Definition two_tasks {W} (w : W) : Sync.sync W :=
  let links := foldr Klist.INIT_LIST_HEAD ∅ [0xC01F0000; Sync.waiting_list 0xC01F1000] in
  Sync.Sync
    (Task.Sched Kmap.map_init 3 1000 2000 {[1000 := Task.set_pid 1 (@inhabitant _ Task.task_zero); 2000 := Task.set_pid 2 (@inhabitant _ Task.task_zero)]}
       (Klist.list_add_tail 2052 0xC01F0000 (Klist.list_add_tail 1052 0xC01F0000 links)) ∅ (Task.Context_ 0 0 0 0 0 0x202) w)
    {[0xC01F1000 := Sync.Lock 0 (-1)]} ∅.

Definition both_begin {O W} (fl : Printf.hex_flags) (o : O) (w : W) : printing O W :=
  Printing (Sync.Config (two_tasks w) ∅ ∅) fl o
    {[1000 := Thread (ops_of text1) new_frame 0; 2000 := Thread (ops_of text2) new_frame 0]} [].

(** Task 1000 prints ["a"]; a tick lets 2000 take the mutex and draw one of its two
    characters; 1000 finds the mutex taken and sleeps, 2000 goes on. *)
Definition contention : list move :=
  [Compute; Sys (Sync.Enter 0xC01F1000); Sys Sync.Test; Sys Sync.Take; Putc; Sys (Sync.Release 0xC01F1000); Sys Sync.Tick;
   Compute; Compute; Sys (Sync.Enter 0xC01F1000); Sys Sync.Test; Sys Sync.Take; Putc; Sys Sync.Tick;
   Compute; Sys (Sync.Enter 0xC01F1000); Sys Sync.Test; Sys Sync.Queue; Sys Sync.Sleep; Sys Sync.Yield].
(** 2000 finishes and wakes 1000, which prints ["7"]. *)
Definition completion : list move :=
  [Putc; Sys (Sync.Release 0xC01F1000); Sys Sync.Tick; Sys Sync.Test; Sys Sync.Take; Putc; Sys (Sync.Release 0xC01F1000)].

(** The states after the two parts, on any terminal. *)
Lemma contended_run {O W} fl putc (o : O) (w : W) :
  exists s1 s2, moves 0xC01F0000 0xC01F1000 putc contention (both_begin fl o w) = Some s1
    /\ moves 0xC01F0000 0xC01F1000 putc completion s1 = Some s2
    /\ 0xC01F1000 ∈ Sync.held_by (cfg s1) 2000
    /\ Task.state (Task.task (Sync.sch (Sync.machine (cfg s1))) 1000) = Task.TASK_SLEEPING
    /\ log s1 = [(1000, [97])] /\ sent (thread_of s1 2000) = 1%nat
    /\ log s2 = [(1000, [97]); (2000, [120; 121]); (1000, [55])]
    /\ terminal s2 = putc 55 (putc 121 (putc 120 (putc 97 o))) /\ prog (thread_of s2 1000) = [].
Proof.
  eexists _, _. split; [vm_compute; reflexivity|]. split; [vm_compute; reflexivity|].
  split; [apply (bool_decide_unpack _); vm_compute; exact I|]. repeat split; vm_compute; reflexivity.
Qed.

Lemma both_begin_thread {O W} fl (o : O) (w : W) t :
  thread_of (both_begin fl o w) t = Thread (if t =? 1000 then ops_of text1 else if t =? 2000 then ops_of text2 else []) new_frame 0.
Proof. exact (thread_two (ops_of text1) (ops_of text2) t). Qed.

Lemma both_begin_unbegun {O W} fl (o : O) (w : W) : unbegun (both_begin fl o w).
Proof.
  split; [split|reflexivity|].
  - intros t. split; [exact (lookup_total_empty (M := gmap Z) t)|exact (lookup_total_empty (M := gmap Z) t)].
  - intros l. unfold Sync.lock. cbn [both_begin cfg Sync.machine two_tasks Sync.locks].
    destruct (Z.eq_dec 0xC01F1000 l) as [<-|Hne]; [rewrite (lookup_total_singleton_eq (M := gmap Z)); reflexivity|].
    rewrite (lookup_total_singleton_ne (M := gmap Z)) by exact Hne. reflexivity.
  - intros t. rewrite both_begin_thread. reflexivity.
Qed.

Lemma both_begin_starts {O W} fl (o : O) (w : W) : starts texts0 (both_begin fl o w).
Proof.
  split; [|exact (st_texts _ _ both_print_starts)]. intros t. rewrite both_begin_thread. unfold texts0. cbn [prog].
  destruct (t =? 1000); [|destruct (t =? 2000)]; (split; [vm_compute; reflexivity|]);
    [change (ops_of text1) with [Begin; Send [97]; Dec 7; SendStr]|change (ops_of text2) with [Begin; Point [120; 121]; SendStr]|]; repeat constructor.
Qed.

Lemma texts0_plain t : Forall (Forall plain) (texts0 t).
Proof. unfold texts0. destruct (t =? 1000); [|destruct (t =? 2000)]; repeat constructor; discriminate. Qed.

(** The two tasks on the kernel that [kernel_main] has started: in the middle of the
    contention the terminal shows ["a"] and the beginning of ["xy"]; at the end every
    piece is whole and task 1000 has printed ["a7"]. *)
Lemma tasks_print_whole_witness :
  exists k1, kernel_main image0 loader0 1 10 kernel0 = Some k1 /\
  let k := set_sync (two_tasks (machine_of k1)) k1 in
  exists s1 s2 part, reaches (tasks image0) (io_lock image0) (draw_char loader0 k)
        (both_begin (printf_flags k) (GuiTerminal.Gui (main_terminal k) (Vbe.pixels (video k))) (machine_of k1)) s1
    /\ io_lock image0 ∈ Sync.held_by (cfg s1) 2000
    /\ Task.state (Task.task (Sync.sch (Sync.machine (cfg s1))) 1000) = Task.TASK_SLEEPING
    /\ shows_text (mode_info loader0) (kernel_at k s1) (written loader0 k ([97] ++ part) blank_page)
    /\ reaches (tasks image0) (io_lock image0) (draw_char loader0 k) s1 s2
    /\ log s2 = [(1000, [97]); (2000, [120; 121]); (1000, [55])]
    /\ mjoin (printed_by 1000 (log s2)) = mjoin (output_of <$> texts0 1000)
    /\ running image0 (mode_info loader0) (kernel_at k s2).
Proof.
  destruct kernel0_runs as (k1 & E & RN1 & ST & _). exists k1. split; [exact E|].
  cbv zeta. set (k := set_sync (two_tasks (machine_of k1)) k1).
  assert (running image0 (mode_info loader0) k) as RN.
  { apply (running_ext image0 (mode_info loader0) (set_sched (Sync.sch (two_tasks (machine_of k1))) k1)); [reflexivity..|].
    apply running_sched, RN1. }
  change (shows_text (mode_info loader0) k blank_page) in ST.
  set (s0 := both_begin (printf_flags k) (GuiTerminal.Gui (main_terminal k) (Vbe.pixels (video k))) (machine_of k1)).
  assert (on_kernel k s0) as K0 by (split; reflexivity).
  pose proof (both_begin_unbegun (printf_flags k) (GuiTerminal.Gui (main_terminal k) (Vbe.pixels (video k))) (machine_of k1)) as U. fold s0 in U.
  pose proof (both_begin_starts (printf_flags k) (GuiTerminal.Gui (main_terminal k) (Vbe.pixels (video k))) (machine_of k1)) as S0. fold s0 in S0.
  destruct (contended_run (printf_flags k) (draw_char loader0 k) (GuiTerminal.Gui (main_terminal k) (Vbe.pixels (video k))) (machine_of k1))
    as (s1 & s2 & M1 & M2 & H1 & H2 & L1 & _ & L2 & _ & P2). fold s0 in M1. clearbody s0.
  change 0xC01F0000 with (tasks image0) in M1, M2. change 0xC01F1000 with (io_lock image0) in M1, M2, H1.
  pose proof (moves_reach _ _ _ _ _ _ _ (reaches_start _ _ _ s0) M1) as R1.
  pose proof (moves_reach _ _ _ _ _ _ _ (reaches_start _ _ _ s1) M2) as R12.
  pose proof (moves_reach _ _ _ _ _ _ _ R1 M2) as R2.
  destruct (tasks_print_whole image0 loader0 k blank_page s0 s1 RN ST ascii_blank K0 U R1) as (part & _ & _ & D1 & T1).
  destruct (tasks_print_whole image0 loader0 k blank_page s0 s2 RN ST ascii_blank K0 U R2) as (part2 & _ & _ & D2 & T2).
  exists s1, s2, part. split; [exact R1|]. split; [exact H1|]. split; [exact H2|]. split.
  { destruct (D1 (proj2 (T1 texts0 S0) texts0_plain)) as [_ G]. rewrite L1 in G. exact G. }
  split; [exact R12|]. split; [exact L2|]. destruct (T2 texts0 S0) as [O2 A2]. split.
  - destruct (O2 1000) as (rest & Er & En). rewrite (En P2), app_nil_r in Er. exact Er.
  - exact (proj1 (D2 (A2 texts0_plain))).
Defined.
