(* ===== verification/KernelReports.v ===== *)
(** * What the running kernel reports

    [printf] and what the kernel says with it, on a kernel that [kernel_main] has
    started: the text is on the terminal, and for a page fault on the screen. *)

From stdpp Require Import strings.
From S2P Require Import Prelude CString Layout Machine Printf PrintfProofs Kernel KernelBoot KernelText Console ConsoleProofs Dispatch KernelRun.
From S2P Require Pmm Interrupts Task Vbe GuiTerminal Sync.

Section shows.
Context (im : image) (ld : loader) (k : kernel) (p : page).
Let mode := mode_info ld.
Context (RN : running im mode k) (ST : shows_text mode k p) (Ha : ascii p) (Hi : idle im k).

(** The kernel after [text] has been printed, with nothing else changed. *)
Record shown (text : list Z) (k' : kernel) : Prop := {
  sw_running : running im mode k';
  sw_text : shows_text mode k' (written ld k text p);
  sw_idle : idle im k';
  sw_tasks : sched k' = sched k;
  sw_locks : locks k' = locks k;
  sw_keyboard : keyboard k' = keyboard k
}.

Lemma said_shown text k' : said ld text k k' -> Forall is_ascii text -> shown text k'.
Proof.
  intros S Ht. destruct (said_shows im ld text k k' p S Ht RN ST Ha) as [R2 S2].
  split; [exact R2|exact S2|exact (said_idle im ld _ _ _ S Hi)| | |]; destruct S as [fl ->]; reflexivity.
Qed.
End shows.

(** [C15] [printf] on the running kernel, with nobody else printing, for formats made
    of text, [%%], [%d], [%s] and the hexadecimal directives with the arguments these
    take, when the text they stand for is ASCII: it takes the lock for every piece,
    draws the text behind what the terminal shows, gives the lock back, returns the
    number of characters, and leaves tasks and keyboard alone.  [%c] is not among
    them: it prints the last string again
    ([PrintfProofs.char_prints_last_string_again]). *)
Theorem printf_shows im ld k p ts :
  running im (mode_info ld) k -> shows_text (mode_info ld) k p -> ascii p -> idle im k ->
  tokens_ok ts -> Forall plain ts -> Z.of_nat (length (output_of ts)) <= INT_MAX ->
  exists k', Console.printf im ld (format_of ts) (args_of ts) k = Some (Z.of_nat (length (output_of ts)), k')
    /\ shown im ld k p (output_of ts) k'.
Proof.
  intros RN ST Ha Hi Hok Hp Hl. destruct (printf_said im ld ts k Hok Hl Hi) as (k' & E & S).
  exists k'. split; [exact E|]. exact (said_shown im ld k p RN ST Ha Hi _ k' S (output_ascii ts Hok Hp)).
Qed.

(** [show_memory_map] prints one line for every region that the boot loader
    reported, with base, length and type in hexadecimal. *)
Lemma memory_map_shows im ld k p :
  running im (mode_info ld) k -> shows_text (mode_info ld) k p -> ascii p -> idle im k -> Forall entry_ok (mmap ld) ->
  exists k', show_memory_map im ld k = Some k' /\ shown im ld k p (memory_map (mmap ld)) k'.
Proof.
  intros RN ST Ha Hi Hm. destruct (memory_map_prints im ld Hm k Hi) as (k' & E & S & _).
  exists k'. split; [exact E|]. exact (said_shown im ld k p RN ST Ha Hi _ k' S (memory_map_ascii _ Hm)).
Qed.

(** The digits of the two words of an address run together: these regions, 16
    bytes above 4 GiB and at 68 GiB, have the same line. *)
Lemma memory_map_ambiguous :
  entry_line (Pmm.MmapEntry 0x10 0x1 1 0 1) = entry_line (Pmm.MmapEntry 0 0x11 1 0 1).
Proof. vm_compute. reflexivity. Qed.

(** ** The first words of a report

    A handler starts with interrupts disabled, which taking a lock does anyway. *)

Lemma print_masked im ld d k : Console.print im ld d (masked k) = Console.print im ld d k.
Proof.
  unfold Console.print. assert (Sync.asm_cli (sync_of (masked k)) = Sync.asm_cli (sync_of k)) as Ea.
  { unfold sync_of, Sync.asm_cli, Sync.set_sch, masked. cbn [Sync.sch Sync.locks Sync.queues]. change (sched (set_sched ?s k)) with s.
    change (Task.cpu (Task.set_cpu ?c ?s)) with c. rewrite cli_twice. reflexivity. }
  unfold Sync.mutex_acquire. rewrite Ea. reflexivity.
Qed.

Lemma say_masked im ld c fmt args k :
  c <> chr_percent -> Z.of_nat (S (length fmt)) <= INT_MAX -> say im ld (c :: fmt) args (masked k) = say im ld (c :: fmt) args k.
Proof.
  intros Hc Hl. unfold say, Console.printf. change (printf_flags (masked k)) with (printf_flags k).
  rewrite (printf_first (H := console im ld) c fmt args _ (masked k) k Hc Hl (fun d => print_masked im ld d k)). reflexivity.
Qed.

Lemma report_masked im ld pid cr2 regs k : report_fault im ld pid cr2 regs (masked k) = report_fault im ld pid cr2 regs k.
Proof.
  unfold report_fault. cbv zeta. change (line "At thread PID = %d:") with (65 :: tail (line "At thread PID = %d:")).
  rewrite say_masked; [reflexivity|discriminate|]. vm_compute. discriminate.
Qed.

(** [C4] A page fault is reported on the screen: the handler, which starts with
    interrupts disabled, prints where the fault happened and what the bits of the
    processor's error code say, on a kernel in which nobody else prints, and loops.
    Releasing the lock of [printf] has enabled interrupts; after sixteen more ticks
    of the clock the report is on the screen. *)
Theorem fault_reaches_screen im ld timers_fuel k p i regs l :
  let pid := Task.pid (Task.task (sched k) (Task.current_task (sched k))) in
  let report := fault_report pid (cr2 i) (Interrupts.eip regs) (Interrupts.err_code regs) in
  (2 <= timers_fuel)%nat -> distinct im -> running im (mode_info ld) k -> idle im k ->
  shows_text (mode_info ld) k p -> ascii p -> vector regs = 14 ->
  - 2 ^ 31 <= pid < 2 ^ 31 -> in_u32 (cr2 i) -> in_u32 (Interrupts.eip regs) -> in_u32 (Interrupts.err_code regs) ->
  Forall quiet l -> 16 <= ticks l ->
  exists k', interrupts im ld timers_fuel ((i, regs) :: l) k = Some k'
    /\ running im (mode_info ld) k' /\ screen_shows (mode_info ld) k' (written ld k report p).
Proof.
  intros pid report Hf Hd RN Hi ST Ha Hv Hp H1 H2 H3 Hl H16.
  set (k1 := set_idt (Interrupts.isr_handler regs (idt k)) k).
  pose proof (running_ext im (mode_info ld) k k1 eq_refl eq_refl eq_refl (isr_handlers regs _) RN) as RN1.
  pose proof (fault_report_ascii _ _ _ _ Hp H1 H2 H3) as Hr. fold report in Hr.
  destruct (report_prints im ld pid (cr2 i) regs Hp H1 H2 H3 k1 Hi) as (k2 & E & S & I2). fold report in S.
  destruct (said_shows im ld report k1 k2 p S Hr RN1 ST Ha) as [RN2 ST2].
  destruct (shown_reaches_screen im ld timers_fuel k2 (written ld k report p) l Hf Hd RN2 (proj2 I2) ST2) as (k' & n & E2 & RN3 & _ & _ & D & _);
    [|exact Hl|exact H16|].
  { apply ascii_text; [|exact Ha]. intros c Hc. exact (proj1 (Forall_forall _ _) Hr c Hc). }
  exists k'. split; [|split; [exact RN3|exact D]].
  cbn [interrupts]. rewrite (interrupt_calls im ld (mode_info ld) timers_fuel Hd i regs k RN (proj2 Hi)), Hv. cbv zeta. fold k1. cbn [Z.eqb Pos.eqb].
  change (Console.page_fault im ld (cr2 i) regs (masked k1)) with (report_fault im ld pid (cr2 i) regs (masked k1)).
  rewrite report_masked, E. exact E2.
Qed.

(** ** Witnesses *)

Lemma sample_ok : tokens_ok sample.
Proof.
  unfold sample, tokens_ok, token_ok. repeat split; try lia; try discriminate; apply (bool_decide_unpack _); vm_compute; exact I.
Qed.

Lemma loader0_entries : Forall entry_ok (mmap loader0).
Proof. repeat constructor; vm_compute; congruence. Qed.

Lemma printf_shows_witness :
  exists k k', kernel_main image0 loader0 1 10 kernel0 = Some k
    /\ Console.printf image0 loader0 (format_of sample) (args_of sample) k = Some (27, k')
    /\ shown image0 loader0 k blank_page (output_of sample) k'.
Proof.
  destruct kernel0_runs as (k & E & R & S & I & _).
  destruct (printf_shows image0 loader0 k blank_page sample R S ascii_blank I) as (k' & E2 & S2).
  - exact sample_ok.
  - repeat constructor; vm_compute; congruence.
  - vm_compute. discriminate.
  - exists k, k'. split; [exact E|]. split; [exact E2|exact S2].
Defined.

Lemma memory_map_shows_witness :
  exists k k', kernel_main image0 loader0 1 10 kernel0 = Some k
    /\ show_memory_map image0 loader0 k = Some k' /\ shown image0 loader0 k blank_page (memory_map (mmap loader0)) k'.
Proof.
  destruct kernel0_runs as (k & E & R & S & I & _).
  destruct (memory_map_shows image0 loader0 k blank_page R S ascii_blank I loader0_entries) as (k' & E2 & S2).
  exists k, k'. split; [exact E|]. split; [exact E2|exact S2].
Defined.

(** A write to an absent page at 0xABC. *)
Lemma fault_reaches_screen_witness :
  exists k k', kernel_main image0 loader0 1 10 kernel0 = Some k
    /\ interrupts image0 loader0 2 ((Input 0 0xABC, Interrupts.PtRegs 14 2 0xC0100000) :: clock_and_key) k = Some k'
    /\ screen_shows (mode_info loader0) k' (written loader0 k (ConsoleProofs.fault_report 0 0xABC 0xC0100000 2) blank_page).
Proof.
  destruct kernel0_runs as (k & E & R & S & I & P).
  destruct (fault_reaches_screen image0 loader0 2 k blank_page (Input 0 0xABC) (Interrupts.PtRegs 14 2 0xC0100000) clock_and_key (le_n 2) distinct0 R I S ascii_blank)
    as (k' & E2 & _ & D).
  - reflexivity.
  - rewrite P. lia.
  - vm_compute. split; congruence.
  - vm_compute. split; congruence.
  - vm_compute. split; congruence.
  - exact clock_and_key_quiet.
  - apply Z.le_refl.
  - exists k, k'. split; [exact E|]. split; [exact E2|]. rewrite P in D. exact D.
Defined.
